(* ===== verification/_CoqProject ===== *)
-Q . S2P
Prelude.v
JsNumber.v
JsNumberFacts.v
JsString.v
JsNumberArith.v
JsRegex.v
JsValue.v
Runtime.v
EventLoop.v
Node.v
Wallet.v
WalletFacts.v
DashboardServer.v
DashboardFacts.v
DashboardRaces.v
RecentBlocks.v
Controller.v
ControllerFacts.v
ControllerRaces.v
PlainServer.v
WalletContract.v
ReleaseServer.v
DesktopServer.v
DesktopMain.v
MainFacts.v
PlainFacts.v
SendFacts.v
I18n.v
I18nFacts.v
I18nRoundTrip.v
