(* ===== verification/Prelude.v ===== *)
(** * Verification of the COCAINE node dashboards

    The repository is a cryptocurrency node forked from Monero with, around it,
    a set of Node.js programs that operate it for a user: they start and stop
    the daemon and the miner, drive the wallet over JSON-RPC and serve the pages
    that show it all.  The node itself is C++ inherited from Monero; the project's
    own code is those programs.  This library models them, and the loader of
    translations.

    ** The program's parts and where they are modelled

    - dashboard/server.js, the web server of the dashboard on port 8080: daemon
      control, block explorer, mining with XMRig or with the daemon, the wallet.
      [DashboardServer]; theorems in [DashboardFacts], [RecentBlocks] and
      [DashboardRaces].
    - dashboard/controller.js, the process controller on port 8787.
      [Controller]; theorems in [ControllerFacts] and [ControllerRaces].
    - release/dashboard/server.js and desktop-app/server.js, the servers of the
      release and of the desktop application.  What they share is [PlainServer];
      each one's constants, endpoints and routes are [ReleaseServer] and
      [DesktopServer]; theorems in [PlainFacts].
    - The endpoints under /api/wallet, whose text is the same in the three
      servers up to the wallet names that open accepts, the ring size and the
      consolidation of the desktop application: [Wallet], over the interface
      [WalletServer] that each server instantiates with its own variables;
      theorems in [WalletFacts], [WalletContract] and [SendFacts].
    - desktop-app/main.js, the main process of the desktop application:
      [DesktopMain]; theorems in [MainFacts].
    - src/common/i18n.cpp, which chooses the language, finds and parses the
      compiled catalogue and looks messages up: [I18n]; theorems in [I18nFacts]
      and [I18nRoundTrip].

    A handler of the source is a definition of the same name ([api_wallet_send]
    for POST /api/wallet/send); the variables of a module are the record [vars]
    of its file; the routes are the type [request] and the function [handler].

    ** The language and its runtime

    [JsNumber] has the Number type: binary64 values with one rounding function
    from exact fractions, on which the arithmetic, parseFloat, parseInt, String
    and toFixed are built; [JsNumberFacts] and [JsNumberArith] prove what the
    programs use of it.  [JsString], [JsRegex] and [JsValue] have the string
    methods, the regular expressions (a backtracking matcher with greedy and
    lazy repetition and groups, sound and complete for the relation of
    matching) and JSON values with property access, conversions and spreads.  A
    string has one [ascii] per code unit; code units beyond 255 are outside the
    model.

    [Runtime] gives handlers their meaning.  A handler is a tree of interactions
    ([prog]): reads and writes of the module's variables, synchronous calls
    (files, child processes, the response), awaits (requests, timers, commands)
    and callbacks.  What Express, node-fetch, Electron, the file system, the
    daemon and the wallet RPC answer is not assumed: the logics quantify over
    every answer.  An operation may also never complete ([Hang]), which is how the
    desktop application's own fetch treats a body that is cut off ([fetcher],
    [do_fetch]).  An ['error'] event of a child or stream without a listener is a
    callback that throws ([unlistened]).  There are four ways to speak of a tree:
    - [counts], how many operations of a kind every path performs, with [rules] that
      say what is counted, which answers are admitted, and whether a path may hang
      or crash; [responds] and [rejects] are built on it.  Its [mode] says which
      bodies of responses are considered: all of them where none may hang
      ([Strict]), whole ones ([Whole]), or all of them where a path may hang
      ([CutOff]);
    - [always], a property of every operation on every path;
    - [run], the executable run of one handler against an environment [env];
      [finishes] is its success form;
    - [EventLoop], the concurrent semantics: the variables, the child processes
      the operating system runs, and the tasks that wait, with [step] for a new
      request, a resumed task or the end of a child.  Between two awaits a handler
      is not interrupted.  A callback that throws ends the process ([g_up]) or, as
      with Electron's handler of uncaught exceptions, does not: both are steps.
      [yields] and [stable] are the proof rules for invariants
      that hold at every await, [invariant_reachable] their soundness.

    [Node] has what the servers share: path.join, JSON-RPC calls, and the tactics
    [count_paths], [always_paths] and [stable_paths] that walk a handler.

    ** What the theorems show

    - Payments.  An amount with up to twelve decimals, below 2^52 atomic units,
      is sent as exactly that many atomic units or one less
      ([send_amount]); whole coins, halves, quarters and so on are sent exactly
      ([send_exact]), and the example [send_one_short] shows the loss for 8.2 coins;
      no path pays twice ([send_pays_at_most_once]).
    - The wallet.  The current wallet follows the verdict of the wallet RPC
      ([wallet_tracking], against the specification [track]) but for a close that
      it refuses ([refused_close_forgets]); the list shows the wallets of the
      directory ([wallet_list_names], and [wallet_list_mangles] for names that
      contain .keys).
    - Responses.  Every request to the four servers is answered exactly once on
      every path along which the awaited operations complete
      ([dashboard_responds_once] and its companions); the statements name the
      requests that are rejected, those that the crash of a child or stream can
      cut short, and, for the desktop application, those that a cut-off body
      leaves waiting.  [missing_daemon_crashes] is an execution with such a crash.
    - Processes.  At most one wallet RPC runs, under every interleaving
      ([release_one_wallet_rpc], [desktop_one_wallet_rpc]); restarting the miner
      can lose it ([restart_loses_miner], [controller_loses_miner]); the desktop
      application starts the daemon once, waits for it a bounded time, opens its
      window, and stops the process it started ([start_daemon_waits],
      [start_daemon_bounds], [window_opens_once], [stop_daemon_signals]).
    - Reach.  The authority of every requested URL, as [authority] reads it off
      the URL, is this machine's, or the seed node's for the desktop application
      ([dashboard_loopback_only], [desktop_known_hosts]); the log
      endpoint passes nothing to the shell but a number ([daemon_logs_inert]).
    - Views.  The blocks, rates, logs and search results shown are those of the
      daemon and of the files ([recent_blocks_listed], [xmrig_log_read],
      [daemon_logs_tail], [miner_scan], [find_xmrig_found]).
    - Translations.  The loader stays inside the file and ends on every input
      ([load_qm_safe]), recovers what was compiled ([load_qm_roundtrip]), converts
      the basic multilingual plane exactly ([utf16_bmp]) and everything beyond it
      wrongly ([utf16_supplementary_wrong]).  Indices are kept in 32 bits
      ([to_uint32]) and lookups cut at a null character ([c_str]), as in the code;
      what was compiled is what a lookup
      gives ([translate_after_load]); a regional language falls back on its language
      ([set_language_fallback]); the language cannot name a file outside the
      directory ([language_plain]).

    ** Fuel and bounds

    Loops are structural but for these: the digits of an integer take as many
    steps as it has binary digits ([dec_aux], shown sufficient by [dec_aux_fuel]
    and [fuel_bound]); the shortest decimal takes at most seventeen digits
    ([shortest]); the block loop runs at most twenty times because of the
    minimum in the code ([recent_loop], shown by [recent_loop_views]); the
    loader's loops advance at least one byte, so the length of the file is
    enough ([scan_chunks], [read_entry], shown by [load_qm_safe]).

    ** What is not modelled

    The C++ node, wallet and cryptography, which the programs see only through
    JSON-RPC; the HTML pages and their scripts; the window options of the
    desktop application; console output; HTTP headers.  The translation
    catalogues are XML data, compiled by lrelease; that tool is represented by
    the layout of its output, which i18n.cpp documents.  A spawn either throws or
    gives a child that runs or reports its failure by an ['error'] event; an
    ['error'] event of a child that did start (a signal that cannot be sent) is
    left out, and so is a spawn for which no file descriptors are left.  That a promise of node-fetch settles is not proved: the theorems
    on responses speak of the paths along which it does.  Still open in this
    library: the status endpoint of the controller and the displayed balances. *)

From Stdlib Require Import ZArith Lia String Ascii List Bool.
From stdpp Require Import base list strings decidable option.

(** ** Hint databases of the development *)

Create HintDb js.

#[global] Arguments String.append !s1 s2 : simpl nomatch.

(** ** Characters and strings

    A JavaScript string is a sequence of code units.  The strings the
    dashboards handle (JSON-RPC member names, addresses, file names, log lines)
    are modelled with one [ascii] per code unit. *)

Definition code (c : ascii) : Z := Z.of_N (N_of_ascii c).

Definition is_digit (c : ascii) : bool :=
  (48 <=? code c)%Z && (code c <=? 57)%Z.

Definition digit_val (c : ascii) : Z := (code c - 48)%Z.

(** [\t \n \v \f \r], space and no-break space: the members of the
    WhiteSpace and LineTerminator productions below code unit 256. *)
Definition is_space (c : ascii) : bool :=
  ((9 <=? code c)%Z && (code c <=? 13)%Z) || (code c =? 32)%Z || (code c =? 160)%Z.

Definition ascii_of_Z (z : Z) : ascii := ascii_of_N (Z.to_N z).

Lemma code_ascii_of_Z z : (0 <= z < 256)%Z -> code (ascii_of_Z z) = z.
Proof.
  intros Hz. unfold code, ascii_of_Z. rewrite N_ascii_embedding by lia. lia.
Qed.

Fixpoint string_forall (p : ascii -> bool) (s : string) : bool :=
  match s with
  | EmptyString => true
  | String c s' => p c && string_forall p s'
  end.

Lemma string_forall_app p s1 s2 :
  string_forall p (s1 ++ s2) = string_forall p s1 && string_forall p s2.
Proof.
  induction s1 as [|c s1 IH]; simpl; [done|]. by rewrite IH, andb_assoc.
Qed.

Lemma string_forall_impl (p q : ascii -> bool) s :
  (forall c, p c = true -> q c = true) ->
  string_forall p s = true -> string_forall q s = true.
Proof.
  intros Hpq. induction s as [|c s IH]; simpl; [done|].
  rewrite !andb_true_iff. intros [Hc Hs]. auto.
Qed.

Lemma string_app_nil_r (s : string) : (s ++ "")%string = s.
Proof. induction s as [|c s IH]; simpl; [done|]. by rewrite IH. Qed.

Lemma string_app_assoc (s1 s2 s3 : string) :
  ((s1 ++ s2) ++ s3 = s1 ++ (s2 ++ s3))%string.
Proof. induction s1 as [|c s1 IH]; simpl; [done|]. by rewrite IH. Qed.

(** [s.startsWith(p)], returning what follows the prefix. *)
Fixpoint strip_prefix (p s : string) : option string :=
  match p, s with
  | EmptyString, _ => Some s
  | String a p', String b s' => if Ascii.eqb a b then strip_prefix p' s' else None
  | String _ _, EmptyString => None
  end.

Lemma strip_prefix_app p s : strip_prefix p (p ++ s) = Some s.
Proof. induction p as [|a p IH]; simpl; [done|]. by rewrite Ascii.eqb_refl. Qed.

(** [s.includes(p)]. *)
Fixpoint includes (p s : string) : bool :=
  match strip_prefix p s with
  | Some _ => true
  | None => match s with EmptyString => false | String _ s' => includes p s' end
  end.

(** ** Integers *)

