(* ===== verification/JsNumber.v ===== *)
(** * JavaScript numbers

    The Number type of ECMAScript: IEEE 754 binary64 with one rounding function
    from exact rationals ("the Number value for x"), the arithmetic the
    dashboards use ([*], [/], [+], [-], [<], [Math.floor], [Math.min],
    [Math.max]), and the conversions between numbers and text: [parseInt],
    [parseFloat], [Number.prototype.toString] and [toFixed]. *)

From Stdlib Require Import ZArith Lia String Ascii List Bool.
From Stdlib Require Import Floats.SpecFloat.
From stdpp Require Import base list strings decidable option.
From S2P Require Import Prelude.

Local Open Scope Z_scope.

(** The four kinds of binary64 data: signed zeros, infinities, NaN, and
    [(-1)^s * m * 2^e]. *)
Definition num : Type := spec_float.

#[export] Instance num_eq_dec : EqDecision num.
Proof. solve_decision. Defined.

(** ** Rounding an exact rational to binary64, ties to even *)

Definition rne (n d : Z) : Z :=
  let q := n / d in
  let r := n mod d in
  if 2 * r <? d then q
  else if d <? 2 * r then q + 1
  else if Z.even q then q else q + 1.

(** [floor (log2 (p / q))]. *)
Definition qlog2 (p q : positive) : Z :=
  let e := Z.log2 (Zpos p) - Z.log2 (Zpos q) in
  if Zpos p * 2 ^ Z.max 0 (- e) <? Zpos q * 2 ^ Z.max 0 e then e - 1 else e.

(** The exponent of the unit in the last place, subnormals included. *)
Definition ulp_exp (p q : positive) : Z := Z.max (qlog2 p q - 52) (-1074).

Definition scaled (p q : positive) (e : Z) : Z :=
  rne (Zpos p * 2 ^ Z.max 0 (- e)) (Zpos q * 2 ^ Z.max 0 e).

Definition pack (s : bool) (m e : Z) : num :=
  match m with
  | Zpos m' => if e <=? 971 then S754_finite s m' e else S754_infinity s
  | _ => S754_zero s
  end.

(** The Number value for [(-1)^s * p / q]. *)
Definition num_of_Q (s : bool) (p q : positive) : num :=
  let e := ulp_exp p q in
  let m := scaled p q e in
  if m =? 2 ^ 53 then pack s (2 ^ 52) (e + 1) else pack s m e.

Definition num_of_Z (z : Z) : num :=
  match z with
  | Z0 => S754_zero false
  | Zpos p => num_of_Q false p 1
  | Zneg p => num_of_Q true p 1
  end.

(** The Number value for [(-1)^s * p * 2^e]. *)
Definition num_of_dyadic (s : bool) (p : positive) (e : Z) : num :=
  if 0 <=? e then num_of_Q s (p * Z.to_pos (2 ^ e)) 1
  else num_of_Q s p (Z.to_pos (2 ^ (- e))).

Definition NaN : num := S754_nan.
Definition n0 : num := S754_zero false.

Definition is_nan (x : num) : bool :=
  match x with S754_nan => true | _ => false end.

(** ** Arithmetic *)

Definition num_mul (x y : num) : num :=
  match x, y with
  | S754_nan, _ | _, S754_nan => S754_nan
  | S754_infinity _, S754_zero _ | S754_zero _, S754_infinity _ => S754_nan
  | S754_infinity sx, S754_infinity sy
  | S754_infinity sx, S754_finite sy _ _
  | S754_finite sx _ _, S754_infinity sy => S754_infinity (xorb sx sy)
  | S754_zero sx, S754_zero sy
  | S754_zero sx, S754_finite sy _ _
  | S754_finite sx _ _, S754_zero sy => S754_zero (xorb sx sy)
  | S754_finite sx mx ex, S754_finite sy my ey =>
      num_of_dyadic (xorb sx sy) (mx * my) (ex + ey)
  end.

Definition num_div (x y : num) : num :=
  match x, y with
  | S754_nan, _ | _, S754_nan => S754_nan
  | S754_infinity _, S754_infinity _ | S754_zero _, S754_zero _ => S754_nan
  | S754_infinity sx, S754_zero sy
  | S754_infinity sx, S754_finite sy _ _
  | S754_finite sx _ _, S754_zero sy => S754_infinity (xorb sx sy)
  | S754_zero sx, S754_infinity sy
  | S754_zero sx, S754_finite sy _ _
  | S754_finite sx _ _, S754_infinity sy => S754_zero (xorb sx sy)
  | S754_finite sx mx ex, S754_finite sy my ey =>
      let d := ex - ey in
      num_of_Q (xorb sx sy) (mx * Z.to_pos (2 ^ Z.max 0 d))
               (my * Z.to_pos (2 ^ Z.max 0 (- d)))
  end.

Definition signed (s : bool) (m : positive) : Z := if s then Zneg m else Zpos m.

Definition num_add (x y : num) : num :=
  match x, y with
  | S754_nan, _ | _, S754_nan => S754_nan
  | S754_infinity sx, S754_infinity sy => if Bool.eqb sx sy then x else S754_nan
  | S754_infinity _, _ => x
  | _, S754_infinity _ => y
  | S754_zero sx, S754_zero sy => S754_zero (sx && sy)
  | S754_zero _, _ => y
  | _, S754_zero _ => x
  | S754_finite sx mx ex, S754_finite sy my ey =>
      let e := Z.min ex ey in
      let z := signed sx mx * 2 ^ (ex - e) + signed sy my * 2 ^ (ey - e) in
      match z with
      | Z0 => S754_zero false
      | Zpos p => num_of_dyadic false p e
      | Zneg p => num_of_dyadic true p e
      end
  end.

Definition num_opp (x : num) : num := SFopp x.
Definition num_sub (x y : num) : num := num_add x (num_opp y).

Definition num_ltb (x y : num) : bool := SFltb x y.

(** [Math.min(x, y)] and [Math.max(x, y)] on two arguments. *)
Definition math_min (x y : num) : num :=
  if is_nan x || is_nan y then S754_nan
  else match x, y with
       | S754_zero sx, S754_zero sy => S754_zero (sx || sy)
       | _, _ => if num_ltb y x then y else x
       end.

Definition math_max (x y : num) : num :=
  if is_nan x || is_nan y then S754_nan
  else match x, y with
       | S754_zero sx, S754_zero sy => S754_zero (sx && sy)
       | _, _ => if num_ltb x y then y else x
       end.

(** The integer below a finite number. *)
Definition floor_Z (s : bool) (m : positive) (e : Z) : Z :=
  signed s m * 2 ^ Z.max 0 e / 2 ^ Z.max 0 (- e).

Definition math_floor (x : num) : num :=
  match x with
  | S754_finite s m e => if 0 <=? e then x else num_of_Z (floor_Z s m e)
  | _ => x
  end.

(** The integer a number denotes, when it denotes one. *)
Definition num_to_Z (x : num) : option Z :=
  match x with
  | S754_zero _ => Some 0
  | S754_finite s m e =>
      if 0 <=? e then Some (signed s m * 2 ^ e)
      else if (signed s m) mod 2 ^ (- e) =? 0 then Some (floor_Z s m e) else None
  | _ => None
  end.

(** [1e12], the number of atomic units per coin. *)
Definition e12 : num := num_of_Z (10 ^ 12).

(** ** Decimal digits *)

Definition digit_char (d : Z) : ascii := ascii_of_Z (48 + d).

Fixpoint dec_aux (fuel : nat) (n : Z) (acc : string) : string :=
  match fuel with
  | O => acc
  | S fuel' =>
      let acc' := String (digit_char (n mod 10)) acc in
      if n / 10 =? 0 then acc' else dec_aux fuel' (n / 10) acc'
  end.

(** The decimal digits of a natural number; [log2 n + 1] divisions by ten are
    enough to reach zero. *)
Definition dec_of_Z (n : Z) : string := dec_aux (S (Z.to_nat (Z.log2 n))) n "".

(** The longest prefix of decimal digits, its value after [acc], how many digits
    it has, and the rest of the text. *)
Fixpoint scan_digits (acc : Z) (count : Z) (s : string) : Z * Z * string :=
  match s with
  | String c s' =>
      if is_digit c then scan_digits (10 * acc + digit_val c) (count + 1) s'
      else (acc, count, s)
  | EmptyString => (acc, count, s)
  end.

(** ** parseInt *)

Fixpoint trim_start (s : string) : string :=
  match s with
  | String c s' => if is_space c then trim_start s' else s
  | EmptyString => s
  end.

(** An optional sign: [true] for [-], and the rest. *)
Definition scan_sign (s : string) : bool * string :=
  match s with
  | String "-" s' => (true, s')
  | String "+" s' => (false, s')
  | _ => (false, s)
  end.

Definition hex_val (c : ascii) : option Z :=
  if is_digit c then Some (digit_val c)
  else if (97 <=? code c) && (code c <=? 102) then Some (code c - 87)
  else if (65 <=? code c) && (code c <=? 70) then Some (code c - 55)
  else None.

Fixpoint scan_hex (acc : Z) (count : Z) (s : string) : Z * Z :=
  match s with
  | String c s' =>
      match hex_val c with
      | Some v => scan_hex (16 * acc + v) (count + 1) s'
      | None => (acc, count)
      end
  | EmptyString => (acc, count)
  end.

Definition num_signed (s : bool) (z : Z) : num :=
  match z with
  | Z0 => S754_zero s
  | _ => if s then num_of_Z (- z) else num_of_Z z
  end.

Definition parse_dec (neg : bool) (s : string) : num :=
  let '(v, k, _) := scan_digits 0 0 s in
  if k =? 0 then NaN else num_signed neg v.

(** [parseInt(s, 10)]. *)
Definition parseInt10 (s : string) : num :=
  let (neg, r) := scan_sign (trim_start s) in parse_dec neg r.

(** [parseInt(s)]: radix 16 after a [0x] prefix, radix 10 otherwise. *)
Definition parseInt (s : string) : num :=
  let (neg, r) := scan_sign (trim_start s) in
  match r with
  | String "0" (String x r') =>
      if Ascii.eqb x "x" || Ascii.eqb x "X" then
        let (v, k) := scan_hex 0 0 r' in
        if k =? 0 then NaN else num_signed neg v
      else parse_dec neg r
  | _ => parse_dec neg r
  end.

(** ** parseFloat *)

(** The Number value for [(-1)^neg * z * 10^k]. *)
Definition num_of_decimal (neg : bool) (z k : Z) : num :=
  match z with
  | Zpos p =>
      num_of_Q neg (p * Z.to_pos (10 ^ Z.max 0 k)) (Z.to_pos (10 ^ Z.max 0 (- k)))
  | _ => S754_zero neg
  end.

(** An exponent part [e[+-]digits] at the head of the text (0 when there is
    none) and what follows it. *)
Definition scan_exponent (s : string) : Z * string :=
  match s with
  | String c r =>
      if Ascii.eqb c "e" || Ascii.eqb c "E" then
        let (neg, r') := scan_sign r in
        let '(v, k, r'') := scan_digits 0 0 r' in
        if k =? 0 then (0, s) else (if neg then - v else v, r'')
      else (0, s)
  | EmptyString => (0, s)
  end.

(** The longest prefix that is a StrDecimalLiteral, and the rest. *)
Definition scan_decimal (s : string) : option (num * string) :=
  let (neg, r) := scan_sign s in
  match strip_prefix "Infinity" r with
  | Some rest => Some (S754_infinity neg, rest)
  | None =>
      let '(ip, ki, r1) := scan_digits 0 0 r in
      let '(v, kf, r2) :=
        match r1 with
        | String "." r1' => scan_digits ip 0 r1'
        | _ => (ip, 0, r1)
        end in
      if ki + kf =? 0 then None
      else let (e, r3) := scan_exponent r2 in Some (num_of_decimal neg v (e - kf), r3)
  end.

Definition parseFloat (s : string) : num :=
  match scan_decimal (trim_start s) with
  | Some (x, _) => x
  | None => NaN
  end.

(** ** Number to text *)

Fixpoint zeros (n : nat) : string :=
  match n with O => ""%string | S n' => String "0" (zeros n') end.

(** The decimal exponent [n] with [10^(n-1) <= p / q < 10^n]: the digit count of
    the integer part when there is one, else found by scaling up by tens. *)
Fixpoint small_exp (fuel : nat) (p q : Z) (n : Z) : Z :=
  match fuel with
  | O => n
  | S fuel' => if q <=? p * 10 then n else small_exp fuel' (p * 10) q (n - 1)
  end.

Definition dec_exp (p q : Z) : Z :=
  if q <=? p then Z.of_nat (String.length (dec_of_Z (p / q)))
  else small_exp 330 p q 0.

(** [k] digits [s] and exponent [n]; a carry to [10^k] is [10^(k-1)] one decade up. *)
Definition carried (s k n : Z) : Z * Z * Z :=
  if s =? 10 ^ k then (10 ^ (k - 1), k, n + 1) else (s, k, n).

(** The shortest [s] of at most [k + fuel] digits with [s * 10^(n-k)] reading
    back as [x]; the candidate nearer to [x] when both neighbours do. *)
Fixpoint shortest (fuel : nat) (x : num) (p q n k : Z) : Z * Z * Z :=
  let a := p * 10 ^ Z.max 0 (k - n) in
  let b := q * 10 ^ Z.max 0 (n - k) in
  let lo := a / b in
  let hi := lo + 1 in
  let ok s := bool_decide (num_of_decimal false s (n - k) = x) in
  let lo_nearer := 2 * (a mod b) <=? b in
  match fuel with
  | O => if lo_nearer then (lo, k, n) else carried hi k n
  | S fuel' =>
      if ok lo && (lo_nearer || negb (ok hi)) then (lo, k, n)
      else if ok hi then carried hi k n
      else shortest fuel' x p q n (k + 1)
  end.

Definition exp_suffix (e : Z) : string :=
  let sign := if e <? 0 then "-"%string else "+"%string in
  ("e" ++ sign ++ dec_of_Z (Z.abs e))%string.

(** The layout of Number::toString for the [k] digits [ds] and exponent [n]. *)
Definition layout (ds : string) (k n : Z) : string :=
  if (k <=? n) && (n <=? 21) then (ds ++ zeros (Z.to_nat (n - k)))%string
  else if (0 <? n) && (n <=? 21) then
    (substring 0 (Z.to_nat n) ds ++ "." ++ substring (Z.to_nat n) (Z.to_nat (k - n)) ds)%string
  else if (-6 <? n) && (n <=? 0) then ("0." ++ zeros (Z.to_nat (- n)) ++ ds)%string
  else match ds with
       | String c EmptyString => (String c (exp_suffix (n - 1)))
       | String c r => (String c ("." ++ r) ++ exp_suffix (n - 1))%string
       | EmptyString => ds
       end.

Definition pos_to_string (m : positive) (e : Z) : string :=
  let p := Zpos m * 2 ^ Z.max 0 e in
  let q := 2 ^ Z.max 0 (- e) in
  let '(s, k, n) := shortest 16 (S754_finite false m e) p q (dec_exp p q) 1 in
  layout (dec_of_Z s) k n.

(** [String(x)], also the text of [x] in a template literal. *)
Definition num_to_string (x : num) : string :=
  match x with
  | S754_nan => "NaN"
  | S754_zero _ => "0"
  | S754_infinity s => (if s then "-Infinity" else "Infinity")
  | S754_finite s m e => ((if s then "-" else "") ++ pos_to_string m e)%string
  end.

(** [x.toFixed(f)]: the integer [n] nearest to [x * 10^f], the larger one on a
    tie, with the point [f] digits from the right. *)
Definition fixed_digits (f n : Z) : string :=
  let ds := dec_of_Z n in
  let len := Z.of_nat (String.length ds) in
  let pad := if len <=? f then zeros (Z.to_nat (f + 1 - len)) else ""%string in
  let padded := (pad ++ ds)%string in
  let plen := Z.of_nat (String.length padded) in
  if f =? 0 then padded
  else (substring 0 (Z.to_nat (plen - f)) padded ++ "." ++
        substring (Z.to_nat (plen - f)) (Z.to_nat f) padded)%string.

Definition round_half_up (a b : Z) : Z := (2 * a + b) / (2 * b).

Definition toFixed (f : Z) (x : num) : string :=
  match x with
  | S754_zero _ => fixed_digits f 0
  | S754_finite s m e =>
      let p := Zpos m * 2 ^ Z.max 0 e in
      let q := 2 ^ Z.max 0 (- e) in
      if 10 ^ 21 * q <=? p then num_to_string x
      else let n := round_half_up (p * 10 ^ f) q in
           ((if s then "-" else "") ++ fixed_digits f n)%string
  | _ => num_to_string x
  end.
