(* ===== verification/JsNumberFacts.v ===== *)
(** * Facts about JavaScript numbers

    The rounding error of the Number value for a rational, exactness on the
    integers up to [2^53], and the round trips between integers and text. *)

From Stdlib Require Import ZArith Lia String Ascii List Bool.
From Stdlib Require Import Floats.SpecFloat.
From stdpp Require Import base list strings decidable option.
From S2P Require Import Prelude JsNumber.

Local Open Scope Z_scope.

(** ** Rounding *)

Lemma rne_error n d : 0 < d -> 2 * Z.abs (rne n d * d - n) <= d.
Proof.
  intros Hd. unfold rne.
  pose proof (Z.div_mod n d ltac:(lia)). pose proof (Z.mod_pos_bound n d Hd).
  destruct (Z.ltb_spec (2 * (n mod d)) d); [nia|].
  destruct (Z.ltb_spec d (2 * (n mod d))); [nia|].
  destruct (Z.even _); nia.
Qed.

Lemma rne_exact k d : 0 < d -> rne (k * d) d = k.
Proof.
  intros Hd. unfold rne. rewrite Z.div_mul, Z.mod_mul by lia.
  destruct (Z.ltb_spec (2 * 0) d); [done|lia].
Qed.

Lemma pow2_pos k : 0 < 2 ^ Z.max 0 k.
Proof. apply Z.pow_pos_nonneg; lia. Qed.

(** [2^l <= p / q], with both sides scaled to integers. *)
Definition pow_le (p q l : Z) : Prop := q * 2 ^ Z.max 0 l <= p * 2 ^ Z.max 0 (- l).

Lemma pow_le_shift p q l f :
  0 <= f -> 0 <= f + l -> pow_le p q l <-> q * 2 ^ (f + l) <= p * 2 ^ f.
Proof.
  intros Hf Hfl. unfold pow_le. destruct (Z.le_ge_cases 0 l).
  - rewrite (Z.max_r 0 l), (Z.max_l 0 (- l)), Z.pow_add_r by lia.
    pose proof (Z.pow_pos_nonneg 2 f ltac:(lia) Hf). nia.
  - rewrite (Z.max_l 0 l), (Z.max_r 0 (- l)) by lia.
    replace f with ((f + l) + (- l)) at 2 by lia.
    rewrite (Z.pow_add_r 2 (f + l)) by lia.
    pose proof (Z.pow_pos_nonneg 2 (f + l) ltac:(lia) Hfl). nia.
Qed.

Lemma log2_bounds (p : positive) : 2 ^ Z.log2 (Zpos p) <= Zpos p < 2 ^ (Z.log2 (Zpos p) + 1).
Proof. apply Z.log2_spec. lia. Qed.

Lemma qlog2_spec p q : pow_le (Zpos p) (Zpos q) (qlog2 p q) /\ ~ pow_le (Zpos p) (Zpos q) (qlog2 p q + 1).
Proof.
  pose proof (log2_bounds p) as Hp. pose proof (log2_bounds q) as Hq.
  set (a := Z.log2 (Zpos p)) in *. set (b := Z.log2 (Zpos q)) in *.
  assert (0 <= a) by apply Z.log2_nonneg. assert (0 <= b) by apply Z.log2_nonneg.
  assert (Hlo : pow_le (Zpos p) (Zpos q) (a - b - 1)).
  { apply (pow_le_shift _ _ _ (b + 1)); [lia..|].
    replace (b + 1 + (a - b - 1)) with a by lia.
    rewrite Z.pow_add_r in * by lia. nia. }
  assert (Hhi : ~ pow_le (Zpos p) (Zpos q) (a - b + 1)).
  { rewrite (pow_le_shift _ _ _ b) by lia.
    replace (b + (a - b + 1)) with (a + 1) by lia. nia. }
  unfold qlog2. fold a b.
  destruct (Z.ltb_spec (Zpos p * 2 ^ Z.max 0 (- (a - b))) (Zpos q * 2 ^ Z.max 0 (a - b))).
  - split; [done|]. replace (a - b - 1 + 1) with (a - b) by lia. unfold pow_le. lia.
  - split; [unfold pow_le; lia|done].
Qed.

Lemma pow_le_mono p q l l' : 0 < q -> 0 < p -> l' <= l -> pow_le p q l -> pow_le p q l'.
Proof.
  intros Hq Hp Hl H. set (f := Z.max 0 (- l')).
  apply (pow_le_shift _ _ _ f); [lia..|].
  apply (pow_le_shift _ _ _ f) in H; [|lia..].
  pose proof (Z.pow_le_mono_r 2 (f + l') (f + l) ltac:(lia) ltac:(lia)). nia.
Qed.

Lemma qlog2_ge p q l : pow_le (Zpos p) (Zpos q) l -> l <= qlog2 p q.
Proof.
  intros H. destruct (Z.le_gt_cases l (qlog2 p q)); [done|].
  exfalso. apply (proj2 (qlog2_spec p q)).
  eapply pow_le_mono; [lia..| |exact H]. lia.
Qed.

Lemma qlog2_lt p q l : ~ pow_le (Zpos p) (Zpos q) l -> qlog2 p q < l.
Proof.
  intros H. destruct (Z.lt_ge_cases (qlog2 p q) l); [done|].
  exfalso. apply H. eapply pow_le_mono; [lia..| |apply (qlog2_spec p q)]. done.
Qed.

(** The rounded significand is within half a unit of [p / q / 2^e]. *)
Lemma scaled_error p q f :
  0 <= f -> 2 * Z.abs (scaled p q (- f) * Zpos q - Zpos p * 2 ^ f) <= Zpos q.
Proof.
  intros Hf. unfold scaled. rewrite Z.opp_involutive.
  rewrite (Z.max_r 0 f), (Z.max_l 0 (- f)), Z.pow_0_r, Z.mul_1_r by lia.
  apply rne_error. lia.
Qed.

(** What [num_of_Q] returns when the last place is the [f]-th binary digit: a
    positive significand, or that significand's carry one place up. *)
Lemma num_of_Q_fraction s p q f :
  0 < f -> ulp_exp p q = - f -> 0 < scaled p q (- f) ->
  exists m, Zpos m = scaled p q (- f) /\
    (num_of_Q s p q = S754_finite s m (- f) \/
     (Zpos m = 2 ^ 53 /\ num_of_Q s p q = S754_finite s (Z.to_pos (2 ^ 52)) (1 - f))).
Proof.
  intros Hf Hu Hm. unfold num_of_Q. rewrite Hu.
  destruct (scaled p q (- f)) as [|m|m] eqn:E; [lia| |lia].
  exists m. split; [done|].
  destruct (Z.eqb_spec (Zpos m) (2 ^ 53)) as [He|].
  - right. split; [done|]. change (2 ^ 52) with (Zpos 4503599627370496).
    simpl. destruct (Z.leb_spec (- f + 1) 971); [|lia]. f_equal. lia.
  - left. simpl. destruct (Z.leb_spec (- f) 971); [done|lia].
Qed.

(** ** Integers up to [2^53] are exact *)

Lemma qlog2_int p : qlog2 p 1 = Z.log2 (Zpos p).
Proof.
  pose proof (log2_bounds p). pose proof (Z.log2_nonneg (Zpos p)).
  apply Z.le_antisymm.
  - apply Z.lt_succ_r. apply qlog2_lt. unfold pow_le.
    rewrite Z.max_r, Z.max_l, Z.pow_0_r by lia. lia.
  - apply qlog2_ge. unfold pow_le. rewrite Z.max_r, Z.max_l, Z.pow_0_r by lia. lia.
Qed.

Lemma num_of_Q_int s p :
  Zpos p < 2 ^ 53 ->
  exists m f, 0 <= f <= 52 /\ Zpos m = Zpos p * 2 ^ f /\
              num_of_Q s p 1 = S754_finite s m (- f) /\ 2 ^ 52 <= Zpos m < 2 ^ 53.
Proof.
  intros Hp. pose proof (Z.log2_nonneg (Zpos p)).
  assert (Hl : Z.log2 (Zpos p) < 53) by (apply Z.log2_lt_pow2; lia).
  assert (Hu : ulp_exp p 1 = - (52 - Z.log2 (Zpos p))).
  { unfold ulp_exp. rewrite qlog2_int. lia. }
  set (f := 52 - Z.log2 (Zpos p)) in *.
  assert (Hs : scaled p 1 (- f) = Zpos p * 2 ^ f).
  { unfold scaled. rewrite Z.opp_involutive, (Z.max_r 0 f), (Z.max_l 0 (- f)) by lia.
    rewrite <- (Z.mul_1_r (Zpos p * 2 ^ f)) at 1. rewrite rne_exact by lia. lia. }
  pose proof (Z.pow_pos_nonneg 2 f ltac:(lia) ltac:(lia)).
  assert (Hlt : 2 ^ 52 <= Zpos p * 2 ^ f < 2 ^ 53).
  { pose proof (log2_bounds p). replace 53 with (Z.log2 (Zpos p) + 1 + f) by lia.
    replace 52 with (Z.log2 (Zpos p) + f) by lia.
    rewrite !(Z.pow_add_r 2 _ f) by lia. nia. }
  unfold num_of_Q. rewrite Hu, Hs.
  destruct (Zpos p * 2 ^ f) as [|m|m] eqn:E; [lia| |lia].
  destruct (Z.eqb_spec (Zpos m) (2 ^ 53)); [lia|].
  exists m, f. split_and!; [lia..|done| |lia|lia].
  simpl. destruct (Z.leb_spec (- f) 971); [done|lia].
Qed.

Lemma num_to_Z_scaled s p m f :
  0 <= f -> Zpos m = Zpos p * 2 ^ f ->
  num_to_Z (S754_finite s m (- f)) = Some (signed s p).
Proof.
  intros Hf Hm. pose proof (Z.pow_pos_nonneg 2 f ltac:(lia) Hf) as H2.
  assert (Hsm : signed s m = signed s p * 2 ^ f) by (destruct s; simpl; nia).
  unfold num_to_Z. destruct (Z.leb_spec 0 (- f)) as [H0|H0].
  - assert (f = 0) as -> by lia. rewrite Hsm. f_equal. simpl. lia.
  - rewrite Z.opp_involutive, Hsm, Z.mod_mul, Z.eqb_refl by lia.
    unfold floor_Z. rewrite Hsm, Z.opp_involutive, (Z.max_l 0 (- f)), (Z.max_r 0 f) by lia.
    rewrite Z.mul_1_r, Z.div_mul by lia. done.
Qed.

Lemma num_of_Z_exact z : Z.abs z < 2 ^ 53 -> num_to_Z (num_of_Z z) = Some z.
Proof.
  intros Hz. destruct z as [|p|p]; [done| |]; simpl num_of_Z.
  - destruct (num_of_Q_int false p) as (m & f & Hf & Hm & -> & _); [lia|].
    rewrite (num_to_Z_scaled _ p); [done|lia|done].
  - destruct (num_of_Q_int true p) as (m & f & Hf & Hm & -> & _); [lia|].
    rewrite (num_to_Z_scaled _ p); [done|lia|done].
Qed.

Lemma num_of_Z_inj a b :
  Z.abs a < 2 ^ 53 -> Z.abs b < 2 ^ 53 -> num_of_Z a = num_of_Z b -> a = b.
Proof.
  intros Ha Hb E. pose proof (num_of_Z_exact a Ha) as H1.
  rewrite E, num_of_Z_exact in H1 by done. congruence.
Qed.

Lemma math_floor_finite s m e :
  - 2 ^ 53 < floor_Z s m e < 2 ^ 53 ->
  num_to_Z (math_floor (S754_finite s m e)) = Some (floor_Z s m e).
Proof.
  intros H. unfold math_floor. destruct (Z.leb_spec 0 e).
  - unfold num_to_Z, floor_Z. destruct (Z.leb_spec 0 e); [|lia].
    rewrite Z.max_r, Z.max_l, Z.pow_0_r, Z.div_1_r by lia. done.
  - apply num_of_Z_exact. lia.
Qed.

(** ** Coins to atomic units

    [Math.floor(parseFloat(amount) * 1e12)] on an amount of at most twelve
    decimals. *)

Definition atomic (x : num) : num := math_floor (num_mul x e12).

Lemma e12_eq : e12 = S754_finite false 8192000000000000 (-13).
Proof. vm_compute. reflexivity. Qed.

(** The Number value [x] of [N / 10^12]: its significand [m] and exponent [-f]
    satisfy [|m * 10^12 - N * 2^f| <= N * 2^f / 2^53], and there is no error when
    the amount is a fraction [w / 2^j] with a small [j]. *)
Lemma amount_number (v k N : Z) :
  0 < v -> 0 <= k <= 12 -> N = v * 10 ^ (12 - k) -> N < 2 ^ 52 ->
  exists m f, 1 <= f /\ num_of_decimal false v (- k) = S754_finite false m (- f) /\
    2 ^ 53 * Z.abs (Zpos m * 10 ^ 12 - N * 2 ^ f) <= N * 2 ^ f /\
    (forall j w, 0 <= j <= 12 -> v * 2 ^ j = w * 10 ^ k -> Zpos m * 10 ^ 12 = N * 2 ^ f).
Proof.
  intros Hv Hk HN HN2.
  destruct v as [|p|p]; [lia| |lia].
  unfold num_of_decimal. rewrite Z.opp_involutive, (Z.max_l 0 (- k)), (Z.max_r 0 k) by lia.
  change (p * Z.to_pos (10 ^ 0))%positive with (p * 1)%positive. rewrite Pos.mul_1_r.
  set (q := Z.to_pos (10 ^ k)).
  assert (Hq : Zpos q = 10 ^ k).
  { unfold q. apply Z2Pos.id. apply Z.pow_pos_nonneg; lia. }
  assert (H12 : 10 ^ 12 = Zpos q * 10 ^ (12 - k)).
  { rewrite Hq, <- Z.pow_add_r by lia. f_equal. lia. }
  pose proof (Z.pow_pos_nonneg 10 (12 - k) ltac:(lia) ltac:(lia)) as Ht.
  set (t := 10 ^ (12 - k)) in *.
  assert (Hlow : -40 <= qlog2 p q).
  { apply qlog2_ge. apply (pow_le_shift _ _ _ 40); [lia..|].
    assert (Zpos q <= 10 ^ 12) by nia. nia. }
  assert (Hhigh : qlog2 p q < 13).
  { apply qlog2_lt. unfold pow_le. change (Zpos q * 8192 <= Zpos p * 1 -> False).
    intros Hc. assert (Zpos q * t * 8192 <= Zpos p * t) by nia. lia. }
  set (f := 52 - qlog2 p q).
  assert (Hu : ulp_exp p q = - f) by (unfold ulp_exp; lia).
  pose proof (scaled_error p q f ltac:(lia)) as Herr.
  pose proof (proj1 (qlog2_spec p q)) as Hle.
  apply (pow_le_shift _ _ _ f) in Hle; [|lia..].
  replace (f + qlog2 p q) with 52 in Hle by lia.
  assert (HNf : N * 2 ^ f = Zpos p * 2 ^ f * t) by lia.
  assert (Herr' : 2 * Z.abs (scaled p q (- f) * 10 ^ 12 - N * 2 ^ f) <= 10 ^ 12).
  { rewrite HNf, H12. replace (scaled p q (- f) * (Zpos q * t) - Zpos p * 2 ^ f * t)
      with ((scaled p q (- f) * Zpos q - Zpos p * 2 ^ f) * t) by lia.
    rewrite Z.abs_mul, (Z.abs_eq t) by lia. nia. }
  assert (Hbig : 2 ^ 52 * 10 ^ 12 <= N * 2 ^ f) by (rewrite HNf, H12; nia).
  assert (Hexact : forall j w, 0 <= j <= 12 -> Zpos p * 2 ^ j = w * 10 ^ k ->
            scaled p q (- f) * 10 ^ 12 = N * 2 ^ f).
  { intros j w Hj Hw. rewrite <- Hq in Hw.
    assert (H2j : 2 ^ f = 2 ^ j * 2 ^ (f - j)) by (rewrite <- Z.pow_add_r by lia; f_equal; lia).
    unfold scaled. rewrite Z.opp_involutive, (Z.max_r 0 f), (Z.max_l 0 (- f)), Z.pow_0_r, Z.mul_1_r by lia.
    assert (Hpf : Zpos p * 2 ^ f = w * 2 ^ (f - j) * Zpos q) by (rewrite H2j, Z.mul_assoc, Hw; ring).
    rewrite HNf, Hpf, rne_exact, H12 by lia. ring. }
  destruct (num_of_Q_fraction false p q f) as (m & Hm & [E|[E1 E2]]); [lia|done|nia| |].
  - exists m, f. rewrite E, Hm. split_and!; [lia|done|lia|done].
  - exists (Z.to_pos (2 ^ 52)), (f - 1). rewrite E2.
    assert (H2f : 2 ^ f = 2 * 2 ^ (f - 1)).
    { rewrite <- Z.pow_succ_r by lia. f_equal. lia. }
    rewrite <- Hm, E1, H2f in Herr'. rewrite H2f in Hbig.
    change (Zpos (Z.to_pos (2 ^ 52))) with (2 ^ 52).
    split_and!; [lia|f_equal; lia|lia|]. intros j w Hj Hw.
    specialize (Hexact j w Hj Hw). rewrite <- Hm, E1, H2f in Hexact. lia.
Qed.

Lemma floor_Z_fraction m g : 0 <= g -> floor_Z false m (- g) = Zpos m / 2 ^ g.
Proof.
  intros Hg. unfold floor_Z. rewrite Z.opp_involutive, Z.max_l, Z.max_r by lia.
  simpl signed. by rewrite Z.mul_1_r.
Qed.

(** The product rounds to a significand [S] over [2^g] strictly between
    [(N - 1) * 2^g] and [(N + 1) * 2^g]. *)
Lemma product_number m f N :
  1 <= f -> 0 < N < 2 ^ 52 ->
  2 ^ 53 * Z.abs (Zpos m * 10 ^ 12 - N * 2 ^ f) <= N * 2 ^ f ->
  exists S g, 1 <= g /\ (N - 1) * 2 ^ g < Zpos S < (N + 1) * 2 ^ g /\
    (Zpos m * 10 ^ 12 = N * 2 ^ f -> Zpos S = N * 2 ^ g) /\
    (num_mul (S754_finite false m (- f)) e12 = S754_finite false S (- g) \/
     (Zpos S = 2 ^ 53 /\
      num_mul (S754_finite false m (- f)) e12 = S754_finite false (Z.to_pos (2 ^ 52)) (1 - g))).
Proof.
  intros Hf HN Herr. rewrite e12_eq. simpl num_mul. unfold num_of_dyadic.
  destruct (Z.leb_spec 0 (- f + -13)); [lia|].
  replace (- (- f + -13)) with (f + 13) by lia.
  set (P := (m * 8192000000000000)%positive). set (Q := Z.to_pos (2 ^ (f + 13))).
  pose proof (Z.pow_pos_nonneg 2 f ltac:(lia) ltac:(lia)) as HF.
  assert (HQ : Zpos Q = 2 ^ f * 2 ^ 13).
  { unfold Q. rewrite Z2Pos.id, Z.pow_add_r by lia. done. }
  assert (HP : Zpos P = Zpos m * 10 ^ 12 * 2 ^ 13) by (unfold P; lia).
  set (A := Zpos m * 10 ^ 12) in *. set (F := 2 ^ f) in *.
  assert (HA : 2 * Z.abs (A - N * F) < F) by nia.
  assert (Hhigh : qlog2 P Q < 52).
  { apply qlog2_lt. unfold pow_le. change (Z.max 0 52) with 52. change (Z.max 0 (-(52))) with 0.
    rewrite HP, HQ. nia. }
  assert (Hlow : -1 <= qlog2 P Q).
  { apply qlog2_ge. unfold pow_le. change (Z.max 0 (-1)) with 0. change (Z.max 0 (-(-1))) with 1.
    rewrite HP, HQ. nia. }
  set (g := 52 - qlog2 P Q).
  assert (Hu : ulp_exp P Q = - g) by (unfold ulp_exp; lia).
  pose proof (scaled_error P Q g ltac:(lia)) as HS. rewrite HP, HQ in HS.
  assert (HG : 2 <= 2 ^ g).
  { change 2 with (2 ^ 1) at 1. apply Z.pow_le_mono_r; lia. }
  set (G := 2 ^ g) in *. set (T := scaled P Q (- g)) in *.
  assert (HT : 2 * Z.abs (T * F - A * G) <= F) by lia.
  assert (Hlt : (N - 1) * G < T /\ T < (N + 1) * G) by (split; nia).
  destruct (num_of_Q_fraction false P Q g) as (S & HSm & Hcase); [lia|done|fold T; nia|].
  exists S, g. rewrite HSm. fold T G. split_and!; [lia|lia|lia| |].
  { fold A F. intros HAN. unfold T, scaled.
    rewrite Z.opp_involutive, (Z.max_r 0 g), (Z.max_l 0 (- g)), Z.pow_0_r, Z.mul_1_r by lia.
    fold G. replace (Zpos P * G) with (N * G * Zpos Q) by (rewrite HP, HQ; fold A; rewrite HAN; lia).
    apply rne_exact. lia. }
  destruct Hcase as [E|[E1 E2]]; [by left|right]. split; [|done]. fold T in HSm. lia.
Qed.

Lemma atomic_bounds (v k N : Z) :
  0 < v -> 0 <= k <= 12 -> N = v * 10 ^ (12 - k) -> N < 2 ^ 52 ->
  exists a, num_to_Z (atomic (num_of_decimal false v (- k))) = Some a /\ N - 1 <= a <= N /\
    (forall j w, 0 <= j <= 12 -> v * 2 ^ j = w * 10 ^ k -> a = N).
Proof.
  intros Hv Hk HN HN2.
  pose proof (Z.pow_pos_nonneg 10 (12 - k) ltac:(lia) ltac:(lia)).
  destruct (amount_number v k N Hv Hk HN HN2) as (m & f & Hf & -> & Herr & Hex).
  destruct (product_number m f N) as (S & g & Hg & HS & HSex & Hcase); [done|nia|done|].
  pose proof (Z.pow_pos_nonneg 2 g ltac:(lia) ltac:(lia)) as HG.
  assert (Hq : N - 1 <= Zpos S / 2 ^ g <= N).
  { split; [apply Z.div_le_lower_bound; lia|].
    apply Z.lt_succ_r, Z.div_lt_upper_bound; lia. }
  assert (Hexact : forall j w, 0 <= j <= 12 -> v * 2 ^ j = w * 10 ^ k -> Zpos S / 2 ^ g = N).
  { intros j w Hj Hw. rewrite (HSex (Hex j w Hj Hw)). apply Z.div_mul. lia. }
  exists (Zpos S / 2 ^ g). split; [|done]. unfold atomic.
  destruct Hcase as [->|[E ->]].
  - rewrite <- floor_Z_fraction by lia. apply math_floor_finite.
    rewrite floor_Z_fraction by lia. nia.
  - assert (Hfl : floor_Z false (Z.to_pos (2 ^ 52)) (1 - g) = Zpos S / 2 ^ g).
    { replace (1 - g) with (- (g - 1)) by lia. rewrite floor_Z_fraction by lia.
      rewrite E. change (Zpos (Z.to_pos (2 ^ 52))) with (2 ^ 52).
      replace (2 ^ g) with (2 * 2 ^ (g - 1)) by (rewrite <- Z.pow_succ_r by lia; f_equal; lia).
      change (2 ^ 53) with (2 * 2 ^ 52). rewrite Z.div_mul_cancel_l; [done| |lia].
      apply Z.pow_nonzero; lia. }
    rewrite <- Hfl. apply math_floor_finite. rewrite Hfl. nia.
Qed.

(** ** Decimal text *)

Lemma code_digit_char d : 0 <= d < 10 -> code (digit_char d) = 48 + d.
Proof. intros Hd. apply code_ascii_of_Z. lia. Qed.

Lemma is_digit_digit_char d : 0 <= d < 10 -> is_digit (digit_char d) = true.
Proof.
  intros Hd. unfold is_digit. rewrite code_digit_char by lia.
  apply andb_true_iff. split; apply Z.leb_le; lia.
Qed.

Lemma digit_val_digit_char d : 0 <= d < 10 -> digit_val (digit_char d) = d.
Proof. intros Hd. unfold digit_val. rewrite code_digit_char by lia. lia. Qed.

Lemma mod10 n : 0 <= n mod 10 < 10.
Proof. apply Z.mod_pos_bound. lia. Qed.

#[export] Hint Resolve mod10 is_digit_digit_char : js.

(** Every character [dec_aux] prepends is a digit. *)
Lemma dec_aux_digits fuel n acc :
  string_forall is_digit acc = true -> string_forall is_digit (dec_aux fuel n acc) = true.
Proof.
  revert n acc. induction fuel as [|fuel IH]; intros n acc Hacc; [done|].
  assert (string_forall is_digit (String (digit_char (n mod 10)) acc) = true).
  { simpl. by rewrite is_digit_digit_char by auto with js. }
  simpl dec_aux. destruct (n / 10 =? 0); auto.
Qed.

Lemma dec_of_Z_digits n : string_forall is_digit (dec_of_Z n) = true.
Proof. by apply dec_aux_digits. Qed.

(** Two fuels that bound the number of binary digits give the same text. *)
Lemma dec_aux_fuel f1 f2 n acc :
  0 <= n < 2 ^ Z.of_nat f1 -> 0 <= n < 2 ^ Z.of_nat f2 -> (0 < f1)%nat -> (0 < f2)%nat ->
  dec_aux f1 n acc = dec_aux f2 n acc.
Proof.
  revert f2 n acc. induction f1 as [|f1 IH]; intros f2 n acc H1 H2 P1 P2; [lia|].
  destruct f2 as [|f2]; [lia|]. simpl dec_aux.
  destruct (Z.eqb_spec (n / 10) 0) as [|Hn]; [done|].
  rewrite Nat2Z.inj_succ, Z.pow_succ_r in H1, H2 by lia.
  assert (10 <= n) by (destruct (Z.lt_ge_cases n 10); [rewrite Z.div_small in Hn; lia|lia]).
  assert (0 < n / 10 /\ n / 10 < n / 2) as [Hp Hlt].
  { split; [apply Z.div_str_pos; lia|].
    pose proof (Z.div_mod n 10). pose proof (Z.div_mod n 2).
    pose proof (mod10 n). pose proof (Z.mod_pos_bound n 2). lia. }
  assert (Hb : forall f, n < 2 * 2 ^ Z.of_nat f -> 0 <= n / 10 < 2 ^ Z.of_nat f /\ (0 < f)%nat).
  { intros f Hf. assert (n / 2 < 2 ^ Z.of_nat f) by (apply Z.div_lt_upper_bound; lia).
    split; [lia|]. destruct f; simpl in *; lia. }
  destruct (Hb f1) as [? ?]; [lia|]. destruct (Hb f2) as [? ?]; [lia|]. by apply IH.
Qed.

Lemma dec_aux_app fuel n acc : dec_aux fuel n acc = (dec_aux fuel n "" ++ acc)%string.
Proof.
  revert n acc. induction fuel as [|fuel IH]; intros n acc; [done|]. simpl dec_aux.
  destruct (n / 10 =? 0); [done|].
  rewrite IH, (IH _ (String _ "")), string_app_assoc. done.
Qed.

Lemma dec_of_Z_small n : 0 <= n < 10 -> dec_of_Z n = String (digit_char n) "".
Proof.
  intros Hn. unfold dec_of_Z. simpl dec_aux.
  by rewrite Z.div_small, Z.mod_small by lia.
Qed.

Lemma fuel_bound n : 0 <= n -> 0 <= n < 2 ^ Z.of_nat (S (Z.to_nat (Z.log2 n))).
Proof.
  intros Hn. pose proof (Z.log2_nonneg n).
  destruct (Z.eq_dec n 0) as [->|]; [done|].
  pose proof (Z.log2_spec n ltac:(lia)).
  rewrite Nat2Z.inj_succ, Z2Nat.id by lia. lia.
Qed.

Lemma dec_of_Z_step n :
  10 <= n -> dec_of_Z n = (dec_of_Z (n / 10) ++ String (digit_char (n mod 10)) "")%string.
Proof.
  intros Hn. assert (1 <= n / 10) by (apply Z.div_le_lower_bound; lia).
  unfold dec_of_Z at 1. simpl dec_aux.
  destruct (Z.eqb_spec (n / 10) 0); [lia|].
  rewrite dec_aux_app. f_equal. unfold dec_of_Z.
  pose proof (fuel_bound n ltac:(lia)) as Hf. rewrite Nat2Z.inj_succ, Z.pow_succ_r in Hf by lia.
  assert (n / 10 < 2 ^ Z.of_nat (Z.to_nat (Z.log2 n))) by (apply Z.div_lt_upper_bound; lia).
  apply dec_aux_fuel; [lia|apply fuel_bound; lia| |lia].
  destruct (Z.to_nat (Z.log2 n)); simpl in *; lia.
Qed.

(** Induction on the decimal digits of a natural number. *)
Lemma dec_ind (P : Z -> Prop) :
  (forall n, 0 <= n < 10 -> P n) ->
  (forall n, 10 <= n -> P (n / 10) -> P n) ->
  forall n, 0 <= n -> P n.
Proof.
  intros H0 HS n Hn. revert Hn. induction n as [n IH] using (well_founded_induction (Z.lt_wf 0)).
  intros Hn. destruct (Z.lt_ge_cases n 10); [auto with lia|].
  assert (n / 10 < n) by (apply Z.div_lt; lia).
  assert (0 <= n / 10) by (apply Z.div_pos; lia). auto with lia.
Qed.

Lemma string_length_app (s1 s2 : string) :
  String.length (s1 ++ s2) = (String.length s1 + String.length s2)%nat.
Proof. induction s1; simpl; auto. Qed.

Lemma dec_len n :
  0 < n -> 10 ^ (Z.of_nat (String.length (dec_of_Z n)) - 1) <= n < 10 ^ Z.of_nat (String.length (dec_of_Z n)).
Proof.
  intros Hn. assert (H0 : 0 <= n) by lia. revert n H0 Hn. apply (dec_ind (fun n => 0 < n -> _)).
  - intros n Hn Hp. rewrite dec_of_Z_small by lia. simpl. lia.
  - intros n Hn IH _. assert (1 <= n / 10) by (apply Z.div_le_lower_bound; lia).
    specialize (IH ltac:(lia)). rewrite dec_of_Z_step by lia.
    rewrite string_length_app. set (l := String.length (dec_of_Z (n / 10))) in *.
    change (String.length (String (digit_char (n mod 10)) "")) with 1%nat.
    pose proof (Z.div_mod n 10 ltac:(lia)). pose proof (mod10 n).
    assert (0 < Z.of_nat l).
    { destruct l; [|lia]. simpl in IH. lia. }
    replace (Z.of_nat (l + 1) - 1) with (Z.succ (Z.of_nat l - 1)) by lia.
    replace (Z.of_nat (l + 1)) with (Z.succ (Z.of_nat l)) by lia.
    rewrite !Z.pow_succ_r by lia. lia.
Qed.

(** Reading back the digits of [n]. *)
Lemma scan_dec n acc k tail :
  0 <= n ->
  scan_digits acc k (dec_of_Z n ++ tail) =
  scan_digits (acc * 10 ^ Z.of_nat (String.length (dec_of_Z n)) + n)
              (k + Z.of_nat (String.length (dec_of_Z n))) tail.
Proof.
  intros Hn. revert n Hn acc k tail. refine (dec_ind _ _ _).
  - intros n Hn acc k tail. rewrite dec_of_Z_small by lia. simpl.
    rewrite is_digit_digit_char, digit_val_digit_char by lia. f_equal; lia.
  - intros n Hn IH acc k tail. rewrite dec_of_Z_step by lia.
    rewrite string_app_assoc, IH. simpl.
    rewrite is_digit_digit_char, digit_val_digit_char by auto with js.
    rewrite string_length_app. simpl String.length.
    pose proof (Z.div_mod n 10 ltac:(lia)).
    rewrite Nat2Z.inj_add, Z.pow_add_r by lia. f_equal; lia.
Qed.

Lemma dec_nonempty n : exists c s, dec_of_Z n = String c s /\ is_digit c = true /\ string_forall is_digit s = true.
Proof.
  pose proof (dec_of_Z_digits n) as H.
  destruct (dec_of_Z n) as [|c s] eqn:E.
  - unfold dec_of_Z in E. simpl dec_aux in E.
    destruct (n / 10 =? 0); [done|]. rewrite dec_aux_app in E.
    destruct (dec_aux _ _ ""); done.
  - simpl in H. apply andb_true_iff in H. eauto.
Qed.

Lemma digit_not_space c : is_digit c = true -> is_space c = false.
Proof.
  unfold is_digit, is_space. rewrite andb_true_iff, !Z.leb_le. intros [H1 H2].
  apply orb_false_iff; split; [apply orb_false_iff; split|].
  - apply andb_false_iff. right. apply Z.leb_gt. lia.
  - apply Z.eqb_neq. lia.
  - apply Z.eqb_neq. lia.
Qed.

Lemma digit_no_sign c s : is_digit c = true -> scan_sign (String c s) = (false, String c s).
Proof. by destruct c as [[] [] [] [] [] [] [] []]. Qed.

Lemma trim_start_digit c s : is_digit c = true -> trim_start (String c s) = String c s.
Proof. intros H. simpl. by rewrite digit_not_space. Qed.

Lemma num_signed_nonneg n : 0 <= n -> num_signed false n = num_of_Z n.
Proof. by destruct n. Qed.

Lemma parse_dec_roundtrip n : 0 <= n -> parse_dec false (dec_of_Z n) = num_of_Z n.
Proof.
  intros Hn. unfold parse_dec.
  rewrite <- (string_app_nil_r (dec_of_Z n)), scan_dec by done. simpl scan_digits.
  destruct (dec_nonempty n) as (c & s & -> & _ & _).
  destruct (Z.eqb_spec (0 + Z.of_nat (String.length (String c s))) 0); [simpl in *; lia|].
  by apply num_signed_nonneg.
Qed.

(** [parseInt(String(n), 10)] and [parseInt(String(n))] on digits. *)
Lemma parseInt10_dec n : 0 <= n -> parseInt10 (dec_of_Z n) = num_of_Z n.
Proof.
  intros Hn. rewrite <- (parse_dec_roundtrip n Hn). unfold parseInt10.
  destruct (dec_nonempty n) as (c & s & -> & Hc & _).
  by rewrite trim_start_digit, digit_no_sign by done.
Qed.

Lemma parseInt_dec n : 0 <= n -> parseInt (dec_of_Z n) = num_of_Z n.
Proof.
  intros Hn. rewrite <- (parse_dec_roundtrip n Hn). unfold parseInt.
  destruct (dec_nonempty n) as (c & s & -> & Hc & Hs).
  rewrite trim_start_digit, digit_no_sign by done.
  destruct (ascii_dec c "0") as [->|Hne].
  - destruct s as [|x s]; [done|].
    assert (is_digit x = true) as Hx by (simpl in Hs; by apply andb_true_iff in Hs as [? _]).
    destruct (Ascii.eqb_spec x "x") as [->|]; [done|].
    by destruct (Ascii.eqb_spec x "X") as [->|].
  - destruct c as [[] [] [] [] [] [] [] []]; done.
Qed.

(** ** The characters of a number's text *)

(** Letters, digits, [+], [-] and [.]: characters with no meaning to a shell. *)
Definition shell_inert (c : ascii) : bool :=
  is_digit c || ((97 <=? code c) && (code c <=? 122)) || ((65 <=? code c) && (code c <=? 90))
  || (code c =? 43) || (code c =? 45) || (code c =? 46).

Lemma digit_inert c : is_digit c = true -> shell_inert c = true.
Proof. unfold shell_inert. by intros ->. Qed.

Lemma digits_inert s : string_forall is_digit s = true -> string_forall shell_inert s = true.
Proof. apply string_forall_impl, digit_inert. Qed.

Lemma zeros_inert n : string_forall shell_inert (zeros n) = true.
Proof. by induction n. Qed.

Lemma substring_forall p n m s :
  string_forall p s = true -> string_forall p (substring n m s) = true.
Proof.
  revert n m. induction s as [|c s IH]; intros n m; simpl; [by destruct n, m|].
  rewrite andb_true_iff. intros [Hc Hs]. destruct n, m; simpl; auto.
  rewrite Hc. simpl. auto.
Qed.

Lemma exp_suffix_inert e : string_forall shell_inert (exp_suffix e) = true.
Proof.
  unfold exp_suffix. rewrite !string_forall_app, (digits_inert _ (dec_of_Z_digits _)).
  by destruct (e <? 0).
Qed.

Lemma layout_inert s k n : string_forall is_digit s = true -> string_forall shell_inert (layout s k n) = true.
Proof.
  intros Hs. apply digits_inert in Hs. unfold layout.
  destruct (_ && _); [by rewrite string_forall_app, Hs, zeros_inert|].
  destruct (_ && _); [by rewrite !string_forall_app, !substring_forall|].
  destruct (_ && _); [by rewrite !string_forall_app, Hs, zeros_inert|].
  destruct s as [|c [|c' s]]; [done| |].
  - simpl in *. apply andb_true_iff in Hs as [-> _]. apply exp_suffix_inert.
  - rewrite string_forall_app, exp_suffix_inert, andb_true_r.
    simpl in *. apply andb_true_iff in Hs as [-> Hs]. done.
Qed.

Lemma num_to_string_inert x : string_forall shell_inert (num_to_string x) = true.
Proof.
  destruct x as [|[]| |s m e]; try done. unfold num_to_string.
  rewrite string_forall_app. unfold pos_to_string.
  destruct (shortest _ _ _ _ _ _) as [[d k] n].
  rewrite layout_inert by apply dec_of_Z_digits. by destruct s.
Qed.

(** ** [String(n)] on integers below [2^52] *)

Lemma zeros_snoc j : (zeros j ++ "0")%string = zeros (S j).
Proof. induction j as [|j IH]; [done|]. simpl. by rewrite IH. Qed.

Lemma dec_shift s j :
  0 < s -> dec_of_Z (s * 10 ^ Z.of_nat j) = (dec_of_Z s ++ zeros j)%string.
Proof.
  intros Hs. induction j as [|j IH].
  - rewrite Z.pow_0_r, Z.mul_1_r. simpl. by rewrite string_app_nil_r.
  - rewrite Nat2Z.inj_succ, Z.pow_succ_r by lia.
    pose proof (Z.pow_pos_nonneg 10 (Z.of_nat j) ltac:(lia) ltac:(lia)).
    replace (s * (10 * 10 ^ Z.of_nat j)) with (s * 10 ^ Z.of_nat j * 10) by lia.
    rewrite dec_of_Z_step, Z.div_mul, Z.mod_mul, IH by lia.
    change (digit_char 0) with "0"%char. by rewrite string_app_assoc, zeros_snoc.
Qed.

Lemma num_of_decimal_int s j :
  0 < s -> 0 <= j -> num_of_decimal false s j = num_of_Z (s * 10 ^ j).
Proof.
  intros Hs Hj. pose proof (Z.pow_pos_nonneg 10 j ltac:(lia) Hj).
  destruct s as [|p|p]; [lia| |lia]. unfold num_of_decimal.
  rewrite (Z.max_r 0 j), (Z.max_l 0 (- j)) by lia.
  destruct (10 ^ j) as [|t|t] eqn:E; [lia| |lia]. done.
Qed.

Lemma shortest_int fuel p x P Q L k :
  0 < Q -> P = Q * p -> x = num_of_Z p -> 0 < p < 2 ^ 52 ->
  10 ^ (L - 1) <= p -> 1 <= k <= L -> L - k < Z.of_nat fuel ->
  exists s k', shortest fuel x P Q L k = (s, k', L) /\ 0 < s /\ 1 <= k' <= L /\
               s * 10 ^ (L - k') = p.
Proof.
  intros HQ -> -> Hp HL. revert k. induction fuel as [|fuel IH]; intros k Hk Hf; [lia|].
  simpl shortest. rewrite (Z.max_l 0 (k - L)), (Z.max_r 0 (L - k)), Z.pow_0_r, Z.mul_1_r by lia.
  pose proof (Z.pow_pos_nonneg 10 (L - k) ltac:(lia) ltac:(lia)) as Ht.
  pose proof (Z.pow_le_mono_r 10 (L - k) (L - 1) ltac:(lia) ltac:(lia)) as Hle.
  set (t := 10 ^ (L - k)) in *.
  rewrite Z.div_mul_cancel_l, Z.mul_mod_distr_l by lia.
  pose proof (Z.div_mod p t ltac:(lia)). pose proof (Z.mod_pos_bound p t Ht).
  assert (Hlo : 0 < p / t) by (apply Z.div_str_pos; lia).
  rewrite !num_of_decimal_int by lia. fold t.
  assert (Hhi : bool_decide (num_of_Z ((p / t + 1) * t) = num_of_Z p) = false).
  { apply bool_decide_eq_false. intros E. apply num_of_Z_inj in E; nia. }
  rewrite Hhi. destruct (bool_decide (num_of_Z (p / t * t) = num_of_Z p)) eqn:E.
  - apply bool_decide_eq_true, num_of_Z_inj in E; [|nia..].
    assert (p mod t = 0) as -> by lia. rewrite orb_true_r. simpl.
    exists (p / t), k. fold t. split_and!; [done|lia..].
  - simpl. apply IH; [|lia]. destruct (Z.eq_dec k L) as [->|]; [|lia].
    exfalso. apply bool_decide_eq_false in E. apply E. f_equal.
    subst t. rewrite Z.sub_diag. rewrite Z.pow_0_r, Z.div_1_r. lia.
Qed.

Lemma num_to_string_int n : 0 <= n < 2 ^ 52 -> num_to_string (num_of_Z n) = dec_of_Z n.
Proof.
  intros Hn. destruct n as [|p|p]; [done| |lia].
  pose proof (dec_len (Zpos p) ltac:(lia)) as HL.
  set (L := Z.of_nat (String.length (dec_of_Z (Zpos p)))) in *.
  assert (L <= 16).
  { apply Z.le_ngt. intros H16. pose proof (Z.pow_le_mono_r 10 16 (L - 1)). lia. }
  assert (1 <= L).
  { unfold L. destruct (dec_nonempty (Zpos p)) as (c & s & -> & _). simpl. lia. }
  destruct (num_of_Q_int false p ltac:(lia)) as (m & f & Hf & Hm & E & _).
  pose proof (Z.pow_pos_nonneg 2 f ltac:(lia) ltac:(lia)).
  change (num_of_Z (Zpos p)) with (num_of_Q false p 1). rewrite E.
  simpl num_to_string. unfold pos_to_string.
  rewrite Z.opp_involutive, (Z.max_l 0 (- f)), (Z.max_r 0 f), Z.pow_0_r, Z.mul_1_r by lia.
  assert (dec_exp (Zpos m) (2 ^ f) = L) as ->.
  { unfold dec_exp. destruct (Z.leb_spec (2 ^ f) (Zpos m)); [|nia].
    rewrite Hm, Z.div_mul by lia. done. }
  destruct (shortest_int 16 (Zpos p) (S754_finite false m (- f)) (Zpos m) (2 ^ f) L 1)
    as (s & k & -> & Hs & Hk & Hsk); [lia|lia|by rewrite <- E|lia|lia|lia|lia|].
  unfold layout. destruct (Z.leb_spec k L); [|lia]. destruct (Z.leb_spec L 21); [|lia].
  simpl. rewrite <- dec_shift by lia. rewrite Z2Nat.id by lia. by rewrite Hsk.
Qed.

(** ** Decimal amounts *)

(** [i.f] with [k] decimals: the digits of [i], a point, and those of [f] padded
    with zeros to [k] of them. *)
Definition decimal_text (i : Z) (k : nat) (f : Z) : string :=
  let fs := dec_of_Z f in
  (dec_of_Z i ++ "." ++ zeros (k - String.length fs) ++ fs)%string.

Lemma scan_zeros j acc k tail :
  scan_digits acc k (zeros j ++ tail) = scan_digits (acc * 10 ^ Z.of_nat j) (k + Z.of_nat j) tail.
Proof.
  revert acc k. induction j as [|j IH]; intros acc k.
  - simpl. f_equal; lia.
  - rewrite Nat2Z.inj_succ, Z.pow_succ_r by lia. simpl zeros. cbn [String.append scan_digits].
    change (is_digit "0") with true. change (digit_val "0") with 0. cbv iota.
    rewrite IH. f_equal; lia.
Qed.

Lemma dec_len_le f k : 0 <= f < 10 ^ Z.of_nat k -> (0 < k)%nat -> (String.length (dec_of_Z f) <= k)%nat.
Proof.
  intros Hf Hk. destruct (Z.eq_dec f 0) as [->|Hne].
  - change (String.length (dec_of_Z 0)) with 1%nat. lia.
  - pose proof (dec_len f ltac:(lia)) as [H _].
    apply Nat2Z.inj_le. apply Z.lt_pred_le.
    apply (Z.pow_lt_mono_r_iff 10); lia.
Qed.

Lemma strip_Infinity_digit c s : is_digit c = true -> strip_prefix "Infinity" (String c s) = None.
Proof. by destruct c as [[] [] [] [] [] [] [] []]. Qed.

Lemma parseFloat_decimal_text i k f :
  0 <= i -> (0 < k)%nat -> 0 <= f < 10 ^ Z.of_nat k ->
  parseFloat (decimal_text i k f) = num_of_decimal false (i * 10 ^ Z.of_nat k + f) (- Z.of_nat k).
Proof.
  intros Hi Hk Hf. pose proof (dec_len_le f k Hf Hk) as Hlen.
  destruct (dec_nonempty i) as (c & s & Ec & Hc & _).
  unfold parseFloat, scan_decimal, decimal_text.
  assert (Hhead : forall t, trim_start (dec_of_Z i ++ t)%string = (dec_of_Z i ++ t)%string /\
    scan_sign (dec_of_Z i ++ t)%string = (false, (dec_of_Z i ++ t)%string) /\
    strip_prefix "Infinity" (dec_of_Z i ++ t)%string = None).
  { intros t. rewrite Ec. cbn [String.append].
    rewrite trim_start_digit, digit_no_sign, strip_Infinity_digit by done. done. }
  destruct (Hhead ("." ++ zeros (k - String.length (dec_of_Z f)) ++ dec_of_Z f)%string) as (-> & -> & ->).
  rewrite scan_dec by done. cbn [String.append scan_digits].
  change (is_digit ".") with false. cbv iota.
  set (l := String.length (dec_of_Z f)) in *.
  rewrite scan_zeros, <- (string_app_nil_r (dec_of_Z f)), scan_dec by lia. cbn [scan_digits].
  fold l.
  destruct (Z.eqb_spec (0 + Z.of_nat (String.length (dec_of_Z i)) + (0 + Z.of_nat (k - l) + Z.of_nat l)) 0);
    [lia|].
  cbn [scan_exponent]. f_equal; [|lia].
  rewrite <- Z.mul_assoc, <- Z.pow_add_r by lia.
  replace (Z.of_nat (k - l) + Z.of_nat l) with (Z.of_nat k) by lia. lia.
Qed.

(** The atomic units of a decimal amount: exact or one too few, and exact when the
    amount is [w / 2^j] coins with a [j] of at most twelve. *)
Lemma atomic_decimal_text i k f :
  0 <= i -> (0 < k <= 12)%nat -> 0 <= f < 10 ^ Z.of_nat k ->
  0 < i * 10 ^ 12 + f * 10 ^ (12 - Z.of_nat k) < 2 ^ 52 ->
  exists a, num_to_Z (atomic (parseFloat (decimal_text i k f))) = Some a /\
    i * 10 ^ 12 + f * 10 ^ (12 - Z.of_nat k) - 1 <= a <= i * 10 ^ 12 + f * 10 ^ (12 - Z.of_nat k) /\
    (forall j w, 0 <= j <= 12 -> (i * 10 ^ Z.of_nat k + f) * 2 ^ j = w * 10 ^ Z.of_nat k ->
       a = i * 10 ^ 12 + f * 10 ^ (12 - Z.of_nat k)).
Proof.
  intros Hi Hk Hf HN. rewrite parseFloat_decimal_text by lia.
  pose proof (Z.pow_pos_nonneg 10 (Z.of_nat k) ltac:(lia) ltac:(lia)).
  pose proof (Z.pow_pos_nonneg 10 (12 - Z.of_nat k) ltac:(lia) ltac:(lia)).
  apply atomic_bounds; [nia|lia| |lia].
  replace (10 ^ 12) with (10 ^ Z.of_nat k * 10 ^ (12 - Z.of_nat k));
    [lia|rewrite <- Z.pow_add_r by lia; f_equal; lia].
Qed.

(** ** Concrete values *)

Example mul_agrees : num_mul (num_of_Q false 82 10) e12 = SFmul 53 1024 (num_of_Q false 82 10) e12.
Proof. vm_compute. reflexivity. Qed.

Example div_agrees : num_div (num_of_Z 7) e12 = SFdiv 53 1024 (num_of_Z 7) e12.
Proof. vm_compute. reflexivity. Qed.

Example floor_8_2 :
  num_to_Z (math_floor (num_mul (num_of_Q false 82 10) e12)) = Some 8199999999999.
Proof. vm_compute. reflexivity. Qed.

Example parseInt_ex1 : parseInt " 42abc" = num_of_Z 42. Proof. vm_compute. reflexivity. Qed.

Example parseInt_ex2 : parseInt "0x1F" = num_of_Z 31. Proof. vm_compute. reflexivity. Qed.

Example parseInt_ex3 : parseInt "abc" = NaN. Proof. vm_compute. reflexivity. Qed.

Example to_string_ex1 : num_to_string (num_of_decimal false 1234 (-1)) = "123.4"%string.
Proof. vm_compute. reflexivity. Qed.

Example to_string_ex2 : num_to_string (num_of_Z (10 ^ 24)) = "1e+24"%string.
Proof. vm_compute. reflexivity. Qed.

Example to_string_ex3 : num_to_string (parseFloat "-0.1") = "-0.1"%string.
Proof. vm_compute. reflexivity. Qed.

Example to_string_ex4 : num_to_string (parseFloat "5e-324x") = "5e-324"%string.
Proof. vm_compute. reflexivity. Qed.

Example to_string_ex5 : num_to_string (parseFloat "1.7976931348623157e308") = "1.7976931348623157e+308"%string.
Proof. vm_compute. reflexivity. Qed.

Example to_fixed_ex1 : toFixed 4 (num_div (num_of_Z 1234567890123) e12) = "1.2346"%string.
Proof. vm_compute. reflexivity. Qed.

Example to_fixed_ex2 : toFixed 4 (num_div (num_of_Z 5) e12) = "0.0000"%string.
Proof. vm_compute. reflexivity. Qed.
