(* ===== verification/JsString.v ===== *)
(** * JavaScript strings

    The String.prototype and Array.prototype operations of the dashboards:
    [trim], [split('\n')], [endsWith], [replace] with a string pattern,
    [toLowerCase], [slice] with a negative start, and [filter]/[map] on lists. *)

From Stdlib Require Import ZArith Lia String Ascii List Bool.
From Stdlib Require Import Floats.SpecFloat.
From stdpp Require Import base list strings decidable option.
From S2P Require Import Prelude JsNumber.

Local Open Scope Z_scope.

Fixpoint trim_end (s : string) : string :=
  match s with
  | EmptyString => s
  | String c s' =>
      match trim_end s' with
      | EmptyString => if is_space c then EmptyString else String c EmptyString
      | t => String c t
      end
  end.

(** [s.trim()]. *)
Definition trim (s : string) : string := trim_end (trim_start s).

(** [!!s.trim()], the filter of the log readers. *)
Definition not_blank (s : string) : bool :=
  match trim s with EmptyString => false | _ => true end.

Definition newline : ascii := ascii_of_Z 10.

(** [s.split(sep)] for a one-character separator. *)
Fixpoint split_on (sep : ascii) (s : string) : list string :=
  match s with
  | EmptyString => [EmptyString]
  | String c s' =>
      if Ascii.eqb c sep then EmptyString :: split_on sep s'
      else match split_on sep s' with
           | x :: xs => String c x :: xs
           | [] => [String c EmptyString]
           end
  end.

(** [xs.join(sep)]. *)
Fixpoint join (sep : string) (xs : list string) : string :=
  match xs with
  | [] => ""
  | [x] => x
  | x :: xs' => (x ++ sep ++ join sep xs')%string
  end.

(** [s.endsWith(p)]. *)
Fixpoint endsWith (p s : string) : bool :=
  String.eqb p s || match s with EmptyString => false | String _ s' => endsWith p s' end.

(** [s.replace(p, r)] with a string pattern: the first occurrence only. *)
Fixpoint replace_first (p r s : string) : string :=
  match strip_prefix p s with
  | Some rest => (r ++ rest)%string
  | None => match s with EmptyString => s | String c s' => String c (replace_first p r s') end
  end.

Definition lower (c : ascii) : ascii :=
  if ((65 <=? code c) && (code c <=? 90)) ||
     ((192 <=? code c) && (code c <=? 222) && negb (code c =? 215))
  then ascii_of_Z (code c + 32) else c.

Fixpoint toLowerCase (s : string) : string :=
  match s with EmptyString => s | String c s' => String (lower c) (toLowerCase s') end.

(** [xs.slice(k)] for an integer [k]: from the end when [k] is negative. *)
Definition slice_from {A} (k : Z) (xs : list A) : list A :=
  let n := Z.of_nat (length xs) in
  let start := if k <? 0 then Z.max (n + k) 0 else Z.min k n in
  drop (Z.to_nat start) xs.

(** [xs.slice(x)] for a Number [x]: ToIntegerOrInfinity, then as above. *)
Definition trunc_Z (s : bool) (m : positive) (e : Z) : Z :=
  let n := Zpos m * 2 ^ Z.max 0 e / 2 ^ Z.max 0 (- e) in if s then - n else n.

Definition slice_num {A} (x : num) (xs : list A) : list A :=
  match x with
  | S754_infinity true => xs
  | S754_infinity false => []
  | S754_finite s m e => slice_from (trunc_Z s m e) xs
  | _ => xs
  end.

(** A text of several lines. *)
Definition file_of (lines : list string) : string := join (String newline "") lines.

(** ** Splitting and joining *)

Definition no_char (c : ascii) (s : string) : bool :=
  string_forall (fun d => negb (Ascii.eqb d c)) s.

Lemma split_on_single c s : no_char c s = true -> split_on c s = [s].
Proof.
  induction s as [|a s IH]; simpl; [done|]. unfold no_char in *. simpl.
  rewrite andb_true_iff. intros [Ha Hs]. apply negb_true_iff in Ha.
  by rewrite Ha, IH.
Qed.

Lemma split_on_app c s t :
  no_char c s = true -> split_on c (s ++ String c t) = s :: split_on c t.
Proof.
  induction s as [|a s IH]; simpl; [by rewrite Ascii.eqb_refl|]. unfold no_char in *. simpl.
  rewrite andb_true_iff. intros [Ha Hs]. apply negb_true_iff in Ha.
  by rewrite Ha, IH.
Qed.

(** Splitting recovers the lines that were joined. *)
Lemma split_join c xs :
  xs <> [] -> Forall (fun s => no_char c s = true) xs ->
  split_on c (join (String c "") xs) = xs.
Proof.
  intros Hne Hall. induction Hall as [|x xs Hx Hall IH]; [done|].
  destruct xs as [|y ys]; [by apply split_on_single|].
  change (join (String c "") (x :: y :: ys))
    with (x ++ String c (join (String c "") (y :: ys)))%string.
  by rewrite split_on_app, IH.
Qed.

Lemma split_file lines :
  lines <> [] -> Forall (fun l => no_char newline l = true) lines ->
  split_on newline (file_of lines) = lines.
Proof. apply split_join. Qed.

(** ** Suffixes *)

Lemma endsWith_app p s : endsWith p (s ++ p) = true.
Proof.
  induction s as [|c s IH]; simpl.
  - destruct p; simpl; [done|]. by rewrite Ascii.eqb_refl, String.eqb_refl.
  - rewrite IH. by rewrite orb_true_r.
Qed.

Lemma endsWith_split p s : endsWith p s = true -> exists b, s = (b ++ p)%string.
Proof.
  induction s as [|c s IH]; simpl; rewrite orb_true_iff, String.eqb_eq.
  - intros [->|]; [by exists ""%string|done].
  - intros [->|H]; [by exists ""%string|].
    destruct (IH H) as [b ->]. by exists (String c b).
Qed.

(** The first occurrence of [p] is the final one when [p] occurs nowhere else. *)
Fixpoint occurs_early (p b : string) : bool :=
  match b with
  | EmptyString => false
  | String c b' =>
      match strip_prefix p (b ++ p) with Some _ => true | None => occurs_early p b' end
  end.

Lemma replace_first_suffix p b :
  occurs_early p b = false -> replace_first p "" (b ++ p) = b.
Proof.
  induction b as [|c b IH]; simpl.
  - intros _. destruct p as [|a p]; simpl; [done|].
    rewrite Ascii.eqb_refl. rewrite <- (string_app_nil_r p) at 2. by rewrite strip_prefix_app.
  - destruct (strip_prefix p (String c (b ++ p))); [done|].
    intros H. by rewrite IH.
Qed.

(** ** Slices *)

Lemma slice_from_tail {A} (n : nat) (xs : list A) :
  (0 < n)%nat -> slice_from (- Z.of_nat n) xs = drop (length xs - n) xs.
Proof.
  intros Hn. unfold slice_from.
  destruct (Z.ltb_spec (- Z.of_nat n) 0); [|lia].
  f_equal. lia.
Qed.

