(* ===== verification/JsNumberArith.v ===== *)
(** * Exact integer arithmetic on Numbers

    Below [2^53] the addition, the subtraction, the comparison and the minimum
    of Numbers are those of the integers they denote. *)

From Stdlib Require Import ZArith Lia Bool List.
From Stdlib Require Import Floats.SpecFloat.
From stdpp Require Import base list decidable option.
From S2P Require Import Prelude JsNumber JsNumberFacts JsString.

Local Open Scope Z_scope.

(** ** Rounding depends on the fraction only *)

Lemma rne_scale k n d : 0 < k -> 0 < d -> rne (k * n) (k * d) = rne n d.
Proof.
  intros Hk Hd. unfold rne. rewrite Z.div_mul_cancel_l, Zmult_mod_distr_l by lia.
  destruct (Z.ltb_spec (2 * (k * (n mod d))) (k * d)), (Z.ltb_spec (2 * (n mod d)) d); try nia.
  destruct (Z.ltb_spec (k * d) (2 * (k * (n mod d)))), (Z.ltb_spec d (2 * (n mod d))); nia || done.
Qed.

Lemma pow_le_scale k p q l : 0 < k -> pow_le (k * p) (k * q) l <-> pow_le p q l.
Proof. intros Hk. unfold pow_le. rewrite <- !Z.mul_assoc. symmetry. by apply Z.mul_le_mono_pos_l. Qed.

Lemma qlog2_scale k p q : qlog2 (k * p) (k * q) = qlog2 p q.
Proof.
  pose proof (qlog2_spec p q) as [H1 H2].
  assert (Hs : forall l, pow_le (Zpos (k * p)) (Zpos (k * q)) l <-> pow_le (Zpos p) (Zpos q) l)
    by (intros l; rewrite !Pos2Z.inj_mul; by apply pow_le_scale).
  apply Z.le_antisymm.
  - apply Z.lt_succ_r, qlog2_lt. by rewrite Hs.
  - apply qlog2_ge. by rewrite Hs.
Qed.

Lemma num_of_Q_scale s k p q : num_of_Q s (k * p) (k * q) = num_of_Q s p q.
Proof.
  unfold num_of_Q, ulp_exp. rewrite qlog2_scale.
  assert (Hs : forall e, scaled (k * p) (k * q) e = scaled p q e); [|by rewrite Hs].
  intros e. unfold scaled. rewrite !Pos2Z.inj_mul, <- !Z.mul_assoc.
  pose proof (pow2_pos e). apply rne_scale; lia.
Qed.

(** An integer written with a negative exponent. *)
Lemma num_of_dyadic_int s p r f :
  0 <= f -> Zpos p = Zpos r * 2 ^ f -> num_of_dyadic s p (- f) = num_of_Q s r 1.
Proof.
  intros Hf Hp. pose proof (Z.pow_pos_nonneg 2 f ltac:(lia) Hf) as H2.
  unfold num_of_dyadic. destruct (Z.leb_spec 0 (- f)) as [H|H].
  - assert (f = 0) as -> by lia. change (2 ^ (- 0)) with 1. rewrite Z.pow_0_r in Hp.
    replace (p * Z.to_pos 1)%positive with r by lia. done.
  - rewrite Z.opp_involutive. destruct (2 ^ f) as [|t|t] eqn:E; [lia| |lia]. simpl Z.to_pos.
    replace p with (t * r)%positive by lia.
    replace t with (t * 1)%positive at 2 by lia. apply num_of_Q_scale.
Qed.

(** ** Integers as significand and exponent *)

(** [num_of_Z z] for a [z] that is not zero: its significand is normal. *)
Lemma num_of_Z_finite z :
  z <> 0 -> Z.abs z < 2 ^ 53 ->
  exists m f, 0 <= f <= 52 /\ num_of_Z z = S754_finite (z <? 0) m (- f) /\
    signed (z <? 0) m = z * 2 ^ f /\ 2 ^ 52 <= Zpos m < 2 ^ 53.
Proof.
  intros Hz Hb.
  destruct z as [|p|p]; [lia| |]; simpl.
  - destruct (num_of_Q_int false p) as (m & f & ? & ? & ? & ?); [lia|]. by exists m, f.
  - destruct (num_of_Q_int true p) as (m & f & ? & ? & ? & ?); [lia|]. exists m, f.
    split_and!; [lia..|done| |lia|lia]. simpl. lia.
Qed.

(** ** Operations *)

Lemma num_of_sum s1 m1 f1 s2 m2 f2 z :
  0 <= f1 -> 0 <= f2 -> Z.abs z < 2 ^ 53 ->
  signed s1 m1 * 2 ^ f2 + signed s2 m2 * 2 ^ f1 = z * 2 ^ (f1 + f2) ->
  num_add (S754_finite s1 m1 (- f1)) (S754_finite s2 m2 (- f2)) = num_of_Z z.
Proof.
  intros H1 H2 Hz E. unfold num_add. set (F := Z.max f1 f2).
  replace (Z.min (- f1) (- f2)) with (- F) by lia.
  pose proof (Z.pow_pos_nonneg 2 (Z.min f1 f2) ltac:(lia) ltac:(lia)).
  assert (E' : signed s1 m1 * 2 ^ (- f1 - - F) + signed s2 m2 * 2 ^ (- f2 - - F) = z * 2 ^ F).
  { apply (Z.mul_cancel_r _ _ (2 ^ Z.min f1 f2)); [lia|].
    rewrite Z.mul_add_distr_r, <- !Z.mul_assoc, <- !Z.pow_add_r by lia.
    replace (- f1 - - F + Z.min f1 f2) with f2 by lia.
    replace (- f2 - - F + Z.min f1 f2) with f1 by lia.
    replace (F + Z.min f1 f2) with (f1 + f2) by lia. done. }
  rewrite E'. pose proof (Z.pow_pos_nonneg 2 F ltac:(lia) ltac:(lia)).
  destruct z as [|r|r]; [done| |]; (destruct (_ * 2 ^ F) as [|p|p] eqn:Ep; [lia|..]; try lia).
  - apply num_of_dyadic_int; lia.
  - apply num_of_dyadic_int; lia.
Qed.

Lemma num_add_Z a b :
  Z.abs a < 2 ^ 53 -> Z.abs b < 2 ^ 53 -> Z.abs (a + b) < 2 ^ 53 ->
  num_add (num_of_Z a) (num_of_Z b) = num_of_Z (a + b).
Proof.
  intros Ha Hb Hab.
  destruct (Z.eq_dec a 0) as [->|Na], (Z.eq_dec b 0) as [->|Nb]; [done|..].
  - destruct (num_of_Z_finite b Nb Hb) as (m & f & _ & E & _). by rewrite Z.add_0_l, E.
  - destruct (num_of_Z_finite a Na Ha) as (m & f & _ & E & _).
    by rewrite Z.add_0_r, E.
  - destruct (num_of_Z_finite a Na Ha) as (m & f & ? & -> & E1 & _).
    destruct (num_of_Z_finite b Nb Hb) as (m' & f' & ? & -> & E2 & _).
    apply num_of_sum; [lia..|]. rewrite E1, E2, Z.pow_add_r by lia. lia.
Qed.

Lemma num_opp_Z b : b <> 0 -> num_opp (num_of_Z b) = num_of_Z (- b).
Proof.
  assert (H : forall s p, num_opp (num_of_Q s p 1) = num_of_Q (negb s) p 1).
  { assert (Hp : forall s m e, num_opp (pack s m e) = pack (negb s) m e)
      by (intros s [|m|m] e; simpl; try done; by destruct (_ <=? _)).
    intros s p. unfold num_of_Q. destruct (_ =? _); apply Hp. }
  intros Hb. destruct b; [done|..]; apply H.
Qed.

Lemma num_sub_Z a b :
  Z.abs a < 2 ^ 53 -> Z.abs b < 2 ^ 53 -> Z.abs (a - b) < 2 ^ 53 ->
  num_sub (num_of_Z a) (num_of_Z b) = num_of_Z (a - b).
Proof.
  intros Ha Hb Hab. unfold num_sub. destruct (Z.eq_dec b 0) as [->|Nb].
  - rewrite Z.sub_0_r. destruct (Z.eq_dec a 0) as [->|Na]; [done|].
    by destruct (num_of_Z_finite a Na Ha) as (m & f & _ & -> & _).
  - rewrite num_opp_Z by done. apply num_add_Z; lia.
Qed.

(** A smaller exponent means a smaller number, both significands being normal. *)
Lemma normal_lt a b m m' f f' :
  0 <= f <= 52 -> 0 <= f' < f -> 0 < b -> m = a * 2 ^ f -> m' = b * 2 ^ f' -> m < 2 ^ 53 -> 2 ^ 52 <= m' -> a < b.
Proof.
  intros Hf Hf' Hb -> -> H1 H2.
  assert (2 ^ f = 2 ^ f' * 2 ^ (f - f')) as E by (rewrite <- Z.pow_add_r by lia; f_equal; lia).
  pose proof (Z.pow_pos_nonneg 2 f' ltac:(lia) ltac:(lia)).
  assert (2 <= 2 ^ (f - f')) by (change 2 with (2 ^ 1) at 1; apply Z.pow_le_mono_r; lia).
  nia.
Qed.

Lemma num_ltb_Z a b :
  0 <= a < 2 ^ 53 -> 0 <= b < 2 ^ 53 -> num_ltb (num_of_Z a) (num_of_Z b) = (a <? b).
Proof.
  intros Ha Hb. unfold num_ltb, SFltb.
  destruct (Z.eq_dec a 0) as [->|Na], (Z.eq_dec b 0) as [->|Nb]; [done|..].
  - destruct (num_of_Z_finite b Nb) as (m & f & _ & -> & _); [lia|].
    destruct (Z.ltb_spec b 0); [lia|]. simpl. symmetry. apply Z.ltb_lt. lia.
  - destruct (num_of_Z_finite a Na) as (m & f & _ & -> & _); [lia|].
    destruct (Z.ltb_spec a 0); [lia|]. done.
  - destruct (num_of_Z_finite a Na) as (m & f & Hf & -> & E & Hm); [lia|].
    destruct (num_of_Z_finite b Nb) as (m' & f' & Hf' & -> & E' & Hm'); [lia|].
    destruct (Z.ltb_spec a 0); [lia|]. destruct (Z.ltb_spec b 0); [lia|]. simpl in *.
    destruct (Z.compare_spec (- f) (- f')).
    + assert (f' = f) as -> by lia. pose proof (Z.pow_pos_nonneg 2 f ltac:(lia) ltac:(lia)).
      change (Pos.compare_cont Eq m m') with (m ?= m')%positive.
      destruct (Pos.compare_spec m m'), (Z.ltb_spec a b); nia || done.
    + symmetry. apply Z.ltb_lt. eapply (normal_lt a b _ _ f f'); lia || eassumption.
    + symmetry. apply Z.ltb_ge, Z.lt_le_incl. eapply (normal_lt b a _ _ f' f); lia || eassumption.
Qed.

Lemma math_min_Z a b :
  0 <= a < 2 ^ 53 -> 0 <= b < 2 ^ 53 -> math_min (num_of_Z a) (num_of_Z b) = num_of_Z (Z.min a b).
Proof.
  intros Ha Hb. unfold math_min. pose proof (num_ltb_Z b a Hb Ha) as Hlt.
  destruct (Z.eq_dec a 0) as [->|Na].
  { replace (Z.min 0 b) with 0 by lia. destruct (Z.eq_dec b 0) as [->|Nb]; [done|].
    destruct (num_of_Z_finite b Nb) as (m & f & _ & E & _); [lia|].
    rewrite E in *. destruct (Z.ltb_spec b 0); [lia|]. done. }
  destruct (num_of_Z_finite a Na) as (m & f & _ & E & _); [lia|].
  rewrite E in *. simpl is_nan. rewrite Hlt. unfold orb.
  destruct (is_nan (num_of_Z b)) eqn:En.
  { destruct (Z.eq_dec b 0) as [->|Nb]; [done|].
    destruct (num_of_Z_finite b Nb) as (m' & f' & _ & E' & _); [lia|]. by rewrite E' in En. }
  destruct (Z.ltb_spec b a); [by rewrite Z.min_r by lia|by rewrite Z.min_l by lia].
Qed.

(** [xs.slice(-n)] keeps the last [n] elements. *)
Lemma slice_num_tail {A} (n : nat) (xs : list A) :
  (0 < n)%nat -> Z.of_nat n < 2 ^ 53 ->
  slice_num (num_opp (num_of_Z (Z.of_nat n))) xs = drop (length xs - n) xs.
Proof.
  intros Hn Hb. rewrite num_opp_Z by lia.
  destruct (num_of_Z_finite (- Z.of_nat n)) as (m & f & Hf & -> & Hm & _); [lia..|].
  destruct (Z.ltb_spec (- Z.of_nat n) 0); [|lia]. simpl in *. unfold trunc_Z.
  pose proof (Z.pow_pos_nonneg 2 f ltac:(lia) ltac:(lia)).
  rewrite Z.opp_involutive, Z.max_l, Z.max_r, Z.pow_0_r, Z.mul_1_r by lia.
  replace (Zpos m) with (Z.of_nat n * 2 ^ f) by lia. rewrite Z.div_mul by lia.
  by apply slice_from_tail.
Qed.
