(* ===== verification/JsRegex.v ===== *)
(** * Regular expressions

    The regular expressions that read XMRig's log lines are sequences of
    character classes with [+], [*], [*?] and [?] and two capture groups.
    [match_items] is the backtracking matcher of ECMAScript on such sequences,
    [exec] its leftmost search; both are proved against the declarative relation
    [matches]. *)

From Stdlib Require Import ZArith Lia String Ascii List Bool.
From stdpp Require Import base list strings decidable option.
From S2P Require Import Prelude JsNumber JsString.

Local Open Scope Z_scope.

Inductive item :=
| One (p : ascii -> bool)
| Many (greedy : bool) (p : ascii -> bool)
| Opt (p : ascii -> bool)
| Open (n : nat)
| Close (n : nat).

(** Group boundaries met so far: the text remaining at each. *)
Definition marks : Type := list (bool * nat * string).

Fixpoint match_items (its : list item) (s : string) (m : marks) : option (string * marks) :=
  match its with
  | [] => Some (s, m)
  | One p :: its' =>
      match s with
      | String c s' => if p c then match_items its' s' m else None
      | EmptyString => None
      end
  | Opt p :: its' =>
      let skip := match_items its' s m in
      match s with
      | String c s' =>
          if p c then match match_items its' s' m with Some r => Some r | None => skip end
          else skip
      | EmptyString => skip
      end
  | Many greedy p :: its' =>
      (fix loop (s : string) : option (string * marks) :=
         let stop := match_items its' s m in
         match s with
         | String c s' =>
             if p c then
               if greedy then match loop s' with Some r => Some r | None => stop end
               else match stop with Some r => Some r | None => loop s' end
             else stop
         | EmptyString => stop
         end) s
  | Open n :: its' => match_items its' s ((true, n, s) :: m)
  | Close n :: its' => match_items its' s ((false, n, s) :: m)
  end.

(** The leftmost match. *)
Fixpoint exec (its : list item) (s : string) : option (string * marks) :=
  match match_items its s [] with
  | Some r => Some r
  | None => match s with EmptyString => None | String _ s' => exec its s' end
  end.

Fixpoint find_mark (o : bool) (n : nat) (m : marks) : option string :=
  match m with
  | [] => None
  | (o', n', s) :: m' => if Bool.eqb o o' && Nat.eqb n n' then Some s else find_mark o n m'
  end.

(** The text of group [n]: what was consumed between its boundaries. *)
Definition group (n : nat) (m : marks) : option string :=
  match find_mark true n m, find_mark false n m with
  | Some s, Some e => Some (substring 0 (String.length s - String.length e) s)
  | _, _ => None
  end.

(** ** Character classes *)

Definition is_word (c : ascii) : bool :=
  is_digit c || ((97 <=? code c) && (code c <=? 122)) || ((65 <=? code c) && (code c <=? 90)) || (code c =? 95).

Definition not_space (c : ascii) : bool := negb (is_space c).
Definition any_char (c : ascii) : bool := negb ((code c =? 10) || (code c =? 13)).
Definition exactly (a c : ascii) : bool := Ascii.eqb a c.
Definition exactly_i (a c : ascii) : bool := Ascii.eqb (lower a) (lower c).

Definition literal (eq : ascii -> ascii -> bool) (s : string) : list item :=
  map (fun a => One (eq a)) (String.list_ascii_of_string s).

Definition plus (p : ascii -> bool) : list item := [One p; Many true p].

(** [\d+\.?\d*]. *)
Definition decimal : list item := plus is_digit ++ [Opt (exactly "."); Many true is_digit].

(** ** Counting a literal, case-insensitively

    [(s.match(/w/gi) || []).length]: the non-overlapping occurrences of [w],
    scanned from the left; [skip] is what remains of the last occurrence. *)
Fixpoint occurrences (w : string) (skip : nat) (s : string) : nat :=
  match s with
  | EmptyString => 0
  | String c s' =>
      match skip with
      | S k => occurrences w k s'
      | O => match strip_prefix w s with
             | Some _ => S (occurrences w (pred (String.length w)) s')
             | None => occurrences w 0 s'
             end
      end
  end.

Definition count_gi (w s : string) : nat := occurrences w 0 (toLowerCase s).

(** ** The declarative reading *)

Inductive matches : list item -> string -> string -> Prop :=
| matches_nil s : matches [] s s
| matches_one (p : ascii -> bool) c its s s' :
    p c = true -> matches its s s' -> matches (One p :: its) (String c s) s'
| matches_opt_skip p its s s' : matches its s s' -> matches (Opt p :: its) s s'
| matches_opt_take (p : ascii -> bool) c its s s' :
    p c = true -> matches its s s' -> matches (Opt p :: its) (String c s) s'
| matches_many_stop g p its s s' : matches its s s' -> matches (Many g p :: its) s s'
| matches_many_more g (p : ascii -> bool) c its s s' :
    p c = true -> matches (Many g p :: its) s s' -> matches (Many g p :: its) (String c s) s'
| matches_open n its s s' : matches its s s' -> matches (Open n :: its) s s'
| matches_close n its s s' : matches its s s' -> matches (Close n :: its) s s'.

#[export] Hint Constructors matches : js.

Lemma match_items_sound its s m s' m' :
  match_items its s m = Some (s', m') -> matches its s s'.
Proof.
  revert s m. induction its as [|[p|g p|p|n|n] its IH]; intros s m; simpl.
  - intros [= -> ->]. constructor.
  - destruct s as [|c s]; [done|]. destruct (p c) eqn:Hp; [|done]. eauto with js.
  - induction s as [|c s IHs]; [eauto with js|].
    destruct (p c) eqn:Hp; [|eauto with js].
    destruct g; case_match; intros Heq; simplify_eq; eauto with js.
  - destruct s as [|c s]; [eauto with js|].
    destruct (p c) eqn:Hp; [|eauto with js].
    case_match; intros H'; simplify_eq; eauto with js.
  - eauto with js.
  - eauto with js.
Qed.

Lemma match_items_complete its s s' : matches its s s' -> forall m, match_items its s m <> None.
Proof.
  induction 1 as [s|p c its s s' Hp _ IH|p its s s' _ IH|p c its s s' Hp _ IH
    |g p its s s' _ IH|g p c its s s' Hp _ IH|n its s s' _ IH|n its s s' _ IH]; intros m; simpl; auto.
  - by rewrite Hp.
  - destruct s as [|c s]; [auto|]. destruct (p c); [|auto].
    by destruct (match_items its s m).
  - rewrite Hp. specialize (IH m). by destruct (match_items its s m).
  - specialize (IH m). destruct s as [|c s]; [auto|]. destruct (p c); [|auto].
    destruct g; [|by destruct (match_items its (String c s) m)].
    by case_match.
  - rewrite Hp. specialize (IH m). simpl in IH.
    destruct g; [by case_match|]. by destruct (match_items its (String c s) m).
Qed.

(** The search succeeds exactly when some suffix of the text matches. *)
Lemma exec_iff its s :
  is_Some (exec its s) <-> exists pre suf s', s = (pre ++ suf)%string /\ matches its suf s'.
Proof.
  split.
  - induction s as [|c s IH]; simpl.
    + destruct (match_items its "" []) as [[s' m]|] eqn:E; [|by intros []].
      intros _. exists ""%string, ""%string, s'. eauto using match_items_sound.
    + destruct (match_items its (String c s) []) as [[s' m]|] eqn:E.
      * intros _. exists ""%string, (String c s), s'. eauto using match_items_sound.
      * intros H. destruct (IH H) as (pre & suf & s' & -> & Hm).
        exists (String c pre), suf, s'. done.
  - intros (pre & suf & s' & -> & Hm). induction pre as [|c pre IH]; simpl.
    + pose proof (match_items_complete _ _ _ Hm []) as Hn.
      destruct suf; simpl; destruct (match_items its _ []) eqn:E; eauto; done.
    + destruct (match_items its _ []); eauto.
Qed.
