(* ===== verification/JsValue.v ===== *)
(** * JavaScript values

    The values that JSON bodies, JSON-RPC replies and query strings carry into
    the handlers, with the language's coercions (truthiness, ToString,
    ToNumber), property access that throws on [null] and [undefined], optional
    chaining, object spread, and what [JSON.stringify] keeps of a value. *)

From Stdlib Require Import ZArith Lia String Ascii List Bool.
From Stdlib Require Import Floats.SpecFloat.
From stdpp Require Import base list strings decidable option.
From S2P Require Import Prelude JsNumber JsString.

Local Open Scope Z_scope.

(** An object is the list of its own properties in insertion order. *)
#[warnings="-register-all"] Inductive val : Type :=
| VUndef
| VNull
| VBool (b : bool)
| VNum (n : num)
| VStr (s : string)
| VArr (l : list val)
| VObj (ps : list (string * val)).

(** The [message] of the exception a computation throws. *)
Definition jserr : Type := string.

Definition vint (z : Z) : val := VNum (num_of_Z z).

(** ** Coercions *)

Definition truthy (v : val) : bool :=
  match v with
  | VUndef | VNull => false
  | VBool b => b
  | VNum S754_nan | VNum (S754_zero _) => false
  | VNum _ => true
  | VStr s => negb (String.eqb s "")
  | VArr _ | VObj _ => true
  end.

(** [a || b]. *)
Definition or_else (a b : val) : val := if truthy a then a else b.

Fixpoint lookup_prop (k : string) (ps : list (string * val)) : option val :=
  match ps with
  | [] => None
  | (k', v) :: ps' => if String.eqb k k' then Some v else lookup_prop k ps'
  end.

(** The property of a value that is neither [null] nor [undefined]. *)
Definition own_prop (v : val) (k : string) : val :=
  match v with
  | VObj ps => default VUndef (lookup_prop k ps)
  | VArr l => if String.eqb k "length" then vint (Z.of_nat (length l)) else VUndef
  | VStr s => if String.eqb k "length" then vint (Z.of_nat (String.length s)) else VUndef
  | _ => VUndef
  end.

Definition cannot_read (what k : string) : jserr :=
  ("Cannot read properties of " ++ what ++ " (reading '" ++ k ++ "')")%string.

(** [v.k]. *)
Definition get (v : val) (k : string) : jserr + val :=
  match v with
  | VUndef => inl (cannot_read "undefined" k)
  | VNull => inl (cannot_read "null" k)
  | _ => inr (own_prop v k)
  end.

(** [v?.k]. *)
Definition get_opt (v : val) (k : string) : val :=
  match v with
  | VUndef | VNull => VUndef
  | _ => own_prop v k
  end.

Definition not_primitive : jserr := "Cannot convert object to primitive value".

(** [String(v)], the coercion of template literals and of [parseInt]'s argument;
    an object whose own [toString] shadows the method does not convert. *)
Fixpoint to_str (v : val) : jserr + string :=
  match v with
  | VUndef => inr "undefined"%string
  | VNull => inr "null"%string
  | VBool b => inr (if b then "true" else "false")%string
  | VNum n => inr (num_to_string n)
  | VStr s => inr s
  | VArr l =>
      (fix elems (first : bool) (l : list val) : jserr + string :=
         match l with
         | [] => inr ""%string
         | x :: l' =>
             let tx := match x with VUndef | VNull => inr ""%string | _ => to_str x end in
             match tx, elems false l' with
             | inr t, inr r => inr ((if first then "" else ",") ++ t ++ r)%string
             | inl e, _ | _, inl e => inl e
             end
         end) true l
  | VObj ps =>
      match lookup_prop "toString" ps with
      | Some _ => inl not_primitive
      | None => inr "[object Object]"%string
      end
  end.

(** StringToNumber: the whole trimmed text must be a literal. *)
Definition str_to_num (s : string) : num :=
  match trim s with
  | EmptyString => n0
  | String "0" (String x r) as t =>
      if Ascii.eqb x "x" || Ascii.eqb x "X" then
        let (v, k) := scan_hex 0 0 r in
        if (k =? Z.of_nat (String.length r)) && negb (k =? 0) then num_of_Z v else NaN
      else match scan_decimal t with Some (n, EmptyString) => n | _ => NaN end
  | t => match scan_decimal t with Some (n, EmptyString) => n | _ => NaN end
  end.

(** ToNumber. *)
Definition to_num (v : val) : jserr + num :=
  match v with
  | VUndef => inr NaN
  | VNull => inr n0
  | VBool b => inr (if b then num_of_Z 1 else n0)
  | VNum n => inr n
  | VStr s => inr (str_to_num s)
  | VArr _ | VObj _ =>
      match to_str v with inl e => inl e | inr s => inr (str_to_num s) end
  end.

(** ToPrimitive: arrays and objects become strings. *)
Definition to_prim (v : val) : jserr + val :=
  match v with
  | VArr _ | VObj _ => match to_str v with inl e => inl e | inr s => inr (VStr s) end
  | _ => inr v
  end.

(** [a + b]: concatenation when either side is a string, addition otherwise. *)
Definition js_add (a b : val) : jserr + val :=
  match to_prim a, to_prim b with
  | inr pa, inr pb =>
      match pa, pb with
      | VStr _, _ | _, VStr _ =>
          match to_str pa, to_str pb with
          | inr x, inr y => inr (VStr (x ++ y))
          | inl e, _ | _, inl e => inl e
          end
      | _, _ =>
          match to_num pa, to_num pb with
          | inr x, inr y => inr (VNum (num_add x y))
          | inl e, _ | _, inl e => inl e
          end
      end
  | inl e, _ | _, inl e => inl e
  end.

(** ** Objects *)

(** Assignment of a property: in place when it exists, last otherwise. *)
Fixpoint set_prop (k : string) (v : val) (ps : list (string * val)) : list (string * val) :=
  match ps with
  | [] => [(k, v)]
  | (k', v') :: ps' =>
      if String.eqb k k' then (k', v) :: ps' else (k', v') :: set_prop k v ps'
  end.

Definition set_all (src dst : list (string * val)) : list (string * val) :=
  fold_left (fun acc p => set_prop p.1 p.2 acc) src dst.

Fixpoint indexed (i : Z) (l : list val) : list (string * val) :=
  match l with [] => [] | x :: l' => (dec_of_Z i, x) :: indexed (i + 1) l' end.

(** The own enumerable properties [...v] copies. *)
Definition spread (v : val) : list (string * val) :=
  match v with
  | VObj ps => ps
  | VArr l => indexed 0 l
  | VStr s => indexed 0 (map (fun c => VStr (String c "")) (String.list_ascii_of_string s))
  | _ => []
  end.

(** ** JSON *)

(** What [JSON.stringify] writes of a number: [null] unless it is finite. *)
Definition json_num (n : num) : val :=
  match n with
  | S754_nan | S754_infinity _ => VNull
  | S754_zero _ => VNum n0
  | _ => VNum n
  end.

(** The value a reader of the JSON text of [v] gets: undefined members are left
    out, undefined elements are [null], and so are NaN and the infinities. *)
Fixpoint json (v : val) : val :=
  match v with
  | VNum n => json_num n
  | VArr l => VArr (map (fun x => match x with VUndef => VNull | _ => json x end) l)
  | VObj ps =>
      VObj ((fix members (ps : list (string * val)) : list (string * val) :=
               match ps with
               | [] => []
               | (k, VUndef) :: ps' => members ps'
               | (k, x) :: ps' => (k, json x) :: members ps'
               end) ps)
  | _ => v
  end.

(** ** Facts *)

Lemma lookup_set_prop_eq k v ps : lookup_prop k (set_prop k v ps) = Some v.
Proof.
  induction ps as [|[k' v'] ps IH]; simpl; [by rewrite String.eqb_refl|].
  destruct (String.eqb_spec k k') as [->|Hne]; simpl.
  - by rewrite String.eqb_refl.
  - by rewrite (proj2 (String.eqb_neq _ _) Hne).
Qed.

Lemma lookup_set_prop_ne k k' v ps :
  k <> k' -> lookup_prop k (set_prop k' v ps) = lookup_prop k ps.
Proof.
  intros Hne. induction ps as [|[k2 v2] ps IH]; simpl.
  - by rewrite (proj2 (String.eqb_neq _ _) Hne).
  - destruct (String.eqb_spec k' k2) as [->|]; simpl.
    + by rewrite (proj2 (String.eqb_neq _ _) Hne).
    + by destruct (String.eqb k k2).
Qed.

(** In [{ ...dst, ...src }] a property of [src] wins; when [src] has several
    entries for a key the last one counts. *)
Lemma lookup_set_all_notin k src dst :
  ~ In k (map fst src) -> lookup_prop k (set_all src dst) = lookup_prop k dst.
Proof.
  revert dst. induction src as [|[k' v'] src IH]; intros dst Hin; simpl in *; [done|].
  unfold set_all in *. simpl. rewrite IH by tauto.
  apply lookup_set_prop_ne. intros ->. tauto.
Qed.

Lemma lookup_set_all_in k v src dst :
  NoDup (map fst src) -> lookup_prop k src = Some v ->
  lookup_prop k (set_all src dst) = Some v.
Proof.
  revert dst. induction src as [|[k' v'] src IH]; intros dst Hnd; simpl in *; [done|].
  inversion Hnd as [|? ? Hk Hnd']; subst.
  unfold set_all in *. simpl.
  destruct (String.eqb_spec k k') as [->|Hne]; intros Hl; simplify_eq; [|by apply IH].
  fold (set_all src (set_prop k' v dst)). rewrite lookup_set_all_notin.
  - apply lookup_set_prop_eq.
  - intros H. apply Hk. by apply list_elem_of_In.
Qed.

