(* ===== verification/Runtime.v ===== *)
(** * The Node.js runtime the handlers run on

    A handler is a tree of interactions: reads and writes of the module's
    variables, synchronous calls (files, child processes, the HTTP response),
    awaited operations (fetch, timers, [exec]) and callbacks registered for
    later events.  Between two awaits a handler runs without interruption; at an
    await other handlers and event callbacks may run.

    The file gives the trees their monad with [try]/[catch], an executable
    sequential interpreter, a counting logic over all paths of a tree, and the
    event-loop semantics with its proof rule for invariants. *)

From Stdlib Require Import ZArith Lia String Ascii List Bool.
From stdpp Require Import base list strings decidable option.
From S2P Require Import Prelude JsNumber JsString JsValue.

(** ** Operations *)

(** A ChildProcess object: its identity and its [pid] ([undefined] when the
    spawn failed). *)
Record child := { c_id : nat; c_pid : val }.

#[export] Instance child_inhabited : Inhabited child := populate {| c_id := 0; c_pid := VUndef |}.

(** An HTTP request: the method, the URL and the JSON body, if any. *)
Record http_request := { rq_method : string; rq_url : string; rq_body : option val }.

(** An HTTP response: its status, what [json()] gives (the parsed body or the
    message of the error) and whether the body arrived to its end. *)
Record http_response := { rs_status : Z; rs_json : jserr + val; rs_complete : bool }.

(** [response.ok]. *)
Definition rs_ok (r : http_response) : bool :=
  (200 <=? rs_status r)%Z && (rs_status r <? 300)%Z.

Inductive signal := SIG0 | SIGTERM.

(** What [writeFileSync] writes: a text, or the JSON text of a value. *)
Inductive content := CText (s : string) | CJson (v : val).

Inductive sysop :=
| FsExists (p : string)
| FsMkdir (p : string)
| FsReaddir (p : string)
| FsReadFile (p : string)
| FsWriteFile (p : string) (c : content)
| FsUnlink (p : string)
| FsOpen (p : string)
| FsClose (p : string)
| FsChmod (p : string)
| FsWriteStream (p : string)
| Spawn (bin : string) (args : list string)
| ChildKill (h : child)
| ChildKilled (h : child)
| ProcessKill (pid : val) (sig : signal)
| ExecSync (cmd : string)
| ShowErrorBox (title text : string)
| OpenWindow (url : string)
| StartServer (wallet_dir wallet_bin : string)
| AppQuit
| Respond (status : Z) (body : val).

Definition sys_answer (o : sysop) : Type :=
  match o with
  | FsExists _ | ChildKill _ | ChildKilled _ => bool
  | FsReaddir _ => jserr + list string
  | FsReadFile _ => jserr + string
  | Spawn _ _ => jserr + child
  | FsWriteStream _ | Respond _ _ | ShowErrorBox _ _ | OpenWindow _ | StartServer _ _ | AppQuit => unit
  | _ => jserr + unit
  end.

Inductive asyncop :=
| Fetch (r : http_request)
| Body
| Sleep (ms : Z)
| Exec (cmd : string)
| StartUp (h : child)
| OnError (h : child)
| OnStreamError (p : string)
| OnExit (h : child)
| OnClose (h : child).

(** [Exec] answers with whether the command failed and its standard output;
    [StartUp] is the promise a starter returns for its child, which is only
    ever resolved; [Body] is the wait for a response's body; [OnStreamError] is
    the ['error'] event of the write stream on a file. *)
Definition async_answer (o : asyncop) : Type :=
  match o with
  | Fetch _ => jserr + http_response
  | Exec _ => bool * string
  | _ => unit
  end.

(** ** Programs *)

Section Prog.
Context {S : Type}.

(** [Hang] waits for a promise that nothing settles. *)
Inductive prog (A : Type) : Type :=
| Ret (a : A)
| Throw (e : jserr)
| Hang
| Get (k : S -> prog A)
| Put (s : S) (k : prog A)
| Sys (o : sysop) (k : sys_answer o -> prog A)
| Await (o : asyncop) (k : async_answer o -> prog A)
| Fork (o : asyncop) (cb : async_answer o -> prog unit) (k : prog A).

Arguments Ret {A} a.
Arguments Throw {A} e.
Arguments Hang {A}.
Arguments Get {A} k.
Arguments Put {A} s k.
Arguments Sys {A} o k.
Arguments Await {A} o k.
Arguments Fork {A} o cb k.

Fixpoint bind {A B} (p : prog A) (f : A -> prog B) : prog B :=
  match p with
  | Ret a => f a
  | Throw e => Throw e
  | Hang => Hang
  | Get k => Get (fun s => bind (k s) f)
  | Put s k => Put s (bind k f)
  | Sys o k => Sys o (fun a => bind (k a) f)
  | Await o k => Await o (fun a => bind (k a) f)
  | Fork o cb k => Fork o cb (bind k f)
  end.

(** [try { p } catch (e) { h }].  Callbacks registered in [p] run outside it. *)
Fixpoint try_catch {A} (p : prog A) (h : jserr -> prog A) : prog A :=
  match p with
  | Ret a => Ret a
  | Throw e => h e
  | Hang => Hang
  | Get k => Get (fun s => try_catch (k s) h)
  | Put s k => Put s (try_catch k h)
  | Sys o k => Sys o (fun a => try_catch (k a) h)
  | Await o k => Await o (fun a => try_catch (k a) h)
  | Fork o cb k => Fork o cb (try_catch k h)
  end.

Definition lift {A} (r : jserr + A) : prog A :=
  match r with inl e => Throw e | inr a => Ret a end.

Definition gets {A} (f : S -> A) : prog A := Get (fun s => Ret (f s)).
Definition modify (f : S -> S) : prog unit := Get (fun s => Put (f s) (Ret tt)).

Definition sys (o : sysop) : prog (sys_answer o) := Sys o Ret.
Definition await (o : asyncop) : prog (async_answer o) := Await o Ret.
Definition fork (o : asyncop) (cb : async_answer o -> prog unit) : prog unit := Fork o cb (Ret tt).

(** An ['error'] event that nobody listens to: emitting it throws, outside every
    handler. *)
Definition unlistened (o : asyncop) : prog unit :=
  Fork o (fun _ => Throw "Unhandled 'error' event"%string) (Ret tt).

(** The calls that throw. *)
Definition exists_sync (p : string) : prog bool := sys (FsExists p).
Definition mkdir_sync (p : string) : prog unit := Sys (FsMkdir p) lift.
Definition readdir_sync (p : string) : prog (list string) := Sys (FsReaddir p) lift.
Definition read_file (p : string) : prog string := Sys (FsReadFile p) lift.
Definition write_file (p : string) (c : content) : prog unit := Sys (FsWriteFile p c) lift.
Definition unlink (p : string) : prog unit := Sys (FsUnlink p) lift.
Definition spawn (bin : string) (args : list string) : prog child := Sys (Spawn bin args) lift.
Definition process_kill (pid : val) (sig : signal) : prog unit := Sys (ProcessKill pid sig) lift.

(** [await fetch(...)] and [await response.json()]. *)
Definition fetch (r : http_request) : prog http_response := Await (Fetch r) lift.
Definition body_json (r : http_response) : prog val := Await Body (fun _ => lift (rs_json r)).
Definition sleep (ms : Z) : prog unit := await (Sleep ms).

(** [res.status(code).json(v)]. *)
Definition respond (code : Z) (v : val) : prog unit := sys (Respond code (json v)).
End Prog.

Arguments prog : clear implicits.
Arguments Ret {S A} a.
Arguments Throw {S A} e.
Arguments Hang {S A}.
Arguments Get {S A} k.
Arguments Put {S A} s k.
Arguments Sys {S A} o k.
Arguments Await {S A} o k.
Arguments Fork {S A} o cb k.

Declare Scope js_scope.
Delimit Scope js_scope with js.

Notation "'let*' x := p 'in' k" := (bind p (fun x => k))
  (at level 10, x pattern, p at level 100, k at level 200) : js_scope.
Notation "p ;;; k" := (bind p (fun _ => k)) (at level 199, k at level 200, right associativity) : js_scope.
Notation "'try' p 'catch' e => h" := (try_catch p (fun e => h))
  (at level 10, p at level 200, e name, h at level 200) : js_scope.

(** Object literals: ["k" ::= v] pairs. *)
Notation "k ::= v" := (k%string, v) (at level 95, no associativity) : js_scope.
Definition obj (ps : list (string * val)) : val := VObj ps.
Definition str (s : string) : val := VStr s.

(** ** Sequential execution

    One handler run from start to end against an environment that answers each
    operation from the history of operations so far.  Callbacks registered for
    later events are collected, not run. *)

Inductive event := EvSys (o : sysop) | EvAwait (o : asyncop).
Definition trace : Type := list event.

Record env := {
  on_sys : trace -> forall o, sys_answer o;
  on_async : trace -> forall o, async_answer o
}.

Record task (S : Type) := Task { t_op : asyncop; t_cb : async_answer t_op -> prog S unit }.
Arguments Task {S} t_op t_cb.
Arguments t_op {S} t.
Arguments t_cb {S} t.

(** How a run ends: with a value, with an exception, or waiting for ever. *)
Inductive result (A : Type) := Value (a : A) | Thrown (e : jserr) | Pending.
Arguments Value {A} a.
Arguments Thrown {A} e.
Arguments Pending {A}.

Record outcome (S A : Type) := Outcome {
  o_state : S;
  o_trace : trace;
  o_result : result A;
  o_tasks : list (task S)
}.
Arguments Outcome {S A} o_state o_trace o_result o_tasks.
Arguments o_state {S A} o.
Arguments o_trace {S A} o.
Arguments o_result {S A} o.
Arguments o_tasks {S A} o.

Definition add_tasks {S A} (ts : list (task S)) (o : outcome S A) : outcome S A :=
  Outcome (o_state o) (o_trace o) (o_result o) (ts ++ o_tasks o).

Fixpoint run {S A} (E : env) (p : prog S A) (s : S) (tr : trace) : outcome S A :=
  match p with
  | Ret a => Outcome s tr (Value a) []
  | Throw e => Outcome s tr (Thrown e) []
  | Hang => Outcome s tr Pending []
  | Get k => run E (k s) s tr
  | Put s' k => run E k s' tr
  | Sys o k => run E (k (on_sys E tr o)) s (tr ++ [EvSys o])
  | Await o k => run E (k (on_async E tr o)) s (tr ++ [EvAwait o])
  | Fork o cb k => add_tasks [Task o cb] (run E k s tr)
  end.

(** The callbacks a handler registered, run one after the other. *)
Fixpoint run_tasks {S} (E : env) (ts : list (task S)) (s : S) (tr : trace) : S * trace :=
  match ts with
  | [] => (s, tr)
  | t :: ts' =>
      let o := run E (t_cb t (on_async E tr (t_op t))) s (tr ++ [EvAwait (t_op t)]) in
      run_tasks E ts' (o_state o) (o_trace o)
  end.

(** The responses a trace sends. *)
Fixpoint replies (tr : trace) : list (Z * val) :=
  match tr with
  | [] => []
  | EvSys (Respond c v) :: tr' => (c, v) :: replies tr'
  | _ :: tr' => replies tr'
  end.

(** The requests a trace makes, in order. *)
Fixpoint fetches (tr : trace) : list http_request :=
  match tr with
  | [] => []
  | EvAwait (Fetch r) :: tr' => r :: fetches tr'
  | _ :: tr' => fetches tr'
  end.

Lemma replies_app t1 t2 : replies (t1 ++ t2) = replies t1 ++ replies t2.
Proof. induction t1 as [|[[]|[]] t1 IH]; simpl; try done. by rewrite IH. Qed.

Lemma run_bind {S A B} (E : env) (p : prog S A) (f : A -> prog S B) s tr :
  run E (bind p f) s tr =
  let o := run E p s tr in
  match o_result o with
  | Value a => add_tasks (o_tasks o) (run E (f a) (o_state o) (o_trace o))
  | Thrown e => Outcome (o_state o) (o_trace o) (Thrown e) (o_tasks o)
  | Pending => Outcome (o_state o) (o_trace o) Pending (o_tasks o)
  end.
Proof.
  revert f s tr. induction p as [A a|A e|A|A k IH|A s' k IH|A o k IH|A o k IH|A o cb _ k IH]; intros f s tr; simpl; auto.
  - unfold add_tasks. simpl. by destruct (run E (f a) s tr).
  - rewrite IH. simpl. by destruct (o_result (run E k s tr)).
Qed.

Lemma run_try {S A} (E : env) (p : prog S A) (h : jserr -> prog S A) s tr :
  run E (try_catch p h) s tr =
  let o := run E p s tr in
  match o_result o with
  | Thrown e => add_tasks (o_tasks o) (run E (h e) (o_state o) (o_trace o))
  | _ => o
  end.
Proof.
  revert h s tr. induction p as [A a|A e|A|A k IH|A s' k IH|A o k IH|A o k IH|A o cb _ k IH]; intros h s tr; simpl; auto.
  - unfold add_tasks. simpl. by destruct (run E (h e) s tr).
  - rewrite IH. simpl. by destruct (o_result (run E k s tr)).
Qed.

(** ** Counting operations on every path

    What is counted, which responses of other servers are considered
    ([r_admit]), and how a path may be cut short: [r_hang n] says whether it may
    wait for ever after [n] counted operations, [r_crash] whether an ['error']
    event may throw, which ends the process. *)

Record rules := {
  r_sys : sysop -> nat;
  r_async : asyncop -> nat;
  r_admit : http_response -> Prop;
  r_hang : nat -> Prop;
  r_crash : Prop
}.

(** The answers to an awaited operation that the rules consider. *)
Definition admitted (R : rules) (o : asyncop) : async_answer o -> Prop :=
  match o with
  | Fetch _ => fun a => match a with inr r => r_admit R r | inl _ => True end
  | _ => fun _ => True
  end.

(** The events whose listeners may throw where the rules allow a crash. *)
Definition error_event (o : asyncop) : Prop :=
  match o with OnError _ | OnStreamError _ => True | _ => False end.

(** [counts R p n Q X]: on every path of [p], whatever the answers among those
    considered and whatever the module variables hold at each read, the number of counted operations,
    starting from [n] and including those of registered callbacks, satisfies [Q]
    where [p] returns and [X] where it throws; it is cut short only as [R]
    allows. *)

Section Count.
Variable R : rules.
Context {S : Type}.

Fixpoint counts {A : Type} (p : prog S A) (n : nat)
    (Q : nat -> A -> Prop) (X : nat -> jserr -> Prop) : Prop :=
  match p with
  | Ret a => Q n a
  | Throw e => X n e
  | Hang => r_hang R n
  | Get k => forall s, counts (k s) n Q X
  | Put _ k => counts k n Q X
  | Sys o k => forall a, counts (k a) (n + r_sys R o) Q X
  | Await o k => forall a, admitted R o a -> counts (k a) (n + r_async R o) Q X
  | Fork o cb k =>
      exists m, (forall a, counts (cb a) (r_async R o) (fun c _ => c = m)
                             (fun _ _ => r_crash R /\ error_event o)) /\
                counts k (n + m) Q X
  end.

Lemma counts_mono {A} (p : prog S A) n (Q Q' : nat -> A -> Prop) (X X' : nat -> jserr -> Prop) :
  (forall c a, Q c a -> Q' c a) -> (forall c e, X c e -> X' c e) ->
  counts p n Q X -> counts p n Q' X'.
Proof.
  revert n Q Q' X X'.
  induction p as [A a|A e|A|A k IH|A s' k IH|A o k IH|A o k IH|A o cb _ k IH];
    intros n Q Q' X X' HQ HX; simpl; eauto.
  intros (m & Hcb & Hk). exists m. eauto.
Qed.

Lemma counts_bind {A B} (p : prog S A) (f : A -> prog S B) n Q X :
  counts p n (fun c a => counts (f a) c Q X) X -> counts (bind p f) n Q X.
Proof.
  revert f n Q X.
  induction p as [A a|A e|A|A k IH|A s' k IH|A o k IH|A o k IH|A o cb _ k IH]; intros f n Q X; simpl; auto.
  intros (m & Hcb & Hk). exists m. auto.
Qed.

Lemma counts_try {A} (p : prog S A) (h : jserr -> prog S A) n Q X :
  counts p n Q (fun c e => counts (h e) c Q X) -> counts (try_catch p h) n Q X.
Proof.
  revert h n Q X.
  induction p as [A a|A e|A|A k IH|A s' k IH|A o k IH|A o k IH|A o cb _ k IH]; intros h n Q X; simpl; auto.
  intros (m & Hcb & Hk). exists m. auto.
Qed.

(** A program that counts nothing, whatever it returns or throws. *)
Definition silent {A} (p : prog S A) : Prop :=
  forall n, counts p n (fun c _ => c = n) (fun c _ => c = n).

Lemma counts_silent {A} (p : prog S A) n (Q : nat -> A -> Prop) (X : nat -> jserr -> Prop) :
  silent p -> (forall a, Q n a) -> (forall e, X n e) -> counts p n Q X.
Proof.
  intros Hp HQ HX. eapply counts_mono; [| |apply Hp]; simpl; intros c; intros; by subst c.
Qed.

(** A program that counts nothing and never throws. *)
Definition quiet {A} (p : prog S A) : Prop :=
  forall n, counts p n (fun c _ => c = n) (fun _ _ => False).

Lemma counts_quiet {A} (p : prog S A) n (Q : nat -> A -> Prop) (X : nat -> jserr -> Prop) :
  quiet p -> (forall a, Q n a) -> counts p n Q X.
Proof.
  intros Hp HQ. eapply counts_mono; [| |apply Hp]; simpl; [|done]. intros c a. by intros ->.
Qed.
End Count.

(** The number of responses a handler sends. *)
Definition is_respond (o : sysop) : nat := match o with Respond _ _ => 1 | _ => 0 end.

(** Whose responses are considered, and whether a handler may hang: all of them
    and it may not ([Strict]); those whose body arrives to its end, and it may
    not ([Whole]); all of them, and it may, having sent nothing ([CutOff]). *)
Inductive mode := Strict | Whole | CutOff.

Definition responses (m : mode) (crash : bool) : rules :=
  {| r_sys := is_respond; r_async := fun _ => 0;
     r_admit := fun r => match m with Whole => rs_complete r = true | _ => True end;
     r_hang := fun n => match m with CutOff => n = 0 | _ => False end;
     r_crash := crash = true |}.

(** On every path the handler sends exactly one response and rejects nothing: no
    response is sent twice, and no request is left without one but where the
    mode lets the handler hang or the process ends under it ([crash]). *)
Definition responds {S} (m : mode) (crash : bool) (p : prog S unit) : Prop :=
  counts (responses m crash) p 0 (fun c _ => c = 1) (fun _ _ => False).

(** Exactly one response on every path. *)
Definition responds_once {S} (p : prog S unit) : Prop := responds Strict false p.

(** The handler throws on every path, and sends nothing. *)
Definition rejects {S} (p : prog S unit) : Prop :=
  counts (responses Strict false) p 0 (fun _ _ => False) (fun c _ => c = 0).

(** ** Safety of every operation

    [always Ps Pa p]: on every path of [p], callbacks included, each
    synchronous call satisfies [Ps] and each awaited operation [Pa]. *)

Section Always.
Variable Ps : sysop -> Prop.
Variable Pa : asyncop -> Prop.
Context {S : Type}.

Fixpoint always {A : Type} (p : prog S A) : Prop :=
  match p with
  | Ret _ | Throw _ | Hang => True
  | Get k => forall s, always (k s)
  | Put _ k => always k
  | Sys o k => Ps o /\ forall a, always (k a)
  | Await o k => Pa o /\ forall a, always (k a)
  | Fork o cb k => Pa o /\ (forall a, always (cb a)) /\ always k
  end.

Lemma always_bind {A B} (p : prog S A) (f : A -> prog S B) :
  always p -> (forall a, always (f a)) -> always (bind p f).
Proof.
  revert f. induction p as [A a|A e|A|A k IH|A s' k IH|A o k IH|A o k IH|A o cb _ k IH];
    intros f; simpl; naive_solver.
Qed.

Lemma always_try {A} (p : prog S A) (h : jserr -> prog S A) :
  always p -> (forall e, always (h e)) -> always (try_catch p h).
Proof.
  revert h. induction p as [A a|A e|A|A k IH|A s' k IH|A o k IH|A o k IH|A o cb _ k IH];
    intros h; simpl; naive_solver.
Qed.

Lemma always_lift {A} (r : jserr + A) : always (lift r).
Proof. by destruct r. Qed.
End Always.

(** ** Environments that answer each request the same way every time *)

Definition answers_with (E : env) (answers : http_request -> jserr + http_response) : Prop :=
  forall tr r, on_async E tr (Fetch r) = answers r.

(** A file system that does not change. *)
Definition files_with (E : env) (files : string -> option string) : Prop :=
  (forall tr p, on_sys E tr (FsExists p) = bool_decide (is_Some (files p))) /\
  (forall tr p c, files p = Some c -> on_sys E tr (FsReadFile p) = inr c).

(** A response with status 200 and a JSON body. *)
Definition ok_json (v : val) : jserr + http_response :=
  inr {| rs_status := 200; rs_json := inr v; rs_complete := true |}.

(** The environment of the examples: it answers requests and reads of files as
    told, and nothing can be started. *)
Definition host_env (files : string -> option string)
    (answers : http_request -> jserr + http_response) : env := {|
  on_sys := fun _ o =>
    match o return sys_answer o with
    | FsExists p => match files p with Some _ => true | None => false end
    | FsReadFile p => match files p with Some c => inr c | None => inl "ENOENT"%string end
    | ChildKill _ | ChildKilled _ => false
    | FsReaddir _ | Spawn _ _ => inl "ENOENT"%string
    | FsMkdir _ | FsWriteFile _ _ | FsUnlink _ | FsOpen _ | FsClose _ | FsChmod _
    | ProcessKill _ _ | ExecSync _ => inl "EPERM"%string
    | FsWriteStream _ | Respond _ _ | ShowErrorBox _ _ | OpenWindow _ | StartServer _ _ | AppQuit => tt
    end;
  on_async := fun _ o =>
    match o return async_answer o with
    | Fetch r => answers r
    | Exec _ => (true, ""%string)
    | Body | Sleep _ | StartUp _ | OnError _ | OnStreamError _ | OnExit _ | OnClose _ => tt
    end
|}.

Definition web : (http_request -> jserr + http_response) -> env := host_env (fun _ => None).

Lemma host_env_answers files answers : answers_with (host_env files answers) answers.
Proof. by intros tr r. Qed.

Lemma host_env_files files answers : files_with (host_env files answers) files.
Proof.
  split; intros tr p; simpl; [|by intros c ->]. destruct (files p) eqn:E; symmetry.
  - apply bool_decide_eq_true. by eexists.
  - apply bool_decide_eq_false. by intros [].
Qed.

(** What a program that returns, and forks nothing, did. *)
Definition finishes {S A} (E : env) (p : prog S A) (s : S) (tr : trace) (a : A) (s' : S) (tr' : trace) : Prop :=
  run E p s tr = Outcome s' tr' (Value a) [].

(** The rest of a program runs from where its first part finished. *)
Lemma run_after {S A B} E (p : prog S A) (f : A -> prog S B) s tr a s1 tr1 :
  finishes E p s tr a s1 tr1 -> run E (bind p f) s tr = run E (f a) s1 tr1.
Proof.
  unfold finishes. intros H1. rewrite run_bind, H1. simpl. by destruct (run E (f a) s1 tr1).
Qed.

Lemma run_try_after {S A B} E (p : prog S A) (f : A -> prog S B) h s tr a s1 tr1 :
  finishes E p s tr a s1 tr1 ->
  run E (try_catch (bind p f) h) s tr = run E (try_catch (f a) h) s1 tr1.
Proof. intros H1. rewrite !run_try. by rewrite (run_after _ _ f _ _ _ _ _ H1). Qed.

Lemma finishes_bind {S A B} E (p : prog S A) (f : A -> prog S B) s tr a s1 tr1 b s2 tr2 :
  finishes E p s tr a s1 tr1 -> finishes E (f a) s1 tr1 b s2 tr2 -> finishes E (bind p f) s tr b s2 tr2.
Proof. unfold finishes. intros H1 H2. rewrite (run_after _ _ f _ _ _ _ _ H1). exact H2. Qed.

Lemma finishes_try {S A} E (p : prog S A) h s tr a s1 tr1 :
  finishes E p s tr a s1 tr1 -> finishes E (try_catch p h) s tr a s1 tr1.
Proof. unfold finishes. intros H1. by rewrite run_try, H1. Qed.
