(* ===== verification/EventLoop.v ===== *)
(** * The event loop

    The concurrent semantics of a server: its module variables, the child
    processes the operating system runs for it, and the tasks waiting for an
    awaited operation or an event.  A step runs one task from an await to the
    next without interruption, starts the handler of a new request, or lets a
    child process end.  An exception that nothing catches may end the server.
    [yields] is the proof rule for invariants that hold at every await;
    [invariant_reachable] is its soundness over all interleavings. *)

From Stdlib Require Import ZArith Lia String Ascii List Bool.
From stdpp Require Import base list strings decidable option relations.
From S2P Require Import Prelude JsNumber JsString JsValue Runtime.

(** ** Child processes *)

(** [pr_failed]: the spawn failed, the process never ran; [pr_killed]: the
    ChildProcess object's [killed]; the last three record the events already
    delivered, each of which Node emits at most once. *)
Record proc := {
  pr_bin : string;
  pr_alive : bool;
  pr_failed : bool;
  pr_killed : bool;
  pr_errored : bool;
  pr_exited : bool;
  pr_closed : bool
}.

Definition world : Type := list proc.

Definition new_proc (bin : string) (ok : bool) : proc :=
  {| pr_bin := bin; pr_alive := ok; pr_failed := negb ok; pr_killed := false;
     pr_errored := false; pr_exited := false; pr_closed := false |}.

Definition set_killed (p : proc) : proc :=
  {| pr_bin := pr_bin p; pr_alive := pr_alive p; pr_failed := pr_failed p; pr_killed := true;
     pr_errored := pr_errored p; pr_exited := pr_exited p; pr_closed := pr_closed p |}.
Definition set_dead (p : proc) : proc :=
  {| pr_bin := pr_bin p; pr_alive := false; pr_failed := pr_failed p; pr_killed := pr_killed p;
     pr_errored := pr_errored p; pr_exited := pr_exited p; pr_closed := pr_closed p |}.
Definition set_errored (p : proc) : proc :=
  {| pr_bin := pr_bin p; pr_alive := pr_alive p; pr_failed := pr_failed p; pr_killed := pr_killed p;
     pr_errored := true; pr_exited := pr_exited p; pr_closed := pr_closed p |}.
Definition set_exited (p : proc) : proc :=
  {| pr_bin := pr_bin p; pr_alive := pr_alive p; pr_failed := pr_failed p; pr_killed := pr_killed p;
     pr_errored := pr_errored p; pr_exited := true; pr_closed := pr_closed p |}.
Definition set_closed (p : proc) : proc :=
  {| pr_bin := pr_bin p; pr_alive := pr_alive p; pr_failed := pr_failed p; pr_killed := pr_killed p;
     pr_errored := pr_errored p; pr_exited := pr_exited p; pr_closed := true |}.

(** A synchronous call: a spawn adds a process, running or failed, under the
    next identity; a kill that reaches the process marks its object. *)
Definition sys_step (w : world) (o : sysop) : sys_answer o -> world -> Prop :=
  match o with
  | Spawn bin args => fun a w' =>
      match a with
      | inl _ => w' = w
      | inr c => c_id c = length w /\
          ((exists pid, c_pid c = vint pid /\ w' = w ++ [new_proc bin true]) \/
           (c_pid c = VUndef /\ w' = w ++ [new_proc bin false]))
      end
  | ChildKill h => fun a w' => w' = if a then alter set_killed (c_id h) w else w
  | ChildKilled h => fun a w' => w' = w /\ a = default false (pr_killed <$> w !! c_id h)
  | _ => fun _ w' => w' = w
  end.

(** An awaited operation or event: ['exit'] after a process that ran has ended,
    ['close'] after it has ended, ['error'] after a failed spawn, each once. *)
Definition async_step (w : world) (o : asyncop) : async_answer o -> world -> Prop :=
  match o with
  | OnExit h => fun _ w' => exists p, w !! c_id h = Some p /\
      pr_alive p = false /\ pr_failed p = false /\ pr_exited p = false /\
      w' = <[c_id h := set_exited p]> w
  | OnClose h => fun _ w' => exists p, w !! c_id h = Some p /\
      pr_alive p = false /\ pr_closed p = false /\ w' = <[c_id h := set_closed p]> w
  | OnError h => fun _ w' => exists p, w !! c_id h = Some p /\
      pr_failed p = true /\ pr_errored p = false /\ w' = <[c_id h := set_errored p]> w
  | _ => fun _ w' => w' = w
  end.

(** A running process ends. *)
Definition world_step (w w' : world) : Prop :=
  exists i p, w !! i = Some p /\ pr_alive p = true /\ w' = <[i := set_dead p]> w.

(** ** Tasks and steps *)

Section Loop.
Context {S R : Type}.
Variable handler : R -> prog S unit.

(** The run of a program up to its next await, with the tasks it leaves and
    whether it threw. *)
Inductive runs : prog S unit -> S -> world -> S -> world -> list (task S) -> bool -> Prop :=
| runs_ret u s w : runs (Ret u) s w s w [] false
| runs_throw e s w : runs (Throw e) s w s w [] true
| runs_hang s w : runs Hang s w s w [] false
| runs_get k s w s' w' ts x : runs (k s) s w s' w' ts x -> runs (Get k) s w s' w' ts x
| runs_put s1 k s w s' w' ts x : runs k s1 w s' w' ts x -> runs (Put s1 k) s w s' w' ts x
| runs_sys o k a s w w1 s' w' ts x :
    sys_step w o a w1 -> runs (k a) s w1 s' w' ts x -> runs (Sys o k) s w s' w' ts x
| runs_await o k s w : runs (Await o k) s w s w [Task o k] false
| runs_fork o cb k s w s' w' ts x :
    runs k s w s' w' ts x -> runs (Fork o cb k) s w s' w' (Task o cb :: ts) x.

(** [g_up]: the server process runs. *)
Record config := Config { g_vars : S; g_world : world; g_tasks : list (task S); g_up : bool }.

(** Only an uncaught exception brings the server down.  Node ends the process
    then; under Electron, and for rejections before Node 15, it goes on: both
    are steps. *)
Inductive step : config -> config -> Prop :=
| step_request r s w ts s' w' new thrown up :
    runs (handler r) s w s' w' new thrown -> (thrown = false -> up = true) ->
    step (Config s w ts true) (Config s' w' (ts ++ new) up)
| step_resume o k a s w w1 ts1 ts2 s' w' new thrown up :
    async_step w o a w1 -> runs (k a) s w1 s' w' new thrown -> (thrown = false -> up = true) ->
    step (Config s w (ts1 ++ Task o k :: ts2) true) (Config s' w' (ts1 ++ ts2 ++ new) up)
| step_world s w w' ts up : world_step w w' -> step (Config s w ts up) (Config s w' ts up).

(** The steps of a server in which nothing throws. *)
Lemma step_serve r s w ts s' w' new :
  runs (handler r) s w s' w' new false -> step (Config s w ts true) (Config s' w' (ts ++ new) true).
Proof. intros Hr. by eapply step_request. Qed.

Lemma step_continue o k a s w w1 ts1 ts2 s' w' new :
  async_step w o a w1 -> runs (k a) s w1 s' w' new false ->
  step (Config s w (ts1 ++ Task o k :: ts2) true) (Config s' w' (ts1 ++ ts2 ++ new) true).
Proof. intros Ha Hr. by eapply step_resume. Qed.

(** ** Invariants *)

Variable I : S -> world -> Prop.

(** [yields p Q X s w]: run from [s] and [w], the program reaches each await
    with [I], keeps it from there whatever other tasks did in between, and
    ends with [Q], or [X] if it throws.  Callbacks keep [I] too. *)
Fixpoint yields {A : Type} (p : prog S A) (Q : A -> S -> world -> Prop)
    (X : jserr -> S -> world -> Prop) (s : S) (w : world) : Prop :=
  match p with
  | Ret a => Q a s w
  | Throw e => X e s w
  | Hang => I s w
  | Get k => yields (k s) Q X s w
  | Put s' k => yields k Q X s' w
  | Sys o k => forall a w', sys_step w o a w' -> yields (k a) Q X s w'
  | Await o k => I s w /\ forall a s1 w1 w2, I s1 w1 -> async_step w1 o a w2 -> yields (k a) Q X s1 w2
  | Fork o cb k =>
      (forall a s1 w1 w2, I s1 w1 -> async_step w1 o a w2 ->
         yields (cb a) (fun _ => I) (fun _ => I) s1 w2) /\
      yields k Q X s w
  end.

Definition keeps (p : prog S unit) (s : S) (w : world) : Prop :=
  yields p (fun _ => I) (fun _ => I) s w.

Lemma yields_mono {A} (p : prog S A) (Q Q' : A -> S -> world -> Prop) (X X' : jserr -> S -> world -> Prop) s w :
  (forall a s w, Q a s w -> Q' a s w) -> (forall e s w, X e s w -> X' e s w) ->
  yields p Q X s w -> yields p Q' X' s w.
Proof.
  revert Q Q' X X' s w.
  induction p as [A a|A e|A|A k IH|A s' k IH|A o k IH|A o k IH|A o cb _ k IH];
    intros Q Q' X X' s w HQ HX; simpl; eauto.
  - intros [HI H]. split; [done|]. intros. eapply IH; eauto.
  - intros [Hcb H]. split; [done|]. eapply IH; eauto.
Qed.

Lemma yields_bind {A B} (p : prog S A) (f : A -> prog S B) Q X s w :
  yields p (fun a => yields (f a) Q X) X s w -> yields (bind p f) Q X s w.
Proof.
  revert f Q X s w.
  induction p as [A a|A e|A|A k IH|A s' k IH|A o k IH|A o k IH|A o cb _ k IH];
    intros f Q X s w; simpl; eauto.
  - intros [HI H]. split; eauto.
  - intros [Hcb H]. split; eauto.
Qed.

Lemma yields_try {A} (p : prog S A) (h : jserr -> prog S A) Q X s w :
  yields p Q (fun e => yields (h e) Q X) s w -> yields (try_catch p h) Q X s w.
Proof.
  revert h Q X s w.
  induction p as [A a|A e|A|A k IH|A s' k IH|A o k IH|A o k IH|A o cb _ k IH];
    intros h Q X s w; simpl; eauto.
  - intros [HI H]. split; eauto.
  - intros [Hcb H]. split; eauto.
Qed.

(** A waiting task that keeps the invariant whenever it resumes. *)
Definition task_ok (t : task S) : Prop :=
  forall a s w w', I s w -> async_step w (t_op t) a w' -> keeps (t_cb t a) s w'.

Lemma keeps_runs p s w s' w' ts x :
  runs p s w s' w' ts x -> keeps p s w -> I s' w' /\ Forall task_ok ts.
Proof.
  unfold keeps.
  induction 1 as [u s w|e s w|s w|k s w s' w' ts x _ IH|s1 k s w s' w' ts x _ IH
    |o k a s w w1 s' w' ts x Ho _ IH|o k s w|o cb k s w s' w' ts x _ IH]; simpl; intros H; auto.
  - destruct H as [HI H]. split; [done|]. constructor; [|done].
    intros a s1 w1 w2. apply H.
  - destruct H as [Hcb H]. destruct (IH H) as [HI Hts]. split; [done|]. by constructor.
Qed.

Hypothesis I_handler : forall r s w, I s w -> keeps (handler r) s w.
Hypothesis I_world : forall s w w', I s w -> world_step w w' -> I s w'.

Definition config_ok (c : config) : Prop := I (g_vars c) (g_world c) /\ Forall task_ok (g_tasks c).

Lemma step_ok c c' : step c c' -> config_ok c -> config_ok c'.
Proof.
  unfold config_ok.
  intros Hstep [HI Hts]. inversion Hstep as [r s w ts s' w' new x up Hr _|o k a s w w1 ts1 ts2 s' w' new x up Ha Hr _|s w w' ts up Hw];
    subst; simpl in *.
  - destruct (keeps_runs _ _ _ _ _ _ _ Hr) as [HI' Hnew]; [auto|]. split; [done|].
    by apply Forall_app.
  - apply Forall_app in Hts as [H1 H2]. inversion H2 as [|? ? Ht H2']; subst.
    destruct (keeps_runs _ _ _ _ _ _ _ Hr) as [HI' Hnew]; [by eapply Ht|].
    split; [done|]. by rewrite !Forall_app.
  - eauto.
Qed.

Lemma invariant_reachable c c' : rtc step c c' -> config_ok c -> config_ok c'.
Proof. induction 1; eauto using step_ok. Qed.
End Loop.

Arguments Config {S} g_vars g_world g_tasks g_up.
Arguments g_vars {S} c.
Arguments g_world {S} c.
Arguments g_tasks {S} c.
Arguments g_up {S} c.

(** ** Facts about worlds *)

Lemma lookup_spawned (w : world) p i q :
  (w ++ [p]) !! i = Some q -> w !! i = Some q \/ (i = length w /\ q = p).
Proof.
  intros H. apply lookup_app_Some in H as [H|[Hge H]]; [by left|right].
  apply list_lookup_singleton_Some in H as [Hi <-]. split; [lia|done].
Qed.

Lemma lookup_killed (w : list proc) i j p :
  alter set_killed i w !! j = Some p ->
  exists q, w !! j = Some q /\ pr_closed p = pr_closed q /\ pr_alive p = pr_alive q.
Proof.
  destruct (decide (i = j)) as [->|Hne].
  - rewrite list_lookup_alter_eq. intros (q & Hq & ->)%fmap_Some. by exists q.
  - rewrite list_lookup_alter_ne by done. by exists p.
Qed.

(** ** Programs that never leave an invariant

    [stable I p]: from a state of the invariant [p] stays within it, between
    awaits as well as across them. *)

Section Stable.
Context {S : Type}.
Variable I : S -> world -> Prop.

Definition stable {A} (p : prog S A) : Prop :=
  forall s w, I s w -> yields I p (fun _ => I) (fun _ => I) s w.

Lemma stable_ret {A} (a : A) : stable (Ret a).
Proof. by intros s w. Qed.

Lemma stable_hang {A} : stable (Hang (A := A)).
Proof. by intros s w. Qed.

Lemma stable_lift {A} (r : jserr + A) : stable (lift r).
Proof. by destruct r; intros s w. Qed.

Lemma stable_gets {A} (f : S -> A) : stable (gets f).
Proof. by intros s w. Qed.

Lemma stable_bind {A B} (p : prog S A) (f : A -> prog S B) :
  stable p -> (forall a, stable (f a)) -> stable (bind p f).
Proof.
  intros Hp Hf s w HI. apply yields_bind. eapply yields_mono; [| |by apply Hp]; [|done].
  intros a s1 w1 H1. by apply Hf.
Qed.

Lemma stable_try {A} (p : prog S A) (h : jserr -> prog S A) :
  stable p -> (forall e, stable (h e)) -> stable (try_catch p h).
Proof.
  intros Hp Hh s w HI. apply yields_try. eapply yields_mono; [| |by apply Hp]; [done|].
  intros e s1 w1 H1. by apply Hh.
Qed.

Lemma stable_modify (f : S -> S) : (forall s w, I s w -> I (f s) w) -> stable (modify f).
Proof. intros Hf s w HI. simpl. auto. Qed.

(** Calls that do not concern child processes leave the world alone. *)
Lemma stable_sys {A} (o : sysop) (k : sys_answer o -> prog S A) :
  (forall w a w', sys_step w o a w' -> w' = w) -> (forall a, stable (k a)) -> stable (Sys o k).
Proof. intros Ho Hk s w HI a w' Hs. rewrite (Ho _ _ _ Hs). by apply Hk. Qed.

Lemma stable_await {A} (o : asyncop) (k : async_answer o -> prog S A) :
  (forall w a w', async_step w o a w' -> w' = w) -> (forall a, stable (k a)) -> stable (Await o k).
Proof.
  intros Ho Hk s w HI. split; [done|]. intros a s1 w1 w2 H1 Hs. rewrite (Ho _ _ _ Hs). by apply Hk.
Qed.
End Stable.
