(* ===== verification/Node.v ===== *)
(** * Pieces the servers share

    POSIX [path.join], the request fields Express hands to a handler, the
    JSON-RPC calls to the wallet and to the daemon, and the tactics that walk
    the handlers' paths. *)

From Stdlib Require Import ZArith Lia String Ascii List Bool.
From stdpp Require Import base list strings decidable option.
From S2P Require Import Prelude JsNumber JsString JsValue Runtime EventLoop.

Local Open Scope js_scope.

(** ** path.join *)

Definition push_segment (absolute : bool) (acc : list string) (seg : string) : list string :=
  if String.eqb seg "" || String.eqb seg "." then acc
  else if String.eqb seg ".." then
    match acc with
    | [] => if absolute then [] else [".."%string]
    | x :: acc' => if String.eqb x ".." then ".."%string :: acc else acc'
    end
  else seg :: acc.

Definition path_normalize (p : string) : string :=
  let absolute := match p with String "/" _ => true | _ => false end in
  let segs := reverse (fold_left (push_segment absolute) (split_on "/" p) []) in
  let body := join "/" segs in
  let body := if endsWith "/" p && negb (String.eqb body "") then (body ++ "/")%string else body in
  if absolute then ("/" ++ body)%string
  else if String.eqb body "" then "."%string else body.

Definition path_join (parts : list string) : string :=
  let joined := join "/" (List.filter (fun s => negb (String.eqb s "")) parts) in
  if String.eqb joined "" then "."%string else path_normalize joined.

(** ** Requests

    Express's JSON parser gives a handler an object or an array as [req.body];
    the model keeps the named properties.  A field that is absent is
    [undefined]. *)

Definition fields : Type := list (string * val).
Definition field (k : string) (ps : fields) : val := default VUndef (lookup_prop k ps).

(** ** JSON-RPC *)

Definition rpc_body (method : string) (params : val) : val :=
  obj ["jsonrpc" ::= str "2.0"; "id" ::= str "0"; "method" ::= str method; "params" ::= params].

Definition post_json (url : string) (body : val) : http_request :=
  {| rq_method := "POST"; rq_url := url; rq_body := Some (json body) |}.
Definition get_url (url : string) : http_request :=
  {| rq_method := "GET"; rq_url := url; rq_body := None |}.

Definition WALLET_RPC : string := "http://127.0.0.1:19083/json_rpc".
Definition DAEMON_RPC : string := "http://127.0.0.1:19081/json_rpc".
Definition DAEMON_HTTP : string := "http://127.0.0.1:19081".

(** A server's [fetch]: the request it makes of the one it is given, and whether
    it settles its promise only at the end of the body. *)
Record fetcher := {
  f_request : http_request -> http_request;
  f_whole : bool
}.

(** The package node-fetch: the promise is settled by the head of the response. *)
Definition node_fetch : fetcher := {| f_request := id; f_whole := false |}.

Section Calls.
Context {S : Type}.

Definition jget (v : val) (k : string) : prog S val := lift (get v k).

(** A request and the JSON of its response. *)
Definition fetch_json (r : http_request) : prog S val :=
  let* resp := fetch r in body_json resp.

(** [await fetch(...)] with the server's own [fetch]: where it waits for the end
    of a body that is cut off, nothing settles the promise. *)
Definition do_fetch (F : fetcher) (r : http_request) : prog S http_response :=
  let* resp := fetch (f_request F r) in
  if f_whole F && negb (rs_complete resp) then Hang else Ret resp.

Definition call_json (F : fetcher) (r : http_request) : prog S val :=
  let* resp := do_fetch F r in body_json resp.

(** [walletRpc(method, params)] and [daemonRpc(method, params)]. *)
Definition walletRpc (F : fetcher) (method : string) (params : val) : prog S val :=
  call_json F (post_json WALLET_RPC (rpc_body method params)).
Definition daemonRpc (method : string) (params : val) : prog S val :=
  fetch_json (post_json DAEMON_RPC (rpc_body method params)).

(** [res.json(v)]. *)
Definition res_json (v : val) : prog S unit := respond 200 v.
End Calls.

(** [{ error: error.message }]. *)
Definition error_body (e : jserr) : val := obj ["error" ::= str e].
Definition error_text (text : string) : val := obj ["error" ::= str text].

(** ** Walking the paths of a handler *)

Section Paths.
Context {S A : Type}.
Variable R : rules.
Implicit Types (n : nat) (X : nat -> jserr -> Prop).

Lemma counts_ret (a : A) n (Q : nat -> A -> Prop) X :
  Q n a -> counts R (S := S) (Ret a) n Q X.
Proof. done. Qed.

Lemma counts_throw e n (Q : nat -> A -> Prop) X :
  X n e -> counts R (S := S) (Throw e) n Q X.
Proof. done. Qed.

Lemma counts_lift (r : jserr + A) n (Q : nat -> A -> Prop) X :
  (forall a, Q n a) -> (forall e, X n e) -> counts R (S := S) (lift r) n Q X.
Proof. intros HQ HX. destruct r; simpl; auto. Qed.

Lemma counts_lift_inr (a : A) n (Q : nat -> A -> Prop) X :
  Q n a -> counts R (S := S) (lift (inr a)) n Q X.
Proof. done. Qed.

Lemma counts_gets (f : S -> A) n (Q : nat -> A -> Prop) X :
  (forall a, Q n a) -> counts R (gets f) n Q X.
Proof. intros HQ s. apply HQ. Qed.

Lemma counts_modify (f : S -> S) n (Q : nat -> unit -> Prop) X :
  Q n tt -> counts R (modify f) n Q X.
Proof. intros HQ s. exact HQ. Qed.

Lemma counts_sys (o : sysop) n (Q : nat -> sys_answer o -> Prop) X :
  (forall a, Q (n + r_sys R o) a) -> counts R (S := S) (sys o) n Q X.
Proof. done. Qed.

Lemma counts_await (o : asyncop) n (Q : nat -> async_answer o -> Prop) X :
  (forall a, Q (n + r_async R o) a) -> counts R (S := S) (await o) n Q X.
Proof. intros HQ a _. apply HQ. Qed.

(** The calls that return or throw. *)
Lemma counts_call o (k : sys_answer o -> jserr + A) n (Q : nat -> A -> Prop) X :
  (forall a, Q (n + r_sys R o) a) -> (forall e, X (n + r_sys R o) e) ->
  counts R (S := S) (Sys o (fun r => lift (k r))) n Q X.
Proof. intros HQ HX r. destruct (k r); simpl; auto. Qed.

Lemma counts_fetch r n (Q : nat -> http_response -> Prop) X :
  (forall a, r_admit R a -> Q (n + r_async R (Fetch r)) a) -> (forall e, X (n + r_async R (Fetch r)) e) ->
  counts R (S := S) (fetch r) n Q X.
Proof. intros HQ HX a Ha. destruct a; simpl; auto. Qed.

Lemma counts_body resp n (Q : nat -> val -> Prop) X :
  (forall v, Q (n + r_async R Body) v) -> (forall e, X (n + r_async R Body) e) ->
  counts R (S := S) (body_json resp) n Q X.
Proof. intros HQ HX [] _. destruct (rs_json resp); simpl; auto. Qed.

Lemma counts_fetch_json r n (Q : nat -> val -> Prop) X :
  (forall v, Q (n + r_async R (Fetch r) + r_async R Body) v) ->
  (forall e, X (n + r_async R (Fetch r)) e) -> (forall e, X (n + r_async R (Fetch r) + r_async R Body) e) ->
  counts R (S := S) (fetch_json r) n Q X.
Proof.
  intros HQ HX1 HX2. apply counts_bind, counts_fetch; [|done].
  intros resp _. by apply counts_body.
Qed.

Lemma counts_call_json F r n (Q : nat -> val -> Prop) X :
  (forall v, Q (n + r_async R (Fetch (f_request F r)) + r_async R Body) v) ->
  (forall e, X (n + r_async R (Fetch (f_request F r))) e) ->
  (forall e, X (n + r_async R (Fetch (f_request F r)) + r_async R Body) e) ->
  (f_whole F = true -> forall resp, r_admit R resp -> rs_complete resp = false ->
     r_hang R (n + r_async R (Fetch (f_request F r)))) ->
  counts R (S := S) (call_json F r) n Q X.
Proof.
  intros HQ HX1 HX2 Hh. apply counts_bind, counts_bind, counts_fetch; [|done].
  intros resp Ha. destruct (f_whole F), (rs_complete resp) eqn:Ec; cbn [andb negb counts];
    first [by apply counts_body | by eapply Hh].
Qed.
End Paths.

Lemma counts_respond {S} hang crash code v n (Q : nat -> unit -> Prop) X :
  Q (n + 1) tt -> counts (S := S) (responses hang crash) (respond code v) n Q X.
Proof. intros HQ []. exact HQ. Qed.

Lemma counts_fork {S} R o (cb : async_answer o -> prog S unit) m n (Q : nat -> unit -> Prop) X :
  (forall a, counts R (cb a) (r_async R o) (fun c _ => c = m) (fun _ _ => r_crash R /\ error_event o)) ->
  Q (n + m) tt -> counts R (fork o cb) n Q X.
Proof. intros Hcb HQ. exists m. done. Qed.

(** An unlistened ['error'] event counts nothing, where the rules allow it. *)
Lemma counts_unlistened {S} R o n (Q : nat -> unit -> Prop) X :
  error_event o -> r_crash R -> Q n tt -> counts (S := S) R (unlistened o) n Q X.
Proof. intros Ho Hc HQ. exists 0. rewrite Nat.add_0_r. done. Qed.

(** One step along the paths of a handler. *)
Ltac count_step :=
  lazymatch goal with
  | |- counts _ ?p _ _ _ =>
      lazymatch p with
      | bind _ _ => apply counts_bind
      | try_catch _ _ => apply counts_try
      | Ret _ => apply counts_ret
      | Throw _ => apply counts_throw
      | lift _ => apply counts_lift; intros ?
      | jget _ _ => apply counts_lift; intros ?
      | gets _ => apply counts_gets; intros ?
      | modify _ => apply counts_modify
      | respond _ _ => apply counts_respond
      | res_json _ => apply counts_respond
      | body_json _ => apply counts_body; intros ?
      | fetch_json _ => apply counts_fetch_json; intros ?
      | call_json _ _ => apply counts_call_json; intros ?
      | walletRpc _ _ _ => apply counts_call_json; intros ?
      | daemonRpc _ _ => apply counts_fetch_json; intros ?
      | fetch _ => apply counts_fetch; intros ?
      | await _ => apply counts_await; intros ?
      | sleep _ => apply counts_await; intros ?
      | sys _ => apply counts_sys; intros ?
      | exists_sync _ => apply counts_sys; intros ?
      | Sys ?o lift => refine (counts_call _ o (fun r => r) _ _ _ _ _); intros ?
      | fork _ _ => eapply counts_fork; [intros ?|]
      | unlistened _ => apply counts_unlistened; [exact I| |]
      | (if ?b then _ else _) => destruct b
      | match ?x with _ => _ end => destruct x
      | readdir_sync _ => unfold readdir_sync
      | mkdir_sync _ => unfold mkdir_sync
      | read_file _ => unfold read_file
      | write_file _ _ => unfold write_file
      | unlink _ => unfold unlink
      | spawn _ _ => unfold spawn
      | process_kill _ _ => unfold process_kill
      | let _ := _ in _ => progress cbv zeta
      | _ => progress cbv beta
      end
  | |- forall _, _ => intros ?
  end.

Ltac count_paths :=
  repeat (cbv beta; count_step); cbv beta;
  try lazymatch goal with
      | |- @eq nat _ _ => first [reflexivity | cbn; lia]
      end.

(** The same walk for [always]. *)
Ltac always_step :=
  lazymatch goal with
  | |- always _ _ ?p =>
      lazymatch p with
      | bind _ _ => apply always_bind; [|intros ?]
      | try_catch _ _ => apply always_try; [|intros ?]
      | Ret _ => exact I
      | Throw _ => exact I
      | lift _ => apply always_lift
      | jget _ _ => apply always_lift
      | gets _ => intros ?; exact I
      | modify _ => intros ?; exact I
      | respond _ _ => split; [|intros ?; exact I]
      | res_json _ => split; [|intros ?; exact I]
      | fetch_json _ => apply always_bind; [|intros ?]
      | call_json _ _ => apply always_bind; [|intros ?]
      | walletRpc _ _ _ => apply always_bind; [|intros ?]
      | do_fetch _ _ => apply always_bind; [|intros ?]
      | daemonRpc _ _ => apply always_bind; [|intros ?]
      | Hang => exact I
      | unlistened _ => split; [|split; [intros ?|]; exact I]
      | fetch _ => split; [|intros ?; apply always_lift]
      | body_json _ => split; [|intros ?; apply always_lift]
      | await _ => split; [|intros ?; exact I]
      | sleep _ => split; [|intros ?; exact I]
      | sys _ => split; [|intros ?; exact I]
      | exists_sync _ => split; [|intros ?; exact I]
      | Sys _ lift => split; [|intros ?; apply always_lift]
      | readdir_sync _ => split; [|intros ?; apply always_lift]
      | mkdir_sync _ => split; [|intros ?; apply always_lift]
      | read_file _ => split; [|intros ?; apply always_lift]
      | write_file _ _ => split; [|intros ?; apply always_lift]
      | unlink _ => split; [|intros ?; apply always_lift]
      | spawn _ _ => split; [|intros ?; apply always_lift]
      | process_kill _ _ => split; [|intros ?; apply always_lift]
      | fork _ _ => split; [|split; [intros ?|exact I]]
      | (if ?b then _ else _) => destruct b
      | match ?x with _ => _ end => destruct x
      | _ => progress cbv beta zeta
      end
  end.

Ltac always_paths := repeat (cbv beta; always_step).

(** The same walk for [stable]. *)
Ltac stable_step :=
  lazymatch goal with
  | |- stable _ ?p =>
      lazymatch p with
      | bind _ _ => apply stable_bind; [|intros ?]
      | try_catch _ _ => apply stable_try; [|intros ?]
      | Ret _ => apply stable_ret
      | lift _ => apply stable_lift
      | jget _ _ => apply stable_lift
      | gets _ => apply stable_gets
      | Throw ?e => exact (stable_lift _ (inl e))
      | sys _ => apply stable_sys; [done|intros ?; apply stable_ret]
      | respond _ _ => apply stable_sys; [done|intros ?; apply stable_ret]
      | res_json _ => apply stable_sys; [done|intros ?; apply stable_ret]
      | exists_sync _ => apply stable_sys; [done|intros ?; apply stable_ret]
      | readdir_sync _ => apply stable_sys; [done|intros ?; apply stable_lift]
      | fetch _ => apply stable_await; [done|intros ?; apply stable_lift]
      | body_json _ => apply stable_await; [done|intros ?; apply stable_lift]
      | fetch_json _ => apply stable_bind; [|intros ?]
      | call_json _ _ => apply stable_bind; [|intros ?]
      | walletRpc _ _ _ => apply stable_bind; [|intros ?]
      | do_fetch _ _ => apply stable_bind; [|intros ?]
      | Hang => apply stable_hang
      | daemonRpc _ _ => apply stable_bind; [|intros ?]
      | (if ?b then _ else _) => destruct b
      | match ?x with _ => _ end => destruct x
      | _ => progress cbv beta zeta
      end
  end.

Ltac stable_paths := repeat (cbv beta; stable_step).

Example path_join_ex :
  path_join ["/opt/cocaine/dashboard"; ".."; "build"; "bin"; "cocained"]
  = "/opt/cocaine/build/bin/cocained"%string.
Proof. reflexivity. Qed.
