(* ===== verification/Wallet.v ===== *)
(** * The wallet endpoints

    The handlers under [/api/wallet] of the three servers
    ([dashboard/server.js], [desktop-app/server.js] and
    [release/dashboard/server.js]).  Their text is the same in the three files
    but for the state they live in, which wallet names [open] accepts, and the
    ring size of [send]; each server's file instantiates this section with its
    own variables and [startWalletRpc]. *)

From Stdlib Require Import ZArith Lia String Ascii List Bool.
From Stdlib Require Import Floats.SpecFloat.
From stdpp Require Import base list strings decidable option.
From S2P Require Import Prelude JsNumber JsString JsValue Runtime Node.

Local Open Scope js_scope.

(** What a server gives its wallet endpoints: the variable
    [currentWalletName], the starter of the wallet RPC process, the directory of
    the wallets and its [fetch]. *)
Class WalletServer (S : Type) := {
  get_wallet : S -> val;
  set_wallet : val -> S -> S;
  start_wallet_rpc : prog S unit;
  wallet_dir : string;
  wallet_fetch : fetcher
}.

Section Wallet.
Context {S : Type} `{!WalletServer S}.

(** [files.filter(f => f.endsWith('.keys')).map(f => f.replace('.keys', ''))]. *)
Definition wallet_names (files : list string) : list string :=
  map (replace_first ".keys" "") (List.filter (endsWith ".keys") files).

Definition api_wallet_list : prog S unit :=
  try
    let* files := readdir_sync wallet_dir in
    let* current := gets get_wallet in
    res_json (obj ["wallets" ::= VArr (map VStr (wallet_names files)); "current" ::= current])
  catch _ => res_json (obj ["wallets" ::= VArr []; "current" ::= VNull]).

(** [if (data.error) return res.json({ success: false, error: data.error.message })],
    with the rest of the handler as [k]. *)
Definition unless_error (data : val) (k : prog S unit) : prog S unit :=
  let* error := jget data "error" in
  if truthy error then
    res_json (obj ["success" ::= VBool false; "error" ::= own_prop error "message"])
  else k.

(** [!name || name.length < 1]. *)
Definition name_missing (name : val) : prog S bool :=
  if negb (truthy name) then Ret true
  else let* n := lift (to_num (own_prop name "length")) in Ret (num_ltb n (num_of_Z 1)).

Definition api_wallet_create (body : fields) : prog S unit :=
  let name := field "name" body in
  let password := field "password" body in
  let* missing := name_missing name in
  if missing : bool then respond 400 (error_text "Wallet name required")
  else
    try
      start_wallet_rpc ;;;
      let* data := walletRpc wallet_fetch "create_wallet"
        (obj ["filename" ::= name; "password" ::= or_else password (str "");
              "language" ::= str "English"]) in
      unless_error data (
        modify (set_wallet name) ;;;
        let* seedData := walletRpc wallet_fetch "query_key" (obj ["key_type" ::= str "mnemonic"]) in
        let* addressData := walletRpc wallet_fetch "get_address" (obj []) in
        let* addressResult := jget addressData "result" in
        let* seedResult := jget seedData "result" in
        res_json (obj ["success" ::= VBool true; "name" ::= name;
                       "address" ::= get_opt addressResult "address";
                       "seed" ::= get_opt seedResult "key"]))
    catch e => respond 500 (error_body e).

(** The part of [open] after the name has been chosen. *)
Definition open_wallet (walletName password : val) : prog S unit :=
  try
    start_wallet_rpc ;;;
    let* data := walletRpc wallet_fetch "open_wallet"
      (obj ["filename" ::= walletName; "password" ::= or_else password (str "")]) in
    unless_error data (
      modify (set_wallet walletName) ;;;
      let* addressData := walletRpc wallet_fetch "get_address" (obj []) in
      let* addressResult := jget addressData "result" in
      res_json (obj ["success" ::= VBool true; "name" ::= walletName;
                     "address" ::= get_opt addressResult "address"]))
  catch e => respond 500 (error_body e).

Definition api_wallet_restore (body : fields) : prog S unit :=
  let name := field "name" body in
  let password := field "password" body in
  let seed := field "seed" body in
  if negb (truthy name) || negb (truthy seed) then respond 400 (error_text "Name and seed required")
  else
    try
      start_wallet_rpc ;;;
      let* data := walletRpc wallet_fetch "restore_deterministic_wallet"
        (obj ["filename" ::= name; "password" ::= or_else password (str ""); "seed" ::= seed;
              "restore_height" ::= vint 0; "language" ::= str "English"]) in
      unless_error data (
        modify (set_wallet name) ;;;
        let* result := jget data "result" in
        res_json (obj ["success" ::= VBool true; "name" ::= name;
                       "address" ::= get_opt result "address"; "info" ::= get_opt result "info"]))
    catch e => respond 500 (error_body e).

(** [((x || 0) / 1e12).toFixed(4)]. *)
Definition coins (x : val) : prog S num :=
  let* n := lift (to_num (or_else x (vint 0))) in Ret (num_div n e12).

Definition api_wallet_balance : prog S unit :=
  try
    let* data := walletRpc wallet_fetch "get_balance" (obj []) in
    let* error := jget data "error" in
    if truthy error then res_json (obj ["error" ::= own_prop error "message"])
    else
      let* result := jget data "result" in
      let balance := get_opt result "balance" in
      let unlocked := get_opt result "unlocked_balance" in
      let* b := coins balance in
      let* u := coins unlocked in
      res_json (obj ["balance" ::= or_else balance (vint 0);
                     "unlocked_balance" ::= or_else unlocked (vint 0);
                     "balance_display" ::= str (toFixed 4 b);
                     "unlocked_display" ::= str (toFixed 4 u)])
  catch e => respond 500 (error_body e).

Definition api_wallet_address : prog S unit :=
  try
    let* data := walletRpc wallet_fetch "get_address" (obj []) in
    let* result := jget data "result" in
    res_json (obj ["address" ::= get_opt result "address"; "addresses" ::= get_opt result "addresses"])
  catch e => respond 500 (error_body e).

Definition api_wallet_transfers : prog S unit :=
  try
    let* data := walletRpc wallet_fetch "get_transfers"
      (obj ["in" ::= VBool true; "out" ::= VBool true; "pending" ::= VBool true; "pool" ::= VBool true]) in
    let* error := jget data "error" in
    if truthy error then res_json (obj ["error" ::= own_prop error "message"])
    else
      let* result := jget data "result" in
      res_json (obj ["incoming" ::= or_else (get_opt result "in") (VArr []);
                     "outgoing" ::= or_else (get_opt result "out") (VArr []);
                     "pending" ::= or_else (get_opt result "pending") (VArr []);
                     "pool" ::= or_else (get_opt result "pool") (VArr [])])
  catch e => respond 500 (error_body e).

(** [Math.floor(parseFloat(amount) * 1e12)]. *)
Definition atomic_amount (amount : val) : prog S num :=
  let* t := lift (to_str amount) in
  Ret (math_floor (num_mul (parseFloat t) e12)).

Definition transfer_params (ring_size : Z) (address payment_id : val) (atomicAmount : num) : val :=
  VObj (["destinations" ::= VArr [obj ["address" ::= address; "amount" ::= VNum atomicAmount]];
         "priority" ::= vint 1; "ring_size" ::= vint ring_size; "get_tx_key" ::= VBool true] ++
        if truthy payment_id then ["payment_id" ::= payment_id] else []).

Definition send_success (data : val) : prog S unit :=
  let* result := jget data "result" in
  let* fee := coins (get_opt result "fee") in
  res_json (obj ["success" ::= VBool true; "tx_hash" ::= get_opt result "tx_hash";
                 "tx_key" ::= get_opt result "tx_key"; "fee" ::= VNum fee]).

(** [send] as the dashboard and the release have it. *)
Definition send_plain (ring_size : Z) (body : fields) : prog S unit :=
  let address := field "address" body in
  let amount := field "amount" body in
  let payment_id := field "payment_id" body in
  if negb (truthy address) || negb (truthy amount)
  then respond 400 (error_text "Address and amount required")
  else
    try
      let* atomicAmount := atomic_amount amount in
      let* data := walletRpc wallet_fetch "transfer" (transfer_params ring_size address payment_id atomicAmount) in
      unless_error data (send_success data)
    catch e => respond 500 (error_body e).

Definition api_wallet_refresh : prog S unit :=
  try
    let* data := walletRpc wallet_fetch "refresh" (obj []) in
    let* result := jget data "result" in
    res_json (obj ["blocks_fetched" ::= get_opt result "blocks_fetched";
                   "received_money" ::= get_opt result "received_money"])
  catch e => respond 500 (error_body e).

Definition api_wallet_close : prog S unit :=
  try
    walletRpc wallet_fetch "close_wallet" (obj []) ;;;
    modify (set_wallet VNull) ;;;
    res_json (obj ["success" ::= VBool true])
  catch e => respond 500 (error_body e).

(** [currentWalletName !== null]. *)
Definition not_null (v : val) : bool := match v with VNull => false | _ => true end.

Definition api_wallet_status : prog S unit :=
  try
    let* height := walletRpc wallet_fetch "get_height" (obj []) in
    let* name := gets get_wallet in
    let* result := jget height "result" in
    res_json (obj ["open" ::= VBool (not_null name); "name" ::= name;
                   "height" ::= get_opt result "height"])
  catch _ => res_json (obj ["open" ::= VBool false; "name" ::= VNull]).
End Wallet.
