(* ===== verification/WalletFacts.v ===== *)
(** * Properties of the wallet endpoints *)

From Stdlib Require Import ZArith Lia String Ascii List Bool.
From Stdlib Require Import Floats.SpecFloat.
From stdpp Require Import base list strings decidable option.
From S2P Require Import Prelude JsNumber JsNumberFacts JsString JsValue Runtime EventLoop Node Wallet.

Local Open Scope js_scope.

(** A body that is cut off: the mode considers it only where it allows to hang. *)
Lemma hangs_allowed (whole : bool) (m : mode) (crash : bool) (resp : http_response) :
  (whole = true -> m <> Strict) -> whole = true ->
  r_admit (responses m crash) resp -> rs_complete resp = false -> r_hang (responses m crash) 0.
Proof. intros Hm Hw Ha Hc. destruct m; simpl in *; [by destruct Hm|congruence|done]. Qed.

(** ** Responses

    [crash] holds where the start of the wallet RPC can end the process.  A
    server whose [fetch] waits for the end of a body can hang. *)

Section Responses.
Context {S : Type} `{!WalletServer S}.
Variable m : mode.
Variable crash : bool.

Hypothesis start_silent : silent (responses m crash) start_wallet_rpc.
Hypothesis may_hang : f_whole wallet_fetch = true -> m <> Strict.

Lemma counts_start n (Q : nat -> unit -> Prop) (X : nat -> jserr -> Prop) :
  Q n tt -> (forall e, X n e) -> counts (responses m crash) start_wallet_rpc n Q X.
Proof. intros HQ HX. apply counts_silent; [exact start_silent|by intros []|done]. Qed.

Ltac wallet_counts := count_paths; by eapply hangs_allowed; eauto.

Lemma open_wallet_once name password : responds m crash (open_wallet name password).
Proof.
  unfold responds, open_wallet. apply counts_try, counts_bind.
  apply counts_start; [|count_paths]. unfold unless_error. wallet_counts.
Qed.

Lemma restore_once body : responds m crash (api_wallet_restore body).
Proof.
  unfold responds, api_wallet_restore.
  destruct (_ || _); [count_paths|]. apply counts_try, counts_bind.
  apply counts_start; [|count_paths]. unfold unless_error. wallet_counts.
Qed.

Lemma list_once : responds m crash (S := S) api_wallet_list.
Proof. unfold responds, api_wallet_list. count_paths. Qed.

Lemma balance_once : responds m crash (S := S) api_wallet_balance.
Proof. unfold responds, api_wallet_balance, coins. wallet_counts. Qed.

Lemma address_once : responds m crash (S := S) api_wallet_address.
Proof. unfold responds, api_wallet_address. wallet_counts. Qed.

Lemma transfers_once : responds m crash (S := S) api_wallet_transfers.
Proof. unfold responds, api_wallet_transfers. wallet_counts. Qed.

Lemma send_plain_once ring_size body : responds m crash (S := S) (send_plain ring_size body).
Proof.
  unfold responds, send_plain, atomic_amount, unless_error, send_success, coins. wallet_counts.
Qed.

Lemma refresh_once : responds m crash (S := S) api_wallet_refresh.
Proof. unfold responds, api_wallet_refresh. wallet_counts. Qed.

Lemma close_once : responds m crash (S := S) api_wallet_close.
Proof. unfold responds, api_wallet_close. wallet_counts. Qed.

Lemma status_once : responds m crash (S := S) api_wallet_status.
Proof. unfold responds, api_wallet_status. wallet_counts. Qed.

(** The name's [length] converts to a number, as it does for every string; an
    object can carry one that does not. *)
Definition name_converts (body : fields) : bool :=
  match to_num (own_prop (field "name" body) "length") with inr _ => true | inl _ => false end.

Lemma create_once body : name_converts body = true -> responds m crash (api_wallet_create body).
Proof.
  unfold name_converts. destruct (to_num _) as [e|len] eqn:Hlen; [done|intros _].
  unfold responds, api_wallet_create, name_missing.
  apply counts_bind. destruct (negb _); [count_paths|].
  rewrite Hlen. apply counts_bind, counts_lift_inr, counts_ret.
  destruct (num_ltb _ _); [count_paths|]. apply counts_try, counts_bind.
  apply counts_start; [|count_paths]. unfold unless_error. wallet_counts.
Qed.

(** The check of the name is outside the try block. *)
Lemma create_rejects body : name_converts body = false -> rejects (S := S) (api_wallet_create body).
Proof.
  unfold name_converts, rejects, api_wallet_create, name_missing.
  destruct (to_num _) as [e|len] eqn:Hlen; [intros _|done].
  destruct (truthy (field "name" body)) eqn:Ht; [done|].
  destruct (field "name" body) as [| |[]|x|[|c t]|l|ps]; simpl in Ht, Hlen; done.
Qed.
End Responses.

#[export] Hint Resolve list_once create_once open_wallet_once restore_once balance_once address_once
  transfers_once send_plain_once refresh_once close_once status_once : js.

(** ** Where requests go *)

(** The authority of an http URL: what stands between the scheme and the first
    character that ends it. *)
Fixpoint take_authority (s : string) : string :=
  match s with
  | EmptyString => EmptyString
  | String c r =>
      if existsb (Ascii.eqb c) ["/"; "?"; "#"; "\"]%char then EmptyString
      else String c (take_authority r)
  end.

Definition authority (url : string) : option string :=
  take_authority <$> strip_prefix "http://" url.

Definition fetch_is (P : string -> Prop) (o : asyncop) : Prop :=
  match o with Fetch r => P (rq_url r) | _ => True end.

(** A URL of the daemon's or of the wallet RPC's port on this machine, with no
    user information before the address. *)
Definition local_url (url : string) : Prop :=
  authority url = Some "127.0.0.1:19081"%string \/ authority url = Some "127.0.0.1:19083"%string.

Ltac local_paths := always_paths; first [exact I | left; reflexivity | right; reflexivity].

(** ** The wallet endpoints only talk to the wallet RPC *)

Section WalletAlways.
Context {S : Type} `{!WalletServer S}.
Variable Pa : asyncop -> Prop.
Hypothesis Pa_wallet : forall body, Pa (Fetch (f_request wallet_fetch (post_json WALLET_RPC body))).
Hypothesis Pa_body : Pa Body.
Hypothesis Pa_start : always (fun _ => True) Pa start_wallet_rpc.

Ltac wallet_always :=
  always_paths; first [exact I | apply Pa_wallet | exact Pa_body | exact Pa_start].

Lemma list_always : always (fun _ => True) Pa (S := S) api_wallet_list.
Proof. unfold api_wallet_list. wallet_always. Qed.

Lemma create_always body : always (fun _ => True) Pa (S := S) (api_wallet_create body).
Proof. unfold api_wallet_create, name_missing, unless_error. wallet_always. Qed.

Lemma open_always name password : always (fun _ => True) Pa (S := S) (open_wallet name password).
Proof. unfold open_wallet, unless_error. wallet_always. Qed.

Lemma restore_always body : always (fun _ => True) Pa (S := S) (api_wallet_restore body).
Proof. unfold api_wallet_restore, unless_error. wallet_always. Qed.

Lemma balance_always : always (fun _ => True) Pa (S := S) api_wallet_balance.
Proof. unfold api_wallet_balance, coins. wallet_always. Qed.

Lemma address_always : always (fun _ => True) Pa (S := S) api_wallet_address.
Proof. unfold api_wallet_address. wallet_always. Qed.

Lemma transfers_always : always (fun _ => True) Pa (S := S) api_wallet_transfers.
Proof. unfold api_wallet_transfers. wallet_always. Qed.

Lemma send_plain_always ring_size body : always (fun _ => True) Pa (S := S) (send_plain ring_size body).
Proof. unfold send_plain, atomic_amount, unless_error, send_success, coins. wallet_always. Qed.

Lemma refresh_always : always (fun _ => True) Pa (S := S) api_wallet_refresh.
Proof. unfold api_wallet_refresh. wallet_always. Qed.

Lemma close_always : always (fun _ => True) Pa (S := S) api_wallet_close.
Proof. unfold api_wallet_close. wallet_always. Qed.

Lemma status_always : always (fun _ => True) Pa (S := S) api_wallet_status.
Proof. unfold api_wallet_status. wallet_always. Qed.
End WalletAlways.

#[export] Hint Resolve list_always create_always open_always restore_always balance_always
  address_always transfers_always send_plain_always refresh_always close_always status_always : js.

(** ** The wallet endpoints within an invariant of their server *)

Section WalletStable.
Context {S : Type} `{!WalletServer S}.
Variable I : S -> world -> Prop.
Hypothesis start_stable : stable I start_wallet_rpc.
Hypothesis set_stable : forall name s w, I s w -> I (set_wallet name s) w.

Ltac wallet_stable :=
  stable_paths; first [exact start_stable | apply stable_modify, set_stable].

Lemma list_stable : stable I (S := S) api_wallet_list.
Proof. unfold api_wallet_list. wallet_stable. Qed.

Lemma create_stable body : stable I (S := S) (api_wallet_create body).
Proof. unfold api_wallet_create, name_missing, unless_error. wallet_stable. Qed.

Lemma open_stable name password : stable I (S := S) (open_wallet name password).
Proof. unfold open_wallet, unless_error. wallet_stable. Qed.

Lemma restore_stable body : stable I (S := S) (api_wallet_restore body).
Proof. unfold api_wallet_restore, unless_error. wallet_stable. Qed.

Lemma balance_stable : stable I (S := S) api_wallet_balance.
Proof. unfold api_wallet_balance, coins. wallet_stable. Qed.

Lemma address_stable : stable I (S := S) api_wallet_address.
Proof. unfold api_wallet_address. wallet_stable. Qed.

Lemma transfers_stable : stable I (S := S) api_wallet_transfers.
Proof. unfold api_wallet_transfers. wallet_stable. Qed.

Lemma send_plain_stable ring_size body : stable I (S := S) (send_plain ring_size body).
Proof. unfold send_plain, atomic_amount, unless_error, send_success, coins. wallet_stable. Qed.

Lemma refresh_stable : stable I (S := S) api_wallet_refresh.
Proof. unfold api_wallet_refresh. wallet_stable. Qed.

Lemma close_stable : stable I (S := S) api_wallet_close.
Proof. unfold api_wallet_close. wallet_stable. Qed.

Lemma status_stable : stable I (S := S) api_wallet_status.
Proof. unfold api_wallet_status. wallet_stable. Qed.
End WalletStable.

(** ** Sending *)

(** The method of a JSON-RPC request. *)
Definition rpc_method (r : http_request) : option string :=
  match rq_body r with
  | Some (VObj ps) => match lookup_prop "method" ps with Some (VStr m) => Some m | _ => None end
  | _ => None
  end.

(** The awaited operations that ask the wallet to pay somebody. *)
Definition is_transfer (o : asyncop) : nat :=
  match o with
  | Fetch r => match rpc_method r with Some m => if String.eqb m "transfer" then 1 else 0 | None => 0 end
  | _ => 0
  end.

(** At most one transfer on every path, also where the handler is cut short. *)
Definition payments : rules :=
  {| r_sys := fun _ => 0; r_async := is_transfer; r_admit := fun _ => True; r_hang := fun n => n <= 1; r_crash := False |}.

Definition pays_at_most_once {S} (p : prog S unit) : Prop :=
  counts payments p 0 (fun c _ => c <= 1) (fun _ _ => False).

(** The destination and the amount of a request are those the client asked for,
    the amount in atomic units. *)
Definition pays (address : val) (amount : num) (r : http_request) : Prop :=
  exists ring_size payment_id,
    r = post_json WALLET_RPC (rpc_body "transfer" (transfer_params ring_size address payment_id amount)).

Section Sending.
Context {S : Type} `{!WalletServer S}.

(** The server's [fetch] sends the calls to the wallet RPC as they are. *)
Hypothesis as_is : forall body, f_request wallet_fetch (post_json WALLET_RPC body) = post_json WALLET_RPC body.

(** A send body with both fields present. *)
Definition send_body (address : val) (amount : string) (payment_id : val) : fields :=
  ["address" ::= address; "amount" ::= str amount; "payment_id" ::= payment_id].

Lemma send_plain_starts ring_size address amount payment_id :
  truthy address = true -> truthy (str amount) = true ->
  exists k, send_plain (S := S) ring_size (send_body address amount payment_id) =
    Await (Fetch (post_json WALLET_RPC (rpc_body "transfer"
      (transfer_params ring_size address payment_id (atomic (parseFloat amount)))))) k.
Proof.
  intros Ha Hm. unfold send_plain.
  change (field "address" (send_body address amount payment_id)) with address.
  change (field "amount" (send_body address amount payment_id)) with (str amount).
  rewrite Ha, Hm, <- as_is. eexists. reflexivity.
Qed.

Lemma send_plain_one_transfer ring_size body : pays_at_most_once (S := S) (send_plain ring_size body).
Proof.
  unfold pays_at_most_once, send_plain, atomic_amount, unless_error, send_success, coins, res_json, respond.
  count_paths; rewrite ?as_is.
  all: cbn; lia.
Qed.
End Sending.
