(* ===== verification/DashboardServer.v ===== *)
(** * dashboard/server.js

    The dashboard's Express server: daemon control, block explorer, mining with
    XMRig or the daemon's own miner, and the wallet. *)

From Stdlib Require Import ZArith Lia String Ascii List Bool.
From Stdlib Require Import Floats.SpecFloat.
From stdpp Require Import base list strings decidable option.
From S2P Require Import Prelude JsNumber JsString JsRegex JsValue Runtime EventLoop Node Wallet.

Local Open Scope js_scope.

(** What the module reads of its host: [__dirname], [process.platform] and
    [os.cpus().length]. *)
Record host := { h_dirname : string; h_platform : string; h_cpus : Z }.

(** The module's variables. *)
Record vars := {
  walletRpcProcess : option child;
  currentWalletName : val;
  daemonProcess : option child;
  xmrigProcess : option child;
  xmrigConfig : option (val * val);
  xmrigHashrate : num;
  xmrigAccepted : Z
}.

Definition init_vars : vars :=
  {| walletRpcProcess := None; currentWalletName := VNull; daemonProcess := None;
     xmrigProcess := None; xmrigConfig := None; xmrigHashrate := n0; xmrigAccepted := 0 |}.

Definition set_walletRpcProcess (x : option child) (s : vars) : vars :=
  {| walletRpcProcess := x; currentWalletName := currentWalletName s; daemonProcess := daemonProcess s;
     xmrigProcess := xmrigProcess s; xmrigConfig := xmrigConfig s;
     xmrigHashrate := xmrigHashrate s; xmrigAccepted := xmrigAccepted s |}.
Definition set_currentWalletName (x : val) (s : vars) : vars :=
  {| walletRpcProcess := walletRpcProcess s; currentWalletName := x; daemonProcess := daemonProcess s;
     xmrigProcess := xmrigProcess s; xmrigConfig := xmrigConfig s;
     xmrigHashrate := xmrigHashrate s; xmrigAccepted := xmrigAccepted s |}.
Definition set_daemonProcess (x : option child) (s : vars) : vars :=
  {| walletRpcProcess := walletRpcProcess s; currentWalletName := currentWalletName s; daemonProcess := x;
     xmrigProcess := xmrigProcess s; xmrigConfig := xmrigConfig s;
     xmrigHashrate := xmrigHashrate s; xmrigAccepted := xmrigAccepted s |}.
Definition set_xmrigProcess (x : option child) (s : vars) : vars :=
  {| walletRpcProcess := walletRpcProcess s; currentWalletName := currentWalletName s;
     daemonProcess := daemonProcess s; xmrigProcess := x; xmrigConfig := xmrigConfig s;
     xmrigHashrate := xmrigHashrate s; xmrigAccepted := xmrigAccepted s |}.
Definition set_xmrigConfig (x : option (val * val)) (s : vars) : vars :=
  {| walletRpcProcess := walletRpcProcess s; currentWalletName := currentWalletName s;
     daemonProcess := daemonProcess s; xmrigProcess := xmrigProcess s; xmrigConfig := x;
     xmrigHashrate := xmrigHashrate s; xmrigAccepted := xmrigAccepted s |}.
Definition set_xmrigHashrate (x : num) (s : vars) : vars :=
  {| walletRpcProcess := walletRpcProcess s; currentWalletName := currentWalletName s;
     daemonProcess := daemonProcess s; xmrigProcess := xmrigProcess s; xmrigConfig := xmrigConfig s;
     xmrigHashrate := x; xmrigAccepted := xmrigAccepted s |}.
Definition set_xmrigAccepted (x : Z) (s : vars) : vars :=
  {| walletRpcProcess := walletRpcProcess s; currentWalletName := currentWalletName s;
     daemonProcess := daemonProcess s; xmrigProcess := xmrigProcess s; xmrigConfig := xmrigConfig s;
     xmrigHashrate := xmrigHashrate s; xmrigAccepted := x |}.

Definition LOG_FILE : string := "/tmp/cocained_local.log".
Definition XMRIG_LOG : string := "/tmp/xmrig_cocaine.log".
Definition XMRIG_CONFIG : string := "/tmp/xmrig_cocaine_config.json".

Section Server.
Variable H : host.

Definition WALLET_DIR : string := path_join [h_dirname H; ".."; "wallets"].
Definition DAEMON_BIN : string := path_join [h_dirname H; ".."; "build"; "bin"; "cocained"].
Definition WALLET_RPC_BIN : string := path_join [h_dirname H; ".."; "build"; "bin"; "cocaine-wallet-rpc"].
Definition DATA_DIR : string := path_join [h_dirname H; ".."; "data"].

Definition ensure_dir (d : string) : prog vars unit :=
  let* e := exists_sync d in if e then Ret tt else mkdir_sync d.

(** Module start: the directories. *)
Definition ensure_dirs : prog vars unit := ensure_dir WALLET_DIR ;;; ensure_dir DATA_DIR.

Definition isDaemonRunning : prog vars bool :=
  try let* res := fetch (get_url (DAEMON_HTTP ++ "/get_info")) in Ret (rs_ok res)
  catch _ => Ret false.

(** [stdout.trim().split('\n')[0]], or [null]. *)
Definition first_line (failed : bool) (stdout : string) : val :=
  if failed || String.eqb (trim stdout) "" then VNull
  else match split_on newline (trim stdout) with
       | x :: _ => VStr x
       | [] => VUndef
       end.

Definition getDaemonPid : prog vars val :=
  let* (failed, stdout) := await (Exec "pgrep -f cocained") in Ret (first_line failed stdout).

Definition startWalletRpc : prog vars unit :=
  let* cur := gets walletRpcProcess in
  match cur with
  | Some _ => Ret tt
  | None =>
      let* present := exists_sync WALLET_RPC_BIN in
      if negb present then Ret tt
      else
        let* h := spawn WALLET_RPC_BIN
          ["--daemon-address"; "127.0.0.1:19081"; "--rpc-bind-port"; "19083";
           "--disable-rpc-login"; "--wallet-dir"; WALLET_DIR; "--log-level"; "1"]%string in
        modify (set_walletRpcProcess (Some h)) ;;;
        fork (OnError h) (fun _ => modify (set_walletRpcProcess None)) ;;;
        fork (OnClose h) (fun _ => modify (set_walletRpcProcess None)) ;;;
        await (StartUp h)
  end.

(** ** Daemon endpoints *)

Definition api_info : prog vars unit :=
  try
    let* data := fetch_json (get_url (DAEMON_HTTP ++ "/get_info")) in
    res_json (obj ["result" ::= data])
  catch e => respond 500 (obj ["error" ::= str e; "daemon_running" ::= VBool false]).

Definition status_message (status message : string) : val :=
  obj ["status" ::= str status; "message" ::= str message].
Definition status_error (e : jserr) : val :=
  obj ["status" ::= str "error"; "error" ::= str e].

Definition api_daemon_start : prog vars unit :=
  try
    let* running := isDaemonRunning in
    if running : bool then res_json (status_message "busy" "Daemon already running")
    else
      Sys (FsOpen LOG_FILE) lift ;;;
      Sys (FsOpen LOG_FILE) lift ;;;
      let* h := spawn DAEMON_BIN
        ["--data-dir"; DATA_DIR; "--p2p-bind-ip"; "0.0.0.0"; "--p2p-bind-port"; "19080";
         "--rpc-bind-ip"; "127.0.0.1"; "--rpc-bind-port"; "19081";
         "--non-interactive"; "--log-level"; "1"]%string in
      modify (set_daemonProcess (Some h)) ;;;
      unlistened (OnError h) ;;;
      sleep 3000 ;;;
      let* nowRunning := isDaemonRunning in
      if nowRunning : bool then res_json (status_message "OK" "Daemon started")
      else res_json (status_message "error" "Daemon failed to start - check logs")
  catch e => respond 500 (status_error e).

Definition api_daemon_stop : prog vars unit :=
  try
    let* pid := getDaemonPid in
    if truthy pid then
      let* p := lift (to_str pid) in
      fork (Exec ("kill " ++ p)) (fun '(failed, _) =>
        if failed : bool then res_json (status_message "error" "Failed to stop daemon")
        else res_json (status_message "OK" "Daemon stopped"))
    else res_json (status_message "OK" "Daemon not running")
  catch e => respond 500 (status_error e).

Definition api_daemon_status : prog vars unit :=
  try
    let* running := isDaemonRunning in
    let* pid := getDaemonPid in
    res_json (obj ["running" ::= VBool running; "pid" ::= pid])
  catch e => res_json (obj ["running" ::= VBool false; "error" ::= str e]).

(** [parseInt(req.query.lines) || 50]. *)
Definition lines_param (query : fields) : prog vars num :=
  let* t := lift (to_str (field "lines" query)) in
  let n := parseInt t in
  Ret (if truthy (VNum n) then n else num_of_Z 50).

Definition tail_command (lines : num) : string :=
  ("tail -" ++ num_to_string lines ++ " " ++ String (ascii_of_Z 34) LOG_FILE ++ String (ascii_of_Z 34) "")%string.

Definition api_daemon_logs (query : fields) : prog vars unit :=
  try
    let* lines := lines_param query in
    let* present := exists_sync LOG_FILE in
    if present : bool then
      fork (Exec (tail_command lines)) (fun '(failed, stdout) =>
        if failed : bool then res_json (obj ["logs" ::= VArr []])
        else res_json (obj ["logs" ::=
               VArr (map VStr (List.filter not_blank (split_on newline stdout)))]))
    else res_json (obj ["logs" ::= VArr [str "No log file found"]])
  catch e => res_json (obj ["logs" ::= VArr []; "error" ::= str e]).

Definition api_last_block : prog vars unit :=
  try let* data := daemonRpc "get_last_block_header" (obj []) in res_json data
  catch e => respond 500 (error_body e).

Definition api_block (height : string) : prog vars unit :=
  try
    let* data := daemonRpc "get_block_header_by_height" (obj ["height" ::= VNum (parseInt height)]) in
    res_json data
  catch e => respond 500 (error_body e).
Definition not_a_function (what : string) : jserr := (what ++ " is not a function")%string.

(** [xs.map(f)] on a value: arrays only. *)
Definition map_array (what : string) (f : val -> prog vars val) (xs : val) : prog vars (list val) :=
  match xs with
  | VArr l => (fix go (l : list val) : prog vars (list val) :=
                 match l with
                 | [] => Ret []
                 | x :: l' => let* y := f x in let* ys := go l' in Ret (y :: ys)
                 end) l
  | _ => Throw (not_a_function what)
  end.

Definition peer_view (c : val) : prog vars val :=
  let* address := jget c "address" in
  let* height := jget c "height" in
  let* incoming := jget c "incoming" in
  let* state := jget c "state" in
  let* live_time := jget c "live_time" in
  let* recv_count := jget c "recv_count" in
  let* send_count := jget c "send_count" in
  Ret (obj ["address" ::= address; "height" ::= height; "incoming" ::= incoming;
            "state" ::= state; "live_time" ::= live_time; "recv_count" ::= recv_count;
            "send_count" ::= send_count]).

Definition api_peers : prog vars unit :=
  try
    let* data := fetch_json (post_json DAEMON_RPC
      (obj ["jsonrpc" ::= str "2.0"; "id" ::= str "0"; "method" ::= str "get_connections"])) in
    let* result := jget data "result" in
    let connections := or_else (get_opt result "connections") (VArr []) in
    let* views := map_array "connections.map" peer_view connections in
    res_json (obj ["connections" ::= VArr views])
  catch e => res_json (obj ["connections" ::= VArr []; "error" ::= str e]).

Definition block_view (b : val) : val :=
  obj ["height" ::= own_prop b "height"; "hash" ::= own_prop b "hash";
       "timestamp" ::= own_prop b "timestamp"; "reward" ::= own_prop b "reward";
       "difficulty" ::= own_prop b "difficulty"; "size" ::= own_prop b "block_size";
       "txs" ::= own_prop b "num_txes"].

(** The loop over [i]; [Math.min(20, ...)] bounds it by twenty turns. *)
Fixpoint recent_loop (fuel : nat) (i : Z) (current count : num) (blocks : list val) : prog vars (list val) :=
  match fuel with
  | O => Ret blocks
  | S fuel' =>
      if num_ltb (num_of_Z i) count then
        let height := num_sub (num_sub current (num_of_Z 1)) (num_of_Z i) in
        if num_ltb height n0 then Ret blocks
        else
          let* data := daemonRpc "get_block_header_by_height" (obj ["height" ::= VNum height]) in
          let* result := jget data "result" in
          let header := if truthy result then own_prop result "block_header" else result in
          if truthy header
          then recent_loop fuel' (i + 1) current count (blocks ++ [block_view header])
          else recent_loop fuel' (i + 1) current count blocks
      else Ret blocks
  end.

Definition api_blocks_recent : prog vars unit :=
  try
    let* info := fetch_json (get_url (DAEMON_HTTP ++ "/get_info")) in
    let* currentHeight := jget info "height" in
    let* current := lift (to_num currentHeight) in
    let* blocks := recent_loop 20 0 current (math_min (num_of_Z 20) current) [] in
    res_json (obj ["blocks" ::= VArr blocks])
  catch e => respond 500 (obj ["error" ::= str e; "blocks" ::= VArr []]).

(** ** XMRig *)

Definition getXmrigPath : string :=
  let toolsDir := path_join [h_dirname H; ".."; "tools"; "xmrig"] in
  if String.eqb (h_platform H) "darwin" then path_join [toolsDir; "macos"; "xmrig"]
  else if String.eqb (h_platform H) "win32" then path_join [toolsDir; "windows"; "xmrig.exe"]
  else path_join [toolsDir; "linux"; "xmrig"].

Definition isXmrigAvailable : prog vars bool := exists_sync getXmrigPath.

(** The case-insensitive pattern of [parseXmrigLog]: the word speed, a token, a
    decimal (group 1) and a unit ending in [/s] (group 2). *)
Definition speed_re : list item :=
  literal exactly_i "speed" ++ plus is_space ++ plus not_space ++ plus is_space ++
  [Open 1] ++ decimal ++ [Close 1] ++ plus is_space ++
  [Open 2] ++ plus is_word ++ literal exactly_i "/s" ++ [Close 2].

(** The rate of one log line, in hashes per second. *)
Definition line_rate (line : string) : option num :=
  match exec speed_re line with
  | Some (_, m) =>
      match group 1 m, group 2 m with
      | Some digits, Some u =>
          let rate := parseFloat digits in
          let unit := toLowerCase u in
          Some (if includes "kh" unit then num_mul rate (num_of_Z 1000)
                else if includes "mh" unit then num_mul rate (num_of_Z 1000000)
                else rate)
      | _, _ => None
      end
  | None => None
  end.

Fixpoint first_rate (lines : list string) : option num :=
  match lines with
  | [] => None
  | l :: ls => match line_rate l with Some r => Some r | None => first_rate ls end
  end.

(** The rate of the last matching line among the last fifty. *)
Definition log_rate (content : string) : option num :=
  first_rate (reverse (slice_from (-50) (split_on newline content))).

Definition parseXmrigLog : prog vars unit :=
  try
    let* present := exists_sync XMRIG_LOG in
    if negb present then Ret tt
    else
      let* content := read_file XMRIG_LOG in
      match log_rate content with
      | Some r => modify (set_xmrigHashrate r)
      | None => Ret tt
      end ;;;
      modify (set_xmrigAccepted (Z.of_nat (count_gi "accepted" content)))
  catch _ => Ret tt.

(** [xmrigProcess && !xmrigProcess.killed]. *)
Definition xmrig_active : prog vars (option child) :=
  let* p := gets xmrigProcess in
  match p with
  | None => Ret None
  | Some h => let* killed := sys (ChildKilled h) in Ret (if killed : bool then None else Some h)
  end.

(** [xmrigConfig?.threads || 0] and [xmrigConfig?.address || '']. *)
Definition config_threads (c : option (val * val)) : val :=
  match c with Some (_, t) => or_else t (vint 0) | None => vint 0 end.
Definition config_address (c : option (val * val)) : val :=
  match c with Some (a, _) => or_else a (str "") | None => str "" end.

(** ** Mining endpoints *)

Definition info_difficulty : prog vars val :=
  let* info := fetch_json (get_url (DAEMON_HTTP ++ "/get_info")) in
  let* d := jget info "difficulty" in Ret (or_else d (vint 1)).

Definition xmrig_miner_status (difficulty : val) : prog vars unit :=
  let* s := gets id in
  res_json (obj ["running" ::= VBool true; "miner" ::= str "xmrig";
    "hashrate" ::= VNum (xmrigHashrate s); "threads" ::= config_threads (xmrigConfig s);
    "address" ::= config_address (xmrigConfig s); "difficulty" ::= difficulty;
    "accepted" ::= vint (xmrigAccepted s)]).

Definition api_miner_status : prog vars unit :=
  let* active := xmrig_active in
  match active with
  | Some _ =>
      parseXmrigLog ;;;
      try let* d := info_difficulty in xmrig_miner_status d
      catch _ => xmrig_miner_status (vint 1)
  | None =>
      try
        let* data := fetch_json (get_url (DAEMON_HTTP ++ "/mining_status")) in
        let* running := jget data "active" in
        let* speed := jget data "speed" in
        let* threads := jget data "threads_count" in
        let* address := jget data "address" in
        let* difficulty := jget data "difficulty" in
        res_json (obj ["running" ::= running; "miner" ::= str "builtin"; "hashrate" ::= speed;
                       "threads" ::= threads; "address" ::= address; "difficulty" ::= difficulty])
      catch e => res_json (obj ["running" ::= VBool false; "error" ::= str e])
  end.

(** XMRig's configuration for solo mining. *)
Definition xmrig_config (address : val) : val :=
  obj ["autosave" ::= VBool false;
       "cpu" ::= obj ["enabled" ::= VBool true; "huge-pages" ::= VBool true; "hw-aes" ::= VNull;
                      "priority" ::= VNull; "asm" ::= VBool true; "argon2-impl" ::= VNull;
                      "max-threads-hint" ::= vint 100];
       "opencl" ::= VBool false; "cuda" ::= VBool false; "log-file" ::= str XMRIG_LOG;
       "pools" ::= VArr [obj ["algo" ::= str "rx/0"; "url" ::= str "127.0.0.1:19081";
                              "user" ::= address; "pass" ::= str "x"; "daemon" ::= VBool true;
                              "daemon-poll-interval" ::= vint 1000]];
       "print-time" ::= vint 10; "retries" ::= vint 5; "retry-pause" ::= vint 5].

(** [threads || Math.max(1, os.cpus().length - 1)]. *)
Definition thread_count (threads : val) : val :=
  or_else threads (VNum (math_max (num_of_Z 1) (num_of_Z (h_cpus H - 1)))).

Definition kill_xmrig : prog vars unit :=
  let* active := xmrig_active in
  match active with
  | Some h => sys (ChildKill h) ;;; modify (set_xmrigProcess None)
  | None => Ret tt
  end.

(** The exit listener of the child: it clears the variables, whatever child
    they refer to by then. *)
Definition on_xmrig_exit : prog vars unit :=
  modify (set_xmrigProcess None) ;;; modify (set_xmrigConfig None).

Definition start_xmrig (address threads : val) : prog vars unit :=
  let count := thread_count threads in
  write_file XMRIG_CONFIG (CJson (json (xmrig_config address))) ;;;
  let* stale := exists_sync XMRIG_LOG in
  (if stale : bool then unlink XMRIG_LOG else Ret tt) ;;;
  let* threads_text := lift (to_str count) in
  let* h := spawn getXmrigPath
    ["--config"; XMRIG_CONFIG; "--threads"; threads_text; "--no-color"]%string in
  modify (set_xmrigProcess (Some h)) ;;;
  unlistened (OnError h) ;;;
  sys (FsWriteStream XMRIG_LOG) ;;;
  unlistened (OnStreamError XMRIG_LOG) ;;;
  modify (set_xmrigConfig (Some (address, count))) ;;;
  modify (set_xmrigHashrate n0) ;;;
  modify (set_xmrigAccepted 0) ;;;
  fork (OnExit h) (fun _ => on_xmrig_exit) ;;;
  sleep 2000 ;;;
  res_json (obj ["status" ::= str "OK"; "miner" ::= str "xmrig";
                 "message" ::= str "XMRig started"; "threads" ::= count]).

Definition builtin_url (address threads : val) : prog vars string :=
  let* a := lift (to_str address) in
  let* t := lift (to_str (or_else threads (vint 2))) in
  Ret (DAEMON_HTTP ++ "/start_mining?miner_address=" ++ a ++ "&threads_count=" ++ t)%string.

Definition start_builtin (address threads : val) : prog vars unit :=
  try
    let* url := builtin_url address threads in
    let* data := fetch_json (get_url url) in
    res_json (VObj (set_prop "miner" (str "builtin") (set_all (spread data) [])))
  catch e => respond 500 (status_error e).

Definition api_mining_start (body : fields) : prog vars unit :=
  let address := field "address" body in
  let threads := field "threads" body in
  let useBuiltin := field "useBuiltin" body in
  if negb (truthy address) then
    respond 400 (obj ["status" ::= str "error"; "error" ::= str "Mining address required"])
  else
    kill_xmrig ;;;
    (try (fetch (get_url (DAEMON_HTTP ++ "/stop_mining")) ;;; Ret tt) catch _ => Ret tt) ;;;
    let* use_xmrig := (if truthy useBuiltin then Ret false else isXmrigAvailable) in
    if use_xmrig : bool then
      try start_xmrig address threads
      catch _ => start_builtin address threads
    else start_builtin address threads.

Definition api_mining_stop : prog vars unit :=
  (let* active := xmrig_active in
   match active with
   | Some h =>
       sys (ChildKill h) ;;; modify (set_xmrigProcess None) ;;;
       modify (set_xmrigConfig None) ;;; modify (set_xmrigHashrate n0)
   | None => Ret tt
   end) ;;;
  try
    let* data := fetch_json (get_url (DAEMON_HTTP ++ "/stop_mining")) in
    res_json (VObj (set_all (spread data) ["status" ::= str "OK"]))
  catch _ => res_json (obj ["status" ::= str "OK"]).

Definition xmrig_mining_fields (s : vars) (difficulty : val) : list (string * val) :=
  ["active" ::= VBool true; "miner" ::= str "xmrig";
   "speed" ::= VNum (xmrigHashrate s); "threads_count" ::= config_threads (xmrigConfig s);
   "address" ::= config_address (xmrigConfig s); "difficulty" ::= difficulty].

Definition api_mining_status : prog vars unit :=
  let* active := xmrig_active in
  match active with
  | Some _ =>
      parseXmrigLog ;;;
      try
        let* d := info_difficulty in
        let* s := gets id in
        res_json (obj (xmrig_mining_fields s d ++ ["accepted" ::= vint (xmrigAccepted s)]))
      catch _ =>
        let* s := gets id in res_json (obj (xmrig_mining_fields s (vint 1)))
  | None =>
      try
        let* data := fetch_json (get_url (DAEMON_HTTP ++ "/mining_status")) in
        let* info := fetch_json (get_url (DAEMON_HTTP ++ "/get_info")) in
        let* active := jget data "active" in
        let* speed := jget data "speed" in
        let* threads := jget data "threads_count" in
        let* address := jget data "address" in
        let* difficulty := jget info "difficulty" in
        res_json (obj ["active" ::= or_else active (VBool false); "miner" ::= str "builtin";
          "speed" ::= or_else speed (vint 0); "threads_count" ::= or_else threads (vint 0);
          "address" ::= or_else address (str ""); "difficulty" ::= or_else difficulty (vint 1)])
      catch _ => res_json (obj ["active" ::= VBool false; "speed" ::= vint 0;
                                "threads_count" ::= vint 0; "difficulty" ::= vint 1])
  end.

Definition api_xmrig_available : prog vars unit :=
  let* available := isXmrigAvailable in
  res_json (obj ["available" ::= VBool available; "path" ::= str getXmrigPath]).

(** ** Wallet endpoints *)

#[local] Instance wallet_server : WalletServer vars := {
  get_wallet := currentWalletName;
  set_wallet := set_currentWalletName;
  start_wallet_rpc := startWalletRpc;
  wallet_dir := WALLET_DIR;
  wallet_fetch := node_fetch
}.

Definition api_wallet_list : prog vars unit := Wallet.api_wallet_list.
Definition api_wallet_create (body : fields) : prog vars unit := Wallet.api_wallet_create body.

(** The name to open is [name || filename]. *)
Definition api_wallet_open (body : fields) : prog vars unit :=
  let walletName := or_else (field "name" body) (field "filename" body) in
  if negb (truthy walletName) then respond 400 (error_text "Wallet name required")
  else open_wallet walletName (field "password" body).

Definition api_wallet_restore (body : fields) : prog vars unit := Wallet.api_wallet_restore body.
Definition api_wallet_balance : prog vars unit := Wallet.api_wallet_balance.
Definition api_wallet_address : prog vars unit := Wallet.api_wallet_address.
Definition api_wallet_transfers : prog vars unit := Wallet.api_wallet_transfers.
Definition api_wallet_send (body : fields) : prog vars unit := send_plain 11 body.
Definition api_wallet_refresh : prog vars unit := Wallet.api_wallet_refresh.
Definition api_wallet_close : prog vars unit := Wallet.api_wallet_close.
Definition api_wallet_status : prog vars unit := Wallet.api_wallet_status.

(** ** Server start and shutdown *)

(** The [listen] callback: start the wallet RPC, then open the browser after
    half a second. *)
Definition on_listen : prog vars unit :=
  (try startWalletRpc catch _ => Ret tt) ;;;
  fork (Sleep 500) (fun _ => Ret tt).

(** What the ['error'] listener of the HTTP server does. *)
Inductive fatal := ExitWith (code : Z) | Rethrow.
Definition on_server_error (code : string) : fatal :=
  if String.eqb code "EADDRINUSE" then ExitWith 1 else Rethrow.

Definition on_sigint : prog vars unit :=
  let* p := gets walletRpcProcess in
  match p with Some h => sys (ChildKill h) ;;; Ret tt | None => Ret tt end.

(** ** Routes *)

Inductive request :=
| GetInfo | PostDaemonStart | PostDaemonStop | GetDaemonStatus
| GetDaemonLogs (query : fields) | GetLastBlock | GetBlock (height : string)
| GetPeers | GetBlocksRecent | GetMinerStatus | PostMiningStart (body : fields)
| PostMiningStop | GetMiningStatus | GetXmrigAvailable | GetWalletList
| PostWalletCreate (body : fields) | PostWalletOpen (body : fields)
| PostWalletRestore (body : fields) | GetWalletBalance | GetWalletAddress
| GetWalletTransfers | PostWalletSend (body : fields) | PostWalletRefresh
| PostWalletClose | GetWalletStatus.

Definition handler (r : request) : prog vars unit :=
  match r with
  | GetInfo => api_info
  | PostDaemonStart => api_daemon_start
  | PostDaemonStop => api_daemon_stop
  | GetDaemonStatus => api_daemon_status
  | GetDaemonLogs query => api_daemon_logs query
  | GetLastBlock => api_last_block
  | GetBlock height => api_block height
  | GetPeers => api_peers
  | GetBlocksRecent => api_blocks_recent
  | GetMinerStatus => api_miner_status
  | PostMiningStart body => api_mining_start body
  | PostMiningStop => api_mining_stop
  | GetMiningStatus => api_mining_status
  | GetXmrigAvailable => api_xmrig_available
  | GetWalletList => api_wallet_list
  | PostWalletCreate body => api_wallet_create body
  | PostWalletOpen body => api_wallet_open body
  | PostWalletRestore body => api_wallet_restore body
  | GetWalletBalance => api_wallet_balance
  | GetWalletAddress => api_wallet_address
  | GetWalletTransfers => api_wallet_transfers
  | PostWalletSend body => api_wallet_send body
  | PostWalletRefresh => api_wallet_refresh
  | PostWalletClose => api_wallet_close
  | GetWalletStatus => api_wallet_status
  end.
End Server.
