(* ===== verification/DashboardFacts.v ===== *)
(** * Properties of dashboard/server.js *)

From Stdlib Require Import ZArith Lia String Ascii List Bool.
From Stdlib Require Import Floats.SpecFloat.
From stdpp Require Import base list strings decidable option.
From S2P Require Import Prelude JsNumber JsNumberFacts JsString JsRegex JsValue Runtime EventLoop Node Wallet WalletFacts DashboardServer.

Local Open Scope js_scope.

(** ** Every request gets exactly one response *)

Section Once.
Variable H : host.
Variable crash : bool.

Lemma isDaemonRunning_quiet : quiet (responses Strict crash) isDaemonRunning.
Proof. intros n. unfold isDaemonRunning. count_paths. Qed.

Lemma startWalletRpc_silent : silent (responses Strict crash) (startWalletRpc H).
Proof. intros n. unfold startWalletRpc. count_paths. Qed.

Lemma parseXmrigLog_quiet : quiet (responses Strict crash) parseXmrigLog.
Proof. intros n. unfold parseXmrigLog. count_paths. Qed.

Lemma xmrig_active_quiet : quiet (responses Strict crash) xmrig_active.
Proof. intros n. unfold xmrig_active. count_paths. Qed.

Lemma map_array_silent what f xs :
  (forall x, silent (responses Strict crash) (f x)) ->
  silent (responses Strict crash) (map_array what f xs).
Proof.
  intros Hf n. destruct xs as [| | | | |l|]; try done. simpl.
  revert n. induction l as [|x l IH]; intros n; [done|].
  apply counts_bind, counts_silent; [apply Hf| |done]. intros y.
  apply counts_bind, counts_silent; [exact IH|done|done].
Qed.

Lemma peer_view_silent c : silent (responses Strict crash) (peer_view c).
Proof. intros n. unfold peer_view. count_paths. Qed.

Lemma recent_loop_S fuel i current count blocks :
  recent_loop (S fuel) i current count blocks =
  if num_ltb (num_of_Z i) count then
    let height := num_sub (num_sub current (num_of_Z 1)) (num_of_Z i) in
    if num_ltb height n0 then Ret blocks
    else
      let* data := daemonRpc "get_block_header_by_height" (obj ["height" ::= VNum height]) in
      let* result := jget data "result" in
      let header := if truthy result then own_prop result "block_header" else result in
      if truthy header
      then recent_loop fuel (i + 1) current count (blocks ++ [block_view header])
      else recent_loop fuel (i + 1) current count blocks
  else Ret blocks.
Proof. reflexivity. Qed.

Lemma recent_loop_silent fuel i current count blocks :
  silent (responses Strict crash) (recent_loop fuel i current count blocks).
Proof.
  revert i blocks. induction fuel as [|fuel IH]; intros i blocks n; [done|].
  rewrite recent_loop_S. cbv zeta. destruct (num_ltb _ count); [|done].
  destruct (num_ltb _ n0); [done|].
  count_paths; rewrite !Nat.add_0_r; apply IH.
Qed.

Lemma kill_xmrig_quiet : quiet (responses Strict crash) kill_xmrig.
Proof. intros n. unfold kill_xmrig, xmrig_active. count_paths. Qed.

Lemma start_builtin_once address threads : responds Strict crash (start_builtin address threads).
Proof. unfold responds, start_builtin, builtin_url. count_paths. Qed.

(** XMRig's start responds once or throws before it responds; nobody listens to
    the errors of the child and of the log's stream. *)
Lemma start_xmrig_counts address threads (X : nat -> jserr -> Prop) :
  crash = true -> (forall e, X 0 e) ->
  counts (responses Strict crash) (start_xmrig H address threads) 0 (fun c _ => c = 1) X.
Proof. intros Hc HX. unfold start_xmrig, on_xmrig_exit. count_paths; first [exact Hc | apply HX]. Qed.

Lemma mining_start_once body : crash = true -> responds Strict crash (api_mining_start H body).
Proof.
  intros Hc. unfold responds, api_mining_start, isXmrigAvailable.
  destruct (negb _); [count_paths|].
  apply counts_bind, counts_quiet; [apply kill_xmrig_quiet|intros _].
  count_paths; try apply start_builtin_once.
  all: apply start_xmrig_counts; [exact Hc|intros; apply start_builtin_once].
Qed.

Lemma miner_status_once : responds Strict crash api_miner_status.
Proof.
  unfold responds, api_miner_status, xmrig_miner_status, info_difficulty.
  apply counts_bind, counts_quiet; [apply xmrig_active_quiet|].
  intros [h|]; [|count_paths].
  apply counts_bind, counts_quiet; [apply parseXmrigLog_quiet|]. count_paths.
Qed.

Lemma mining_status_once : responds Strict crash api_mining_status.
Proof.
  unfold responds, api_mining_status, info_difficulty.
  apply counts_bind, counts_quiet; [apply xmrig_active_quiet|].
  intros [h|]; [|count_paths].
  apply counts_bind, counts_quiet; [apply parseXmrigLog_quiet|]. count_paths.
Qed.

Lemma mining_stop_once : responds Strict crash api_mining_stop.
Proof. unfold responds, api_mining_stop, xmrig_active. count_paths. Qed.

Lemma daemon_start_once : crash = true -> responds Strict crash (api_daemon_start H).
Proof.
  intros Hc. unfold responds, api_daemon_start.
  apply counts_try, counts_bind, counts_quiet; [apply isDaemonRunning_quiet|].
  intros []; [count_paths|]. count_paths; first [exact Hc |
    apply counts_quiet; [apply isDaemonRunning_quiet|]; intros []; count_paths].
Qed.

Lemma daemon_stop_once : responds Strict crash api_daemon_stop.
Proof. unfold responds, api_daemon_stop, getDaemonPid. count_paths. Qed.

Lemma daemon_status_once : responds Strict crash api_daemon_status.
Proof. unfold responds, api_daemon_status, isDaemonRunning, getDaemonPid. count_paths. Qed.

Lemma daemon_logs_once query : responds Strict crash (api_daemon_logs query).
Proof. unfold responds, api_daemon_logs, lines_param. count_paths. Qed.

Lemma peers_once : responds Strict crash api_peers.
Proof.
  unfold responds, api_peers. count_paths.
  apply counts_silent; [apply map_array_silent, peer_view_silent| |]; count_paths.
Qed.

Lemma blocks_recent_once : responds Strict crash api_blocks_recent.
Proof.
  unfold responds, api_blocks_recent. count_paths.
  apply counts_silent; [apply recent_loop_silent| |]; count_paths.
Qed.
End Once.

(** A request whose handler reads no property that fails to convert: all but a
    [create] whose name carries an inconvertible [length]. *)
Definition convertible (r : request) : bool :=
  match r with PostWalletCreate body => name_converts body | _ => true end.

(** The requests that start a child, or a stream, to whose errors nobody listens. *)
Definition may_crash (r : request) : bool :=
  match r with PostDaemonStart | PostMiningStart _ => true | _ => false end.

(** C8: Requests to the dashboard server are answered exactly once: on every path of every
    handler along which the awaited operations complete, whatever the daemon, the
    wallet RPC, the file system and the other handlers do, one response is sent
    and no exception escapes.  There are two exceptions.  A [create] whose name
    carries a [length] that does not convert to a number is rejected without a
    response.  A start of the daemon or of the miner can be cut short by the
    ['error'] event of a child or stream, which ends the process. *)
Theorem dashboard_responds_once (H : host) (r : request) :
  if convertible r then responds Strict (may_crash r) (handler H r) else rejects (handler H r).
Proof.
  destruct (convertible r) eqn:Hr; [|destruct r; try done; by apply create_rejects].
  pose proof (startWalletRpc_silent H false) as Hs.
  assert (Hh : f_whole (wallet_fetch (WalletServer := wallet_server H)) = true -> Strict <> Strict) by done.
  destruct r; simpl handler; simpl may_crash;
    auto using daemon_start_once, daemon_stop_once, daemon_status_once, daemon_logs_once,
      peers_once, blocks_recent_once, miner_status_once, mining_start_once, mining_stop_once,
      mining_status_once.
  all: try (eauto with js; fail).
  - unfold responds, api_info. count_paths.
  - unfold responds, api_last_block. count_paths.
  - unfold responds, api_block. count_paths.
  - unfold responds, api_xmrig_available, isXmrigAvailable. count_paths.
  - unfold api_wallet_open. destruct (negb _); [unfold responds; count_paths|].
    by apply open_wallet_once.
Qed.

(** A host to run the examples on. *)
Definition linux_host : host :=
  {| h_dirname := "/opt/cocaine/dashboard"; h_platform := "linux"; h_cpus := 8 |}.

(** ** The log command carries no shell syntax *)

(** A [tail] of the log file whose count is made of inert characters. *)
Definition tail_of_log (cmd : string) : Prop :=
  exists t, string_forall shell_inert t = true /\
    cmd = ("tail -" ++ t ++ " " ++ String (ascii_of_Z 34) LOG_FILE ++ String (ascii_of_Z 34) "")%string.

Definition exec_is (P : string -> Prop) (o : asyncop) : Prop :=
  match o with Exec cmd => P cmd | _ => True end.

(** C14: Whatever the query string of [/api/daemon/logs] holds, the only commands the
    handler hands to the shell are [tail -t "/tmp/cocained_local.log"] with [t]
    made of letters, digits, [+], [-] and [.]. *)
Theorem daemon_logs_inert (query : fields) :
  always (fun _ => True) (exec_is tail_of_log) (api_daemon_logs query).
Proof.
  unfold api_daemon_logs, lines_param. always_paths; try exact I.
  all: eexists; split; [apply num_to_string_inert|reflexivity].
Qed.

(** ** Requests stay on this machine *)

Lemma startWalletRpc_local H : always (fun _ => True) (fetch_is local_url) (startWalletRpc H).
Proof. unfold startWalletRpc. local_paths. Qed.

Lemma recent_loop_local fuel i current count blocks :
  always (fun _ => True) (fetch_is local_url) (recent_loop fuel i current count blocks).
Proof.
  revert i blocks. induction fuel as [|fuel IH]; intros i blocks; [exact I|].
  rewrite recent_loop_S. always_paths; first [exact I | apply IH | left; reflexivity].
Qed.

Lemma map_array_local what xs :
  always (fun _ => True) (fetch_is local_url) (map_array what peer_view xs).
Proof.
  destruct xs as [| | | | |l|]; try exact I. simpl.
  induction l as [|x l IH]; [exact I|].
  apply always_bind; [unfold peer_view; local_paths|intros y].
  apply always_bind; [exact IH|intros ys; exact I].
Qed.

Lemma start_builtin_local address threads :
  always (fun _ => True) (fetch_is local_url) (start_builtin address threads).
Proof.
  unfold start_builtin, builtin_url. apply always_try; [|intros e; local_paths].
  destruct (to_str address) as [e|a]; [exact I|].
  destruct (to_str (or_else threads (vint 2))) as [e|t]; [exact I|].
  cbn [lift bind]. local_paths.
Qed.

(** C12: The dashboard server requests nothing outside this machine: on every path of every
    handler the authority of each requested URL is 127.0.0.1 with the daemon's
    or the wallet RPC's port, whatever the client sends. *)
Theorem dashboard_loopback_only (H : host) (r : request) :
  always (fun _ => True) (fetch_is local_url) (handler H r).
Proof.
  pose proof (startWalletRpc_local H) as Hstart.
  assert (Hw : forall body, fetch_is local_url (Fetch (f_request node_fetch (post_json WALLET_RPC body))))
    by (intros body; right; reflexivity).
  assert (Hb : fetch_is local_url Body) by exact I.
  destruct r; simpl handler; try solve [eauto with js].
  - unfold api_info. local_paths.
  - unfold api_daemon_start, isDaemonRunning. local_paths.
  - unfold api_daemon_stop, getDaemonPid. local_paths.
  - unfold api_daemon_status, isDaemonRunning, getDaemonPid. local_paths.
  - unfold api_daemon_logs, lines_param. local_paths.
  - unfold api_last_block. local_paths.
  - unfold api_block. local_paths.
  - unfold api_peers. always_paths; first [exact I | apply map_array_local | left; reflexivity].
  - unfold api_blocks_recent. always_paths;
      first [exact I | apply recent_loop_local | left; reflexivity].
  - unfold api_miner_status, xmrig_miner_status, info_difficulty, xmrig_active, parseXmrigLog. local_paths.
  - unfold api_mining_start, kill_xmrig, xmrig_active, isXmrigAvailable, start_xmrig, on_xmrig_exit.
    always_paths; first [exact I | apply start_builtin_local | left; reflexivity].
  - unfold api_mining_stop, xmrig_active. local_paths.
  - unfold api_mining_status, info_difficulty, xmrig_active, parseXmrigLog. local_paths.
  - unfold api_xmrig_available, isXmrigAvailable. local_paths.
  - unfold api_wallet_open. destruct (negb _); [local_paths|by apply open_always].
Qed.

(** ** XMRig's log *)

Lemma first_rate_skips lines rest :
  Forall (fun l => line_rate l = None) lines -> first_rate (lines ++ rest) = first_rate rest.
Proof. induction 1 as [|l lines Hl _ IH]; [done|]. simpl. by rewrite Hl. Qed.

Lemma log_rate_last before line after r :
  Forall (fun l => no_char newline l = true) (before ++ line :: after) ->
  line_rate line = Some r -> Forall (fun l => line_rate l = None) after -> length after < 50 ->
  log_rate (file_of (before ++ line :: after)) = Some r.
Proof.
  intros Hall Hline Hafter Hlen. unfold log_rate. rewrite split_file by (done || by destruct before).
  change (-50)%Z with (- Z.of_nat 50)%Z. rewrite slice_from_tail, length_app by lia. cbn [length].
  replace (length before + S (length after) - 50) with (length before - (49 - length after)) by lia.
  rewrite drop_app_le by lia. rewrite reverse_app, reverse_cons, <- app_assoc, first_rate_skips.
  - simpl. by rewrite Hline.
  - by apply Forall_reverse.
Qed.

(** C20: Reading XMRig's log sets the hash rate to that of the last line that reports one, if it
    is among the last fifty, and the accepted count to the number of times the
    word occurs in the whole log, in any case; it sends nothing and changes no
    other variable. *)
Theorem xmrig_log_read (E : env) (files : string -> option string)
    (before after : list string) (line : string) (r : num) (s : vars) (tr : trace) :
  files_with E files -> files XMRIG_LOG = Some (file_of (before ++ line :: after)) ->
  Forall (fun l => no_char newline l = true) (before ++ line :: after) ->
  line_rate line = Some r -> Forall (fun l => line_rate l = None) after -> length after < 50 ->
  finishes E parseXmrigLog s tr tt
    (set_xmrigAccepted (Z.of_nat (count_gi "accepted" (file_of (before ++ line :: after))))
      (set_xmrigHashrate r s))
    (tr ++ [EvSys (FsExists XMRIG_LOG); EvSys (FsReadFile XMRIG_LOG)]).
Proof.
  intros [Hex Hread] Hfile Hall Hline Hafter Hlen. apply finishes_try. unfold finishes.
  cbn [bind exists_sync sys run]. rewrite Hex, Hfile. cbn [bool_decide is_Some negb].
  rewrite bool_decide_true by (by eexists). cbn [negb bind read_file run].
  rewrite (Hread _ _ _ Hfile). cbn [lift bind].
  rewrite (log_rate_last before line after r) by done. cbn [modify bind run].
  by rewrite <- app_assoc.
Qed.

(** A log of XMRig with one report. *)
Definition sample_log : list string :=
  ["cpu accepted (1/0)"; "miner speed 10s/60s/15m 1.5 kH/s"; "cpu ACCEPTED (2/0)"]%string.

Lemma xmrig_log_read_witness :
  finishes (host_env (fun _ => Some (file_of sample_log)) (fun _ => inl ""%string)) parseXmrigLog init_vars [] tt
    (set_xmrigAccepted 2 (set_xmrigHashrate (num_of_Z 1500) init_vars))
    [EvSys (FsExists XMRIG_LOG); EvSys (FsReadFile XMRIG_LOG)].
Proof.
  apply (xmrig_log_read _ (fun _ => Some (file_of sample_log)) ["cpu accepted (1/0)"]%string
    ["cpu ACCEPTED (2/0)"]%string "miner speed 10s/60s/15m 1.5 kH/s" (num_of_Z 1500) init_vars []).
  - apply host_env_files.
  - reflexivity.
  - by repeat (constructor; [reflexivity|]).
  - vm_compute. reflexivity.
  - constructor; [vm_compute; reflexivity|constructor].
  - simpl. lia.
Defined.
