(* ===== verification/DashboardRaces.v ===== *)
(** * Interleavings of dashboard/server.js

    Concrete runs of the event loop that the handlers allow. *)

From Stdlib Require Import ZArith Lia String Ascii List Bool.
From stdpp Require Import base list strings decidable option relations.
From S2P Require Import Prelude JsNumber JsString JsValue Runtime EventLoop Node Wallet DashboardServer DashboardFacts.

Local Open Scope js_scope.

(** The server at rest. *)
Definition at_rest : config := Config init_vars [] [] true.

(** A start request for XMRig with four threads. *)
Definition mine : fields := ["address" ::= str "4Wallet"; "threads" ::= str "4"].

Definition miner (i : nat) : child := {| c_id := i; c_pid := vint (1000 + Z.of_nat i) |}.

(** The variables once the miner [h] runs. *)
Definition mining (h : child) : vars :=
  set_xmrigConfig (Some (str "4Wallet", str "4")) (set_xmrigProcess (Some h) init_vars).

(** An event that nobody listens to. *)
Definition default_throw (o : asyncop) : task vars :=
  Task o (fun _ => Throw "Unhandled 'error' event"%string).

(** What the start of the miner [h] leaves waiting: the two ['error'] events, the
    exit listener and the answer. *)
Definition waiting (h : child) (k : unit -> prog vars unit) : list (task vars) :=
  [default_throw (OnError h); default_throw (OnStreamError XMRIG_LOG);
   Task (OnExit h) (fun _ => on_xmrig_exit); Task (Sleep 2000) k].

(** One answer of the operating system after another: XMRig is there, its files
    can be written, no old log is left, and the spawn gives the child [h]. *)
Ltac start_miner h :=
  eapply (runs_sys (FsExists _) _ true); [done|];
  eapply (runs_sys (FsWriteFile _ _) _ (inr tt)); [done|];
  eapply (runs_sys (FsExists _) _ false); [done|];
  eapply (runs_sys (Spawn _ _) _ (inr h)); [by split; [|left; eexists]|];
  apply runs_get, runs_put, runs_fork;
  eapply (runs_sys (FsWriteStream _) _ tt); [done|];
  apply runs_fork;
  do 3 (apply runs_get, runs_put);
  apply runs_fork; apply runs_await.

(** The first start: the request, then the answer of the daemon's [stop_mining]. *)
Lemma first_start H :
  exists k, rtc (step (handler H)) at_rest
    (Config (mining (miner 0)) [new_proc (getXmrigPath H) true] (waiting (miner 0) k) true).
Proof.
  eexists. eapply rtc_l.
  { eapply (step_serve _ (PostMiningStart mine)). apply runs_get. apply runs_await. }
  eapply rtc_l; [|apply rtc_refl].
  eapply (step_continue _ (Fetch _) _ (inl "") _ _ _ [] []); [done|].
  start_miner (miner 0).
Qed.

(** The second start, with the first miner running: it is killed, it ends, and
    the second one is spawned. *)
Lemma second_start H k :
  exists k', rtc (step (handler H))
    (Config (mining (miner 0)) [new_proc (getXmrigPath H) true] (waiting (miner 0) k) true)
    (Config (mining (miner 1))
       [set_dead (set_killed (new_proc (getXmrigPath H) true)); new_proc (getXmrigPath H) true]
       (waiting (miner 0) k ++ waiting (miner 1) k') true).
Proof.
  eexists. eapply rtc_l.
  { eapply (step_serve _ (PostMiningStart mine)). apply runs_get.
    eapply (runs_sys (ChildKilled _) _ false); [done|].
    eapply (runs_sys (ChildKill _) _ true); [done|].
    apply runs_get, runs_put. apply runs_await. }
  eapply rtc_l.
  { eapply step_world. exists 0, (set_killed (new_proc (getXmrigPath H) true)). done. }
  eapply rtc_l; [|apply rtc_refl].
  eapply (step_continue _ (Fetch _) _ (inl "") _ _ _ [_; _; _; _] []); [done|].
  start_miner (miner 1).
Qed.

(** C29: Restarting XMRig can lose the new miner: there is an execution of two start
    requests after which the second miner runs, the variables say that no miner
    does, and so [/api/mining/stop] would leave it running.  The exit listener
    of the first child clears the variables that refer to the second. *)
Theorem restart_loses_miner (H : host) :
  exists c, rtc (step (handler H)) at_rest c /\ g_up c = true /\
    xmrigProcess (g_vars c) = None /\ xmrigConfig (g_vars c) = None /\
    exists p, g_world c !! 1 = Some p /\ pr_bin p = getXmrigPath H /\ pr_alive p = true.
Proof.
  destruct (first_start H) as [k Hk]. destruct (second_start H k) as [k' Hk'].
  eexists (Config _ _ _ true). split.
  { etrans; [exact Hk|]. etrans; [exact Hk'|].
    eapply rtc_l; [|apply rtc_refl].
    eapply (step_continue _ (OnExit (miner 0)) _ tt _ _ _ [_; _] [_; _; _; _; _]); [by eexists|].
    apply runs_get, runs_put, runs_get, runs_put, runs_ret. }
  split; [done|]. split; [done|]. split; [done|]. by eexists.
Qed.

(** ** A daemon that cannot be started *)

(** The child of a spawn that failed. *)
Definition unstarted : child := {| c_id := 0; c_pid := VUndef |}.

(** Nothing of the server runs any more. *)
Definition halted (H : host) (c : config) : Prop :=
  forall c', step (handler H) c c' -> g_vars c' = g_vars c /\ g_tasks c' = g_tasks c /\ g_up c' = false.

Lemma down_halted H s w ts : halted H (Config s w ts false).
Proof. intros c' Hstep. by inversion Hstep; subst. Qed.

(** C34: A missing daemon binary brings the dashboard server down: after a start request
    whose spawn fails, the ['error'] event that nobody listens to can end the
    process while the handler waits for the daemon, so that the request's only
    response is still to be sent and never is. *)
Theorem missing_daemon_crashes (H : host) :
  exists c k, rtc (step (handler H)) at_rest c /\ g_up c = false /\ halted H c /\
    g_tasks c = [Task (Sleep 3000) k] /\ forall a, responds_once (k a).
Proof.
  eexists (Config _ _ [Task (Sleep 3000) _] false), _. split.
  { eapply rtc_l.
    { eapply (step_serve _ PostDaemonStart). apply runs_await. }
    eapply rtc_l.
    { eapply (step_continue _ (Fetch _) _ (inl "") _ _ _ [] []); [done|].
      eapply (runs_sys (FsOpen _) _ (inr tt)); [done|].
      eapply (runs_sys (FsOpen _) _ (inr tt)); [done|].
      eapply (runs_sys (Spawn _ _) _ (inr unstarted)); [by split; [|right]|].
      apply runs_get, runs_put, runs_fork, runs_await. }
    eapply rtc_l; [|apply rtc_refl].
    eapply (step_resume _ (OnError unstarted) _ tt _ _ _ [] [_]); [by eexists|apply runs_throw|done]. }
  split; [done|]. split; [apply down_halted|]. split; [reflexivity|].
  intros a. unfold responds_once, responds.
  match goal with |- counts ?R ?p _ _ _ => change p with
    (try_catch (let* nowRunning := isDaemonRunning in
       if nowRunning : bool then res_json (status_message "OK" "Daemon started")
       else res_json (status_message "error" "Daemon failed to start - check logs"))
     (fun e => respond 500 (status_error e))) end.
  unfold isDaemonRunning. count_paths.
Qed.
