(* ===== verification/RecentBlocks.v ===== *)
(** * GET /api/blocks/recent of dashboard/server.js *)

From Stdlib Require Import ZArith Lia String Ascii List Bool.
From stdpp Require Import base list numbers strings decidable option.
From S2P Require Import Prelude JsNumber JsNumberFacts JsNumberArith JsString JsValue Runtime EventLoop Node DashboardServer DashboardFacts.

Local Open Scope js_scope.

(** The request for the header at a height. *)
Definition header_request (height : Z) : http_request :=
  post_json DAEMON_RPC (rpc_body "get_block_header_by_height" (obj ["height" ::= vint height])).

(** The daemon's answer to it. *)
Definition header_answer (header : list (string * val)) : val :=
  obj ["result" ::= obj ["block_header" ::= obj header]].

Lemma finishes_fetch_json {S} E r v (s : S) tr answers :
  answers_with E answers -> answers r = ok_json v ->
  finishes E (fetch_json r) s tr v s (tr ++ [EvAwait (Fetch r); EvAwait Body]).
Proof.
  intros HE Hr. unfold finishes, fetch_json, fetch, body_json. simpl.
  rewrite (HE tr r), Hr. simpl. by rewrite <- app_assoc.
Qed.

Section Recent.
Variable E : env.
Variable answers : http_request -> jserr + http_response.
Variable height : Z.
Variable header : Z -> list (string * val).

Hypothesis env_answers : answers_with E answers.
Hypothesis height_range : (0 <= height < 2 ^ 52)%Z.
Hypothesis has_header : forall i, (0 <= i < height)%Z ->
  answers (header_request i) = ok_json (header_answer (header i)).

(** The view of the [j]-th block from the top. *)
Definition recent_view (j : Z) : val := block_view (obj (header (height - 1 - j))).

(** The number of blocks listed. *)
Definition recent_count : Z := Z.min 20 height.

Lemma recent_step fuel i blocks s tr :
  (0 <= i < recent_count)%Z ->
  exists tr', replies tr' = replies tr /\
    run E (recent_loop (S fuel) i (num_of_Z height) (num_of_Z recent_count) blocks) s tr =
    run E (recent_loop fuel (i + 1) (num_of_Z height) (num_of_Z recent_count) (blocks ++ [recent_view i])) s tr'.
Proof.
  unfold recent_count. intros Hi. exists (tr ++ [EvAwait (Fetch (header_request (height - 1 - i))); EvAwait Body]).
  split; [by rewrite replies_app, app_nil_r|].
  rewrite recent_loop_S. cbv zeta. rewrite num_ltb_Z by lia. destruct (Z.ltb_spec i (Z.min 20 height)); [|lia].
  rewrite !num_sub_Z by lia. change n0 with (num_of_Z 0). rewrite num_ltb_Z by lia.
  destruct (Z.ltb_spec (height - 1 - i) 0); [lia|].
  unfold daemonRpc. erewrite run_after; [|eapply (finishes_fetch_json E); [done|apply has_header; lia]].
  reflexivity.
Qed.

Lemma recent_loop_views fuel i blocks s tr :
  (0 <= i <= recent_count)%Z -> (recent_count <= i + Z.of_nat fuel)%Z ->
  exists tr', replies tr' = replies tr /\
    finishes E (recent_loop fuel i (num_of_Z height) (num_of_Z recent_count) blocks) s tr
      (blocks ++ map recent_view (seqZ i (recent_count - i))) s tr'.
Proof.
  revert i blocks tr. induction fuel as [|fuel IH]; intros i blocks tr Hi Hf.
  - exists tr. split; [done|]. replace (recent_count - i)%Z with 0%Z by lia. unfold finishes. simpl.
    by rewrite app_nil_r.
  - destruct (Z.eq_dec i recent_count) as [->|Hne].
    + exists tr. split; [done|]. rewrite Z.sub_diag. unfold finishes. rewrite recent_loop_S.
      assert (0 <= recent_count < 2 ^ 53)%Z by (unfold recent_count; lia).
      rewrite num_ltb_Z, Z.ltb_irrefl by lia. simpl. by rewrite app_nil_r.
    + destruct (recent_step fuel i blocks s tr) as (tr1 & E1 & R1); [lia|].
      destruct (IH (i + 1)%Z (blocks ++ [recent_view i]) tr1) as (tr2 & E2 & R2); [lia|lia|].
      exists tr2. split; [congruence|]. unfold finishes in *. rewrite R1, R2.
      rewrite (seqZ_cons i) by lia. simpl. rewrite <- app_assoc. simpl.
      by replace (Z.pred (recent_count - i)) with (recent_count - (i + 1))%Z by lia.
Qed.
End Recent.

(** C19: When the daemon knows a header for each height below its own height [h],
    [/api/blocks/recent] answers with the views of the blocks [h-1], [h-2], ...
    down to [h - min(20, h)], in this order and nothing else. *)
Theorem recent_blocks_listed (E : env) (answers : http_request -> jserr + http_response)
    (info : val) (height : Z) (header : Z -> list (string * val)) (s : vars) (tr : trace) :
  answers_with E answers -> (0 <= height < 2 ^ 52)%Z ->
  answers (get_url (DAEMON_HTTP ++ "/get_info")) = ok_json info ->
  get info "height" = inr (vint height) ->
  (forall i, (0 <= i < height)%Z -> answers (header_request i) = ok_json (header_answer (header i))) ->
  let o := run E api_blocks_recent s tr in
  o_result o = Value tt /\ o_state o = s /\
  replies (o_trace o) = replies tr ++
    [(200, json (obj ["blocks" ::= VArr (map (recent_view height header) (seqZ 0 (Z.min 20 height)))]))]%Z.
Proof.
  intros HE Hh Hinfo Hget Hheaders o.
  set (tr1 := tr ++ [EvAwait (Fetch (get_url (DAEMON_HTTP ++ "/get_info"))); EvAwait Body]).
  destruct (recent_loop_views E answers height header HE Hh Hheaders 20 0 [] s tr1)
    as (tr2 & E2 & R2); [unfold recent_count; lia..|].
  unfold recent_count in R2. rewrite Z.sub_0_r in R2.
  set (answer := obj _).
  assert (Hrun : finishes E api_blocks_recent s tr tt s (tr2 ++ [EvSys (Respond 200 (json answer))])).
  { apply finishes_try. eapply finishes_bind; [by eapply finishes_fetch_json|].
    eapply finishes_bind; [by unfold jget; rewrite Hget|].
    eapply finishes_bind; [done|]. cbv beta. rewrite math_min_Z by lia.
    eapply finishes_bind; [exact R2|]. unfold finishes. cbn. by destruct (on_sys _ _ _). }
  unfold o. rewrite Hrun. split; [done|]. split; [done|]. simpl o_trace.
  rewrite replies_app, E2. unfold tr1. rewrite replies_app, app_nil_r. done.
Qed.

(** A daemon at height two. *)
Definition two_blocks (r : http_request) : jserr + http_response :=
  match rq_body r with
  | None => ok_json (obj ["height" ::= vint 2])
  | Some b => ok_json (header_answer ["height" ::= own_prop (own_prop b "params") "height"])
  end.

Definition two_headers (i : Z) : list (string * val) := ["height" ::= vint i].

Lemma recent_blocks_listed_witness :
  replies (o_trace (run (web two_blocks) api_blocks_recent init_vars [])) =
  [(200, json (obj ["blocks" ::= VArr [block_view (obj (two_headers 1)); block_view (obj (two_headers 0))]]))]%Z.
Proof.
  apply (recent_blocks_listed (web two_blocks) two_blocks (obj ["height" ::= vint 2]) 2 two_headers).
  - apply host_env_answers.
  - lia.
  - reflexivity.
  - reflexivity.
  - intros i Hi. assert (i = 0 \/ i = 1)%Z as [-> | ->] by lia; reflexivity.
Defined.
