(* ===== verification/Controller.v ===== *)
(** * dashboard/controller.js

    The local process controller: it starts, stops and watches the daemon and
    XMRig, keeping the process identifiers in module variables. *)

From Stdlib Require Import ZArith Lia String Ascii List Bool.
From Stdlib Require Import Floats.SpecFloat.
From stdpp Require Import base list strings decidable option.
From S2P Require Import Prelude JsNumber JsString JsRegex JsValue Runtime EventLoop Node.

Local Open Scope js_scope.

(** [__dirname] and [process.platform]. *)
Record host := { h_dirname : string; h_platform : string }.

(** The process variables; a pid is [null], a number, or [undefined] after a
    failed spawn. *)
Record vars := {
  daemonProcess : option child;
  minerProcess : option child;
  daemonPid : val;
  minerPid : val;
  minerConfig : option (val * val)
}.

Definition init_vars : vars :=
  {| daemonProcess := None; minerProcess := None; daemonPid := VNull; minerPid := VNull;
     minerConfig := None |}.

(** The variables of the daemon and those of the miner are assigned together. *)
Definition set_daemon (p : option child) (pid : val) (s : vars) : vars :=
  {| daemonProcess := p; minerProcess := minerProcess s; daemonPid := pid;
     minerPid := minerPid s; minerConfig := minerConfig s |}.
Definition set_daemonPid (pid : val) (s : vars) : vars :=
  {| daemonProcess := daemonProcess s; minerProcess := minerProcess s; daemonPid := pid;
     minerPid := minerPid s; minerConfig := minerConfig s |}.
Definition set_minerProcess (p : option child) (s : vars) : vars :=
  {| daemonProcess := daemonProcess s; minerProcess := p; daemonPid := daemonPid s;
     minerPid := minerPid s; minerConfig := minerConfig s |}.
Definition set_miner (p : option child) (pid : val) (c : option (val * val)) (s : vars) : vars :=
  {| daemonProcess := daemonProcess s; minerProcess := p; daemonPid := daemonPid s;
     minerPid := pid; minerConfig := c |}.

Definition SEED_NODE : string := "138.68.128.104:19080".

Section Controller.
Variable H : host.

Definition SCRIPT_DIR : string := path_join [h_dirname H; ".."].
Definition DAEMON_BIN : string := path_join [SCRIPT_DIR; "build"; "bin"; "cocained"].
Definition DATA_DIR : string := path_join [SCRIPT_DIR; "blockchain"].
Definition LOG_DIR : string := path_join [SCRIPT_DIR; "logs"].
Definition DAEMON_LOG : string := path_join [LOG_DIR; "daemon.log"].
Definition MINER_LOG : string := path_join [LOG_DIR; "miner.log"].

Definition ensure_dirs : prog vars unit :=
  (let* e := exists_sync LOG_DIR in if e : bool then Ret tt else mkdir_sync LOG_DIR) ;;;
  (let* e := exists_sync DATA_DIR in if e : bool then Ret tt else mkdir_sync DATA_DIR).

(** [process.kill(pid, 0)] succeeds. *)
Definition isProcessRunning (pid : val) : prog vars bool :=
  try process_kill pid SIG0 ;;; Ret true catch _ => Ret false.

Definition log_lines (content : string) : list string :=
  List.filter not_blank (split_on newline content).

Definition readLogTail (filePath : string) (lines : num) : prog vars (list string) :=
  try
    let* present := exists_sync filePath in
    if negb present then Ret []
    else
      let* content := read_file filePath in
      Ret (slice_num (num_opp lines) (log_lines content))
  catch e => Ret [("Error reading log: " ++ e)%string].

(** ** Daemon endpoints *)

Definition get_info : http_request := get_url (DAEMON_HTTP ++ "/get_info").

(** A probe of the daemon: it answers with a success status. *)
Definition daemon_answers : prog vars bool :=
  try let* r := fetch get_info in Ret (rs_ok r) catch _ => Ret false.

(** [daemonPid && isProcessRunning(daemonPid)], as a condition. *)
Definition tracked_running (pid : val) : prog vars bool :=
  if truthy pid then isProcessRunning pid else Ret false.

Definition status_message (status message : string) : val :=
  obj ["status" ::= str status; "message" ::= str message].
Definition status_error (e : jserr) : val :=
  obj ["status" ::= str "error"; "error" ::= str e].

Definition is_win32 : bool := String.eqb (h_platform H) "win32".

Definition quote : string := String (ascii_of_Z 34) "".
Definition PKILL : string := ("pkill -f " ++ quote ++ "cocained.*blockchain" ++ quote ++ " || true")%string.
Definition PGREP : string := ("pgrep -f " ++ quote ++ "cocained.*blockchain" ++ quote)%string.
Definition TASKKILL : string := "taskkill /F /IM cocained.exe 2>nul || true".

(** The ten polls after the spawn. *)
Fixpoint poll_started (n : nat) : prog vars unit :=
  match n with
  | O =>
      let* pid := gets daemonPid in
      res_json (obj ["status" ::= str "OK"; "pid" ::= pid;
                     "message" ::= str "Daemon started (verifying...)"])
  | S n' =>
      sleep 1000 ;;;
      let* up := daemon_answers in
      if up : bool then
        let* pid := gets daemonPid in
        res_json (obj ["status" ::= str "OK"; "pid" ::= pid; "message" ::= str "Daemon started"])
      else poll_started n'
  end.

Definition daemon_start : prog vars unit :=
  let* up := daemon_answers in
  if up : bool then res_json (status_message "busy" "Daemon already running")
  else
    let* pid := gets daemonPid in
    let* tracked := tracked_running pid in
    if tracked : bool then res_json (status_message "busy" "Daemon already running")
    else
      try
        (if is_win32 then Ret tt else fork (Exec PKILL) (fun _ => Ret tt)) ;;;
        sys (FsWriteStream DAEMON_LOG) ;;;
        unlistened (OnStreamError DAEMON_LOG) ;;;
        let* h := spawn DAEMON_BIN
          ["--data-dir"; DATA_DIR; "--log-level"; "1"; "--rpc-bind-ip"; "127.0.0.1";
           "--rpc-bind-port"; "19081"; "--p2p-bind-ip"; "127.0.0.1"; "--p2p-bind-port"; "19080";
           "--add-exclusive-node"; SEED_NODE]%string in
        modify (set_daemon (Some h) (c_pid h)) ;;;
        unlistened (OnError h) ;;;
        fork (OnExit h) (fun _ => modify (set_daemon None VNull)) ;;;
        poll_started 10
      catch e => respond 500 (status_error e).

Definition daemon_stop : prog vars unit :=
  try
    let* pid := gets daemonPid in
    let* tracked := tracked_running pid in
    (if tracked : bool then try process_kill pid SIGTERM catch _ => Ret tt else Ret tt) ;;;
    fork (Exec (if is_win32 then TASKKILL else PKILL)) (fun _ => Ret tt) ;;;
    sleep 2000 ;;;
    modify (set_daemon None VNull) ;;;
    res_json (status_message "OK" "Daemon stopped")
  catch e => respond 500 (status_error e).

(** The answer for a daemon that responds; the members of its own answer come
    last and win. *)
Definition status_fields (pid peers data : val) : list (string * val) :=
  ["running" ::= VBool true; "pid" ::= or_else pid (str "unknown");
   "height" ::= own_prop data "height"; "synced" ::= own_prop data "synchronized";
   "peers" ::= peers;
   "outgoing" ::= or_else (own_prop data "outgoing_connections_count") (vint 0);
   "incoming" ::= or_else (own_prop data "incoming_connections_count") (vint 0);
   "busy_syncing" ::= or_else (own_prop data "busy_syncing") (VBool false);
   "target_height" ::= or_else (own_prop data "target_height") (vint 0)].

(** The callback of [pgrep]. *)
Definition adopt_pid (failed : bool) (stdout : string) : prog vars unit :=
  if negb failed && negb (String.eqb (trim stdout) "")
  then modify (set_daemonPid (VNum (parseInt (trim stdout)))) else Ret tt.

Definition daemon_status : prog vars unit :=
  try
    let* response := fetch get_info in
    if negb (rs_ok response) then
      let* pid := gets daemonPid in
      let* tracked := tracked_running pid in
      if tracked : bool then
        res_json (obj ["running" ::= VBool true; "pid" ::= pid; "error" ::= str "Daemon starting..."])
      else res_json (obj ["running" ::= VBool false; "error" ::= str "Daemon not responding"])
    else
      let* data := body_json response in
      let* out := jget data "outgoing_connections_count" in
      let* inc := jget data "incoming_connections_count" in
      let* peers := lift (js_add (or_else out (vint 0)) (or_else inc (vint 0))) in
      let* pid := gets daemonPid in
      (if negb (truthy pid) && negb is_win32
       then fork (Exec PGREP) (fun '(failed, stdout) => adopt_pid failed stdout)
       else Ret tt) ;;;
      res_json (VObj (set_all (spread data) (status_fields pid peers data)))
  catch e => res_json (obj ["running" ::= VBool false; "error" ::= str e]).

(** [parseInt(req.query.lines) || 50]. *)
Definition lines_param (query : fields) : prog vars num :=
  let* t := lift (to_str (field "lines" query)) in
  let n := parseInt t in
  Ret (if truthy (VNum n) then n else num_of_Z 50).

Definition daemon_logs (query : fields) : prog vars unit :=
  let* lines := lines_param query in
  let* logs := readLogTail DAEMON_LOG lines in
  res_json (obj ["logs" ::= VArr (map VStr logs)]).

(** ** Miner endpoints *)

Definition xmrigPaths : list string :=
  [path_join [SCRIPT_DIR; "xmrig"]; path_join [SCRIPT_DIR; "xmrig.exe"];
   path_join [SCRIPT_DIR; "tools"; "xmrig"]; path_join [SCRIPT_DIR; "tools"; "xmrig.exe"];
   "/usr/local/bin/xmrig"; "xmrig"; "xmrig.exe"]%string.

Fixpoint find_xmrig (paths : list string) : prog vars (option string) :=
  match paths with
  | [] => Ret None
  | p :: ps =>
      if String.eqb p "xmrig" || String.eqb p "xmrig.exe" then Ret (Some p)
      else
        let* present := exists_sync p in
        if present : bool then Ret (Some p) else find_xmrig ps
  end.

Definition xmrig_config (address threads : val) : val :=
  obj ["autosave" ::= VBool true;
       "cpu" ::= obj ["enabled" ::= VBool true; "huge-pages" ::= VBool true; "hw-aes" ::= VNull;
                      "priority" ::= VNull; "memory-pool" ::= VBool false; "yield" ::= VBool true];
       "opencl" ::= VBool false; "cuda" ::= VBool false; "donate-level" ::= vint 0;
       "log-file" ::= str MINER_LOG;
       "pools" ::= VArr [obj ["algo" ::= str "cryptonight"; "coin" ::= VNull;
         "url" ::= str "127.0.0.1:19081"; "user" ::= address; "pass" ::= str "x";
         "rig-id" ::= VNull; "nicehash" ::= VBool false; "keepalive" ::= VBool true;
         "enabled" ::= VBool true; "tls" ::= VBool false; "tls-fingerprint" ::= VNull;
         "daemon" ::= VBool true; "daemon-poll-interval" ::= vint 1000]];
       "retries" ::= vint 5; "retry-pause" ::= vint 5; "print-time" ::= vint 60;
       "health-print-time" ::= vint 60; "syslog" ::= VBool false; "user-agent" ::= VNull;
       "verbose" ::= vint 0; "colors" ::= VBool false; "threads" ::= threads].

Definition not_found : val :=
  obj ["status" ::= str "error"; "error" ::= str "XMRig not found. Please install XMRig first.";
       "install" ::= str "Download from https://github.com/xmrig/xmrig/releases"].

(** The start proper, once the checks have passed. *)
Definition start_xmrig (address threads : val) : prog vars unit :=
  let* bin := find_xmrig xmrigPaths in
  match bin with
  | None => respond 400 not_found
  | Some xmrigBin =>
      let count := or_else threads (vint 2) in
      let configPath := path_join [LOG_DIR; "xmrig-config.json"] in
      write_file configPath (CJson (json (xmrig_config address count))) ;;;
      let* h := spawn xmrigBin ["--config"%string; configPath] in
      modify (set_minerProcess (Some h)) ;;;
      unlistened (OnError h) ;;;
      sys (FsWriteStream MINER_LOG) ;;;
      unlistened (OnStreamError MINER_LOG) ;;;
      modify (set_miner (Some h) (c_pid h) (Some (address, count))) ;;;
      fork (OnExit h) (fun _ => modify (set_miner None VNull None)) ;;;
      let* pid := gets minerPid in
      res_json (obj ["status" ::= str "OK"; "pid" ::= pid; "address" ::= address;
                     "threads" ::= count; "message" ::= str "Miner started"])
  end.

Definition miner_start (body : fields) : prog vars unit :=
  let address := field "address" body in
  let threads := field "threads" body in
  if negb (truthy address) then
    respond 400 (obj ["status" ::= str "error"; "error" ::= str "Mining address required"])
  else
    let* s := gets id in
    let* running := (match minerProcess s with Some _ => isProcessRunning (minerPid s) | None => Ret false end) in
    if running : bool then res_json (status_message "busy" "Miner already running")
    else
      let* probe := (try let* r := fetch get_info in Ret (inr (rs_ok r)) catch e => Ret (inl e)) in
      match probe with
      | inl _ => respond 400 (status_error "Cannot connect to daemon. Start daemon first.")
      | inr false => respond 400 (status_error "Daemon not running. Start daemon first.")
      | inr true =>
          try start_xmrig address threads catch e => respond 500 (status_error e)
      end.

Definition miner_stop : prog vars unit :=
  try
    let* pid := gets minerPid in
    let* running := tracked_running pid in
    (if running : bool then process_kill pid SIGTERM ;;; sleep 1000 else Ret tt) ;;;
    modify (set_miner None VNull None) ;;;
    res_json (status_message "OK" "Miner stopped")
  catch e => respond 500 (status_error e).

(** The word speed, a lazily skipped stretch, a decimal (group 1) and [H/s]. *)
Definition speed_re : list item :=
  literal exactly "speed" ++ [Many false any_char; Open 1] ++ decimal ++ [Close 1] ++
  plus is_space ++ literal exactly "H/s".

Definition line_speed (line : string) : option num :=
  match JsRegex.exec speed_re line with
  | Some (_, m) => parseFloat <$> group 1 m
  | None => None
  end.

(** The loop over the reversed lines: hash rate, accepted, rejected. *)
Fixpoint scan_log (logs : list string) (accepted rejected : Z) : num * Z * Z :=
  match logs with
  | [] => (n0, accepted, rejected)
  | line :: logs' =>
      match line_speed line with
      | Some r => (r, accepted, rejected)
      | None =>
          scan_log logs' (if includes "accepted" line then accepted + 1 else accepted)%Z
                         (if includes "rejected" line then rejected + 1 else rejected)%Z
      end
  end.

Definition miner_status : prog vars unit :=
  let* pid := gets minerPid in
  let* running := (if truthy pid then let* b := isProcessRunning pid in Ret (VBool b) else Ret pid) in
  let* logs := readLogTail MINER_LOG (num_of_Z 20) in
  let '(hashrate, accepted, rejected) := scan_log (reverse logs) 0 0 in
  let* s := gets id in
  let address := match minerConfig s with Some (a, _) => or_else a VNull | None => VNull end in
  let threads := match minerConfig s with Some (_, t) => or_else t (vint 0) | None => vint 0 end in
  res_json (obj ["running" ::= running; "pid" ::= minerPid s; "address" ::= address;
                 "threads" ::= threads; "hashrate" ::= VNum hashrate;
                 "accepted" ::= vint accepted; "rejected" ::= vint rejected]).

Definition miner_logs (query : fields) : prog vars unit :=
  let* lines := lines_param query in
  let* logs := readLogTail MINER_LOG lines in
  res_json (obj ["logs" ::= VArr (map VStr logs)]).

(** ** Shutdown and routes *)

Definition on_sigint : prog vars unit :=
  let* s := gets id in
  (if truthy (minerPid s) then process_kill (minerPid s) SIGTERM else Ret tt) ;;;
  (if truthy (daemonPid s) then process_kill (daemonPid s) SIGTERM else Ret tt).

Inductive request :=
| PostDaemonStart | PostDaemonStop | GetDaemonStatus | GetDaemonLogs (query : fields)
| PostMinerStart (body : fields) | PostMinerStop | GetMinerStatus | GetMinerLogs (query : fields).

Definition handler (r : request) : prog vars unit :=
  match r with
  | PostDaemonStart => daemon_start
  | PostDaemonStop => daemon_stop
  | GetDaemonStatus => daemon_status
  | GetDaemonLogs query => daemon_logs query
  | PostMinerStart body => miner_start body
  | PostMinerStop => miner_stop
  | GetMinerStatus => miner_status
  | GetMinerLogs query => miner_logs query
  end.
End Controller.
