(* ===== verification/ControllerFacts.v ===== *)
(** * Properties of dashboard/controller.js *)

From Stdlib Require Import ZArith Lia String Ascii List Bool.
From Stdlib Require Import Floats.SpecFloat.
From stdpp Require Import base list strings decidable option relations.
From S2P Require Import Prelude JsNumber JsNumberFacts JsString JsNumberArith JsRegex JsValue Runtime EventLoop Node Controller.

Local Open Scope js_scope.

(** ** Every request gets exactly one response *)

Section Once.
Variable H : host.
Variable crash : bool.

Lemma tracked_running_quiet pid : quiet (responses Strict crash) (tracked_running pid).
Proof. intros n. unfold tracked_running, isProcessRunning. count_paths. Qed.

Lemma daemon_answers_quiet : quiet (responses Strict crash) daemon_answers.
Proof. intros n. unfold daemon_answers. count_paths. Qed.

Lemma readLogTail_quiet path lines : quiet (responses Strict crash) (readLogTail path lines).
Proof. intros n. unfold readLogTail. count_paths. Qed.

Lemma find_xmrig_quiet paths : quiet (responses Strict crash) (find_xmrig paths).
Proof.
  induction paths as [|p paths IH]; intros n; [done|]. cbn [find_xmrig].
  destruct (_ || _); [done|]. apply counts_bind, counts_sys. intros []; rewrite Nat.add_0_r; [done|apply IH].
Qed.

Lemma poll_started_once k : responds Strict crash (poll_started k).
Proof.
  unfold responds. induction k as [|k IH]; cbn [poll_started]; [count_paths|].
  apply counts_bind, counts_await. intros _. rewrite Nat.add_0_r.
  apply counts_bind, counts_quiet; [apply daemon_answers_quiet|]. intros []; [count_paths|exact IH].
Qed.

Lemma controller_daemon_start_once : crash = true -> responds Strict crash (daemon_start H).
Proof.
  intros Hc. unfold responds, daemon_start.
  apply counts_bind, counts_quiet; [apply daemon_answers_quiet|]. intros []; [count_paths|].
  apply counts_bind, counts_gets. intros pid.
  apply counts_bind, counts_quiet; [apply tracked_running_quiet|]. intros []; [count_paths|].
  count_paths; try exact Hc.
  all: eapply counts_mono; [| |apply poll_started_once]; cbv beta; try done; count_paths.
Qed.

Lemma controller_daemon_stop_once : responds Strict crash (daemon_stop H).
Proof. unfold responds, daemon_stop, tracked_running, isProcessRunning. count_paths. Qed.

Lemma controller_daemon_status_once : responds Strict crash (daemon_status H).
Proof.
  unfold responds, daemon_status, tracked_running, isProcessRunning, adopt_pid. count_paths.
Qed.

Lemma controller_start_xmrig_counts address threads (X : nat -> jserr -> Prop) :
  crash = true -> (forall e, X 0 e) ->
  counts (responses Strict crash) (start_xmrig H address threads) 0 (fun c _ => c = 1) X.
Proof.
  intros Hc HX. unfold start_xmrig. apply counts_bind, counts_quiet; [apply find_xmrig_quiet|].
  intros [bin|]; count_paths; first [exact Hc | apply HX].
Qed.

Lemma controller_miner_start_once body : crash = true -> responds Strict crash (miner_start H body).
Proof.
  intros Hc. unfold responds, miner_start, isProcessRunning. count_paths.
  all: apply controller_start_xmrig_counts; [exact Hc|count_paths].
Qed.

Lemma controller_miner_stop_once : responds Strict crash miner_stop.
Proof. unfold responds, miner_stop, tracked_running, isProcessRunning. count_paths. Qed.

Lemma controller_miner_status_once : responds Strict crash (miner_status H).
Proof.
  unfold responds, miner_status, isProcessRunning. count_paths.
  all: apply counts_quiet; [apply readLogTail_quiet|]; intros logs.
  all: destruct (scan_log _ _ _) as [[hashrate accepted] rejected]; count_paths.
Qed.
End Once.

(** The [lines] parameter of a log request converts to a string, as it does
    unless the query string spells an object with a broken [toString]. *)
Definition lines_convert (query : fields) : bool :=
  match to_str (field "lines" query) with inr _ => true | inl _ => false end.

Definition convertible (r : request) : bool :=
  match r with
  | GetDaemonLogs query | GetMinerLogs query => lines_convert query
  | _ => true
  end.

(** The requests that start a child, or a stream, to whose errors nobody listens. *)
Definition may_crash (r : request) : bool :=
  match r with PostDaemonStart | PostMinerStart _ => true | _ => false end.

Lemma logs_once path query :
  let p := (let* lines := lines_param query in
            let* logs := readLogTail path lines in
            res_json (obj ["logs" ::= VArr (map VStr logs)])) in
  if lines_convert query then responds_once p else rejects p.
Proof.
  unfold lines_convert, responds_once, responds, rejects, lines_param.
  destruct (to_str _) as [e|t]; cbv zeta iota; [done|].
  apply counts_bind, counts_bind, counts_lift_inr, counts_ret.
  apply counts_bind, counts_quiet; [apply readLogTail_quiet|]. count_paths.
Qed.

(** C9: Requests to the controller are answered exactly once: on every path of every handler
    along which the awaited operations complete, one response is sent and no
    exception escapes.  A log request whose [lines] does not convert to a string
    throws before it sends anything, and Express answers it since that handler is
    not asynchronous.  A start of the daemon or of the miner can be cut short by
    the ['error'] event of a child or stream, which ends the process. *)
Theorem controller_responds_once (H : host) (r : request) :
  if convertible r then responds Strict (may_crash r) (handler H r) else rejects (handler H r).
Proof.
  destruct r; simpl;
    auto using controller_daemon_start_once, controller_daemon_stop_once, controller_daemon_status_once, controller_miner_start_once,
      controller_miner_stop_once, controller_miner_status_once.
  all: apply logs_once.
Qed.

(** A checkout of the repository for the examples. *)
Definition checkout : host := {| h_dirname := "/opt/cocaine/dashboard"; h_platform := "linux" |}.

(** ** Logs *)

Lemma log_lines_file lines :
  lines <> [] -> Forall (fun l => no_char newline l = true) lines ->
  log_lines (file_of lines) = List.filter not_blank lines.
Proof. intros Hne Hall. unfold log_lines. by rewrite split_file. Qed.

(** C21: [/daemon/logs?lines=n] answers with the last [n] lines of the daemon's log that are
    not blank, in the order of the file. *)
Theorem daemon_logs_tail (H : host) (E : env) (files : string -> option string)
    (lines : list string) (n : nat) (s : vars) (tr : trace) :
  files_with E files -> lines <> [] -> Forall (fun l => no_char newline l = true) lines ->
  files (DAEMON_LOG H) = Some (file_of lines) ->
  0 < n -> (Z.of_nat n < 2 ^ 53)%Z ->
  let shown := List.filter not_blank lines in
  let o := run E (daemon_logs H ["lines" ::= str (dec_of_Z (Z.of_nat n))]) s tr in
  o_state o = s /\
  replies (o_trace o) = replies tr ++
    [(200, json (obj ["logs" ::= VArr (map VStr (drop (length shown - n) shown))]))]%Z.
Proof.
  intros [Hex Hread] Hne Hall Hfile Hn Hb shown o.
  assert (Hl : finishes E (lines_param ["lines" ::= str (dec_of_Z (Z.of_nat n))]) s tr
                 (num_of_Z (Z.of_nat n)) s tr).
  { unfold finishes, lines_param. change (to_str (field _ _)) with (inr (A := jserr) (dec_of_Z (Z.of_nat n))).
    cbn [lift bind]. rewrite parseInt_dec by lia.
    destruct (num_of_Z_finite (Z.of_nat n)) as (m & f & _ & -> & _); [lia..|]. done. }
  assert (Ht : finishes E (readLogTail (DAEMON_LOG H) (num_of_Z (Z.of_nat n))) s tr
    (drop (length shown - n) shown) s (tr ++ [EvSys (FsExists (DAEMON_LOG H)); EvSys (FsReadFile (DAEMON_LOG H))])).
  { unfold finishes, readLogTail. rewrite run_try. simpl. rewrite Hex, Hfile. simpl.
    rewrite (Hread _ _ _ Hfile). simpl. rewrite log_lines_file, slice_num_tail, <- app_assoc by done. done. }
  unfold o, daemon_logs. erewrite run_after by exact Hl. erewrite run_after by exact Ht.
  simpl. split; [done|]. by rewrite !replies_app, app_nil_r.
Qed.

Definition three_lines : list string := ["started"; ""; "height 7"]%string.

Lemma daemon_logs_tail_witness :
  replies (o_trace (run (host_env (fun _ => Some (file_of three_lines)) (fun _ => inl ""%string))
    (daemon_logs checkout ["lines" ::= str (dec_of_Z 1)]) init_vars [])) =
  [(200, json (obj ["logs" ::= VArr [str "height 7"]]))]%Z.
Proof.
  apply (daemon_logs_tail checkout _ (fun _ => Some (file_of three_lines)) three_lines 1 init_vars []);
    [apply host_env_files|done| |done|lia|lia].
  by repeat (constructor; [reflexivity|]).
Defined.

(** ** The miner's binary and its log *)

(** The five places on the file system. *)
Definition installed_paths (H : host) : list string := take 5 (xmrigPaths H).

(** The candidate that the search picks. *)
Definition chosen_xmrig (files : string -> option string) (H : host) : string :=
  default "xmrig"%string
    (head (List.filter (fun p => bool_decide (is_Some (files p))) (installed_paths H))).

Lemma find_xmrig_head E files paths s tr :
  files_with E files ->
  Forall (fun p => (String.eqb p "xmrig" || String.eqb p "xmrig.exe") = false) paths ->
  exists tr', finishes E (find_xmrig (paths ++ ["xmrig"; "xmrig.exe"]%string)) s tr
    (Some (default "xmrig"%string (head (List.filter (fun p => bool_decide (is_Some (files p))) paths)))) s tr'.
Proof.
  intros [Hex _] Hall. revert tr. induction Hall as [|p paths Hp Hall IH]; intros tr; [by exists tr|].
  unfold finishes in *. cbn [app find_xmrig]. rewrite Hp. simpl run. rewrite Hex.
  cbn [List.filter]. destruct (bool_decide _); [by eexists|apply IH].
Qed.

(** A path that [path.join] makes absolute is not one of the bare names. *)
Lemma absolute_not_bare p : (exists r, p = String "/" r) -> (String.eqb p "xmrig" || String.eqb p "xmrig.exe") = false.
Proof. by intros [r ->]. Qed.

Lemma path_join_absolute d parts : exists r, path_join (String "/" d :: parts) = String "/" r.
Proof.
  unfold path_join. cbn [List.filter String.eqb negb].
  assert (Hj : forall xs, exists r, join "/" (String "/" d :: xs) = String "/" r).
  { intros [|x xs]; [by exists d|]. by eexists. }
  change (negb (String "/" d =? "")%string) with true. cbv iota.
  destruct (Hj (List.filter (fun s => negb (s =? "")%string) parts)) as [r ->].
  change (String "/" r =? "")%string with false. cbv iota. unfold path_normalize. by eexists.
Qed.

(** C24: The search for XMRig always finds something: it picks the first of the five
    file-system candidates that exists and otherwise the name [xmrig], to be
    looked up in the PATH, so the answer that XMRig was not found is never given. *)
Theorem find_xmrig_found (H : host) (E : env) (files : string -> option string) (s : vars) (tr : trace) :
  files_with E files -> (exists d, h_dirname H = String "/" d) ->
  exists tr', finishes E (find_xmrig (xmrigPaths H)) s tr (Some (chosen_xmrig files H)) s tr'.
Proof.
  intros HE [d Hd].
  assert (Hs : exists r, SCRIPT_DIR H = String "/" r) by (unfold SCRIPT_DIR; rewrite Hd; apply path_join_absolute).
  destruct Hs as [r Hr].
  change (xmrigPaths H) with (installed_paths H ++ ["xmrig"; "xmrig.exe"]%string).
  apply find_xmrig_head; [done|]. unfold installed_paths, xmrigPaths. rewrite Hr. cbn [take].
  repeat constructor; apply absolute_not_bare; first [apply path_join_absolute | by eexists].
Qed.

Lemma find_xmrig_found_witness :
  exists tr', finishes (host_env (fun _ => None) (fun _ => inl ""%string))
    (find_xmrig (xmrigPaths checkout)) init_vars [] (Some "xmrig"%string) init_vars tr'.
Proof.
  apply (find_xmrig_found checkout _ (fun _ => None)); [apply host_env_files|].
  by eexists.
Defined.

Definition count_with (word : string) (lines : list string) : Z :=
  Z.of_nat (length (List.filter (includes word) lines)).

Lemma scan_log_skips lines rest a r :
  Forall (fun l => line_speed l = None) lines ->
  scan_log (lines ++ rest) a r =
  scan_log rest (a + count_with "accepted" lines) (r + count_with "rejected" lines).
Proof.
  intros Hall. revert a r. unfold count_with. induction Hall as [|l lines Hl Hall IH]; intros a r.
  - simpl. by rewrite !Z.add_0_r.
  - cbn [app scan_log List.filter]. rewrite Hl, IH.
    destruct (includes "accepted" l), (includes "rejected" l); cbn [length]; f_equal; lia.
Qed.

Lemma count_with_reverse word lines : count_with word (reverse lines) = count_with word lines.
Proof.
  unfold count_with. f_equal. induction lines as [|l lines IH]; [done|].
  rewrite reverse_cons, List.filter_app, length_app, IH. simpl. destruct (includes word l); simpl; lia.
Qed.

(** C22: The miner's status takes the hash rate from the last log line that reports one,
    and counts as accepted and rejected the lines after that line only. *)
Theorem miner_scan (before after : list string) (line : string) (rate : num) :
  line_speed line = Some rate -> Forall (fun l => line_speed l = None) after ->
  scan_log (reverse (before ++ line :: after)) 0 0 =
  (rate, count_with "accepted" after, count_with "rejected" after).
Proof.
  intros Hl Hafter. rewrite reverse_app, reverse_cons, <- app_assoc, scan_log_skips.
  - cbn [app scan_log]. by rewrite Hl, !count_with_reverse.
  - by apply Forall_reverse.
Qed.

(** Two shares before the report are not counted, one after it is. *)
Lemma miner_scan_witness :
  scan_log (reverse (["accepted (1/0)"; "accepted (2/0)"] ++
    "speed 10s/60s/15m 812.5 801.0 H/s" :: ["accepted (3/0)"]))%string 0 0 = (num_of_decimal false 801 0, 1, 0)%Z.
Proof.
  apply (miner_scan ["accepted (1/0)"; "accepted (2/0)"]%string ["accepted (3/0)"]%string
    "speed 10s/60s/15m 812.5 801.0 H/s" (num_of_decimal false 801 0)).
  - vm_compute. reflexivity.
  - constructor; [vm_compute; reflexivity|constructor].
Defined.
