(* ===== verification/ControllerRaces.v ===== *)
(** * Interleavings of dashboard/controller.js

    A concrete run of the event loop that the handlers of the miner allow. *)

From Stdlib Require Import ZArith Lia String Ascii List Bool.
From stdpp Require Import base list strings decidable option relations.
From S2P Require Import Prelude JsNumber JsString JsValue Runtime EventLoop Node Controller.

Local Open Scope js_scope.

(** The controller at rest. *)
Definition controller_at_rest : config := Config init_vars [] [] true.

Definition mine_request : fields := ["address" ::= str "4Wallet"; "threads" ::= str "4"].

Definition miner_child (i : nat) : child := {| c_id := i; c_pid := vint (1000 + Z.of_nat i) |}.

(** The variables once the miner [h] runs. *)
Definition miner_vars (h : child) : vars :=
  set_miner (Some h) (c_pid h) (Some (str "4Wallet", str "4")) init_vars.

Definition miner_bin (H : host) : string := path_join [SCRIPT_DIR H; "xmrig"].

Definition forget : prog vars unit := modify (set_miner None VNull None).

(** What the start of the miner [h] leaves waiting. *)
Definition miner_tasks (H : host) (h : child) : list (task vars) :=
  [Task (OnError h) (fun _ => Throw "Unhandled 'error' event"%string);
   Task (OnStreamError (MINER_LOG H)) (fun _ => Throw "Unhandled 'error' event"%string);
   Task (OnExit h) (fun _ => forget)].

(** The start proper: the first candidate is there, its files can be written, and
    the spawn gives the child [h]. *)
Lemma runs_start_xmrig H w h :
  c_id h = length w -> (exists pid, c_pid h = vint pid) ->
  runs (try_catch (start_xmrig H (str "4Wallet") (str "4")) (fun e => respond 500 (status_error e)))
    init_vars w (miner_vars h) (w ++ [new_proc (miner_bin H) true]) (miner_tasks H h) false.
Proof.
  intros Hid [pid Hpid]. unfold start_xmrig. cbn [find_xmrig xmrigPaths].
  assert (Hrest : forall p : prog vars (option string),
    p = Ret (Some (miner_bin H)) \/ (exists k, p = Sys (FsExists (miner_bin H)) k /\ k true = Ret (Some (miner_bin H))) ->
    forall f x, runs (try_catch (f (Some (miner_bin H))) (fun e => respond 500 (status_error e))) init_vars w
      (miner_vars h) (w ++ [new_proc (miner_bin H) true]) (miner_tasks H h) x ->
    runs (try_catch (bind p f) (fun e => respond 500 (status_error e))) init_vars w
      (miner_vars h) (w ++ [new_proc (miner_bin H) true]) (miner_tasks H h) x).
  { intros p [-> | (k & -> & Hk)] f x Hf; [exact Hf|].
    eapply (runs_sys (FsExists _) _ true); [done|]. by rewrite Hk. }
  apply Hrest.
  { fold (miner_bin H). destruct (_ || _); [by left|right]. eexists. split; reflexivity. }
  eapply (runs_sys (FsWriteFile _ _) _ (inr tt)); [done|].
  eapply (runs_sys (Spawn _ _) _ (inr h)); [split; [done|left; by exists pid]|].
  apply runs_get, runs_put, runs_fork.
  eapply (runs_sys (FsWriteStream _) _ tt); [done|].
  apply runs_fork, runs_get, runs_put, runs_fork, runs_get.
  eapply (runs_sys (Respond _ _) _ tt); [done|]. apply runs_ret.
Qed.

(** A start request with no miner tracked, and the answer of the daemon. *)
Lemma miner_starts H w h ts :
  c_id h = length w -> (exists pid, c_pid h = vint pid) ->
  rtc (step (handler H)) (Config init_vars w ts true)
    (Config (miner_vars h) (w ++ [new_proc (miner_bin H) true]) (ts ++ miner_tasks H h) true).
Proof.
  intros Hid Hpid. eapply rtc_l.
  { eapply (step_serve _ (PostMinerStart mine_request)). apply runs_get. apply runs_await. }
  eapply rtc_l; [|apply rtc_refl].
  replace (ts ++ miner_tasks H h) with (ts ++ [] ++ miner_tasks H h) by done.
  eapply (step_continue _ (Fetch _) _ (ok_json VNull)); [done|].
  by apply runs_start_xmrig.
Qed.

(** A stop request: the signal is sent, a second passes, and the variables are
    cleared while the miner has not ended yet. *)
Lemma miner_stops H w h ts :
  (exists pid, c_pid h = vint pid /\ truthy (vint pid) = true) ->
  rtc (step (handler H)) (Config (miner_vars h) w ts true) (Config init_vars w ts true).
Proof.
  intros (pid & Hpid & Ht). eapply rtc_l.
  { eapply (step_serve _ PostMinerStop). apply runs_get. cbn [bind gets minerPid miner_vars set_miner].
    rewrite Hpid. unfold tracked_running. rewrite Ht.
    eapply (runs_sys (ProcessKill _ SIG0) _ (inr tt)); [done|].
    eapply (runs_sys (ProcessKill _ SIGTERM) _ (inr tt)); [done|]. apply runs_await. }
  eapply rtc_l; [|apply rtc_refl].
  replace ts with (ts ++ [] ++ []) at 2 by by rewrite !app_nil_r.
  eapply (step_continue _ (Sleep 1000) _ tt); [done|].
  apply runs_get, runs_put. eapply (runs_sys (Respond _ _) _ tt); [done|]. apply runs_ret.
Qed.

(** C33: A miner that is stopped and started again through the controller can be lost: when
    the stopped miner takes more than a second to end, its exit listener clears
    the variables that refer to the new one, which goes on running while the
    controller knows of none. *)
Theorem controller_loses_miner (H : host) :
  exists c, rtc (step (handler H)) controller_at_rest c /\ g_up c = true /\
    minerProcess (g_vars c) = None /\ minerPid (g_vars c) = VNull /\ minerConfig (g_vars c) = None /\
    exists p, g_world c !! 1 = Some p /\ pr_bin p = miner_bin H /\ pr_alive p = true.
Proof.
  eexists (Config _ _ _ true). split.
  { etrans; [apply (miner_starts H [] (miner_child 0) []); [done|by eexists]|].
    etrans; [apply miner_stops; by eexists|].
    etrans; [apply (miner_starts H _ (miner_child 1)); [done|by eexists]|].
    eapply rtc_l; [eapply step_world; exists 0, (new_proc (miner_bin H) true); done|].
    eapply rtc_l; [|apply rtc_refl].
    eapply (step_continue _ (OnExit (miner_child 0)) _ tt _ _ _ [_; _] [_; _; _]); [by eexists|].
    apply runs_get, runs_put, runs_ret. }
  split_and!; try done. by eexists.
Qed.
