(* ===== verification/PlainServer.v ===== *)
(** * The server text shared by release/dashboard/server.js and desktop-app/server.js

    The two servers keep the same two variables and have the same
    [startWalletRpc], daemon and mining endpoints.  They differ in where the
    wallets and the wallet RPC binary are and in [fetch]: the release uses
    node-fetch, the desktop application its own; all of these are parameters
    here. *)

From Stdlib Require Import ZArith Lia String Ascii List Bool.
From stdpp Require Import base list strings decidable option.
From S2P Require Import Prelude JsNumber JsString JsValue Runtime EventLoop Node Wallet.

Local Open Scope js_scope.

Record vars := {
  walletRpcProcess : option child;
  currentWalletName : val
}.

Definition init_vars : vars := {| walletRpcProcess := None; currentWalletName := VNull |}.

Definition set_walletRpcProcess (x : option child) (s : vars) : vars :=
  {| walletRpcProcess := x; currentWalletName := currentWalletName s |}.
Definition set_currentWalletName (x : val) (s : vars) : vars :=
  {| walletRpcProcess := walletRpcProcess s; currentWalletName := x |}.

(** What a server of this kind is given. *)
Record setup := {
  WALLET_DIR : string;
  WALLET_RPC_BIN : string;
  the_fetch : fetcher
}.

Section Plain.
Variable C : setup.

Definition daemonRpc (method : string) (params : val) : prog vars val :=
  call_json (the_fetch C) (post_json DAEMON_RPC (rpc_body method params)).

Definition ensure_dirs : prog vars unit :=
  let* e := exists_sync (WALLET_DIR C) in
  if e : bool then Ret tt else mkdir_sync (WALLET_DIR C).

(** The child is tracked until its ['close'] event; nobody listens to its
    ['error']. *)
Definition startWalletRpc : prog vars unit :=
  let* cur := gets walletRpcProcess in
  match cur with
  | Some _ => Ret tt
  | None =>
      let* h := spawn (WALLET_RPC_BIN C)
        ["--daemon-address"; "127.0.0.1:19081"; "--rpc-bind-port"; "19083";
         "--disable-rpc-login"; "--wallet-dir"; WALLET_DIR C; "--log-level"; "1"]%string in
      modify (set_walletRpcProcess (Some h)) ;;;
      unlistened (OnError h) ;;;
      fork (OnClose h) (fun _ => modify (set_walletRpcProcess None)) ;;;
      await (StartUp h)
  end.

(** ** Daemon and mining endpoints *)

Definition api_info : prog vars unit :=
  try let* data := daemonRpc "get_info" (obj []) in res_json data
  catch e => respond 500 (obj ["error" ::= str e; "daemon_running" ::= VBool false]).

Definition api_last_block : prog vars unit :=
  try let* data := daemonRpc "get_last_block_header" (obj []) in res_json data
  catch e => respond 500 (error_body e).

Definition api_block (height : string) : prog vars unit :=
  try
    let* data := daemonRpc "get_block_header_by_height" (obj ["height" ::= VNum (parseInt height)]) in
    res_json data
  catch e => respond 500 (error_body e).

(** Forward a request and its JSON answer. *)
Definition relay (r : http_request) : prog vars unit :=
  try let* data := call_json (the_fetch C) r in res_json data
  catch e => respond 500 (error_body e).

Definition api_mining_status : prog vars unit := relay (get_url (DAEMON_HTTP ++ "/mining_status")).

Definition api_mining_start (body : fields) : prog vars unit :=
  relay (post_json (DAEMON_HTTP ++ "/start_mining")
    (obj ["miner_address" ::= field "address" body;
          "threads_count" ::= or_else (field "threads" body) (vint 2);
          "do_background_mining" ::= VBool false; "ignore_battery" ::= VBool true])).

Definition api_mining_stop : prog vars unit :=
  relay {| rq_method := "POST"; rq_url := DAEMON_HTTP ++ "/stop_mining"; rq_body := None |}.

(** ** Wallet *)

#[export] Instance wallet_server : WalletServer vars := {
  get_wallet := currentWalletName;
  set_wallet := set_currentWalletName;
  start_wallet_rpc := startWalletRpc;
  wallet_dir := WALLET_DIR C;
  wallet_fetch := the_fetch C
}.

Definition api_wallet_open (body : fields) : prog vars unit :=
  open_wallet (field "name" body) (field "password" body).

(** ** Start and shutdown *)

Definition on_listen : prog vars unit := try startWalletRpc catch _ => Ret tt.

Definition on_sigint : prog vars unit :=
  let* p := gets walletRpcProcess in
  match p with Some h => sys (ChildKill h) ;;; Ret tt | None => Ret tt end.
End Plain.
