(* ===== verification/WalletContract.v ===== *)
(** * What the wallet endpoints promise

    The functional behaviour of listing, opening and closing wallets, for any
    server that provides the wallet endpoints; the three servers do.  The
    examples use the dashboard's. *)

From Stdlib Require Import ZArith Lia String Ascii List Bool.
From stdpp Require Import base list strings decidable option.
From S2P Require Import Prelude JsNumber JsNumberFacts JsString JsNumberArith JsValue Runtime EventLoop Node Wallet WalletFacts DashboardServer DashboardFacts PlainServer.

Local Open Scope js_scope.

(** ** Listing *)

(** The name of a file that ends in [.keys], without the ending. *)
Lemma wallet_names_keys files :
  (forall n, (n ++ ".keys")%string ∈ files -> occurs_early ".keys" n = false) ->
  map (fun n => n ++ ".keys")%string (wallet_names files) = List.filter (endsWith ".keys") files.
Proof.
  unfold wallet_names. induction files as [|f files IH]; [done|]. intros Hall. cbn [List.filter].
  assert (Hrest : forall n, (n ++ ".keys")%string ∈ files -> occurs_early ".keys" n = false)
    by (intros n Hn; apply Hall; by right).
  destruct (endsWith ".keys" f) eqn:E; [|by apply IH].
  cbn [map]. rewrite IH by done. f_equal. apply endsWith_split in E as [n ->].
  rewrite replace_first_suffix; [done|]. apply Hall. by left.
Qed.

(** C23: [/api/wallet/list] lists exactly the wallets whose keys file is in the wallet
    directory: the listed names with [.keys] added are the files of the
    directory that end so, in its order, whatever other files there are, when
    no wallet's name has [.keys] in it. *)
Theorem wallet_list_names {S : Type} `{!WalletServer S} (E : env) (files : list string) (s : S) (tr : trace) :
  on_sys E tr (FsReaddir wallet_dir) = inr files ->
  (forall n, (n ++ ".keys")%string ∈ files -> occurs_early ".keys" n = false) ->
  let o := run E Wallet.api_wallet_list s tr in
  exists names, map (fun n => n ++ ".keys")%string names = List.filter (endsWith ".keys") files /\
    o_state o = s /\
    replies (o_trace o) = replies tr ++
      [(200, json (obj ["wallets" ::= VArr (map VStr names); "current" ::= get_wallet s]))]%Z.
Proof.
  intros Hdir Hall o. exists (wallet_names files). split; [by apply wallet_names_keys|].
  unfold o, Wallet.api_wallet_list. rewrite run_try.
  cbn [bind readdir_sync run]. rewrite Hdir. cbn [lift bind gets run].
  cbn. split; [done|]. by rewrite !replies_app, app_nil_r.
Qed.

(** A wallet directory for the examples: one wallet with its cache, one with its
    keys only. *)
Definition two_wallets : env := {|
  on_sys := fun tr o =>
    match o return sys_answer o with
    | FsReaddir _ => inr ["alice"; "alice.keys"; "bob.keys"; "notes.txt"]%string
    | o' => on_sys (web (fun _ => inl "ECONNREFUSED"%string)) tr o'
    end;
  on_async := on_async (web (fun _ => inl "ECONNREFUSED"%string))
|}.

Lemma keys_injective (a b : string) : (a ++ ".keys" = b ++ ".keys")%string -> a = b.
Proof.
  revert b. induction a as [|x a IH]; intros [|y b] E; [done| | |].
  1, 2: apply (f_equal String.length) in E; cbn [String.append String.length] in E;
    rewrite string_length_app in E; cbn [String.length] in E; lia.
  cbn [String.append] in E. injection E as -> E. f_equal. by apply IH.
Qed.

Lemma wallet_list_names_witness :
  exists names, map (fun n => n ++ ".keys")%string names = ["alice.keys"; "bob.keys"]%string /\
    replies (o_trace (run two_wallets (DashboardServer.api_wallet_list linux_host) DashboardServer.init_vars [])) =
    [(200, json (obj ["wallets" ::= VArr (map VStr names); "current" ::= VNull]))]%Z.
Proof.
  destruct (wallet_list_names (WalletServer0 := DashboardServer.wallet_server linux_host) two_wallets
    ["alice"; "alice.keys"; "bob.keys"; "notes.txt"]%string DashboardServer.init_vars [])
    as (names & Hn & _ & Hr); [reflexivity| |by exists names].
  intros n Hn. repeat (apply elem_of_cons in Hn as [E|Hn]); [..|by apply elem_of_nil in Hn].
  - pose proof (endsWith_app ".keys" n) as He. by rewrite E in He.
  - by apply (keys_injective n "alice") in E as ->.
  - by apply (keys_injective n "bob") in E as ->.
  - pose proof (endsWith_app ".keys" n) as He. by rewrite E in He.
Defined.

Lemma strip_prefix_long p s t :
  strip_prefix p s = None -> String.length p <= String.length s -> strip_prefix p (s ++ t) = None.
Proof.
  revert s. induction p as [|a p IH]; intros [|c s]; simpl; try done; [lia|].
  destruct (Ascii.eqb a c); [|done]. intros H Hl. apply IH; [done|lia].
Qed.

Lemma replace_first_inner p a t :
  occurs_early p a = false -> replace_first p "" (a ++ p ++ t) = (a ++ t)%string.
Proof.
  induction a as [|c a IH]; simpl.
  - intros _. destruct p as [|x p]; simpl; [by destruct t|]. by rewrite Ascii.eqb_refl, strip_prefix_app.
  - destruct (strip_prefix p (String c (a ++ p))) eqn:E; [done|]. intros H.
    assert (strip_prefix p (String c (a ++ p ++ t)) = None) as ->; [|by rewrite IH].
    rewrite <- string_app_assoc. apply (strip_prefix_long p (String c (a ++ p)) t E).
    cbn [String.length]. rewrite string_length_app. lia.
Qed.

(** C31: A wallet whose name has [.keys] in it, but not at its end, is listed under another
    name: the first occurrence is removed, not the extension, so the wallet
    [a.keysb] is listed as [ab.keys]. *)
Theorem wallet_list_mangles (a b : string) :
  occurs_early ".keys" a = false -> endsWith ".keys" (a ++ ".keys" ++ b) = false ->
  let name := (a ++ ".keys" ++ b)%string in
  exists shown, wallet_names [name ++ ".keys"]%string = [shown] /\
    shown = ((a ++ b) ++ ".keys")%string /\ shown <> name.
Proof.
  intros Ha Hend name. exists ((a ++ b) ++ ".keys")%string. split_and!; [|done|].
  - unfold wallet_names, name. cbn [List.filter]. rewrite endsWith_app. cbn [map].
    by rewrite !string_app_assoc, replace_first_inner.
  - unfold name. intros E. rewrite <- E, endsWith_app in Hend. done.
Qed.

Lemma wallet_list_mangles_witness :
  wallet_names ["old.keys.bak.keys"]%string = ["old.bak.keys"]%string.
Proof.
  destruct (wallet_list_mangles "old" ".bak") as (shown & Hs & -> & _); [reflexivity..|exact Hs].
Defined.

(** ** The current wallet *)

(** [currentWalletName] is read back as it was assigned, and starting the wallet
    RPC leaves it alone. *)
Class WalletLaws (S : Type) `{!WalletServer S} : Prop := {
  get_set_wallet : forall name (s : S), get_wallet (set_wallet name s) = name;
  start_keeps : forall E (s : S) tr, get_wallet (o_state (run E start_wallet_rpc s tr)) = get_wallet s
}.

#[export] Instance dashboard_wallet_laws H :
  WalletLaws DashboardServer.vars (WalletServer0 := DashboardServer.wallet_server H).
Proof.
  split; [done|]. intros E s tr. simpl. unfold DashboardServer.startWalletRpc. cbn [bind gets run].
  destruct (DashboardServer.walletRpcProcess s); [done|]. cbn [bind exists_sync sys run].
  destruct (on_sys _ _ _); [|done]. cbn [negb bind spawn run]. by destruct (on_sys _ _ _).
Qed.

#[export] Instance plain_wallet_laws C :
  WalletLaws PlainServer.vars (WalletServer0 := PlainServer.wallet_server C).
Proof.
  split; [done|]. intros E s tr. simpl. unfold PlainServer.startWalletRpc. cbn [bind gets run].
  destruct (PlainServer.walletRpcProcess s); [done|]. cbn [bind spawn run]. by destruct (on_sys _ _ _).
Qed.

(** What a call to the wallet RPC comes to: an exception, a wait without end, or
    the parsed answer. *)
Definition answer_data (F : fetcher) (a : jserr + http_response) : result val :=
  match a with
  | inl e => Thrown e
  | inr r =>
      if f_whole F && negb (rs_complete r) then Pending
      else match rs_json r with inl e => Thrown e | inr data => Value data end
  end.

(** What the wallet RPC decided: JSON-RPC reports a refusal as an [error]. *)
Inductive verdict := Accepted | Refused | Failed.

Definition judge (answer : result val) : verdict :=
  match answer with
  | Value data =>
      match get data "error" with
      | inr e => if truthy e then Refused else Accepted
      | inl _ => Refused
      end
  | _ => Failed
  end.

(** The requests that change which wallet the wallet RPC has open. *)
Inductive command :=
| Create (name password : string)
| Open (name password : string)
| Restore (name password seed : string)
| Close.

(** The specification: what the wallet RPC accepts takes effect, and nothing else
    does. *)
Definition track (c : command) (v : verdict) (current : val) : val :=
  match v with
  | Accepted =>
      match c with
      | Create name _ | Open name _ | Restore name _ _ => str name
      | Close => VNull
      end
  | Refused | Failed => current
  end.

Definition valid (c : command) : Prop :=
  match c with
  | Create name _ => name <> ""%string /\ (Z.of_nat (String.length name) < 2 ^ 53)%Z
  | Open name _ => name <> ""%string
  | Restore name _ seed => name <> ""%string /\ seed <> ""%string
  | Close => True
  end.

Section Tracking.
Context {S : Type} `{!WalletServer S} `{!WalletLaws S}.

Definition perform (c : command) : prog S unit :=
  match c with
  | Create name password =>
      Wallet.api_wallet_create ["name" ::= str name; "password" ::= str password]
  | Open name password => open_wallet (str name) (str password)
  | Restore name password seed =>
      Wallet.api_wallet_restore ["name" ::= str name; "password" ::= str password; "seed" ::= str seed]
  | Close => Wallet.api_wallet_close
  end.

(** The call each of them makes. *)
Definition command_rpc (c : command) : http_request :=
  post_json WALLET_RPC
    match c with
    | Create name password => rpc_body "create_wallet"
        (obj ["filename" ::= str name; "password" ::= or_else (str password) (str "");
              "language" ::= str "English"])
    | Open name password => rpc_body "open_wallet"
        (obj ["filename" ::= str name; "password" ::= or_else (str password) (str "")])
    | Restore name password seed => rpc_body "restore_deterministic_wallet"
        (obj ["filename" ::= str name; "password" ::= or_else (str password) (str "");
              "seed" ::= str seed; "restore_height" ::= vint 0; "language" ::= str "English"])
    | Close => rpc_body "close_wallet" (obj [])
    end.

(** The verdict on a request made after the trace. *)
Definition verdict_on (E : env) (tr : trace) (r : http_request) : verdict :=
  judge (answer_data wallet_fetch (on_async E tr (Fetch (f_request wallet_fetch r)))).

(** The verdict on a command: all but [Close] start the wallet RPC first, if it
    does not run, and fail where that fails. *)
Definition command_verdict (E : env) (c : command) (s : S) (tr : trace) : verdict :=
  match c with
  | Close => verdict_on E tr (command_rpc c)
  | _ =>
      let o := run E start_wallet_rpc s tr in
      match o_result o with
      | Value _ => verdict_on E (o_trace o) (command_rpc c)
      | _ => Failed
      end
  end.

(** Programs that assign no variable. *)
Definition readonly {A} (p : prog S A) : Prop := forall E s tr, o_state (run E p s tr) = s.

Lemma readonly_bind {A B} (p : prog S A) (f : A -> prog S B) :
  readonly p -> (forall a, readonly (f a)) -> readonly (bind p f).
Proof.
  intros Hp Hf E s tr. rewrite run_bind. specialize (Hp E s tr). cbv zeta.
  destruct (o_result _); simpl; [|done..]. by rewrite Hf.
Qed.

Lemma readonly_lift {A} (r : jserr + A) : readonly (lift r).
Proof. by intros E s tr; destruct r. Qed.

Lemma readonly_respond code v : readonly (respond code v).
Proof. by intros E s tr. Qed.

Lemma run_rpc {B} E method params (f : val -> prog S B) s tr :
  exists tr', run E (bind (walletRpc wallet_fetch method params) f) s tr =
    match answer_data wallet_fetch (on_async E tr
            (Fetch (f_request wallet_fetch (post_json WALLET_RPC (rpc_body method params))))) with
    | Thrown e => Outcome s tr' (Thrown e) []
    | Pending => Outcome s tr' Pending []
    | Value data => run E (f data) s tr'
    end.
Proof.
  unfold walletRpc, call_json, do_fetch, fetch, body_json, answer_data. cbn [bind run].
  destruct (on_async _ _ _) as [e|r]; cbn [lift bind run]; [by eexists|].
  destruct (_ && _); cbn [bind run]; [by eexists|].
  destruct (rs_json r); cbn [lift bind run]; by eexists.
Qed.

Lemma readonly_rpc method params : readonly (walletRpc wallet_fetch method params).
Proof.
  intros E s tr. destruct (run_rpc E method params Ret s tr) as [tr' Hr].
  rewrite run_bind in Hr. cbv zeta in Hr.
  destruct (o_result (run E (walletRpc _ _ _) s tr)) eqn:Eo; destruct (answer_data _ _);
    injection Hr; auto.
Qed.

(** The state after a guarded call: what the guarded continuation left, or the
    state before it. *)
Lemma state_after_rpc E method params (f : val -> prog S unit) (h : jserr -> prog S unit) s tr :
  (forall e, readonly (h e)) ->
  exists tr', o_state (run E (try_catch (bind (walletRpc wallet_fetch method params) f) h) s tr) =
    match answer_data wallet_fetch (on_async E tr
            (Fetch (f_request wallet_fetch (post_json WALLET_RPC (rpc_body method params))))) with
    | Value data => o_state (run E (f data) s tr')
    | _ => s
    end.
Proof.
  intros Hh. destruct (run_rpc E method params f s tr) as [tr' Hr]. exists tr'.
  rewrite run_try, Hr. cbv zeta. destruct (answer_data _ _) as [data|e|]; simpl; [|apply Hh|done].
  destruct (o_result _); [done| |done]. simpl. apply Hh.
Qed.

Lemma unless_error_state E data name (k : prog S unit) s tr :
  readonly k ->
  get_wallet (o_state (run E (unless_error data (modify (set_wallet name) ;;; k)) s tr)) =
  match judge (Value data) with Accepted => name | _ => get_wallet s end.
Proof.
  intros Hk. unfold unless_error, jget, judge. destruct (get data "error") as [e|e]; simpl; [done|].
  destruct (truthy e); simpl; [done|]. rewrite Hk. apply get_set_wallet.
Qed.
End Tracking.

Ltac readonly_paths :=
  repeat first [apply readonly_rpc | apply readonly_respond | apply readonly_lift | apply readonly_bind; [|intros ?]].

Lemma nonempty_truthy name : name <> ""%string -> truthy (str name) = true.
Proof. by destruct name. Qed.

Section Commands.
Context {S : Type} `{!WalletServer S} `{!WalletLaws S}.

(** The common shape of create, open and restore once the checks have passed. *)
Lemma guarded_command E method params name (k : val -> prog S unit) s tr :
  (forall data, readonly (k data)) ->
  get_wallet (o_state (run E
    (try_catch (start_wallet_rpc ;;; let* data := walletRpc wallet_fetch method params in
                unless_error data (modify (set_wallet name) ;;; k data))
       (fun e => respond 500 (error_body e))) s tr)) =
  let o := run E start_wallet_rpc s tr in
  match match o_result o with
        | Value _ => verdict_on E (o_trace o) (post_json WALLET_RPC (rpc_body method params))
        | _ => Failed
        end with
  | Accepted => name
  | _ => get_wallet s
  end.
Proof.
  intros Hk. pose proof (start_keeps E s tr) as Hs. cbv zeta.
  set (rest := let* data := walletRpc wallet_fetch method params in _).
  assert (Hrest : forall s1 tr1, get_wallet (o_state (run E (try_catch rest (fun e => respond 500 (error_body e))) s1 tr1)) =
    match verdict_on E tr1 (post_json WALLET_RPC (rpc_body method params)) with
    | Accepted => name | _ => get_wallet s1 end).
  { intros s1 tr1. unfold rest, verdict_on.
    edestruct (state_after_rpc (S := S) E method params) as [tr' ->]; [intros e; apply readonly_respond|].
    destruct (answer_data _ _) as [data|e|]; [by apply unless_error_state|done..]. }
  specialize (Hrest (o_state (run E start_wallet_rpc s tr)) (o_trace (run E start_wallet_rpc s tr))).
  rewrite run_try in Hrest. rewrite run_try, run_bind. cbv zeta in *.
  rewrite <- Hs. destruct (o_result (run E start_wallet_rpc s tr)); cbn [o_result o_state]; [|done..].
  cbn [o_result add_tasks o_state o_tasks o_trace] in *.
  destruct (o_result (run E rest _ _)); cbn [o_state add_tasks] in *; exact Hrest.
Qed.

Lemma create_state E name password s tr :
  valid (Create name password) ->
  get_wallet (o_state (run (S := S) E (perform (Create name password)) s tr)) =
  track (Create name password) (command_verdict E (Create name password) s tr) (get_wallet s).
Proof.
  intros [Hname Hlen]. unfold perform, Wallet.api_wallet_create, name_missing.
  change (field "name" _) with (str name). change (field "password" _) with (str password).
  rewrite nonempty_truthy by done. cbn [negb].
  change (to_num (own_prop (str name) "length"))
    with (inr (A := jserr) (num_of_Z (Z.of_nat (String.length name)))).
  cbn [lift bind]. rewrite num_ltb_Z by lia.
  destruct (Z.ltb_spec (Z.of_nat (String.length name)) 1) as [Hl|_]; [destruct name; [done|simpl in Hl; lia]|].
  rewrite guarded_command by (intros data; readonly_paths). done.
Qed.

Lemma restore_state E name password seed s tr :
  valid (Restore name password seed) ->
  get_wallet (o_state (run (S := S) E (perform (Restore name password seed)) s tr)) =
  track (Restore name password seed) (command_verdict E (Restore name password seed) s tr) (get_wallet s).
Proof.
  intros [Hname Hseed]. unfold perform, Wallet.api_wallet_restore.
  change (field "name" _) with (str name). change (field "password" _) with (str password).
  change (field "seed" _) with (str seed). rewrite !nonempty_truthy by done. cbn [negb orb].
  rewrite guarded_command by (intros data; readonly_paths). done.
Qed.

Lemma open_state E name password s tr :
  get_wallet (o_state (run (S := S) E (perform (Open name password)) s tr)) =
  track (Open name password) (command_verdict E (Open name password) s tr) (get_wallet s).
Proof.
  unfold perform, open_wallet. rewrite guarded_command by (intros data; readonly_paths). done.
Qed.

(** Closing does not look at the answer. *)
Lemma close_state E s tr :
  get_wallet (o_state (run (S := S) E (perform Close) s tr)) =
  match command_verdict E Close s tr with Failed => get_wallet s | _ => VNull end.
Proof.
  unfold perform, Wallet.api_wallet_close, command_verdict, verdict_on.
  edestruct (state_after_rpc (S := S) E "close_wallet" (obj [])) as [tr' ->]; [intros e; apply readonly_respond|].
  unfold command_rpc. destruct (answer_data _ _) as [data|e|]; [|done..].
  trans VNull; [apply get_set_wallet|]. unfold judge.
  destruct (get data "error") as [e|e]; [done|by destruct (truthy e)].
Qed.
End Commands.

(** C3: The servers' [currentWalletName] follows the wallet RPC: a create, open or restore
    that the wallet RPC accepts makes its wallet the current one, a close that
    it accepts leaves none, and a command that it refuses or that fails, also
    where the wallet RPC must be started first and cannot be, changes nothing.
    The one case left out is a close that the wallet RPC refuses. *)
Theorem wallet_tracking {S : Type} `{!WalletServer S} `{!WalletLaws S} (E : env) (c : command) (s : S) (tr : trace) :
  valid c -> ~ (c = Close /\ command_verdict E c s tr = Refused) ->
  get_wallet (o_state (run E (perform c) s tr)) = track c (command_verdict E c s tr) (get_wallet s).
Proof.
  intros Hv Hc. destruct c; auto using create_state, open_state, restore_state.
  rewrite close_state. unfold track. destruct (command_verdict _ _ _ _); [done| |done].
  by destruct Hc.
Qed.

(** The dashboard with its wallet RPC running opens a wallet. *)
Definition rpc_running : DashboardServer.vars :=
  DashboardServer.set_walletRpcProcess (Some {| c_id := 0; c_pid := vint 4242 |}) DashboardServer.init_vars.

Definition rpc_accepts : env := web (fun _ => ok_json (obj ["result" ::= obj []])).

Lemma wallet_tracking_witness :
  DashboardServer.currentWalletName (o_state (run rpc_accepts
    (perform (WalletServer0 := DashboardServer.wallet_server linux_host) (Open "alice" "pw")) rpc_running [])) = str "alice".
Proof.
  apply (wallet_tracking (WalletServer0 := DashboardServer.wallet_server linux_host)
    rpc_accepts (Open "alice" "pw") rpc_running []); [done|]. by intros [Hc _].
Defined.

(** C35: A close that the wallet RPC refuses is taken for done: the wallet RPC keeps
    what it has open, but the servers forget which wallet that is and report
    success. *)
Theorem refused_close_forgets {S : Type} `{!WalletServer S} `{!WalletLaws S} (E : env) (s : S) (tr : trace) :
  command_verdict E Close s tr = Refused ->
  let o := run E (perform Close) s tr in
  get_wallet (o_state o) = VNull /\
  replies (o_trace o) = replies tr ++ [(200, json (obj ["success" ::= VBool true]))]%Z.
Proof.
  intros Hv o. split; [unfold o; by rewrite close_state, Hv|].
  unfold o, perform, Wallet.api_wallet_close. unfold command_verdict, verdict_on, command_rpc, answer_data in Hv.
  rewrite run_try. unfold walletRpc, call_json, do_fetch, fetch, body_json. cbn [bind run].
  destruct (on_async _ _ _) as [e|r]; [done|]. cbn [lift bind run].
  destruct (_ && _); [done|]. cbn [bind run]. destruct (rs_json r); [done|]. cbn.
  by rewrite !replies_app, !app_nil_r.
Qed.

(** A wallet RPC that refuses everything. *)
Definition rpc_refuses : env := web (fun _ => ok_json (obj ["error" ::= obj ["message" ::= str "No wallet file"]])).

Lemma refused_close_forgets_witness :
  replies (o_trace (run rpc_refuses (DashboardServer.api_wallet_close linux_host) rpc_running [])) =
  [(200, json (obj ["success" ::= VBool true]))]%Z.
Proof.
  apply (refused_close_forgets (WalletServer0 := DashboardServer.wallet_server linux_host)
    rpc_refuses rpc_running []). reflexivity.
Defined.
