(* ===== verification/ReleaseServer.v ===== *)
(** * release/dashboard/server.js *)

From Stdlib Require Import ZArith Lia String Ascii List Bool.
From stdpp Require Import base list strings decidable option.
From S2P Require Import Prelude JsNumber JsString JsValue Runtime EventLoop Node Wallet PlainServer.

Local Open Scope js_scope.

Section Release.
(** [__dirname]. *)
Variable dirname : string.

Definition release_setup : setup := {|
  WALLET_DIR := path_join [dirname; ".."; "wallets"];
  WALLET_RPC_BIN := path_join [dirname; ".."; "build"; "bin"; "cocaine-wallet-rpc"];
  the_fetch := node_fetch
|}.

#[local] Instance release_wallet : WalletServer vars := wallet_server release_setup.

Inductive request :=
| GetInfo | GetLastBlock | GetBlock (height : string) | GetMiningStatus
| PostMiningStart (body : fields) | PostMiningStop | GetWalletList
| PostWalletCreate (body : fields) | PostWalletOpen (body : fields)
| PostWalletRestore (body : fields) | GetWalletBalance | GetWalletAddress
| GetWalletTransfers | PostWalletSend (body : fields) | PostWalletRefresh
| PostWalletClose | GetWalletStatus.

Definition startWalletRpc : prog vars unit := PlainServer.startWalletRpc release_setup.
Definition ensure_dirs : prog vars unit := PlainServer.ensure_dirs release_setup.
Definition api_info : prog vars unit := PlainServer.api_info release_setup.
Definition api_last_block : prog vars unit := PlainServer.api_last_block release_setup.
Definition api_block (height : string) : prog vars unit := PlainServer.api_block release_setup height.
Definition api_mining_status : prog vars unit := PlainServer.api_mining_status release_setup.
Definition api_mining_start (body : fields) : prog vars unit := PlainServer.api_mining_start release_setup body.
Definition api_mining_stop : prog vars unit := PlainServer.api_mining_stop release_setup.
Definition api_wallet_list : prog vars unit := Wallet.api_wallet_list.
Definition api_wallet_create (body : fields) : prog vars unit := Wallet.api_wallet_create body.
Definition api_wallet_open (body : fields) : prog vars unit := PlainServer.api_wallet_open release_setup body.
Definition api_wallet_restore (body : fields) : prog vars unit := Wallet.api_wallet_restore body.
Definition api_wallet_balance : prog vars unit := Wallet.api_wallet_balance.
Definition api_wallet_address : prog vars unit := Wallet.api_wallet_address.
Definition api_wallet_transfers : prog vars unit := Wallet.api_wallet_transfers.
Definition api_wallet_send (body : fields) : prog vars unit := send_plain 16 body.
Definition api_wallet_refresh : prog vars unit := Wallet.api_wallet_refresh.
Definition api_wallet_close : prog vars unit := Wallet.api_wallet_close.
Definition api_wallet_status : prog vars unit := Wallet.api_wallet_status.

(** The [listen] callback starts the wallet RPC and opens the browser later. *)
Definition on_listen : prog vars unit :=
  PlainServer.on_listen release_setup ;;; fork (Sleep 500) (fun _ => Ret tt).
Definition on_sigint : prog vars unit := PlainServer.on_sigint.

Definition handler (r : request) : prog vars unit :=
  match r with
  | GetInfo => api_info
  | GetLastBlock => api_last_block
  | GetBlock height => api_block height
  | GetMiningStatus => api_mining_status
  | PostMiningStart body => api_mining_start body
  | PostMiningStop => api_mining_stop
  | GetWalletList => api_wallet_list
  | PostWalletCreate body => api_wallet_create body
  | PostWalletOpen body => api_wallet_open body
  | PostWalletRestore body => api_wallet_restore body
  | GetWalletBalance => api_wallet_balance
  | GetWalletAddress => api_wallet_address
  | GetWalletTransfers => api_wallet_transfers
  | PostWalletSend body => api_wallet_send body
  | PostWalletRefresh => api_wallet_refresh
  | PostWalletClose => api_wallet_close
  | GetWalletStatus => api_wallet_status
  end.
End Release.
