(* ===== verification/DesktopServer.v ===== *)
(** * desktop-app/server.js *)

From Stdlib Require Import ZArith Lia String Ascii List Bool.
From stdpp Require Import base list strings decidable option.
From S2P Require Import Prelude JsNumber JsString JsValue Runtime EventLoop Node Wallet PlainServer.

Local Open Scope js_scope.

(** [process.resourcesPath] when packaged, the environment variables, and the
    directory and platform of the module. *)
Record host := {
  h_dirname : string;
  h_platform : string;
  h_resources : option string;
  h_env_wallet_dir : option string;
  h_env_wallet_bin : option string
}.

(** The part of a URL that [path: urlObj.pathname] requests: the query and the
    fragment are left out. *)
Fixpoint strip_query (url : string) : string :=
  match url with
  | EmptyString => EmptyString
  | String c r => if Ascii.eqb c "?" || Ascii.eqb c "#" then EmptyString else String c (strip_query r)
  end.

(** The module's own [fetch]: it requests the path without the query, settles
    its promise at the ['end'] of the body, and listens to no event of a body
    that is cut off. *)
Definition desktop_fetch : fetcher := {|
  f_request r := {| rq_method := rq_method r; rq_url := strip_query (rq_url r); rq_body := rq_body r |};
  f_whole := true
|}.

(** [x || y] on strings that may be missing. *)
Definition or_string (x : option string) (y : string) : string :=
  match x with
  | Some s => if String.eqb s "" then y else s
  | None => y
  end.

Section Desktop.
Variable H : host.

Definition getBasePath : string := or_string (h_resources H) (h_dirname H).

Definition desktop_setup : setup := {|
  WALLET_DIR := or_string (h_env_wallet_dir H) (path_join [getBasePath; "wallets"]);
  WALLET_RPC_BIN := or_string (h_env_wallet_bin H)
    (path_join [getBasePath; "bin";
       if String.eqb (h_platform H) "win32" then "cocaine-wallet-rpc.exe" else "cocaine-wallet-rpc"]);
  the_fetch := desktop_fetch
|}.

#[local] Instance desktop_wallet : WalletServer vars := wallet_server desktop_setup.

Definition startWalletRpc : prog vars unit := PlainServer.startWalletRpc desktop_setup.
Definition ensure_dirs : prog vars unit := PlainServer.ensure_dirs desktop_setup.
Definition api_info : prog vars unit := PlainServer.api_info desktop_setup.
Definition api_last_block : prog vars unit := PlainServer.api_last_block desktop_setup.
Definition api_block (height : string) : prog vars unit := PlainServer.api_block desktop_setup height.
Definition api_mining_status : prog vars unit := PlainServer.api_mining_status desktop_setup.
Definition api_mining_start (body : fields) : prog vars unit := PlainServer.api_mining_start desktop_setup body.
Definition api_mining_stop : prog vars unit := PlainServer.api_mining_stop desktop_setup.
Definition api_wallet_list : prog vars unit := Wallet.api_wallet_list.
Definition api_wallet_create (body : fields) : prog vars unit := Wallet.api_wallet_create body.
Definition api_wallet_open (body : fields) : prog vars unit := PlainServer.api_wallet_open desktop_setup body.
Definition api_wallet_restore (body : fields) : prog vars unit := Wallet.api_wallet_restore body.
Definition api_wallet_balance : prog vars unit := Wallet.api_wallet_balance.
Definition api_wallet_address : prog vars unit := Wallet.api_wallet_address.
Definition api_wallet_transfers : prog vars unit := Wallet.api_wallet_transfers.
Definition api_wallet_refresh : prog vars unit := Wallet.api_wallet_refresh.
Definition api_wallet_close : prog vars unit := Wallet.api_wallet_close.
Definition api_wallet_status : prog vars unit := Wallet.api_wallet_status.

(** ** Network endpoints *)

Definition api_connections : prog vars unit :=
  try
    let* data := call_json desktop_fetch (get_url (DAEMON_HTTP ++ "/get_connections")) in res_json data
  catch e => respond 500 (obj ["error" ::= str e; "connections" ::= VArr []]).

Definition api_peers : prog vars unit :=
  relay desktop_setup (get_url (DAEMON_HTTP ++ "/get_peer_list")).

Definition api_block_count : prog vars unit :=
  try let* data := daemonRpc desktop_setup "get_block_count" (obj []) in res_json data
  catch e => respond 500 (error_body e).

(** The sum over the whole chain, whose height the daemon is asked first. *)
Definition api_coinbase_tx_sum : prog vars unit :=
  try
    let* infoData := call_json desktop_fetch (get_url (DAEMON_HTTP ++ "/get_info")) in
    let* h := jget infoData "height" in
    let height := or_else h (vint 1000) in
    let* data := daemonRpc desktop_setup "get_coinbase_tx_sum"
      (obj ["height" ::= vint 0; "count" ::= height]) in
    res_json data
  catch e => respond 500 (error_body e).

Definition api_blocks_range (start stop : string) : prog vars unit :=
  try
    let* data := daemonRpc desktop_setup "get_block_headers_range"
      (obj ["start_height" ::= VNum (parseInt start); "end_height" ::= VNum (parseInt stop)]) in
    res_json data
  catch e => respond 500 (error_body e).

Definition SEED_NODE_RPC : string := "http://138.68.128.104:19081".

Definition api_seed_info : prog vars unit :=
  try
    let* data := call_json desktop_fetch (get_url (SEED_NODE_RPC ++ "/get_info")) in res_json data
  catch e => respond 500 (obj ["error" ::= str e; "height" ::= VNull]).

(** ** Sending with automatic consolidation *)

Definition consolidating_text : string :=
  "Outputs are being consolidated. Please wait for confirmation (~2 min) then try again.".

(** [s.includes(p)] on the message: only strings (and arrays, for an equal
    element) have the method. *)
Definition message_includes (message : val) (p : string) : prog vars bool :=
  match message with
  | VStr s => Ret (includes p s)
  | VArr l => Ret (existsb (fun x => match x with VStr s => String.eqb s p | _ => false end) l)
  | _ => Throw "data.error.message.includes is not a function"
  end.

(** The condition of the consolidation branch. *)
Definition needs_consolidation (error : val) : prog vars bool :=
  if negb (truthy error) then Ret false
  else
    let message := own_prop error "message" in
    if negb (truthy message) then Ret false
    else
      let* a := message_includes message "not enough outputs" in
      if a : bool then Ret true else message_includes message "sweep_dust".

Definition failure (error : val) : prog vars unit :=
  res_json (obj ["success" ::= VBool false; "error" ::= own_prop error "message"]).

Definition consolidate (error : val) : prog vars unit :=
  let* addrData := walletRpc desktop_fetch "get_address" (obj []) in
  let* addrResult := jget addrData "result" in
  let myAddress := get_opt addrResult "address" in
  if truthy myAddress then
    let* sweepData := walletRpc desktop_fetch "sweep_all"
      (obj ["address" ::= myAddress; "priority" ::= vint 1; "ring_size" ::= vint 16]) in
    let* sweepResult := jget sweepData "result" in
    if truthy sweepResult then
      res_json (obj ["success" ::= VBool false; "consolidating" ::= VBool true;
                     "error" ::= str consolidating_text;
                     "tx_hash_list" ::= own_prop sweepResult "tx_hash_list"])
    else failure error
  else failure error.

Definition api_wallet_send (body : fields) : prog vars unit :=
  let address := field "address" body in
  let amount := field "amount" body in
  let payment_id := field "payment_id" body in
  if negb (truthy address) || negb (truthy amount)
  then respond 400 (error_text "Address and amount required")
  else
    try
      let* atomicAmount := atomic_amount amount in
      let* data := walletRpc desktop_fetch "transfer" (transfer_params 16 address payment_id atomicAmount) in
      let* error := jget data "error" in
      let* consolidation := needs_consolidation error in
      if consolidation : bool then consolidate error
      else if truthy error then failure error
      else send_success data
    catch e => respond 500 (error_body e).

(** ** Start, shutdown and routes *)

Definition on_listen : prog vars unit := PlainServer.on_listen desktop_setup.
Definition on_sigint : prog vars unit := PlainServer.on_sigint.

Inductive request :=
| GetInfo | GetLastBlock | GetBlock (height : string) | GetMiningStatus
| PostMiningStart (body : fields) | PostMiningStop | GetWalletList
| PostWalletCreate (body : fields) | PostWalletOpen (body : fields)
| PostWalletRestore (body : fields) | GetWalletBalance | GetWalletAddress
| GetConnections | GetPeers | GetBlockCount | GetCoinbaseTxSum
| GetBlocksRange (start stop : string) | GetSeedInfo
| GetWalletTransfers | PostWalletSend (body : fields) | PostWalletRefresh
| PostWalletClose | GetWalletStatus.

Definition handler (r : request) : prog vars unit :=
  match r with
  | GetInfo => api_info
  | GetLastBlock => api_last_block
  | GetBlock height => api_block height
  | GetMiningStatus => api_mining_status
  | PostMiningStart body => api_mining_start body
  | PostMiningStop => api_mining_stop
  | GetWalletList => api_wallet_list
  | PostWalletCreate body => api_wallet_create body
  | PostWalletOpen body => api_wallet_open body
  | PostWalletRestore body => api_wallet_restore body
  | GetWalletBalance => api_wallet_balance
  | GetWalletAddress => api_wallet_address
  | GetConnections => api_connections
  | GetPeers => api_peers
  | GetBlockCount => api_block_count
  | GetCoinbaseTxSum => api_coinbase_tx_sum
  | GetBlocksRange start stop => api_blocks_range start stop
  | GetSeedInfo => api_seed_info
  | GetWalletTransfers => api_wallet_transfers
  | PostWalletSend body => api_wallet_send body
  | PostWalletRefresh => api_wallet_refresh
  | PostWalletClose => api_wallet_close
  | GetWalletStatus => api_wallet_status
  end.
End Desktop.
