(* ===== verification/DesktopMain.v ===== *)
(** * desktop-app/main.js

    The Electron main process: it starts the daemon, remembers its pid in a
    file, starts the embedded server and the window, and stops the daemon when
    the windows are closed or the application quits. *)

From Stdlib Require Import ZArith Lia String Ascii List Bool.
From stdpp Require Import base list strings decidable option.
From S2P Require Import Prelude JsNumber JsString JsValue Runtime EventLoop Node.

Local Open Scope js_scope.

(** What the process reads of Electron and of its environment. *)
Record host := {
  h_dirname : string;
  h_platform : string;
  h_packaged : bool;
  h_resources : string;
  h_user_data : string;
  h_env_daemon : option string;
  h_env_wallet : option string
}.

(** The module variables: the window (open or not) and the daemon's child. *)
Record vars := {
  mainWindow : bool;
  daemonProcess : option child
}.

Definition init_vars : vars := {| mainWindow := false; daemonProcess := None |}.

Definition set_mainWindow (b : bool) (s : vars) : vars :=
  {| mainWindow := b; daemonProcess := daemonProcess s |}.
Definition set_daemonProcess (p : option child) (s : vars) : vars :=
  {| mainWindow := mainWindow s; daemonProcess := p |}.

Section Main.
Variable H : host.

Definition is_win32 : bool := String.eqb (h_platform H) "win32".

(** The environment variable that overrides a binary, when it is set. *)
Definition override (filename : string) : option string :=
  let name := toLowerCase filename in
  let v := if includes "cocained" name then h_env_daemon H
           else if includes "wallet-rpc" name then h_env_wallet H else None in
  match v with
  | Some p => if String.eqb p "" then None else Some p
  | None => None
  end.

Definition getResourcePath (filename : string) : string :=
  match override filename with
  | Some p => p
  | None =>
      if h_packaged H then path_join [h_resources H; "bin"; filename]
      else path_join [h_dirname H; "bin"; filename]
  end.

Definition getDataPath : string := path_join [h_user_data H; "blockchain"].
Definition getWalletPath : string := path_join [h_user_data H; "wallets"].

Definition daemonPath : string := getResourcePath (if is_win32 then "cocained.exe" else "cocained").
Definition logFile : string := path_join [getDataPath; "cocained.log"].
Definition pidFile : string := path_join [getDataPath; "cocained.pid"].

(** [GET /get_height] answers with status 200. *)
Definition isDaemonRunning : prog vars bool :=
  try let* r := fetch (get_url (DAEMON_HTTP ++ "/get_height")) in Ret (rs_status r =? 200)%Z
  catch _ => Ret false.

(** The checks before the spawn: the binary exists; its mode is set, an error
    of which is ignored. *)
Definition preflight : prog vars bool :=
  let* present := exists_sync daemonPath in
  if negb present then Ret false
  else
    (if is_win32 then Ret tt
     else try Sys (FsChmod daemonPath) lift catch _ => Ret tt) ;;;
    Ret true.

(** The thirty polls. *)
Fixpoint wait_ready (n : nat) : prog vars bool :=
  match n with
  | O => Ret false
  | S n' =>
      sleep 1000 ;;;
      let* up := isDaemonRunning in
      if up : bool then Ret true else wait_ready n'
  end.

Definition daemon_args : list string :=
  ["--non-interactive"; "--data-dir"; getDataPath; "--log-level"; "1";
   "--rpc-bind-ip"; "127.0.0.1"; "--rpc-bind-port"; "19081"]%string.

(** From the log file to the last poll. *)
Definition spawn_daemon : prog vars bool :=
  let* fd := (try Sys (FsOpen logFile) lift ;;; Ret true catch _ => Ret false) in
  if negb fd then Ret false
  else
    let* started := (try let* h := spawn daemonPath daemon_args in Ret (Some h)
                     catch _ => (try Sys (FsClose logFile) lift catch _ => Ret tt) ;;; Ret None) in
    match started with
    | None => Ret false
    | Some h =>
        modify (set_daemonProcess (Some h)) ;;;
        unlistened (OnError h) ;;;
        (try let* pid := lift (to_str (c_pid h)) in write_file pidFile (CText pid)
         catch _ => Ret tt) ;;;
        let* ready := wait_ready 30 in
        if ready : bool then Ret true
        else
          (try read_file logFile ;;; Ret tt catch _ => Ret tt) ;;;
          Ret false
    end.

Definition startDaemon : prog vars bool :=
  let* running := isDaemonRunning in
  if running : bool then Ret true
  else
    let* have_dir := exists_sync getDataPath in
    (if have_dir : bool then Ret tt else mkdir_sync getDataPath) ;;;
    let* ok := preflight in
    if ok : bool then spawn_daemon else Ret false.

(** The signal: the process group first, the process alone if that fails. *)
Definition kill_daemon (pid : num) : prog vars unit :=
  if is_win32 then
    Sys (ExecSync ("taskkill /pid " ++ num_to_string pid ++ " /T /F")) lift
  else
    try process_kill (VNum (num_opp pid)) SIGTERM
    catch _ => process_kill (VNum pid) SIGTERM.

Definition stopDaemon : prog vars unit :=
  (try
     let* present := exists_sync pidFile in
     if present : bool then
       let* text := read_file pidFile in
       let pid := parseInt10 (trim text) in
       (if is_nan pid then Ret tt else kill_daemon pid) ;;;
       unlink pidFile
     else Ret tt
   catch _ => Ret tt) ;;;
  modify (set_daemonProcess None).

(** The environment variables are set and the server's module is loaded; the
    module creates the wallet directory before it listens. *)
Definition startServer : prog vars unit :=
  sys (StartServer getWalletPath
    (getResourcePath (if is_win32 then "cocaine-wallet-rpc.exe" else "cocaine-wallet-rpc"))) ;;;
  let* have_dir := exists_sync getWalletPath in
  if have_dir : bool then Ret tt else mkdir_sync getWalletPath.

Definition createWindow : prog vars unit :=
  sys (OpenWindow "http://127.0.0.1:8080") ;;;
  modify (set_mainWindow true).

(** ** Lifecycle events *)

Inductive lifecycle :=
| WhenReady
| WindowClosed
| WindowAllClosed
| Activate (windows : nat)
| BeforeQuit.

Definition on_event (e : lifecycle) : prog vars unit :=
  match e with
  | WhenReady =>
      let* started := startDaemon in
      (if started : bool then Ret tt
       else sys (ShowErrorBox "Error" "Failed to start COCAINE daemon. Please check logs.")) ;;;
      startServer ;;;
      createWindow
  | WindowClosed => modify (set_mainWindow false)
  | WindowAllClosed =>
      stopDaemon ;;;
      if String.eqb (h_platform H) "darwin" then Ret tt else sys AppQuit
  | Activate windows => match windows with O => createWindow | _ => Ret tt end
  | BeforeQuit => stopDaemon
  end.
End Main.
