(* ===== verification/MainFacts.v ===== *)
(** * Properties of desktop-app/main.js *)

From Stdlib Require Import ZArith Lia String Ascii List Bool.
From Stdlib Require Import Floats.SpecFloat.
From stdpp Require Import base list strings decidable option.
From S2P Require Import Prelude JsNumber JsNumberFacts JsString JsNumberArith JsValue Runtime EventLoop Node DesktopMain.

Local Open Scope js_scope.

(** ** Waiting for the daemon *)

Definition probe : asyncop := Fetch (get_url (DAEMON_HTTP ++ "/get_height")).

(** The daemon answers, with status 200, a probe made after the trace. *)
Definition up_after (E : env) (tr : trace) : bool :=
  match on_async E tr probe with inr r => (rs_status r =? 200)%Z | inl _ => false end.

Lemma isDaemonRunning_run E (s : vars) tr :
  finishes E isDaemonRunning s tr (up_after E tr) s (tr ++ [EvAwait probe]).
Proof.
  unfold finishes, isDaemonRunning, up_after, probe. rewrite run_try. cbn [bind fetch run].
  by destruct (on_async _ _ _).
Qed.

(** [n] rounds of the wait: a second, then a probe. *)
Definition rounds (n : nat) : trace := concat (repeat [EvAwait (Sleep 1000); EvAwait probe] n).

(** The trace when the wait makes its probe number [j]. *)
Definition at_probe (tr : trace) (j : nat) : trace := tr ++ rounds j ++ [EvAwait (Sleep 1000)].

(** The first of [n] probes that the daemon answers. *)
Definition first_up (E : env) (tr : trace) (n : nat) : option nat :=
  List.find (fun j => up_after E (at_probe tr j)) (seq 0 n).

Lemma rounds_S n : rounds (S n) = [EvAwait (Sleep 1000); EvAwait probe] ++ rounds n.
Proof. reflexivity. Qed.

Lemma at_probe_S tr j : at_probe tr (S j) = at_probe (tr ++ [EvAwait (Sleep 1000); EvAwait probe]) j.
Proof. unfold at_probe. by rewrite rounds_S, <- !app_assoc. Qed.

Lemma first_up_S E tr n :
  first_up E tr (S n) =
  if up_after E (tr ++ [EvAwait (Sleep 1000)]) then Some 0
  else S <$> first_up E (tr ++ [EvAwait (Sleep 1000); EvAwait probe]) n.
Proof.
  unfold first_up. cbn [seq List.find]. change (at_probe tr 0) with (tr ++ [EvAwait (Sleep 1000)]).
  destruct (up_after _ _); [done|]. rewrite <- seq_shift. generalize (seq 0 n).
  induction l as [|j l IH]; [done|]. cbn [map List.find]. rewrite at_probe_S, IH. by destruct (up_after _ _).
Qed.

(** The wait ends with the first probe that is answered, or after all of them. *)
Lemma wait_ready_run E n (s : vars) tr :
  finishes E (wait_ready n) s tr (match first_up E tr n with Some _ => true | None => false end) s
    (tr ++ rounds (match first_up E tr n with Some j => S j | None => n end)).
Proof.
  revert tr. induction n as [|n IH]; intros tr; [by unfold finishes; rewrite app_nil_r|].
  unfold finishes. cbn [wait_ready]. erewrite run_after by reflexivity.
  rewrite first_up_S. erewrite run_after by apply isDaemonRunning_run.
  rewrite <- app_assoc. destruct (up_after E (tr ++ [EvAwait (Sleep 1000)])); [done|].
  cbn [app]. rewrite IH.
  by destruct (first_up E (tr ++ [EvAwait (Sleep 1000); EvAwait probe]) n) as [j|]; cbn [fmap option_fmap option_map];
    rewrite rounds_S, <- app_assoc.
Qed.

(** A machine on which the daemon can be started: the binary and the data
    directory exist, the log file opens, and the spawn gives the child [h]. *)
Record startable (H : host) (E : env) (h : child) : Prop := {
  has_data : forall tr, on_sys E tr (FsExists (getDataPath H)) = true;
  has_binary : forall tr, on_sys E tr (FsExists (daemonPath H)) = true;
  opens_log : forall tr, on_sys E tr (FsOpen (logFile H)) = inr tt;
  spawns : forall tr, on_sys E tr (Spawn (daemonPath H) (daemon_args H)) = inr h
}.

(** What is done before the wait, with the text [t] in the pid file. *)
Definition checks (H : host) : trace :=
  EvSys (FsExists (daemonPath H)) :: if is_win32 H then [] else [EvSys (FsChmod (daemonPath H))].

Definition launch (H : host) (t : string) : trace :=
  [EvAwait probe; EvSys (FsExists (getDataPath H))] ++ checks H ++
  [EvSys (FsOpen (logFile H)); EvSys (Spawn (daemonPath H) (daemon_args H));
   EvSys (FsWriteFile (pidFile H) (CText t))].

Section Start.
Variable H : host.
Variable E : env.
Variable h : child.
Variable t : string.
Hypothesis machine : startable H E h.
Hypothesis pid_text : to_str (c_pid h) = inr t.

Lemma preflight_run s tr : finishes E (preflight H) s tr true s (tr ++ checks H).
Proof.
  unfold finishes, preflight, checks. cbn [bind exists_sync sys run]. rewrite (has_binary _ _ _ machine). cbn [negb].
  destruct (is_win32 H); cbn [bind run]; [done|].
  cbn [try_catch bind run]. destruct (on_sys _ _ _); cbn; by rewrite <- app_assoc.
Qed.

Lemma open_log_run (s : vars) tr :
  finishes E (try Sys (FsOpen (logFile H)) lift ;;; Ret true catch _ => Ret false) s tr true s
    (tr ++ [EvSys (FsOpen (logFile H))]).
Proof. unfold finishes. cbn [bind try_catch run]. by rewrite (opens_log _ _ _ machine). Qed.

Lemma spawn_run (s : vars) tr (k : jserr -> prog vars (option child)) :
  finishes E (try_catch (let* h := spawn (daemonPath H) (daemon_args H) in Ret (Some h)) k) s tr (Some h) s
    (tr ++ [EvSys (Spawn (daemonPath H) (daemon_args H))]).
Proof. unfold finishes. cbn [bind spawn try_catch run]. by rewrite (spawns _ _ _ machine). Qed.

(** Whether the pid file can be written does not matter. *)
Lemma pid_file_run (s : vars) tr :
  finishes E (try let* pid := lift (to_str (c_pid h)) in write_file (pidFile H) (CText pid) catch _ => Ret tt)
    s tr tt s (tr ++ [EvSys (FsWriteFile (pidFile H) (CText t))]).
Proof.
  unfold finishes. rewrite pid_text. cbn [lift bind write_file try_catch run].
  by destruct (on_sys _ _ _) as [e|[]].
Qed.

(** What the wait is followed by: the log is read after the last probe. *)
Definition ended (tr0 : trace) : result bool * trace :=
  match first_up E tr0 30 with
  | Some j => (Value true, tr0 ++ rounds (S j))
  | None => (Value false, tr0 ++ rounds 30 ++ [EvSys (FsReadFile (logFile H))])
  end.

Lemma spawn_daemon_run s tr :
  let o := run E (spawn_daemon H) s tr in
  let tr0 := tr ++ [EvSys (FsOpen (logFile H)); EvSys (Spawn (daemonPath H) (daemon_args H));
                    EvSys (FsWriteFile (pidFile H) (CText t))] in
  o_state o = set_daemonProcess (Some h) s /\ (o_result o, o_trace o) = ended tr0.
Proof.
  cbv zeta. unfold spawn_daemon, ended.
  erewrite run_after by apply open_log_run. cbn [negb].
  erewrite run_after by apply spawn_run. cbv beta iota. erewrite run_after by reflexivity.
  cbn [bind unlistened run add_tasks o_state o_result o_trace].
  erewrite run_after by apply pid_file_run. erewrite run_after by apply wait_ready_run.
  rewrite <- !app_assoc. cbn [app].
  destruct (first_up _ _ _) as [j|]; [split; [done|]; by rewrite <- app_assoc|].
  cbn [bind read_file try_catch run]. rewrite <- app_assoc. destruct (on_sys _ _ _); by split.
Qed.
End Start.


(** The desktop application on a Linux machine. *)
Definition linux_app : host :=
  {| h_dirname := "/opt/app"; h_platform := "linux"; h_packaged := false; h_resources := "/opt/app/resources";
     h_user_data := "/home/u/.config/cocaine"; h_env_daemon := None; h_env_wallet := None |}.

Definition daemon_child : child := {| c_id := 0; c_pid := vint 4242 |}.

Definition slept (tr : trace) : bool :=
  existsb (fun e => match e with EvAwait (Sleep _) => true | _ => false end) tr.

(** The daemon answers once the application has waited for it. *)
Definition slow_start : env := {|
  on_sys := fun tr o =>
    match o return sys_answer o with
    | FsExists _ => true
    | FsOpen _ => inr tt
    | Spawn _ _ => inr daemon_child
    | o' => on_sys (web (fun _ => inl ""%string)) tr o'
    end;
  on_async := fun tr o =>
    match o return async_answer o with
    | Fetch _ => inr {| rs_status := if slept tr then 200 else 503; rs_json := inr VNull; rs_complete := true |}
    | o' => on_async (web (fun _ => inl ""%string)) tr o'
    end
|}.


(** ** Stopping the daemon *)

(** What a trace does to other processes, in order. *)
Inductive stopping := Signal (pid : val) (sig : signal) | Command (cmd : string).

Fixpoint stops (tr : trace) : list stopping :=
  match tr with
  | [] => []
  | EvSys (ProcessKill pid sig) :: tr' => Signal pid sig :: stops tr'
  | EvSys (ExecSync cmd) :: tr' => Command cmd :: stops tr'
  | _ :: tr' => stops tr'
  end.

Lemma stops_app t1 t2 : stops (t1 ++ t2) = stops t1 ++ stops t2.
Proof. induction t1 as [|[[]|[]] t1 IH]; simpl; try done; by rewrite IH. Qed.

Lemma trim_dec n : trim (dec_of_Z n) = dec_of_Z n.
Proof.
  unfold trim. destruct (dec_nonempty n) as (c & s & -> & Hc & Hs).
  rewrite trim_start_digit by done.
  assert (He : forall t, string_forall is_digit t = true -> trim_end t = t).
  { induction t as [|a t IH]; [done|]. simpl. intros [Ha Ht]%andb_true_iff. rewrite (IH Ht).
    destruct t; [by rewrite digit_not_space|done]. }
  apply He. simpl. by rewrite Hc, Hs.
Qed.

(** What the pid file holds reads back as the pid that was written to it. *)
Lemma pid_text_roundtrip pid t :
  (0 < pid < 2 ^ 52)%Z -> to_str (vint pid) = inr t -> parseInt10 (trim t) = num_of_Z pid.
Proof.
  intros Hp Ht. assert (t = dec_of_Z pid) as ->.
  { change (to_str (vint pid)) with (inr (A := jserr) (num_to_string (num_of_Z pid))) in Ht.
    rewrite num_to_string_int in Ht by lia. congruence. }
  rewrite trim_dec. by apply parseInt10_dec; lia.
Qed.



(** ** Bounds on every path *)

Definition is_spawn (o : sysop) : nat := match o with Spawn _ _ => 1 | _ => 0 end.
Definition is_fetch (o : asyncop) : nat := match o with Fetch _ => 1 | _ => 0 end.
Definition is_sleep (o : asyncop) : nat := match o with Sleep _ => 1 | _ => 0 end.

(** Counting without regard to crashes. *)
Definition totals (cs : sysop -> nat) (ca : asyncop -> nat) : rules :=
  {| r_sys := cs; r_async := ca; r_admit := fun _ => True; r_hang := fun _ => False; r_crash := True |}.

(** At most [k] of the counted operations from here, whatever happens. *)
Definition at_most {S A} cs ca (k : nat) (p : prog S A) : Prop :=
  forall n, counts (totals cs ca) p n (fun c _ => c <= n + k) (fun c _ => c <= n + k).

Lemma at_most_bind {S A B} cs ca k1 k2 (p : prog S A) (f : A -> prog S B) :
  at_most cs ca k1 p -> (forall a, at_most cs ca k2 (f a)) -> at_most cs ca (k1 + k2) (bind p f).
Proof.
  intros Hp Hf n. apply counts_bind. eapply counts_mono; [| |apply Hp]; cbv beta.
  - intros c a Hc. eapply counts_mono; [| |apply Hf]; cbv beta; intros; lia.
  - intros c e Hc. lia.
Qed.

Section Bounds.
Variable cs : sysop -> nat.
Variable ca : asyncop -> nat.

Lemma isDaemonRunning_at_most : at_most cs ca (ca probe) isDaemonRunning.
Proof. intros n. unfold isDaemonRunning. count_paths; cbn [r_sys r_async totals]; fold probe; lia. Qed.

Lemma wait_ready_at_most n : at_most cs ca (n * (ca (Sleep 1000) + ca probe)) (wait_ready n).
Proof.
  induction n as [|n IH]; [intros m; simpl; lia|]. cbn [wait_ready Nat.mul]. rewrite <- Nat.add_assoc.
  apply at_most_bind; [intros m; count_paths; cbn [r_sys r_async totals]; lia|intros _].
  apply at_most_bind; [apply isDaemonRunning_at_most|]. intros []; [intros m; simpl; lia|apply IH].
Qed.
End Bounds.

Section StartBounds.
Variable H : host.
Variable cs : sysop -> nat.
Variable ca : asyncop -> nat.

(** Only spawns count among the synchronous calls. *)
Hypothesis only_spawns : forall o, is_spawn o = 0 -> cs o = 0.

Let spawn_cost := cs (Spawn (daemonPath H) (daemon_args H)).

Ltac no_cost :=
  cbn [r_sys r_async r_crash totals] in *; try exact I;
  repeat match goal with
         | |- context [cs ?o] => rewrite (only_spawns o eq_refl)
         | Hc : context [cs ?o] |- _ => rewrite (only_spawns o eq_refl) in Hc
         end; lia.

Lemma preflight_at_most : at_most cs ca 0 (preflight H).
Proof. intros n. unfold preflight. count_paths; no_cost. Qed.

Lemma spawn_daemon_at_most :
  at_most cs ca (spawn_cost + 30 * (ca (Sleep 1000) + ca probe)) (spawn_daemon H).
Proof.
  intros n. unfold spawn_daemon, spawn_cost.
  count_paths; try no_cost.
  all: eapply counts_mono; [| |apply wait_ready_at_most]; cbv beta; intros; count_paths; no_cost.
Qed.

Lemma start_daemon_at_most :
  at_most cs ca (ca probe + (spawn_cost + 30 * (ca (Sleep 1000) + ca probe))) (startDaemon H).
Proof.
  unfold startDaemon. apply at_most_bind; [apply isDaemonRunning_at_most|].
  intros []; [intros n; simpl; lia|].
  apply (at_most_bind _ _ 0); [intros n; count_paths; no_cost|]. intros have_dir.
  apply (at_most_bind _ _ 0); [intros n; count_paths; no_cost|]. intros _.
  apply (at_most_bind _ _ 0); [apply preflight_at_most|].
  intros []; [apply spawn_daemon_at_most|intros n; simpl; lia].
Qed.
End StartBounds.

(** C17: On every path, whatever the machine answers, [startDaemon] spawns at most one
    process, waits at most thirty times and probes the daemon at most thirty-one
    times: it always comes to an end. *)
Theorem start_daemon_bounds (H : host) :
  at_most is_spawn (fun _ => 0) 1 (startDaemon H) /\
  at_most (fun _ => 0) is_sleep 30 (startDaemon H) /\
  at_most (fun _ => 0) is_fetch 31 (startDaemon H).
Proof.
  split_and!; apply start_daemon_at_most; by intros [].
Qed.

(** ** The application's start *)

Definition is_mkdir (o : sysop) : nat := match o with FsMkdir _ => 1 | _ => 0 end.
Definition is_window (o : sysop) : nat := match o with OpenWindow _ => 1 | _ => 0 end.

Section Ready.
Variable H : host.
Variable cs : sysop -> nat.

(** Only directories and windows count. *)
Hypothesis others : forall o, is_mkdir o = 0 -> is_window o = 0 -> cs o = 0.

Let made := cs (FsMkdir (getDataPath H)).
Let wallets := cs (FsMkdir (getWalletPath H)).
Let opened := cs (OpenWindow "http://127.0.0.1:8080").
Let R := totals cs (fun _ => 0).

Ltac weigh :=
  count_paths; cbn [r_sys r_async r_crash R totals]; try exact I;
  repeat match goal with |- context [cs ?o] => rewrite (others o eq_refl eq_refl) end;
  fold made wallets opened; rewrite ?Nat.add_0_r; try lia.

Lemma daemon_probe_quiet : quiet R isDaemonRunning.
Proof. intros n. unfold isDaemonRunning. weigh. Qed.

Lemma wait_ready_quiet k : quiet R (wait_ready k).
Proof.
  induction k as [|k IH]; intros n; [done|]. cbn [wait_ready].
  apply counts_bind, counts_await. intros _. rewrite Nat.add_0_r.
  apply counts_bind, counts_quiet; [apply daemon_probe_quiet|]. intros []; [done|apply IH].
Qed.

Lemma preflight_quiet : quiet R (preflight H).
Proof. intros n. unfold preflight. weigh. Qed.

Lemma spawn_daemon_quiet : quiet R (spawn_daemon H).
Proof.
  intros n. unfold spawn_daemon. weigh.
  all: apply counts_quiet; [apply wait_ready_quiet|]; weigh.
Qed.

Lemma ready_counts :
  counts R (on_event H WhenReady) 0
    (fun c _ => opened <= c <= made + wallets + opened)
    (fun c _ => (made <= c \/ wallets <= c) /\ c <= made + wallets).
Proof.
  cbn [on_event]. unfold startDaemon, startServer, createWindow.
  apply counts_bind, counts_bind, counts_quiet; [apply daemon_probe_quiet|].
  intros []; [weigh|]. weigh.
  all: apply counts_quiet; [apply preflight_quiet|]; intros []; [|weigh].
  all: apply counts_quiet; [apply spawn_daemon_quiet|]; intros []; weigh.
Qed.
End Ready.

