(* ===== verification/PlainFacts.v ===== *)
(** * Properties of the release server and of the desktop application's server *)

From Stdlib Require Import ZArith Lia String Ascii List Bool.
From Stdlib Require Import Floats.SpecFloat.
From stdpp Require Import base list strings decidable option relations.
From S2P Require Import Prelude JsNumber JsNumberFacts JsString JsValue Runtime EventLoop Node Wallet WalletFacts PlainServer ReleaseServer DesktopServer.

Local Open Scope js_scope.

(** ** Requests are answered once *)

Section Once.
Variable C : setup.
Variable m : mode.
Variable crash : bool.
Hypothesis may_hang : f_whole (the_fetch C) = true -> m <> Strict.

Ltac plain_counts := count_paths; by eapply hangs_allowed; eauto.

(** Nobody listens to the ['error'] of the wallet RPC's child. *)
Lemma plain_start_silent : crash = true -> silent (responses m crash) (PlainServer.startWalletRpc C).
Proof. intros Hc n. unfold PlainServer.startWalletRpc. count_paths. exact Hc. Qed.

Lemma relay_once r : responds m crash (relay C r).
Proof. unfold responds, relay. plain_counts. Qed.

Lemma plain_info_once : responds m crash (PlainServer.api_info C).
Proof. unfold responds, PlainServer.api_info, PlainServer.daemonRpc. plain_counts. Qed.

Lemma plain_last_block_once : responds m crash (PlainServer.api_last_block C).
Proof. unfold responds, PlainServer.api_last_block, PlainServer.daemonRpc. plain_counts. Qed.

Lemma plain_block_once height : responds m crash (PlainServer.api_block C height).
Proof. unfold responds, PlainServer.api_block, PlainServer.daemonRpc. plain_counts. Qed.
End Once.

Definition release_convertible (r : ReleaseServer.request) : bool :=
  match r with ReleaseServer.PostWalletCreate body => name_converts body | _ => true end.

(** The requests that start the wallet RPC where it does not run. *)
Definition release_may_crash (r : ReleaseServer.request) : bool :=
  match r with
  | ReleaseServer.PostWalletCreate _ | ReleaseServer.PostWalletOpen _ | ReleaseServer.PostWalletRestore _ => true
  | _ => false
  end.

(** C11: Requests to the release server are answered exactly once: on every path of every
    handler along which the awaited operations complete, one response is sent
    and no exception escapes.  There are two exceptions.  A [create] whose name
    carries a [length] that does not convert to a number is rejected without a
    response.  A create, open or restore can be cut short by the ['error'] event
    of a wallet RPC that could not be started, which ends the process. *)
Theorem release_responds_once (dirname : string) (r : ReleaseServer.request) :
  if release_convertible r then responds Strict (release_may_crash r) (ReleaseServer.handler dirname r)
  else rejects (ReleaseServer.handler dirname r).
Proof.
  destruct (release_convertible r) eqn:Hr; [|destruct r; try done; by apply create_rejects].
  pose proof (plain_start_silent (release_setup dirname) Strict true eq_refl) as Hs.
  assert (Hh : f_whole (wallet_fetch (WalletServer := release_wallet dirname)) = true -> Strict <> Strict) by done.
  destruct r; simpl ReleaseServer.handler; simpl release_may_crash.
  - by apply plain_info_once.
  - by apply plain_last_block_once.
  - by apply plain_block_once.
  - by apply relay_once.
  - by apply relay_once.
  - by apply relay_once.
  - by apply list_once.
  - by apply create_once.
  - by apply open_wallet_once.
  - by apply restore_once.
  - by apply balance_once.
  - by apply address_once.
  - by apply transfers_once.
  - by apply send_plain_once.
  - by apply refresh_once.
  - by apply close_once.
  - by apply status_once.
Qed.

Definition desktop_convertible (r : DesktopServer.request) : bool :=
  match r with DesktopServer.PostWalletCreate body => name_converts body | _ => true end.

(** The requests that start the wallet RPC where it does not run, and those whose
    handlers wait for the whole body of another server's response. *)
Definition desktop_may_crash (r : DesktopServer.request) : bool :=
  match r with
  | DesktopServer.PostWalletCreate _ | DesktopServer.PostWalletOpen _ | DesktopServer.PostWalletRestore _ => true
  | _ => false
  end.

Definition desktop_may_hang (r : DesktopServer.request) : bool :=
  match r with DesktopServer.GetWalletList => false | _ => true end.

Section DesktopOnce.
Variable H : DesktopServer.host.
Variable m : mode.
Variable crash : bool.
Hypothesis not_strict : f_whole desktop_fetch = true -> m <> Strict.

Ltac desktop_counts := count_paths; by eapply hangs_allowed; eauto.

Lemma consolidate_counts error (X : nat -> jserr -> Prop) :
  (forall e, X 0 e) ->
  counts (responses m crash) (consolidate error) 0 (fun c _ => c = 1) X.
Proof. intros HX. unfold consolidate, failure. count_paths; first [apply HX | by eapply hangs_allowed; eauto]. Qed.

Lemma desktop_send_once body : responds m crash (DesktopServer.api_wallet_send body).
Proof.
  unfold responds, DesktopServer.api_wallet_send, atomic_amount, needs_consolidation,
    message_includes, failure, send_success, coins.
  count_paths; try (by eapply hangs_allowed; eauto).
  all: apply consolidate_counts; intros e; count_paths.
Qed.

Lemma desktop_connections_once : responds m crash api_connections.
Proof. unfold responds, api_connections. desktop_counts. Qed.

Lemma desktop_block_count_once : responds m crash (api_block_count H).
Proof. unfold responds, api_block_count, PlainServer.daemonRpc. desktop_counts. Qed.

Lemma desktop_coinbase_once : responds m crash (api_coinbase_tx_sum H).
Proof. unfold responds, api_coinbase_tx_sum, PlainServer.daemonRpc. desktop_counts. Qed.

Lemma desktop_blocks_range_once start stop : responds m crash (api_blocks_range H start stop).
Proof. unfold responds, api_blocks_range, PlainServer.daemonRpc. desktop_counts. Qed.

Lemma desktop_seed_info_once : responds m crash api_seed_info.
Proof. unfold responds, api_seed_info. desktop_counts. Qed.
End DesktopOnce.

Lemma desktop_once (H : DesktopServer.host) (m : mode) (r : DesktopServer.request) :
  desktop_convertible r = true -> (desktop_may_hang r = true -> m <> Strict) ->
  responds m (desktop_may_crash r) (DesktopServer.handler H r).
Proof.
  intros Hr Hm. pose proof (plain_start_silent (desktop_setup H) m true eq_refl) as Hs.
  destruct r; simpl DesktopServer.handler; simpl desktop_may_crash; simpl in Hm.
  - by apply plain_info_once.
  - by apply plain_last_block_once.
  - by apply plain_block_once.
  - by apply relay_once.
  - by apply relay_once.
  - by apply relay_once.
  - by apply list_once.
  - by apply create_once.
  - by apply open_wallet_once.
  - by apply restore_once.
  - by apply balance_once.
  - by apply address_once.
  - by apply desktop_connections_once.
  - by apply relay_once.
  - by apply desktop_block_count_once.
  - by apply desktop_coinbase_once.
  - by apply desktop_blocks_range_once.
  - by apply desktop_seed_info_once.
  - by apply transfers_once.
  - by apply desktop_send_once.
  - by apply refresh_once.
  - by apply close_once.
  - by apply status_once.
Qed.

(** C10: Requests to the desktop application's server are answered exactly once.  On every path
    of every handler along which the awaited operations complete and the bodies
    of the other servers' responses arrive to their end, one response is sent
    and no exception escapes; and if a body is cut off, the request either is
    answered once all the same or waits for ever with nothing sent.  The list of
    wallets asks no other server and never waits so.  There are two exceptions:
    a [create] whose name carries a [length] that does not convert to a number
    is rejected without a response, and a create, open or restore can be cut
    short by the ['error'] event of a wallet RPC that could not be started. *)
Theorem desktop_responds_once (H : DesktopServer.host) (r : DesktopServer.request) :
  let p := DesktopServer.handler H r in
  if desktop_convertible r then
    if desktop_may_hang r
    then responds Whole (desktop_may_crash r) p /\ responds CutOff (desktop_may_crash r) p
    else responds Strict (desktop_may_crash r) p
  else rejects p.
Proof.
  cbv zeta. destruct (desktop_convertible r) eqn:Hr; [|destruct r; try done; by apply create_rejects].
  destruct (desktop_may_hang r) eqn:Hh; [split|]; apply desktop_once; congruence.
Qed.

(** ** Where the desktop application connects to *)

(** A URL of this machine, or of the port of the seed node that the application
    asks for the height of the network. *)
Definition known_url (url : string) : Prop :=
  local_url url \/ authority url = Some "138.68.128.104:19081"%string.

Section DesktopReach.
Variable H : DesktopServer.host.

Abbreviation reaches p := (always (fun _ => True) (fetch_is known_url) p).

Ltac reach_paths :=
  always_paths;
  first [exact I | left; left; reflexivity | left; right; reflexivity | right; reflexivity].

Lemma relay_known r : known_url (strip_query (rq_url r)) -> reaches (relay (desktop_setup H) r).
Proof. intros Hr. unfold relay. always_paths; first [exact I | exact Hr]. Qed.

Lemma desktop_start_known : reaches (PlainServer.startWalletRpc (desktop_setup H)).
Proof. unfold PlainServer.startWalletRpc. reach_paths. Qed.

Lemma desktop_network_known r :
  match r with
  | DesktopServer.GetConnections | DesktopServer.GetBlockCount | GetCoinbaseTxSum | GetBlocksRange _ _
  | GetSeedInfo | DesktopServer.GetInfo | DesktopServer.GetLastBlock | DesktopServer.GetBlock _ => True
  | _ => False
  end -> reaches (DesktopServer.handler H r).
Proof.
  destruct r; try done; intros _; simpl DesktopServer.handler.
  - unfold DesktopServer.api_info, PlainServer.api_info, PlainServer.daemonRpc. reach_paths.
  - unfold DesktopServer.api_last_block, PlainServer.api_last_block, PlainServer.daemonRpc. reach_paths.
  - unfold DesktopServer.api_block, PlainServer.api_block, PlainServer.daemonRpc. reach_paths.
  - unfold api_connections. reach_paths.
  - unfold api_block_count, PlainServer.daemonRpc. reach_paths.
  - unfold api_coinbase_tx_sum, PlainServer.daemonRpc. reach_paths.
  - unfold api_blocks_range, PlainServer.daemonRpc. reach_paths.
  - unfold api_seed_info. reach_paths.
Qed.
End DesktopReach.

(** C13: The desktop application's server requests nothing but the daemon and the wallet RPC
    on this machine and the project's seed node: on every path of every handler
    the authority of each requested URL is 127.0.0.1 with the daemon's or the
    wallet RPC's port, or 138.68.128.104 with the daemon's. *)
Theorem desktop_known_hosts (H : DesktopServer.host) (r : DesktopServer.request) :
  always (fun _ => True) (fetch_is known_url) (DesktopServer.handler H r).
Proof.
  pose proof (desktop_start_known H) as Hs.
  assert (Hw : forall body, fetch_is known_url (Fetch (f_request desktop_fetch (post_json WALLET_RPC body))))
    by (intros body; left; right; reflexivity).
  assert (Hb : fetch_is known_url Body) by exact I.
  destruct r; try (by apply desktop_network_known); simpl DesktopServer.handler.
  - apply relay_known. left; left; reflexivity.
  - apply relay_known. left; left; reflexivity.
  - apply relay_known. left; left; reflexivity.
  - by apply list_always.
  - by apply create_always.
  - by apply open_always.
  - by apply restore_always.
  - by apply balance_always.
  - by apply address_always.
  - apply relay_known. left; left; reflexivity.
  - by apply transfers_always.
  - unfold DesktopServer.api_wallet_send, atomic_amount, needs_consolidation, message_includes,
      consolidate, failure, send_success, coins.
    always_paths; first [exact I | apply Hw].
  - by apply refresh_always.
  - by apply close_always.
  - by apply status_always.
Qed.

(** ** One wallet RPC process

    The invariant: a process whose ['close'] has not been delivered is the one
    [walletRpcProcess] refers to, and a process that is closed has ended. *)

Definition one_wallet_rpc (s : PlainServer.vars) (w : world) : Prop :=
  (forall i p, w !! i = Some p -> pr_closed p = false ->
     exists h, walletRpcProcess s = Some h /\ c_id h = i) /\
  (forall i p, w !! i = Some p -> pr_closed p = true -> pr_alive p = false).

Section OneRpc.
Variable C : setup.

Lemma one_spawned s w h p :
  walletRpcProcess s = None -> c_id h = length w -> pr_closed p = false ->
  one_wallet_rpc s w -> one_wallet_rpc (set_walletRpcProcess (Some h) s) (w ++ [p]).
Proof.
  intros Hnone Hh Hp [Hopen Hdead]. split; intros i q Hi Hq;
    apply lookup_spawned in Hi as [Hi|[-> ->]]; eauto; [|congruence].
  destruct (Hopen _ _ Hi Hq) as (h' & E & _). congruence.
Qed.

(** The ['close'] listener: the child was the tracked one. *)
Lemma one_closed s w h p :
  one_wallet_rpc s w -> w !! c_id h = Some p -> pr_alive p = false -> pr_closed p = false ->
  one_wallet_rpc (set_walletRpcProcess None s) (<[c_id h := set_closed p]> w).
Proof.
  intros [Hopen Hdead] Hp Ha Hc. destruct (Hopen _ _ Hp Hc) as (h0 & E0 & Eid).
  split; intros i q Hi Hq; apply list_lookup_insert_Some in Hi as [(<- & <- & _)|[Hne Hi]]; eauto.
  - done.
  - destruct (Hopen _ _ Hi Hq) as (h' & E & E'). naive_solver.
Qed.

(** The ['error'] event of a child that did not start. *)
Lemma one_errored s w i p :
  one_wallet_rpc s w -> w !! i = Some p -> one_wallet_rpc s (<[i := set_errored p]> w).
Proof.
  intros [Hopen Hdead] Hp.
  split; intros j q Hj Hq; apply list_lookup_insert_Some in Hj as [(<- & <- & _)|[Hne Hj]]; eauto.
  exact (Hdead _ _ Hp Hq).
Qed.

Lemma start_stable_one : stable one_wallet_rpc (PlainServer.startWalletRpc C).
Proof.
  intros s w HI. unfold PlainServer.startWalletRpc. apply yields_bind. simpl.
  destruct (walletRpcProcess s) as [h|] eqn:E; [exact HI|].
  intros a w' Hspawn. destruct a as [e|h]; simpl in Hspawn.
  { by subst w'. }
  assert (H' : one_wallet_rpc (set_walletRpcProcess (Some h) s) w').
  { destruct Hspawn as [Hid [(pid & _ & ->)|[_ ->]]]; by apply one_spawned. }
  simpl. split; [|split].
  - intros [] s1 w1 w2 H1 (p & Hp & _ & _ & ->). by apply one_errored.
  - intros [] s1 w1 w2 H1 (p & Hp & Ha & Hc & ->). by apply one_closed.
  - split; [done|]. by intros [] s1 w1 w2 H1 ->.
Qed.

Lemma set_stable_one name s w :
  one_wallet_rpc s w -> one_wallet_rpc (PlainServer.set_currentWalletName name s) w.
Proof. done. Qed.

Lemma relay_stable r : stable one_wallet_rpc (relay C r).
Proof. unfold relay. stable_paths. Qed.

Lemma plain_info_stable : stable one_wallet_rpc (PlainServer.api_info C).
Proof. unfold PlainServer.api_info, PlainServer.daemonRpc. stable_paths. Qed.

Lemma plain_last_block_stable : stable one_wallet_rpc (PlainServer.api_last_block C).
Proof. unfold PlainServer.api_last_block, PlainServer.daemonRpc. stable_paths. Qed.

Lemma plain_block_stable height : stable one_wallet_rpc (PlainServer.api_block C height).
Proof. unfold PlainServer.api_block, PlainServer.daemonRpc. stable_paths. Qed.

Lemma world_step_one s w w' : one_wallet_rpc s w -> world_step w w' -> one_wallet_rpc s w'.
Proof.
  intros [Hopen Hdead] (i & p & Hp & Ha & ->).
  split; intros j q Hj Hq; apply list_lookup_insert_Some in Hj as [(-> & <- & _)|[Hne Hj]]; eauto.
Qed.

(** Ctrl-C: a kill marks the child and changes nothing else. *)
Lemma sigint_stable : stable one_wallet_rpc PlainServer.on_sigint.
Proof.
  intros s w HI. unfold PlainServer.on_sigint. apply yields_bind. simpl.
  destruct (walletRpcProcess s) as [h|] eqn:E; [|exact HI].
  intros [] w' ->; [|exact HI]. destruct HI as [Hopen Hdead]. split; intros i p Hi Hp.
  all: apply lookup_killed in Hi as (q & Hq & Ec & Ea); rewrite ?Ea; rewrite Ec in Hp; eauto.
Qed.

Lemma listen_stable : stable one_wallet_rpc (PlainServer.on_listen C).
Proof. unfold PlainServer.on_listen. stable_paths. apply start_stable_one. Qed.
End OneRpc.

(** The inputs of a server: a request, or Ctrl-C. *)
Definition input (R : Type) : Type := R + unit.
Definition serve {R} (h : R -> prog PlainServer.vars unit) (sigint : prog PlainServer.vars unit)
    (i : input R) : prog PlainServer.vars unit :=
  match i with inl r => h r | inr _ => sigint end.

(** A server just before its [listen] callback. *)
Definition boot (listen : prog PlainServer.vars unit) : config :=
  Config PlainServer.init_vars [] [Task (Sleep 0) (fun _ => listen)] true.

Definition at_most_one_alive (c : config (S := PlainServer.vars)) : Prop :=
  forall i p, g_world c !! i = Some p -> pr_alive p = true ->
    exists h, walletRpcProcess (g_vars c) = Some h /\ c_id h = i.

Lemma one_reachable {R} (h : R -> prog PlainServer.vars unit) listen c :
  (forall r, stable one_wallet_rpc (h r)) -> stable one_wallet_rpc listen ->
  rtc (step (serve h PlainServer.on_sigint)) (boot listen) c -> at_most_one_alive c.
Proof.
  intros Hh Hl Hc. eapply (invariant_reachable _ one_wallet_rpc) in Hc as [[Hopen Hdead] _].
  - intros i p Hi Ha. apply (Hopen _ _ Hi). destruct (pr_closed p) eqn:E; [|done].
    rewrite (Hdead _ _ Hi E) in Ha. done.
  - intros [r|[]] s w HI; [by apply Hh|by apply sigint_stable].
  - apply world_step_one.
  - split; [by split|]. constructor; [|done]. intros [] s w w' HI ->. by apply Hl.
Qed.

(** C4: The release server never runs two wallet RPC processes: whatever requests,
    child terminations and signals interleave, a process that is alive is the
    one [walletRpcProcess] refers to. *)
Theorem release_one_wallet_rpc (dirname : string) (c : config) :
  rtc (step (serve (ReleaseServer.handler dirname) PlainServer.on_sigint))
      (boot (ReleaseServer.on_listen dirname)) c ->
  at_most_one_alive c.
Proof.
  pose proof (start_stable_one (release_setup dirname)) as Hs.
  pose proof set_stable_one as Hw. apply one_reachable.
  - intros []; simpl ReleaseServer.handler.
    + by apply plain_info_stable.
    + by apply plain_last_block_stable.
    + by apply plain_block_stable.
    + by apply relay_stable.
    + by apply relay_stable.
    + by apply relay_stable.
    + by apply list_stable.
    + by apply create_stable.
    + by apply open_stable.
    + by apply restore_stable.
    + by apply balance_stable.
    + by apply address_stable.
    + by apply transfers_stable.
    + by apply send_plain_stable.
    + by apply refresh_stable.
    + by apply close_stable.
    + by apply status_stable.
  - apply stable_bind; [apply listen_stable|intros _].
    intros s w HI. split; [|done]. by intros [] s1 w1 w2 H1 ->.
Qed.

(** The child of the examples. *)
Definition rpc_child : child := {| c_id := 0; c_pid := vint 4242 |}.

(** The server after its [listen] callback has spawned the wallet RPC. *)
Definition started (C : setup) (listen_rest : list (task PlainServer.vars)) : config :=
  Config (set_walletRpcProcess (Some rpc_child) PlainServer.init_vars)
    [new_proc (WALLET_RPC_BIN C) true]
    ([Task (OnError rpc_child) (fun _ => Throw "Unhandled 'error' event"%string);
      Task (OnClose rpc_child) (fun _ => modify (set_walletRpcProcess None))] ++ listen_rest) true.

Lemma release_starts dirname :
  exists rest, rtc (step (serve (ReleaseServer.handler dirname) PlainServer.on_sigint))
    (boot (ReleaseServer.on_listen dirname)) (started (release_setup dirname) rest).
Proof.
  eexists. eapply rtc_l; [|apply rtc_refl].
  eapply (step_continue _ (Sleep 0) (fun _ => ReleaseServer.on_listen dirname) tt _ _ [] [] []); [done|].
  apply runs_get. eapply (runs_sys (Spawn _ _) _ (inr rpc_child)).
  { split; [done|]. left. by exists 4242%Z. }
  apply runs_get, runs_put, runs_fork, runs_fork. apply runs_await.
Qed.

Lemma release_one_wallet_rpc_witness :
  exists c, pr_alive <$> g_world c = [true] /\ at_most_one_alive c.
Proof.
  destruct (release_starts "/opt/cocaine/dashboard") as [rest Hr].
  exists (started (release_setup "/opt/cocaine/dashboard") rest). split; [reflexivity|].
  exact (release_one_wallet_rpc _ _ Hr).
Defined.

Section DesktopStable.
Variable H : DesktopServer.host.

Lemma desktop_send_stable body : stable one_wallet_rpc (DesktopServer.api_wallet_send body).
Proof.
  unfold DesktopServer.api_wallet_send, atomic_amount, needs_consolidation, message_includes,
    consolidate, failure, send_success, coins. stable_paths.
Qed.

Lemma desktop_connections_stable : stable one_wallet_rpc api_connections.
Proof. unfold api_connections. stable_paths. Qed.

Lemma desktop_block_count_stable : stable one_wallet_rpc (api_block_count H).
Proof. unfold api_block_count, PlainServer.daemonRpc. stable_paths. Qed.

Lemma desktop_coinbase_stable : stable one_wallet_rpc (api_coinbase_tx_sum H).
Proof. unfold api_coinbase_tx_sum, PlainServer.daemonRpc. stable_paths. Qed.

Lemma desktop_blocks_range_stable start stop : stable one_wallet_rpc (api_blocks_range H start stop).
Proof. unfold api_blocks_range, PlainServer.daemonRpc. stable_paths. Qed.

Lemma desktop_seed_info_stable : stable one_wallet_rpc api_seed_info.
Proof. unfold api_seed_info. stable_paths. Qed.
End DesktopStable.

(** C5: The desktop application's server never runs two wallet RPC processes
    either, whatever requests, child terminations and signals interleave. *)
Theorem desktop_one_wallet_rpc (H : DesktopServer.host) (c : config) :
  rtc (step (serve (DesktopServer.handler H) PlainServer.on_sigint))
      (boot (DesktopServer.on_listen H)) c ->
  at_most_one_alive c.
Proof.
  pose proof (start_stable_one (desktop_setup H)) as Hs.
  pose proof set_stable_one as Hw. apply one_reachable; [|apply listen_stable].
  intros []; simpl DesktopServer.handler.
  - by apply plain_info_stable.
  - by apply plain_last_block_stable.
  - by apply plain_block_stable.
  - by apply relay_stable.
  - by apply relay_stable.
  - by apply relay_stable.
  - by apply list_stable.
  - by apply create_stable.
  - by apply open_stable.
  - by apply restore_stable.
  - by apply balance_stable.
  - by apply address_stable.
  - apply desktop_connections_stable.
  - by apply relay_stable.
  - apply desktop_block_count_stable.
  - apply desktop_coinbase_stable.
  - apply desktop_blocks_range_stable.
  - apply desktop_seed_info_stable.
  - by apply transfers_stable.
  - apply desktop_send_stable.
  - by apply refresh_stable.
  - by apply close_stable.
  - by apply status_stable.
Qed.

(** A desktop installation for the examples. *)
Definition desktop_host : DesktopServer.host :=
  {| DesktopServer.h_dirname := "/opt/app"; DesktopServer.h_platform := "linux"; h_resources := None;
     h_env_wallet_dir := Some "/home/u/.config/cocaine/wallets"%string;
     h_env_wallet_bin := Some "/opt/app/bin/cocaine-wallet-rpc"%string |}.

Lemma desktop_starts H :
  exists rest, rtc (step (serve (DesktopServer.handler H) PlainServer.on_sigint))
    (boot (DesktopServer.on_listen H)) (started (desktop_setup H) rest).
Proof.
  eexists. eapply rtc_l; [|apply rtc_refl].
  eapply (step_continue _ (Sleep 0) (fun _ => DesktopServer.on_listen H) tt _ _ [] [] []); [done|].
  apply runs_get. eapply (runs_sys (Spawn _ _) _ (inr rpc_child)).
  { split; [done|]. left. by exists 4242%Z. }
  apply runs_get, runs_put, runs_fork, runs_fork. apply runs_await.
Qed.

Lemma desktop_one_wallet_rpc_witness :
  exists c, pr_alive <$> g_world c = [true] /\ at_most_one_alive c.
Proof.
  destruct (desktop_starts desktop_host) as [rest Hr].
  exists (started (desktop_setup desktop_host) rest). split; [reflexivity|].
  exact (desktop_one_wallet_rpc _ _ Hr).
Defined.
