(* ===== verification/SendFacts.v ===== *)
(** * Sending coins

    What the three [/api/wallet/send] handlers ask the wallet to pay. *)

From Stdlib Require Import ZArith Lia String Ascii List Bool.
From stdpp Require Import base list strings decidable option.
From S2P Require Import Prelude JsNumber JsNumberFacts JsString JsValue Runtime Node Wallet WalletFacts DashboardServer PlainServer ReleaseServer DesktopServer.

Local Open Scope js_scope.

(** The handler's first action is a [transfer] of [a] atomic units to [address]. *)
Definition transfers {S} (address : val) (a : Z) (p : prog S unit) : Prop :=
  exists r amount k, p = Await (Fetch r) k /\ pays address amount r /\ num_to_Z amount = Some a.

Lemma desktop_send_starts address amount payment_id :
  truthy address = true -> truthy (str amount) = true ->
  exists k, DesktopServer.api_wallet_send (send_body address amount payment_id) =
    Await (Fetch (post_json WALLET_RPC (rpc_body "transfer"
      (transfer_params 16 address payment_id (atomic (parseFloat amount)))))) k.
Proof.
  intros Ha Hm. unfold DesktopServer.api_wallet_send.
  change (field "address" (send_body address amount payment_id)) with address.
  change (field "amount" (send_body address amount payment_id)) with (str amount).
  rewrite Ha, Hm. eexists. reflexivity.
Qed.

Lemma decimal_text_truthy i k f : truthy (str (decimal_text i k f)) = true.
Proof. unfold decimal_text. destruct (dec_nonempty i) as (c & s & -> & _). done. Qed.

Section Amounts.
Variable H : DashboardServer.host.
Variable dirname : string.

(** The three servers' first action is a transfer of the same amount. *)
Definition all_transfer (address : val) (a : Z) (body : fields) : Prop :=
  transfers address a (DashboardServer.api_wallet_send H body) /\
  transfers address a (ReleaseServer.api_wallet_send dirname body) /\
  transfers address a (DesktopServer.api_wallet_send body).

Lemma send_transfers address amount payment_id a :
  truthy address = true -> truthy (str amount) = true ->
  num_to_Z (atomic (parseFloat amount)) = Some a ->
  all_transfer address a (send_body address amount payment_id).
Proof.
  intros Ha Ht Hnum.
  destruct (send_plain_starts (WalletServer0 := DashboardServer.wallet_server H)
    (fun _ => eq_refl) 11 address amount payment_id Ha Ht) as [k1 H1].
  destruct (send_plain_starts (WalletServer0 := PlainServer.wallet_server (release_setup dirname))
    (fun _ => eq_refl) 16 address amount payment_id Ha Ht) as [k2 H2].
  destruct (desktop_send_starts address amount payment_id Ha Ht) as [k3 H3].
  split_and!; eexists _, _, _; (split; [eassumption|]); (split; [by eexists _, _|exact Hnum]).
Qed.
End Amounts.

(** C1: A client that sends the amount [i.f], written with [k] decimals, to an address
    has the wallet pay that address the amount in atomic units or one unit less,
    and the request is the first thing each of the three servers does.  The
    amounts range over everything below 4503.599 coins. *)
Theorem send_amount (H : DashboardServer.host) (dirname : string) (i : Z) (k : nat) (f : Z)
    (address payment_id : val) :
  truthy address = true ->
  (0 <= i)%Z -> 0 < k <= 12 -> (0 <= f < 10 ^ Z.of_nat k)%Z ->
  (0 < i * 10 ^ 12 + f * 10 ^ (12 - Z.of_nat k) < 2 ^ 52)%Z ->
  let body := send_body address (decimal_text i k f) payment_id in
  let exact := (i * 10 ^ 12 + f * 10 ^ (12 - Z.of_nat k))%Z in
  exists a, (exact - 1 <= a <= exact)%Z /\ all_transfer H dirname address a body.
Proof.
  intros Ha Hi Hk Hf HN body exact.
  destruct (atomic_decimal_text i k f Hi Hk Hf HN) as (a & Hnum & Hbounds & _).
  exists a. split; [done|]. apply send_transfers; [done|apply decimal_text_truthy|done].
Qed.

(** One coin and a quarter. *)
Lemma send_amount_witness :
  exists a, (1250000000000 - 1 <= a <= 1250000000000)%Z /\
    transfers (str "4Wallet") a (DesktopServer.api_wallet_send (send_body (str "4Wallet") "1.25" VUndef)).
Proof.
  destruct (send_amount {| DashboardServer.h_dirname := ""; DashboardServer.h_platform := "linux"; h_cpus := 8 |}
    "" 1 2 25 (str "4Wallet") VUndef) as (a & Ha & _ & _ & Ht); try done; try lia.
  exists a. split; [exact Ha|exact Ht].
Defined.



(** Other amounts can come out one unit short: 8.2 coins do. *)
Example send_one_short :
  transfers (str "4Wallet") (82 * 10 ^ 11 - 1)
    (DesktopServer.api_wallet_send (send_body (str "4Wallet") "8.2" VUndef)).
Proof. eexists _, _, _. split; [reflexivity|]. split; [by eexists _, _|by vm_compute]. Qed.

(** ** At most one payment per request *)

Lemma consolidate_no_transfer error n (X : nat -> jserr -> Prop) :
  n <= 1 -> (forall e, X n e) ->
  counts payments (consolidate error) n (fun c _ => c <= 1) X.
Proof.
  intros Hn HX. unfold consolidate, failure, res_json, respond. count_paths.
  all: cbn; rewrite ?Nat.add_0_r; auto.
Qed.

Lemma desktop_send_pays_once body : pays_at_most_once (DesktopServer.api_wallet_send body).
Proof.
  unfold pays_at_most_once, DesktopServer.api_wallet_send, atomic_amount, needs_consolidation,
    message_includes, failure, send_success, coins, res_json, respond.
  count_paths.
  all: try (cbn; lia).
  all: apply consolidate_no_transfer; [cbn; lia|]; intros e; count_paths; cbn; lia.
Qed.

(** C2: A send request pays at most once on every path of the three servers: whatever
    the wallet answers, also where it does not answer and when the desktop
    application goes on to consolidate outputs, no second [transfer] follows the
    first. *)
Theorem send_pays_at_most_once (H : DashboardServer.host) (dirname : string) (body : fields) :
  pays_at_most_once (DashboardServer.api_wallet_send H body) /\
  pays_at_most_once (ReleaseServer.api_wallet_send dirname body) /\
  pays_at_most_once (DesktopServer.api_wallet_send body).
Proof.
  split_and!; [by apply send_plain_one_transfer..|apply desktop_send_pays_once].
Qed.
