(* ===== verification/I18n.v ===== *)
(** * src/common/i18n.cpp

    The loader of compiled catalogues and the lookup of translations.  Bytes
    are integers; a read outside the file is a value of the model, so that its
    absence is a theorem. *)

From Stdlib Require Import ZArith Lia String Ascii List Bool.
From stdpp Require Import base list gmap strings decidable option.
From S2P Require Import Prelude JsString.

Local Open Scope Z_scope.

Abbreviation bytes := (list Z).

Fixpoint bytes_of (s : string) : bytes :=
  match s with EmptyString => [] | String c s' => code c :: bytes_of s' end.

(** ** The language *)

Definition MAX_LANGUAGE_SIZE : nat := 16.

(** [s.substr(0, s.find(c))]. *)
Fixpoint before (c : ascii) (s : string) : string :=
  match s with
  | EmptyString => EmptyString
  | String a s' => if Ascii.eqb a c then EmptyString else String a (before c s')
  end.

Definition language_char (c : ascii) : bool :=
  (65 <=? code c) && (code c <=? 90) || (97 <=? code c) && (code c <=? 122) ||
  existsb (Ascii.eqb c) ["_"; "-"; "."; "@"]%char.

(** [tolower] in the C locale. *)
Definition tolower (c : ascii) : ascii :=
  if (65 <=? code c) && (code c <=? 90) then ascii_of_Z (code c + 32) else c.

Fixpoint string_map (f : ascii -> ascii) (s : string) : string :=
  match s with EmptyString => s | String c s' => String (f c) (string_map f s') end.

(** [!e || !*e]. *)
Definition env_or (e : option string) (other : string) : string :=
  match e with
  | Some s => if String.eqb s "" then other else s
  | None => other
  end.

Definition i18n_get_language (LANG LC_ALL : option string) : string :=
  let e := env_or LANG (env_or LC_ALL "en") in
  let language := before "@" (before "." e) in
  if negb (string_forall language_char language) then "en"%string
  else
    let language := string_map tolower language in
    if (MAX_LANGUAGE_SIZE <? String.length language)%nat then "en"%string else language.

(** ** Reading the file *)

Definition byte (data : bytes) (i : Z) : option Z := data !! Z.to_nat i.

Definition be32 (data : bytes) (i : Z) : option Z :=
  a ← byte data i; b ← byte data (i + 1); c ← byte data (i + 2); d ← byte data (i + 3);
  Some (Z.lor (Z.lor (Z.lor (Z.shiftl a 24) (Z.shiftl b 16)) (Z.shiftl c 8)) d).

(** The [len] bytes at [i], when they are all in the file. *)
Definition span (data : bytes) (i len : Z) : option bytes :=
  if i + len <=? Z.of_nat (length data) then Some (take (Z.to_nat len) (drop (Z.to_nat i) data)) else None.

(** The bytes that [utf16] appends for a code: each is truncated to a char. *)
Definition put_code (c : Z) : bytes :=
  let char x := x mod 256 in
  if c <=? 0x7f then [char c]
  else if c <=? 0x7ff then
    [char (Z.lor 0xc0 (Z.shiftr c 6)); char (Z.lor 0x80 (Z.land c 0x3f))]
  else if c <=? 0xffff then
    [char (Z.lor 0xe0 (Z.shiftr c 12)); char (Z.lor 0x80 (Z.land (Z.shiftr c 6) 0x3f));
     char (Z.lor 0x80 (Z.land c 0x3f))]
  else
    [char (Z.lor 0xf0 (Z.shiftr c 18)); char (Z.lor 0x80 (Z.land (Z.shiftr c 12) 0x3f));
     char (Z.lor 0x80 (Z.land (Z.shiftr c 6) 0x3f)); char (Z.lor 0x80 (Z.land c 0x3f))].

Definition unit16 (b0 b1 : Z) : Z := Z.lor (Z.shiftl b0 8) b1.

(** UTF-16 to UTF-8; an odd last byte is dropped. *)
Fixpoint utf16 (data : bytes) : bytes :=
  match data with
  | b0 :: b1 :: rest =>
      let c := unit16 b0 b1 in
      match rest with
      | n0 :: n1 :: rest' =>
          if (0xd800 <=? c) && (c <=? 0xdbfff) then
            let next := unit16 n0 n1 in
            if (0xdc00 <=? next) && (next <=? 0xdfff)
            then put_code ((Z.shiftl c 10 + next - 0x35dfc00) mod 2 ^ 32) ++ utf16 rest'
            else put_code c ++ utf16 rest
          else put_code c ++ utf16 rest
      | _ => put_code c ++ utf16 rest
      end
  | _ => []
  end.

(** [utf8]: the bytes are taken as they are. *)
Definition utf8 (data : bytes) : bytes := data.

(** ** The parser *)

(** How a part of the parser ends: done, with [return -1], with a read outside
    the file, or with the model's fuel used up. *)
Inductive ending := Done | BadFormat | OutOfBounds | OutOfFuel.

Definition qm_magic : bytes :=
  [0x3c; 0xb8; 0x64; 0x18; 0xca; 0xef; 0x9c; 0x95; 0xcd; 0x21; 0x1c; 0xbf; 0x60; 0xa1; 0xbd; 0xdd].

(** [(uint32_t)-1], which stands for a chunk that was not found. *)
Definition unset : Z := 0xffffffff.

(** A [size_t] assigned to a [uint32_t]. *)
Definition to_uint32 (n : Z) : Z := n mod 2 ^ 32.

(** What the scan of the chunks found. *)
Record index := { offsets_idx : Z; num_messages : Z; messages_idx : Z }.

Definition init_index : index := {| offsets_idx := unset; num_messages := unset; messages_idx := unset |}.

Definition note_chunk (chunk_type idx chunk_size : Z) (x : index) : index :=
  if chunk_type =? 0x42
  then {| offsets_idx := to_uint32 idx; num_messages := chunk_size / 8; messages_idx := messages_idx x |}
  else if chunk_type =? 0x69
  then {| offsets_idx := offsets_idx x; num_messages := num_messages x; messages_idx := to_uint32 idx |}
  else x.

Section Parser.
Variable data : bytes.

Definition datalen : Z := Z.of_nat (length data).

(** A chunk of this size does not fit between [idx] and the end. *)
Definition too_long (idx chunk_size : Z) : bool :=
  (datalen <=? chunk_size) || (datalen - chunk_size <? idx).

Fixpoint scan_chunks (fuel : nat) (idx : Z) (x : index) : ending * index :=
  match fuel with
  | O => (OutOfFuel, x)
  | S fuel' =>
      if idx <? datalen then
        if datalen <? idx + 5 then (BadFormat, x)
        else
          match byte data idx, be32 data (idx + 1) with
          | Some chunk_type, Some chunk_size =>
              let idx := idx + 5 in
              if too_long idx chunk_size then (BadFormat, x)
              else scan_chunks fuel' (idx + chunk_size) (note_chunk chunk_type idx chunk_size x)
          | _, _ => (OutOfBounds, x)
          end
      else (Done, x)
  end.

(** The variables of the second loop and the map it fills. *)
Record loader := {
  l_context : bytes;
  l_source : bytes;
  l_translation : bytes;
  l_entries : gmap bytes bytes
}.

Definition entry_key (context source : bytes) : bytes := context ++ [0] ++ source.

(** The end of a message: insert the entry and clear the variables. *)
Definition end_entry (l : loader) : loader :=
  {| l_context := []; l_source := []; l_translation := [];
     l_entries := <[entry_key (l_context l) (l_source l) := l_translation l]> (l_entries l) |}.

Definition note_field (chunk_type : Z) (d : bytes) (l : loader) : loader :=
  if chunk_type =? 0x03 then
    {| l_context := l_context l; l_source := l_source l; l_translation := utf16 d; l_entries := l_entries l |}
  else if chunk_type =? 0x06 then
    {| l_context := l_context l; l_source := utf8 d; l_translation := l_translation l; l_entries := l_entries l |}
  else if chunk_type =? 0x07 then
    {| l_context := utf8 d; l_source := l_source l; l_translation := l_translation l; l_entries := l_entries l |}
  else l.

(** The [while (1)] over the fields of one message. *)
Fixpoint read_entry (fuel : nat) (idx : Z) (l : loader) : ending * loader :=
  match fuel with
  | O => (OutOfFuel, l)
  | S fuel' =>
      if datalen <? idx + 5 then (BadFormat, l)
      else
        match byte data idx with
        | None => (OutOfBounds, l)
        | Some chunk_type =>
            if chunk_type =? 0x01 then (Done, end_entry l)
            else
              match be32 data (idx + 1) with
              | None => (OutOfBounds, l)
              | Some chunk_size =>
                  let idx := idx + 5 in
                  if too_long idx chunk_size then (BadFormat, l)
                  else
                    match span data idx chunk_size with
                    | None => (OutOfBounds, l)
                    | Some d => read_entry fuel' (idx + chunk_size) (note_field chunk_type d l)
                    end
              end
        end
  end.

(** The loop over the messages, [left] of which remain from number [m] on. *)
Fixpoint read_entries (left : nat) (m offsets messages : Z) (l : loader) : ending * loader :=
  match left with
  | O => (Done, l)
  | S left' =>
      match be32 data (offsets + m * 8), be32 data (offsets + m * 8 + 4) with
      | Some _, Some offset =>
          let idx := offset + messages in
          if (datalen <? idx) || (datalen <? idx + 1) then (BadFormat, l)
          else
            match read_entry (S (length data)) idx l with
            | (Done, l') => read_entries left' (m + 1) offsets messages l'
            | r => r
            end
      | _, _ => (OutOfBounds, l)
      end
  end.

Definition start_loader (entries : gmap bytes bytes) : loader :=
  {| l_context := []; l_source := []; l_translation := []; l_entries := entries |}.

(** The file's contents into the entries; the entries inserted before a failure
    stay. *)
Definition load_qm (entries : gmap bytes bytes) : ending * gmap bytes bytes :=
  if (datalen <? 16) || negb (bool_decide (take 16 data = qm_magic)) then (BadFormat, entries)
  else
    match scan_chunks (S (length data)) 16 init_index with
    | (Done, x) =>
        if (offsets_idx x =? unset) || (messages_idx x =? unset) then (BadFormat, entries)
        else
          let '(e, l) := read_entries (Z.to_nat (num_messages x)) 0 (offsets_idx x) (messages_idx x)
                           (start_loader entries) in
          (e, l_entries l)
    | (e, _) => (e, entries)
    end.
End Parser.

(** ** Finding the file *)

(** The file system, as far as the loader sees it: a path may not exist, or its
    file may fail to load; and the files built into the program. *)
Record storage := {
  disk : string -> option (option bytes);
  embedded : string -> option bytes
}.

(** One attempt: the directory first, then the built-in files.  [None] is a
    [return -1] on a file that exists but cannot be loaded. *)
Definition find_file (st : storage) (directory base language : string) : option (option bytes) :=
  let file := (base ++ "_" ++ language ++ ".qm")%string in
  match disk st (directory ++ "/" ++ file) with
  | Some (Some contents) => Some (Some contents)
  | Some None => None
  | None => Some (embedded st file)
  end.

Definition has_underscore (s : string) : bool := negb (no_char "_" s).

(** The contents for a language, or for the part before its underscore. *)
Definition find_catalogue (st : storage) (directory base language : string) : option bytes :=
  match find_file st directory base language with
  | None => None
  | Some (Some contents) => Some contents
  | Some None =>
      if has_underscore language
      then default None (find_file st directory base (before "_" language))
      else None
  end.

Definition i18n_set_language (st : storage) (directory base language : string)
    (LANG LC_ALL : option string) (entries : gmap bytes bytes) : ending * gmap bytes bytes :=
  let language := if String.eqb language "" then i18n_get_language LANG LC_ALL else language in
  match find_catalogue st directory base language with
  | None => (BadFormat, entries)
  | Some contents => load_qm contents entries
  end.

(** ** Lookup *)

(** What a C string shows of a sequence of bytes: those before the first zero. *)
Fixpoint c_str (l : bytes) : bytes :=
  match l with
  | [] => []
  | b :: l' => if b =? 0 then [] else b :: c_str l'
  end.

(** The message [s] comes, and the translation goes, as a C string. *)
Definition i18n_translate (entries : gmap bytes bytes) (s context : bytes) : bytes :=
  let s := c_str s in
  match entries !! entry_key context s with
  | None => s
  | Some translation => c_str translation
  end.
