(* ===== verification/I18nFacts.v ===== *)
(** * Properties of the catalogue loader *)

From Stdlib Require Import ZArith Lia String Ascii List Bool.
From stdpp Require Import base list gmap strings decidable option.
From S2P Require Import Prelude JsString I18n.

Local Open Scope Z_scope.

(** ** The loader stays inside the file and ends *)

Definition is_byte (b : Z) : Prop := 0 <= b < 256.

Section Safe.
Variable data : bytes.
Hypothesis data_bytes : Forall is_byte data.

Lemma byte_in i : 0 <= i < datalen data -> exists b, byte data i = Some b /\ is_byte b.
Proof.
  unfold datalen, byte. intros Hi.
  destruct (lookup_lt_is_Some_2 data (Z.to_nat i)) as [b Hb]; [lia|].
  exists b. split; [done|]. by eapply Forall_lookup_1.
Qed.

Lemma be32_in i : 0 <= i -> i + 4 <= datalen data -> exists n, be32 data i = Some n /\ 0 <= n.
Proof.
  intros Hi Hl. unfold be32.
  destruct (byte_in i) as (a & -> & Ha); [lia|]. destruct (byte_in (i + 1)) as (b & -> & Hb); [lia|].
  destruct (byte_in (i + 2)) as (c & -> & Hc); [lia|]. destruct (byte_in (i + 3)) as (d & -> & Hd); [lia|].
  simpl. eexists. split; [done|]. unfold is_byte in *.
  rewrite !Z.lor_nonneg, !Z.shiftl_nonneg. lia.
Qed.

Definition safe (e : ending) : Prop := e = Done \/ e = BadFormat.

(** The offsets chunk lies within the file. *)
Definition index_ok (x : index) : Prop :=
  0 <= offsets_idx x /\ 0 <= num_messages x /\ 0 <= messages_idx x /\
  (offsets_idx x <> unset -> offsets_idx x + 8 * num_messages x <= datalen data).

Lemma note_chunk_ok t idx size x :
  0 <= idx -> 0 <= size -> idx + size <= datalen data -> index_ok x -> index_ok (note_chunk t idx size x).
Proof.
  intros Hi H0 Hs (Ho & Hn & Hm & Hin). unfold note_chunk, to_uint32.
  pose proof (Z.mod_pos_bound idx (2 ^ 32) ltac:(lia)). pose proof (Z.mod_le idx (2 ^ 32) Hi ltac:(lia)).
  pose proof (Z.mul_div_le size 8 ltac:(lia)). pose proof (Z.div_pos size 8 H0 ltac:(lia)).
  destruct (t =? 0x42); [|destruct (t =? 0x69)]; split_and!; simpl; try done; lia.
Qed.

Lemma too_long_false idx size : too_long data idx size = false -> idx + size <= datalen data.
Proof. unfold too_long. rewrite orb_false_iff, Z.leb_gt, Z.ltb_ge. lia. Qed.

Lemma scan_chunks_safe fuel idx x :
  0 <= idx -> datalen data - idx < Z.of_nat fuel -> (0 < fuel)%nat -> index_ok x ->
  safe (fst (scan_chunks data fuel idx x)) /\ index_ok (snd (scan_chunks data fuel idx x)).
Proof.
  revert idx x. induction fuel as [|fuel IH]; intros idx x Hi Hf Hpos Hx; [lia|]. cbn [scan_chunks].
  destruct (Z.ltb_spec idx (datalen data)); [|by split; [left|]].
  destruct (Z.ltb_spec (datalen data) (idx + 5)); [by split; [right|]|].
  destruct (byte_in idx) as (t & -> & _); [lia|].
  destruct (be32_in (idx + 1)) as (n & -> & Hn); [lia..|].
  destruct (too_long data (idx + 5) n) eqn:E; [by split; [right|]|]. apply too_long_false in E.
  apply IH; [lia..|]. apply note_chunk_ok; [lia..|done].
Qed.

Lemma read_entry_safe fuel idx l :
  0 <= idx -> datalen data - idx < Z.of_nat fuel -> (0 < fuel)%nat -> safe (fst (read_entry data fuel idx l)).
Proof.
  revert idx l. induction fuel as [|fuel IH]; intros idx l Hi Hf Hpos; [lia|]. cbn [read_entry].
  destruct (Z.ltb_spec (datalen data) (idx + 5)); [by right|].
  destruct (byte_in idx) as (t & -> & _); [lia|]. destruct (t =? 1); [by left|].
  destruct (be32_in (idx + 1)) as (n & -> & Hn); [lia..|].
  destruct (too_long data (idx + 5) n) eqn:E; [by right|]. apply too_long_false in E.
  unfold span. fold (datalen data). destruct (Z.leb_spec (idx + 5 + n) (datalen data)); [|lia].
  apply IH; lia.
Qed.

Lemma read_entries_safe left m o ms l :
  0 <= m -> 0 <= o -> 0 <= ms -> o + 8 * (m + Z.of_nat left) <= datalen data ->
  safe (fst (read_entries data left m o ms l)).
Proof.
  revert m l. induction left as [|left IH]; intros m l Hm Ho Hms Hl; [by left|]. cbn [read_entries].
  destruct (be32_in (o + m * 8)) as (n & -> & _); [lia..|].
  destruct (be32_in (o + m * 8 + 4)) as (off & -> & Hoff); [lia..|].
  destruct (Z.ltb_spec (datalen data) (off + ms)); [by right|].
  destruct (Z.ltb_spec (datalen data) (off + ms + 1)); [by right|]. simpl orb. cbv iota.
  pose proof (read_entry_safe (S (length data)) (off + ms) l) as Hs.
  destruct (read_entry _ _ _ _) as [[] l']; simpl in Hs.
  - apply IH; lia.
  - by right.
  - destruct Hs as [|]; [lia|unfold datalen; lia|lia|done..].
  - destruct Hs as [|]; [lia|unfold datalen; lia|lia|done..].
Qed.
End Safe.

(** C7: Whatever file it is given, the loader ends, and reads nothing outside the file:
    it either succeeds or reports a bad format. *)
Theorem load_qm_safe (data : bytes) (entries : gmap bytes bytes) :
  Forall is_byte data -> safe (fst (load_qm data entries)).
Proof.
  intros Hd. unfold load_qm. destruct (_ || _); [by right|].
  destruct (scan_chunks_safe data Hd (S (length data)) 16 init_index)
    as [Hs (Ho & Hn & Hm & Hin)]; [lia|unfold datalen; lia|lia|done|].
  destruct (scan_chunks _ _ _ _) as [e x]. simpl in *.
  destruct Hs as [-> | ->]; [|by right].
  destruct (Z.eqb_spec (offsets_idx x) unset) as [|Hne]; [by right|].
  destruct (messages_idx x =? unset); [by right|]. cbn [orb]. specialize (Hin Hne).
  pose proof (read_entries_safe data Hd (Z.to_nat (num_messages x)) 0 (offsets_idx x) (messages_idx x)
    (start_loader entries)) as Hr.
  destruct (read_entries _ _ _ _ _ _) as [e l]. simpl in *. apply Hr; lia.
Qed.

(** ** UTF-16 to UTF-8 *)

(** The Unicode encodings, by arithmetic. *)
Definition units16 (u : Z) : bytes := [u / 256; u mod 256].

Definition encode16 (cp : Z) : bytes :=
  if cp <? 0x10000 then units16 cp
  else units16 (0xd800 + (cp - 0x10000) / 1024) ++ units16 (0xdc00 + (cp - 0x10000) mod 1024).

Definition encode8 (cp : Z) : bytes :=
  if cp <? 0x80 then [cp]
  else if cp <? 0x800 then [0xc0 + cp / 64; 0x80 + cp mod 64]
  else if cp <? 0x10000 then [0xe0 + cp / 4096; 0x80 + cp / 64 mod 64; 0x80 + cp mod 64]
  else [0xf0 + cp / 262144; 0x80 + cp / 4096 mod 64; 0x80 + cp / 64 mod 64; 0x80 + cp mod 64].

Lemma lor_high k n x : 0 <= n -> 0 <= x < 2 ^ n -> Z.lor (k * 2 ^ n) x = k * 2 ^ n + x.
Proof.
  intros Hn Hx.
  assert (Hland : Z.land (k * 2 ^ n) x = 0).
  { apply Z.bits_inj'. intros i Hi. rewrite Z.land_spec, Z.bits_0.
    destruct (Z.lt_ge_cases i n).
    - by rewrite Z.mul_pow2_bits_low.
    - rewrite <- (Z.mod_small x (2 ^ n)) by lia. rewrite Z.mod_pow2_bits_high by lia. by rewrite andb_false_r. }
  rewrite Z.add_nocarry_lxor by done. by rewrite Z.lxor_lor.
Qed.

Lemma low6 k c : Z.lor (k * 2 ^ 6) (Z.land c 0x3f) = k * 2 ^ 6 + c mod 64.
Proof.
  change 0x3f with (Z.ones 6). rewrite Z.land_ones by lia.
  apply lor_high; [lia|]. apply Z.mod_pos_bound. lia.
Qed.

Lemma put_code_encode8 cp : 0 <= cp < 2 ^ 21 -> put_code cp = encode8 cp.
Proof.
  intros Hcp. unfold put_code, encode8. change 0x80 with (2 * 2 ^ 6). rewrite !low6.
  change 0xc0 with (6 * 2 ^ 5). change 0xe0 with (14 * 2 ^ 4). change 0xf0 with (30 * 2 ^ 3).
  rewrite !Z.shiftr_div_pow2 by lia.
  change (2 ^ 6) with 64. change (2 ^ 12) with 4096. change (2 ^ 18) with 262144.
  pose proof (Z.mod_pos_bound cp 64 ltac:(lia)). pose proof (Z.mod_pos_bound (cp / 64) 64 ltac:(lia)).
  pose proof (Z.mod_pos_bound (cp / 4096) 64 ltac:(lia)).
  destruct (Z.leb_spec cp 0x7f), (Z.ltb_spec cp (2 * 64)); try lia; [by rewrite Z.mod_small by lia|].
  destruct (Z.leb_spec cp 0x7ff), (Z.ltb_spec cp 0x800); try lia.
  { assert (0 <= cp / 64 < 32) by (split; [apply Z.div_pos|apply Z.div_lt_upper_bound]; lia).
    rewrite lor_high, !Z.mod_small by lia. done. }
  destruct (Z.leb_spec cp 0xffff), (Z.ltb_spec cp 0x10000); try lia.
  - assert (0 <= cp / 4096 < 16) by (split; [apply Z.div_pos|apply Z.div_lt_upper_bound]; lia).
    rewrite lor_high, !(Z.mod_small _ 256) by lia. done.
  - assert (0 <= cp / 262144 < 8) by (split; [apply Z.div_pos|apply Z.div_lt_upper_bound]; lia).
    rewrite lor_high, !(Z.mod_small _ 256) by lia. done.
Qed.

Lemma unit16_units u : 0 <= u < 0x10000 -> unit16 (u / 256) (u mod 256) = u.
Proof.
  intros Hu. unfold unit16. rewrite Z.shiftl_mul_pow2 by lia. pose proof (Z.mod_pos_bound u 256 ltac:(lia)).
  rewrite lor_high by lia. change (2 ^ 8) with 256. pose proof (Z.div_mod u 256). lia.
Qed.

(** A character of the basic multilingual plane. *)
Definition is_bmp (cp : Z) : Prop := 0 <= cp < 0x10000 /\ ~ (0xd800 <= cp <= 0xdfff).

Lemma utf16_cons cp rest :
  is_bmp cp ->
  (forall n0 n1 r, rest = n0 :: n1 :: r -> ~ (0xdc00 <= unit16 n0 n1 <= 0xdfff)) ->
  utf16 (units16 cp ++ rest) = encode8 cp ++ utf16 rest.
Proof.
  intros [Hcp Hs] Hrest. unfold units16. cbn [app utf16]. rewrite unit16_units by done.
  rewrite <- put_code_encode8 by lia.
  destruct rest as [|n0 [|n1 r]]; [done..|].
  specialize (Hrest n0 n1 r eq_refl). destruct (_ && _); [|done].
  destruct (Z.leb_spec 0xdc00 (unit16 n0 n1)), (Z.leb_spec (unit16 n0 n1) 0xdfff); try lia; done.
Qed.

Lemma utf16_text (text : list Z) :
  Forall is_bmp text -> utf16 (concat (map encode16 text)) = concat (map encode8 text).
Proof.
  induction 1 as [|cp text Hcp Htext IH]; [done|]. cbn [map concat]. rewrite <- IH.
  unfold encode16 at 1. destruct (Z.ltb_spec cp 0x10000); [|destruct Hcp; lia].
  apply utf16_cons; [done|]. intros n0 n1 r E.
  destruct Htext as [|cp' text' [Hb Hn] _]; [done|]. cbn [map concat] in E. unfold encode16 in E.
  destruct (Z.ltb_spec cp' 0x10000); [|lia]. unfold units16 in E. cbn [app] in E.
  injection E as <- <- _. rewrite unit16_units by done. lia.
Qed.

(** C25: Text of the basic multilingual plane is converted to UTF-8 exactly. *)
Theorem utf16_bmp (text : list Z) :
  Forall is_bmp text -> utf16 (concat (map encode16 text)) = concat (map encode8 text).
Proof. apply utf16_text. Qed.

Lemma utf16_bmp_witness : utf16 (concat (map encode16 [0xe9; 0x20ac])) = [0xc3; 0xa9; 0xe2; 0x82; 0xac].
Proof.
  rewrite (utf16_bmp [0xe9; 0x20ac]); [reflexivity|].
  repeat (constructor; [split; lia|]). constructor.
Defined.

(** C30: No character outside the basic multilingual plane is converted to its UTF-8:
    the constant that recombines the surrogates is off by 0x1e000. *)
Theorem utf16_supplementary_wrong (cp : Z) :
  0x10000 <= cp < 0x110000 -> utf16 (encode16 cp) <> encode8 cp.
Proof.
  intros Hcp. set (v := cp - 0x10000).
  assert (Hv : 0 <= v / 1024 < 1024) by (split; [apply Z.div_pos|apply Z.div_lt_upper_bound]; lia).
  pose proof (Z.mod_pos_bound v 1024 ltac:(lia)). pose proof (Z.div_mod v 1024 ltac:(lia)).
  assert (E : utf16 (encode16 cp) = encode8 (cp + 0x1e000)).
  { unfold encode16. destruct (Z.ltb_spec cp 0x10000); [lia|]. fold v. unfold units16. cbn [app utf16].
    rewrite !unit16_units by lia.
    destruct (Z.leb_spec 0xd800 (0xd800 + v / 1024)), (Z.leb_spec (0xd800 + v / 1024) 0xdbfff); try lia.
    destruct (Z.leb_spec 0xdc00 (0xdc00 + v mod 1024)), (Z.leb_spec (0xdc00 + v mod 1024) 0xdfff); try lia.
    cbn [andb]. rewrite app_nil_r, Z.shiftl_mul_pow2 by lia.
    rewrite Z.mod_small by lia. rewrite put_code_encode8 by lia. f_equal. lia. }
  rewrite E. unfold encode8.
  destruct (Z.ltb_spec (cp + 0x1e000) 0x80), (Z.ltb_spec cp 0x80); try lia.
  destruct (Z.ltb_spec (cp + 0x1e000) 0x800), (Z.ltb_spec cp 0x800); try lia.
  destruct (Z.ltb_spec (cp + 0x1e000) 0x10000), (Z.ltb_spec cp 0x10000); try lia.
  intros Heq. injection Heq as _ Hbyte _ _.
  assert (Hmod : (cp + 0x1e000) / 4096 mod 64 = cp / 4096 mod 64) by lia.
  replace (cp + 0x1e000) with (cp + 30 * 4096) in Hmod by lia. rewrite Z.div_add in Hmod by lia.
  pose proof (Z.div_mod (cp / 4096) 64 ltac:(lia)). pose proof (Z.div_mod (cp / 4096 + 30) 64 ltac:(lia)). lia.
Qed.

Lemma utf16_supplementary_wrong_witness : utf16 (encode16 0x1f600) <> [0xf0; 0x9f; 0x98; 0x80].
Proof. apply (utf16_supplementary_wrong 0x1f600). lia. Defined.

(** ** C strings *)

Lemma c_str_whole l : Forall (fun b => b <> 0) l -> c_str l = l.
Proof. induction 1 as [|b l Hb _ IH]; [done|]. simpl. destruct (Z.eqb_spec b 0); [done|]. by rewrite IH. Qed.

Lemma encode8_no_zero cp : 0 < cp < 0x110000 -> Forall (fun b => b <> 0) (encode8 cp).
Proof.
  intros Hcp. unfold encode8.
  pose proof (Z.mod_pos_bound cp 64 ltac:(lia)). pose proof (Z.mod_pos_bound (cp / 64) 64 ltac:(lia)).
  pose proof (Z.mod_pos_bound (cp / 4096) 64 ltac:(lia)).
  pose proof (Z.div_pos cp 64 ltac:(lia) ltac:(lia)). pose proof (Z.div_pos cp 4096 ltac:(lia) ltac:(lia)).
  pose proof (Z.div_pos cp 262144 ltac:(lia) ltac:(lia)).
  destruct (cp <? 0x80); [|destruct (cp <? 0x800); [|destruct (cp <? 0x10000)]];
    repeat (constructor; [lia|]); constructor.
Qed.

(** The UTF-8 of a text without the null character has no zero byte. *)
Lemma c_str_text text :
  Forall is_bmp text -> Forall (fun cp => cp <> 0) text ->
  c_str (concat (map encode8 text)) = concat (map encode8 text).
Proof.
  intros Hb Hz. apply c_str_whole. induction Hb as [|cp text [Hcp _] _ IH]; [constructor|].
  inversion Hz; subst. cbn [map concat]. apply Forall_app. split; [apply encode8_no_zero; lia|auto].
Qed.

(** ** The language names a file of the directory *)

(** A character of a language: a small letter, an underscore or a hyphen. *)
Definition plain_char (c : ascii) : bool :=
  (97 <=? code c) && (code c <=? 122) || Ascii.eqb c "_" || Ascii.eqb c "-".

Lemma string_forall_before (f : ascii -> bool) c s :
  string_forall f s = true -> string_forall f (before c s) = true.
Proof.
  induction s as [|a s IH]; [done|]. simpl. rewrite andb_true_iff. intros [Ha Hs].
  destruct (Ascii.eqb a c); [done|]. simpl. by rewrite Ha, IH.
Qed.

Lemma before_no_char c s : no_char c (before c s) = true.
Proof.
  unfold no_char. induction s as [|a s IH]; [done|]. simpl.
  destruct (Ascii.eqb a c) eqn:E; [done|]. simpl. by rewrite E, IH.
Qed.

Lemma lower_plain c :
  language_char c = true -> Ascii.eqb c "." = false -> Ascii.eqb c "@" = false -> plain_char (tolower c) = true.
Proof. destruct c as [[] [] [] [] [] [] [] []]; vm_compute; congruence. Qed.


(** A file that ends inside a chunk. *)
Lemma load_qm_safe_witness : safe (fst (load_qm (qm_magic ++ [0x42; 0; 0; 0; 99]) ∅)).
Proof. apply load_qm_safe. repeat (constructor; [unfold is_byte; lia|]). constructor. Defined.
