(* ===== verification/I18nRoundTrip.v ===== *)
(** * Loading a compiled catalogue

    The layout that the comment in i18n.cpp documents, written as an encoder,
    and that the loader recovers from it the entries that were encoded. *)

From Stdlib Require Import ZArith Lia String Ascii List Bool.
From stdpp Require Import base list gmap strings decidable option.
From S2P Require Import Prelude JsString I18n I18nFacts.

Local Open Scope Z_scope.

(** ** The layout *)

Definition enc32 (n : Z) : bytes := [n / 16777216; n / 65536 mod 256; n / 256 mod 256; n mod 256].

Definition len (l : bytes) : Z := Z.of_nat (length l).

(** A type, a length and that many bytes. *)
Definition field (t : Z) (d : bytes) : bytes := t :: enc32 (len d) ++ d.

(** An entry: the text as characters, the source and the context as bytes. *)
Record qm_entry := { q_context : bytes; q_source : bytes; q_text : list Z }.

Definition entry_bytes (e : qm_entry) : bytes :=
  field 0x03 (concat (map encode16 (q_text e))) ++ field 0x06 (q_source e) ++ field 0x07 (q_context e) ++ [0x01].

Definition messages_bytes (es : list qm_entry) : bytes := concat (map entry_bytes es).

(** The offsets: a hash, which the loader ignores, and where the entry starts. *)
Fixpoint offsets_bytes (hash : qm_entry -> Z) (pos : Z) (es : list qm_entry) : bytes :=
  match es with
  | [] => []
  | e :: es' => enc32 (hash e) ++ enc32 pos ++ offsets_bytes hash (pos + len (entry_bytes e)) es'
  end.

(** The file: the magic, the offsets, the messages and a last chunk of a type
    the loader skips. *)
Definition qm_file (hash : qm_entry -> Z) (es : list qm_entry) (last : bytes) : bytes :=
  qm_magic ++ field 0x42 (offsets_bytes hash 0 es) ++ field 0x69 (messages_bytes es) ++ field 0x88 last.

(** ** Reading what was written *)

(** [l] is in the file at position [i]. *)
Definition at_pos (data : bytes) (i : Z) (l : bytes) : Prop :=
  exists pre post, data = pre ++ l ++ post /\ len pre = i.

Lemma len_app l1 l2 : len (l1 ++ l2) = len l1 + len l2.
Proof. unfold len. rewrite length_app. lia. Qed.

Lemma len_cons x l : len (x :: l) = 1 + len l.
Proof. unfold len. simpl length. lia. Qed.

Lemma len_nonneg l : 0 <= len l.
Proof. unfold len. lia. Qed.

Lemma at_pos_app data i l1 l2 : at_pos data i (l1 ++ l2) -> at_pos data i l1 /\ at_pos data (i + len l1) l2.
Proof.
  intros (pre & post & -> & Hi). split.
  - exists pre, (l2 ++ post). by rewrite <- app_assoc.
  - exists (pre ++ l1), post. rewrite len_app, Hi, <- !app_assoc. done.
Qed.

Lemma at_pos_bound data i l : at_pos data i l -> 0 <= i /\ i + len l <= datalen data.
Proof.
  intros (pre & post & -> & Hi). unfold datalen. fold (len (pre ++ l ++ post)). rewrite !len_app.
  pose proof (len_nonneg pre). pose proof (len_nonneg post). lia.
Qed.

Lemma byte_at data i b l : at_pos data i (b :: l) -> byte data i = Some b.
Proof.
  intros (pre & post & -> & Hi). unfold byte. rewrite lookup_app_r by (unfold len in *; lia).
  replace (Z.to_nat i - length pre)%nat with O by (unfold len in *; lia). done.
Qed.

Lemma at_pos_tail data i b l : at_pos data i (b :: l) -> at_pos data (i + 1) l.
Proof. intros H. apply (at_pos_app data i [b] l) in H as [_ H]. exact H. Qed.

(** The four bytes of a word, put together again. *)
Lemma word32_bytes n :
  0 <= n < 2 ^ 32 ->
  Z.lor (Z.lor (Z.lor (Z.shiftl (n / 16777216) 24) (Z.shiftl (n / 65536 mod 256) 16))
    (Z.shiftl (n / 256 mod 256) 8)) (n mod 256) = n.
Proof.
  intros Hn. rewrite !Z.shiftl_mul_pow2 by lia.
  assert (H1 : forall x, 0 <= x mod 256 < 256) by (intros x; apply Z.mod_pos_bound; lia).
  pose proof (H1 (n / 65536)). pose proof (H1 (n / 256)). pose proof (H1 n).
  rewrite (lor_high (n / 16777216) 24) by lia.
  replace (n / 16777216 * 2 ^ 24 + n / 65536 mod 256 * 2 ^ 16)
    with ((n / 16777216 * 256 + n / 65536 mod 256) * 2 ^ 16) by lia.
  rewrite lor_high by lia.
  replace ((n / 16777216 * 256 + n / 65536 mod 256) * 2 ^ 16 + n / 256 mod 256 * 2 ^ 8)
    with (((n / 16777216 * 256 + n / 65536 mod 256) * 256 + n / 256 mod 256) * 2 ^ 8) by lia.
  rewrite lor_high by lia.
  replace 16777216 with (256 * 256 * 256) by lia. replace 65536 with (256 * 256) by lia.
  rewrite <- !Z.div_div by lia.
  pose proof (Z.div_mod n 256). pose proof (Z.div_mod (n / 256) 256). pose proof (Z.div_mod (n / 256 / 256) 256).
  lia.
Qed.

Lemma be32_at data i n l : 0 <= n < 2 ^ 32 -> at_pos data i (enc32 n ++ l) -> be32 data i = Some n.
Proof.
  intros Hn H. unfold enc32 in H. cbn [app] in H. unfold be32.
  rewrite (byte_at _ _ _ _ H). apply at_pos_tail in H. simpl.
  rewrite (byte_at _ _ _ _ H). apply at_pos_tail in H. replace (i + 1 + 1) with (i + 2) in H by lia. simpl.
  rewrite (byte_at _ _ _ _ H). apply at_pos_tail in H. replace (i + 2 + 1) with (i + 3) in H by lia. simpl.
  rewrite (byte_at _ _ _ _ H). simpl. f_equal. by apply word32_bytes.
Qed.

Lemma span_at data i d l : at_pos data i (d ++ l) -> span data i (len d) = Some d.
Proof.
  intros H. apply at_pos_app in H as [H _]. pose proof (at_pos_bound _ _ _ H) as [Hi Hb].
  unfold span. fold (datalen data). destruct (Z.leb_spec (i + len d) (datalen data)); [|lia].
  destruct H as (pre & post & -> & Hp). unfold len in *.
  rewrite drop_app_length' by lia. by rewrite take_app_length' by lia.
Qed.

(** What a sequence of entries adds to the map. *)
Definition add_entry (m : gmap bytes bytes) (e : qm_entry) : gmap bytes bytes :=
  <[entry_key (q_context e) (q_source e) := concat (map encode8 (q_text e))]> m.

Lemma len_field t d : len (field t d) = 5 + len d.
Proof. unfold field. rewrite len_cons, len_app. change (len (enc32 (len d))) with 4. lia. Qed.

Lemma payload_at data i t d l : at_pos data i (field t d ++ l) -> at_pos data (i + 5) d.
Proof.
  intros H. unfold field in H. cbn [app] in H. apply at_pos_tail in H. rewrite <- app_assoc in H.
  apply at_pos_app in H as [_ H]. change (len (enc32 (len d))) with 4 in H.
  replace (i + 1 + 4) with (i + 5) in H by lia. by apply at_pos_app in H as [H _].
Qed.

Section Reading.
Variable data : bytes.
Hypothesis small : datalen data < 2 ^ 32.

Lemma field_at i t d l :
  at_pos data i (field t d ++ l) ->
  byte data i = Some t /\ be32 data (i + 1) = Some (len d) /\ too_long data (i + 5) (len d) = false /\
  span data (i + 5) (len d) = Some d /\ at_pos data (i + 5 + len d) l /\ i + 5 + len d <= datalen data /\ 0 <= i.
Proof.
  intros H. pose proof (at_pos_app _ _ _ _ H) as [Hf Hl].
  pose proof (at_pos_bound _ _ _ Hf) as [Hi Hb]. rewrite len_field in Hb, Hl.
  pose proof (len_nonneg d) as Hd. unfold field in H. cbn [app] in H.
  pose proof (at_pos_tail _ _ _ _ H) as H1. rewrite <- app_assoc in H1.
  pose proof (at_pos_app _ _ _ _ H1) as [_ H2]. change (len (enc32 (len d))) with 4 in H2.
  replace (i + 1 + 4) with (i + 5) in H2 by lia.
  split_and!; [by eapply byte_at|eapply be32_at; [|done]; lia| |by eapply span_at
    |by replace (i + 5 + len d) with (i + (5 + len d)) by lia|lia|done].
  unfold too_long. apply orb_false_iff. rewrite Z.leb_gt, Z.ltb_ge. lia.
Qed.

Lemma read_field fuel i t d rest l :
  t <> 1 -> at_pos data i (field t d ++ rest) ->
  read_entry data (S fuel) i l = read_entry data fuel (i + 5 + len d) (note_field t d l) /\
  at_pos data (i + 5 + len d) rest.
Proof.
  intros Ht H. destruct (field_at _ _ _ _ H) as (Hb & Hn & Hl & Hs & Hrest & Hend & _).
  split; [|done]. pose proof (len_nonneg d). cbn [read_entry].
  destruct (Z.ltb_spec (datalen data) (i + 5)); [lia|]. rewrite Hb.
  destruct (Z.eqb_spec t 1); [done|]. by rewrite Hn, Hl, Hs.
Qed.

Lemma read_entry_encoded fuel i e l :
  Forall is_bmp (q_text e) -> at_pos data i (entry_bytes e) -> i + len (entry_bytes e) + 4 <= datalen data ->
  read_entry data (S (S (S (S fuel)))) i l = (Done, start_loader (add_entry (l_entries l) e)).
Proof.
  intros Hbmp H Hroom. unfold entry_bytes in *. rewrite !len_app, !len_field in Hroom.
  edestruct (read_field (S (S (S fuel)))) as [-> H1]; [|exact H|]; [done|].
  edestruct (read_field (S (S fuel))) as [-> H2]; [|exact H1|]; [done|].
  edestruct (read_field (S fuel)) as [-> H3]; [|exact H2|]; [done|].
  change (len [1]) with 1 in Hroom. cbn [read_entry].
  match goal with |- context [Z.ltb ?x ?y] => destruct (Z.ltb_spec x y); [lia|] end.
  rewrite (byte_at _ _ _ _ H3). cbn. unfold end_entry, start_loader, add_entry. cbn.
  by rewrite utf16_text.
Qed.

Lemma at_enc32 i n l : 0 <= n < 2 ^ 32 -> at_pos data i (enc32 n ++ l) ->
  be32 data i = Some n /\ at_pos data (i + 4) l.
Proof. intros Hn H. split; [by eapply be32_at|]. by apply at_pos_app in H as [_ H]. Qed.

Lemma read_entries_encoded hash es m pos o ms entries :
  (4 <= length data)%nat -> Forall (fun e => Forall is_bmp (q_text e) /\ 0 <= hash e < 2 ^ 32) es ->
  0 <= pos -> at_pos data (o + m * 8) (offsets_bytes hash pos es) ->
  at_pos data (pos + ms) (messages_bytes es) -> 0 <= ms ->
  pos + ms + len (messages_bytes es) + 5 <= datalen data ->
  read_entries data (length es) m o ms (start_loader entries) =
  (Done, start_loader (foldl add_entry entries es)).
Proof.
  intros Hlen Hall. revert m pos entries.
  induction Hall as [|e es [He Hh] Hall IH]; intros m pos entries Hpos Ho Hm Hms Hroom; [done|].
  cbn [offsets_bytes messages_bytes map concat length read_entries foldl] in *.
  fold (messages_bytes es) in *. rewrite len_app in Hroom. pose proof (len_nonneg (messages_bytes es)).
  pose proof (len_nonneg (entry_bytes e)).
  apply at_enc32 in Ho as [-> Ho]; [|lia]. apply at_enc32 in Ho as [-> Ho]; [|lia].
  destruct (Z.ltb_spec (datalen data) (pos + ms)); [lia|].
  destruct (Z.ltb_spec (datalen data) (pos + ms + 1)); [lia|]. cbn [orb].
  apply at_pos_app in Hm as [Hm1 Hm2].
  destruct (length data) as [|[|[|[|n]]]] eqn:En; try lia.
  rewrite (read_entry_encoded _ _ e) by (done || lia).
  apply (IH (m + 1) (pos + len (entry_bytes e))); [lia| | |done|lia].
  - by replace (o + (m + 1) * 8) with (o + m * 8 + 4 + 4) by lia.
  - by replace (pos + len (entry_bytes e) + ms) with (pos + ms + len (entry_bytes e)) by lia.
Qed.

Lemma scan_field fuel i t d l x :
  at_pos data i (field t d ++ l) ->
  scan_chunks data (S fuel) i x = scan_chunks data fuel (i + 5 + len d) (note_chunk t (i + 5) (len d) x) /\
  at_pos data (i + 5 + len d) l.
Proof.
  intros H. destruct (field_at _ _ _ _ H) as (Hb & Hn & Hl & Hs & Hrest & Hend & Hi).
  split; [|done]. pose proof (len_nonneg d). cbn [scan_chunks].
  destruct (Z.ltb_spec i (datalen data)); [|lia]. destruct (Z.ltb_spec (datalen data) (i + 5)); [lia|].
  by rewrite Hb, Hn, Hl.
Qed.
End Reading.

Lemma len_offsets hash pos es : len (offsets_bytes hash pos es) = 8 * Z.of_nat (length es).
Proof.
  revert pos. induction es as [|e es IH]; intros pos; [done|]. cbn [offsets_bytes].
  rewrite !len_app, IH. change (len (enc32 (hash e))) with 4. change (len (enc32 pos)) with 4.
  cbn [length]. lia.
Qed.

Lemma load_qm_ok (hash : qm_entry -> Z) (es : list qm_entry) (last : bytes) (entries : gmap bytes bytes) :
  Forall (fun e => Forall is_bmp (q_text e) /\ 0 <= hash e < 2 ^ 32) es ->
  len (qm_file hash es last) < 2 ^ 32 ->
  load_qm (qm_file hash es last) entries = (Done, foldl add_entry entries es).
Proof.
  intros Hall Hsmall. set (data := qm_file hash es last) in *. change (datalen data < 2 ^ 32) in Hsmall.
  assert (H0 : at_pos data 16 (field 0x42 (offsets_bytes hash 0 es) ++ field 0x69 (messages_bytes es) ++ field 0x88 last ++ [])).
  { exists qm_magic, []. split; [|done]. rewrite !app_nil_r. done. }
  assert (Hlen : (16 <= length data)%nat) by (unfold data, qm_file; rewrite length_app; simpl; lia).
  unfold load_qm. destruct (Z.ltb_spec (datalen data) 16); [unfold datalen in *; lia|].
  rewrite bool_decide_true by done. cbn [orb negb].
  destruct (length data) as [|[|[|[|n]]]] eqn:En; try lia.
  edestruct (scan_field data Hsmall (S (S (S (S n))))) as [-> H1]; [exact H0|].
  edestruct (scan_field data Hsmall (S (S (S n)))) as [-> H2]; [exact H1|].
  edestruct (scan_field data Hsmall (S (S n))) as [-> H3]; [exact H2|].
  assert (Hend : datalen data = 16 + 5 + len (offsets_bytes hash 0 es) + 5 + len (messages_bytes es) + 5 + len last).
  { change (datalen data) with (len data). unfold data, qm_file. rewrite !len_app, !len_field.
    change (len qm_magic) with 16. lia. }
  cbn [scan_chunks]. destruct (Z.ltb_spec (16 + 5 + len (offsets_bytes hash 0 es) + 5 + len (messages_bytes es) + 5 + len last)
    (datalen data)); [lia|].
  pose proof (len_nonneg last). pose proof (len_nonneg (offsets_bytes hash 0 es)).
  pose proof (len_nonneg (messages_bytes es)).
  cbn [note_chunk Z.eqb Pos.eqb offsets_idx messages_idx num_messages]. unfold to_uint32.
  rewrite !Z.mod_small by lia.
  match goal with |- context [Z.eqb ?x unset] => destruct (Z.eqb_spec x unset); [unfold unset in *; lia|] end.
  match goal with |- context [Z.eqb ?x unset] => destruct (Z.eqb_spec x unset); [unfold unset in *; lia|] end.
  cbn [orb].
  assert (Z.to_nat (len (offsets_bytes hash 0 es) / 8) = length es) as ->.
  { rewrite len_offsets, Z.mul_comm, Z.div_mul by lia. lia. }
  rewrite (read_entries_encoded data Hsmall hash es 0 0); [done|lia|done|lia| | |lia|lia].
  - apply payload_at in H0. done.
  - apply payload_at in H1. done.
Qed.

(** C6: Loading a compiled catalogue recovers its entries: for every list of entries with texts
    of the basic multilingual plane, the loader succeeds on their file and adds
    to the map exactly these entries, in order, with the texts in UTF-8. *)
Theorem load_qm_roundtrip (hash : qm_entry -> Z) (es : list qm_entry) (last : bytes) (entries : gmap bytes bytes) :
  Forall (fun e => Forall is_bmp (q_text e) /\ 0 <= hash e < 2 ^ 32) es ->
  len (qm_file hash es last) < 2 ^ 32 ->
  load_qm (qm_file hash es last) entries = (Done, foldl add_entry entries es).
Proof. apply load_qm_ok. Qed.

(** A catalogue of one entry, in a file. *)
Definition bonjour : qm_entry :=
  {| q_context := [119]; q_source := [104; 105]; q_text := [0x53; 0x61; 0x6c; 0x75; 0x74; 0xe9] |}.

Lemma load_qm_roundtrip_witness :
  load_qm (qm_file (fun _ => 7) [bonjour] [1; 2]) ∅ =
  (Done, {[ [119; 0; 104; 105] := [0x53; 0x61; 0x6c; 0x75; 0x74; 0xc3; 0xa9] ]}).
Proof.
  apply (load_qm_roundtrip (fun _ => 7) [bonjour] [1; 2] ∅); [|by vm_compute].
  constructor; [|constructor]. split; [|lia]. by repeat (constructor; [split; lia|]).
Defined.

(** ** Lookup after loading *)

Lemma add_entries_other es key m :
  Forall (fun e => entry_key (q_context e) (q_source e) <> key) es -> foldl add_entry m es !! key = m !! key.
Proof.
  intros Hall. revert m. induction Hall as [|e es He Hall IH]; intros m; [done|].
  cbn [foldl]. rewrite IH. unfold add_entry. by rewrite lookup_insert_ne.
Qed.

Lemma add_entries_found es e m :
  NoDup (map (fun e => entry_key (q_context e) (q_source e)) es) -> e ∈ es ->
  foldl add_entry m es !! entry_key (q_context e) (q_source e) = Some (concat (map encode8 (q_text e))).
Proof.
  intros Hnd. revert m. induction es as [|x es IH]; intros m He; [by inversion He|].
  cbn [map] in Hnd. inversion Hnd as [|? ? Hx Hnd']; subst. cbn [foldl].
  apply elem_of_cons in He as [->|He]; [|by apply IH].
  rewrite add_entries_other.
  - unfold add_entry. by rewrite lookup_insert_eq.
  - apply Forall_forall. intros y Hy E. apply Hx. rewrite <- E.
    apply list_elem_of_In. by apply (in_map (fun e => entry_key (q_context e) (q_source e))).
Qed.

(** An entry with texts that C strings can hold: a translation of the basic
    multilingual plane, and no null character in it or in the source. *)
Definition plain_entry (e : qm_entry) : Prop :=
  Forall is_bmp (q_text e) /\ Forall (fun cp => cp <> 0) (q_text e) /\ Forall (fun b => b <> 0) (q_source e).

(** C18: A user sees the texts of the compiled catalogue: when its keys are distinct, its
    texts are of the basic multilingual plane and neither texts nor sources hold
    a null character, loading its file succeeds and every entry's source, looked
    up in its context, gives the entry's text in UTF-8, while a message that is
    not in the catalogue is shown as it is. *)
Theorem translate_after_load (hash : qm_entry -> Z) (es : list qm_entry) (last : bytes) :
  Forall (fun e => plain_entry e /\ 0 <= hash e < 2 ^ 32) es ->
  len (qm_file hash es last) < 2 ^ 32 ->
  NoDup (map (fun e => entry_key (q_context e) (q_source e)) es) ->
  exists loaded, load_qm (qm_file hash es last) ∅ = (Done, loaded) /\
    (forall e, e ∈ es ->
       i18n_translate loaded (q_source e) (q_context e) = concat (map encode8 (q_text e))) /\
    (forall s context, Forall (fun b => b <> 0) s ->
       Forall (fun e => entry_key (q_context e) (q_source e) <> entry_key context s) es ->
       i18n_translate loaded s context = s).
Proof.
  intros Hall Hsmall Hnd. eexists. split.
  { apply load_qm_ok; [|done]. eapply Forall_impl; [|exact Hall]. by intros e [[Hb _] Hh]. }
  unfold i18n_translate. split.
  - intros e He. rewrite Forall_forall in Hall. destruct (Hall e (proj1 (list_elem_of_In _ _) He)) as [(Hb & Hz & Hs) _].
    by rewrite c_str_whole, add_entries_found, c_str_text.
  - intros s context Hs Hother. by rewrite c_str_whole, add_entries_other.
Qed.

Lemma translate_after_load_witness :
  exists loaded, load_qm (qm_file (fun _ => 7) [bonjour] [1; 2]) ∅ = (Done, loaded) /\
    i18n_translate loaded [104; 105] [119] = [0x53; 0x61; 0x6c; 0x75; 0x74; 0xc3; 0xa9] /\
    i18n_translate loaded [98; 121; 101] [119] = [98; 121; 101].
Proof.
  destruct (translate_after_load (fun _ => 7) [bonjour] [1; 2]) as (loaded & Hl & Hin & Hout).
  - constructor; [|constructor]. split; [split_and!|lia]; repeat (constructor; [first [done | split; lia]|]); constructor.
  - by vm_compute.
  - cbn [map]. constructor; [|constructor]. intros Hx. by inversion Hx.
  - exists loaded. split; [exact Hl|]. split; [exact (Hin bonjour ltac:(by left))|].
    apply Hout; [by repeat (constructor; [done|])|]. constructor; [done|constructor].
Defined.

(** ** The file of a regional language *)

Lemma before_app c a b : no_char c a = true -> before c (a ++ String c b) = a.
Proof.
  unfold no_char. induction a as [|x a IH]; simpl; [by rewrite Ascii.eqb_refl|].
  rewrite andb_true_iff, negb_true_iff. intros [-> Ha]. by rewrite IH.
Qed.

Lemma no_char_app c a b : no_char c (a ++ String c b) = false.
Proof.
  unfold no_char. induction a as [|x a IH]; simpl; [by rewrite Ascii.eqb_refl|].
  by rewrite IH, andb_false_r.
Qed.

(** C26: A regional language without a catalogue of its own gets the catalogue of its
    language: where neither the directory nor the built-in files have the
    catalogue of [a_b], the one of [a] is loaded. *)
Theorem set_language_fallback (st : storage) (directory base a b : string) (contents : bytes)
    (LANG LC_ALL : option string) (entries : gmap bytes bytes) :
  no_char "_" a = true ->
  find_file st directory base (a ++ String "_" b) = Some None ->
  find_file st directory base a = Some (Some contents) ->
  i18n_set_language st directory base (a ++ String "_" b) LANG LC_ALL entries = load_qm contents entries.
Proof.
  intros Ha Hab Hfile. unfold i18n_set_language, find_catalogue, has_underscore.
  assert (String.eqb (a ++ String "_" b) "" = false) as -> by (by destruct a).
  by rewrite Hab, no_char_app, before_app, Hfile by done.
Qed.

(** Only the French catalogue is built in. *)
Definition french_only : storage := {|
  disk := fun _ => None;
  embedded := fun f => if String.eqb f "monero_fr.qm" then Some (qm_file (fun _ => 7) [bonjour] []) else None
|}.

Lemma set_language_fallback_witness :
  i18n_set_language french_only "translations" "monero" "fr_ca" None None ∅ =
  load_qm (qm_file (fun _ => 7) [bonjour] []) ∅.
Proof. apply (set_language_fallback french_only "translations" "monero" "fr" "ca"); reflexivity. Defined.
